(* ===== verification/_CoqProject ===== *)
-Q . S2P
Prelude.v
GoLib.v
GoText.v
Runtime.v
Float64.v
FloatExact.v
Base64.v
Codec.v
NetIP.v
Dns.v
Zone.v
External.v
Cache.v
Snapshot.v
RateLog.v
Gate.v
HostsForward.v
IPQuality.v
IPPool.v
HotZone.v
Limiter.v
World.v
States.v
Upstream.v
Logic.v
StateMachine.v
Frame.v
Resolver.v
Policy.v
Iteration.v
Paths.v
Server.v
Service.v
Warmup.v
Trace.v
Config.v
Boot.v
Main.v
TuiMetrics.v
GoFormat.v
GoFields.v
CpuStat.v
DnsPerf.v
PerfRun.v
Prom.v
Metrics.v
Background.v
Dashboard.v
Details.v
Ui.v
App.v
Exposition.v
Observed.v
