(* ===== verification/Prelude.v ===== *)
(** * rec53: a verification library for the rec53 recursive DNS resolver

    rec53 (Go) answers DNS queries for local clients: from a static hosts table,
    from the servers of a forwarding zone, from its cache, or by iterating from the
    root servers.  It protects itself with a gate on concurrent upstream queries, a
    limiter of expensive requests per client and a hot-zone controller; it ranks
    upstream addresses by measured quality; it copies cache entries to an eBPF map
    and saves the cache to a snapshot file; and it comes with a terminal viewer of
    its metrics, rec53top, and a load generator, dnsperf.

    ** Parts, and where they are modelled

    Each file models one part; the definitions keep the names of the source.

    - [GoLib], [GoText], [GoFormat], [GoFields], [Float64], [FloatExact], [Base64],
      [NetIP]: what the source uses of Go's language and standard library (integer
      widths, strings, sorting, white space, number formatting, IEEE doubles and
      the integers they hold exactly, addresses).
    - [Dns], [External], [Codec], [Prom]: third-party packages as interfaces.
      [DnsLib] (miekg/dns), [GoCache] (go-cache), [EbpfMap] (cilium/ebpf) and [Prom]
      (the Prometheus client) are classes of operations with their documented laws,
      each with a reference instance (modules [RefDns], [RefCache], [RefEbpf],
      [RefProm]) that shows the laws can hold.
    - [Zone]: utils/zone.go, utils/root.go.  [Cache]: server/cache.go, xdp_sync.go,
      xdp_metrics.go.  [Snapshot]: server/snapshot.go.  [HostsForward]:
      hosts_config.go, forward_config.go, state_shared.go.
    - [RateLog], [Gate], [Limiter], [HotZone]: upstream_concurrency_gate.go,
      expensive_request_limiter.go, hot_zone_protection.go, tld_config.go.
      [CpuStat]: the reading of /proc/stat for the controller.
    - [IPQuality], [IPPool]: ip_pool_quality_v2.go, ip_pool.go.
    - [Background]: the goroutines beside the resolver: the probe loop of the pool
      with its shutdown, the loops of xdp_metrics.go, the start-up warm-up.
    - [World], [States], [Upstream], [StateMachine]: a resolution.  [World] is the
      state it runs in and the effects it has; [States] the handlers of state_*.go;
      [Upstream] state_query_upstream.go; [StateMachine] the loop of
      state_machine.go and the names of monitor/state_machine_transition.go.
    - [Server]: the request handler of server.go.  [Boot]: its constructors, [Run]
      and [Shutdown], and xdp_loader.go.  [Warmup]: warmup.go.  [Trace]:
      resolution_trace.go.
    - [Runtime]: monitor/runtime_state.go, diag.go and the readiness endpoint of
      metric.go.  [Config], [Main]: cmd/rec53.go, loglevel.go.
    - [Metrics]: the collectors of monitor/var.go and the methods of metric.go.
    - [TuiMetrics], [Dashboard], [Details], [Ui], [App]: tui/metrics.go and config.go;
      the panels and rankings of dashboard.go; its detail pages; the keys and texts
      of app.go and plain.go; their loops, and cmd/rec53top.
    - [DnsPerf], [PerfRun]: tools/dnsperf/main.go, its sequential parts and its
      pipeline of goroutines.
    - [Logic], [Frame], [Resolver], [Policy], [Iteration], [Paths], [Service]: no code
      of their own; the program logic, and what a resolution and a request achieve.
      [Exposition], [Observed]: likewise; they compose server and viewer, from the
      calls that count to what is on the screen.

    ** How the code is rendered

    A handler is a function of the monad [M World]: it passes a state and may panic
    (an index out of range, a nil dereference).  [World] holds what is shared
    between goroutines (cache, pool, gate, limiter, hosts), the request at hand and
    a log of observable actions.  The class [Env] supplies everything the program
    does not decide: clocks, the answers of servers, cancellation, which goroutine
    wins, and an arbitrary step of the other requests after every access to shared
    state ([Env] may rewrite [Shared] within its invariant).  The concurrency of one
    component alone (gate, limiter, warm-up, life cycle, diagnostics, probe loop, load
    generator, full-screen viewer) is a step relation whose steps are the locked
    regions or channel operations (for the limiter, where noted, several at once), so
    its theorems range over all interleavings of these steps.
    Integers are [Z] with the wrap-around of their width written out where the code
    can reach it; floats are IEEE binary64 values.

    ** What the theorems show

    - Safety of a whole resolution and of a request ([Resolver], [Server]): no
      panic, at most 50 iterations, a well-formed reply under the client's id and
      question or one of three errors, every gate slot given back, the client's slot
      freed.  The proofs use the weakest-precondition calculus of [Logic] and the
      per-step relations of [Frame], which also bounds the transitions reported by a
      table of edges.
    - The transitions of the state machine ([Paths]): the table is exact, each of its
      edges being taken by some resolution, and it is compared with the pipeline of
      docs/architecture.md, whose last arrow is never taken.
    - Iterative resolution delivers the answer ([Iteration], and [Service] for the
      client): when the servers from the root to the zones of a name and of its
      aliases are silent, lame or tell the truth, and the cache does not contradict
      them, the client receives exactly the aliases and the records, or that there
      are none, or an error that is explained by the gate, the limiter, the context
      or a silent or lame server.
    - What a resolution touches ([Policy]): hosts answers and fresh cached answers
      use no network, a forwarding zone uses its upstreams only, and a cached
      negative answer is stored again at every hit.
    - Invariants under interleaving: slots of the gate and of the limiter, windows of
      the hot-zone controller, confirmed refusals, readiness, warm-up accounting (every
      run of the warm-up ends), the end of the probe loop.
    - Round trips and lifetimes of the cache, its kernel copy and its snapshots.
    - Equivalence with reference definitions: longest-suffix matching, order
      statistics over a ring buffer, rankings of the dashboard, what truncation keeps.
    - Configuration and life cycle: what passes validation is usable; nothing starts
      without a valid configuration; every request is answered; what is started is
      stopped, but for a listener that starts after it was told to stop, for which the
      process waits forever.
    - Metrics: every call fits the collector it writes to and none panics; a scrape
      shows exactly what was counted; the transitions on the screen are transitions
      of the state machine.
    - The viewer: the dominant path is a path; what is displayed after any sequence
      of scrapes; no key sequence makes it fail or lose its place; its goroutines
      show what a sequential viewer would.
    - The load generator: no deadlock, every query counted once, exact reports.

    Where a theorem shows behaviour that differs from a comment or document it says
    what the code does.

    ** Bounds and fuel

    The source's own bounds are kept: 50 iterations ([MaxIterations]), 128 trace
    states, 64 latency samples, 12 path steps, 16 dashboards of history.  Fuel is
    used where recursion is not structural, and shown to be enough:
    [Zone.zone_loop] by the length of the name ([GetZoneList_spec]),
    [HotZone.rotate_loop] by the number of windows to the current time,
    [NetIP.parse_v6_loop] by the length of the text, [Ui.renderDetail] by one call
    ([renderDetail_total]).  The nested resolution of name-server names is one level
    deep, as the depth the source keeps in the context makes it.  [Iteration] allows
    47 of the fifty iterations for a name and its aliases ([cost]: three per level of
    delegation and three per name), as three lead to the first cache lookup; a name
    without aliases may be fourteen levels deep.

    ** Not modelled

    The wire format itself (an interface with laws; reading back what was written is
    a law only for messages put together from what was read, [from_wire]), the JSON
    encoding of the snapshot file, sockets and HTTP, the insides
    of the Prometheus client (an interface with laws), zap and pprof, the YAML and
    flag parsers, the terminal library and its layout, the text parser of metrics,
    generated eBPF bindings, the eBPF program in C, the dump of the Go runtime, and
    the helpers of the end-to-end tests: they are libraries, generated, or printing
    that nothing depends on.  Goroutines a resolution starts are run to completion
    in an order the environment chooses; two racing upstream queries are modelled by
    which of them answers first.  [Iteration] covers delegations whose addresses come
    with them; delegations without addresses, for which the addresses of the name
    servers are resolved first, are covered by the safety theorems only. *)

From stdpp Require Export base tactics option list numbers gmap strings pretty sorting.
From Stdlib Require Export ZArith Lia.

#[global] Open Scope Z_scope.

(** ** Scopes, hint databases and the development's tactics *)

Declare Scope rec53_scope.
Delimit Scope rec53_scope with rec53.

(** [rec53] holds the lemmas that compose along a program (frame rules of the
    effect monad, lemmas of the components); [rec53_arith] those on integers. *)
Create HintDb rec53.
Create HintDb rec53_arith.

(** Split every [match], [if] and [let] pair of the goal, then simplify. *)
Ltac case_all :=
  repeat (case_match; simplify_eq/=; try done).

(** Turn boolean tests of hypotheses and goal into propositions. *)
Ltac bool_prop :=
  repeat match goal with
  | H : (_ <? _) = true |- _ => apply Z.ltb_lt in H
  | H : (_ <? _) = false |- _ => apply Z.ltb_ge in H
  | H : (_ <=? _) = true |- _ => apply Z.leb_le in H
  | H : (_ <=? _) = false |- _ => apply Z.leb_gt in H
  | H : (_ =? _) = true |- _ => apply Z.eqb_eq in H
  | H : (_ =? _) = false |- _ => apply Z.eqb_neq in H
  | H : (_ && _)%bool = true |- _ => apply andb_true_iff in H as [? ?]
  | H : (_ || _)%bool = false |- _ => apply orb_false_iff in H as [? ?]
  | H : negb _ = true |- _ => apply negb_true_iff in H
  | H : negb _ = false |- _ => apply negb_false_iff in H
  | H : String.eqb _ _ = true |- _ => apply String.eqb_eq in H
  | H : String.eqb _ _ = false |- _ => apply String.eqb_neq in H
  end.

(** ** Go integers at their width *)

Definition u8 (z : Z) : Z := z mod 2 ^ 8.
Definition u16 (z : Z) : Z := z mod 2 ^ 16.
Definition u32 (z : Z) : Z := z mod 2 ^ 32.
Definition u64 (z : Z) : Z := z mod 2 ^ 64.
Definition i32 (z : Z) : Z := (z + 2 ^ 31) mod 2 ^ 32 - 2 ^ 31.
Definition i64 (z : Z) : Z := (z + 2 ^ 63) mod 2 ^ 64 - 2 ^ 63.

Lemma u8_range z : 0 ≤ u8 z < 256.
Proof. unfold u8. apply Z.mod_pos_bound. lia. Qed.

Lemma u8_small z : 0 ≤ z < 256 → u8 z = z.
Proof. intros. unfold u8. apply Z.mod_small. lia. Qed.

Lemma u32_range z : 0 ≤ u32 z < 2 ^ 32.
Proof. unfold u32. apply Z.mod_pos_bound. lia. Qed.

Lemma u32_small z : 0 ≤ z < 2 ^ 32 → u32 z = z.
Proof. intros. unfold u32. apply Z.mod_small. lia. Qed.

Lemma i32_small z : - 2 ^ 31 ≤ z < 2 ^ 31 → i32 z = z.
Proof. intros. unfold i32. rewrite Z.mod_small; lia. Qed.

#[export] Hint Resolve u8_range u32_range : rec53_arith.

(** ** Time

    A [time.Time] is the number of nanoseconds since Go's zero time (January 1,
    year 1), so [time.Time{}] is [0] and [Truncate] is plain rounding; a
    [time.Duration] is a number of nanoseconds, and [Sub] saturates at the
    bounds of [int64] as the standard library documents. *)

Definition Millisecond : Z := 1000000.
Definition Second : Z := 1000 * Millisecond.
Definition Minute : Z := 60 * Second.
Definition Hour : Z := 60 * Minute.

Definition time_zero : Z := 0.
Definition IsZero (t : Z) : bool := t =? time_zero.
Definition After (t u : Z) : bool := u <? t.
Definition Truncate (t d : Z) : Z := if d <=? 0 then t else t - t mod d.
Definition max_int64 : Z := 2 ^ 63 - 1.
Definition min_int64 : Z := - 2 ^ 63.
Definition time_Sub (t u : Z) : Z := Z.max min_int64 (Z.min max_int64 (t - u)).

Lemma time_Sub_exact t u :
  - 2 ^ 63 ≤ t - u < 2 ^ 63 → time_Sub t u = t - u.
Proof. unfold time_Sub, max_int64, min_int64. lia. Qed.

Lemma time_Sub_ge t u d : d ≤ max_int64 → d ≤ t - u → d ≤ time_Sub t u.
Proof. unfold time_Sub, max_int64, min_int64. lia. Qed.

(** ** Effects

    A handler runs against a state [S] and either returns a value or panics
    (an index out of range, a failed type assertion); panicking stops the
    computation where it happens. *)

Inductive res (A : Type) : Type :=
| Ok (a : A)
| Panic.
Arguments Ok {A} a.
Arguments Panic {A}.

Definition M (S A : Type) : Type := S → res A * S.

Section monad.
Context {S : Type}.

Definition ret {A} (a : A) : M S A := λ s, (Ok a, s).
Definition panic {A} : M S A := λ s, (Panic, s).
Definition bind {A B} (m : M S A) (f : A → M S B) : M S B := λ s,
  match m s with
  | (Ok a, s') => f a s'
  | (Panic, s') => (Panic, s')
  end.
Definition gets {A} (f : S → A) : M S A := λ s, (Ok (f s), s).
Definition modify (f : S → S) : M S unit := λ s, (Ok tt, f s).
(** A pure step that also updates the state. *)
Definition stepM {A} (f : S → A * S) : M S A := λ s, let '(a, s') := f s in (Ok a, s').
(** [l[0]]: an index expression on a slice. *)
Definition index0 {A} (l : list A) : M S A :=
  match l with
  | x :: _ => ret x
  | [] => panic
  end.
End monad.

Notation "'let!' x := m 'in' k" := (bind m (λ x, k))
  (at level 10, x binder, m at level 100, k at level 200,
   format "'[v' 'let!'  x  :=  m  'in' '//' k ']'") : rec53_scope.
Notation "'do!' m 'in' k" := (bind m (λ _, k))
  (at level 10, m at level 100, k at level 200,
   format "'[v' 'do!'  m  'in' '//' k ']'") : rec53_scope.
#[global] Open Scope rec53_scope.

(** [wp m Q s]: running [m] from [s] does not panic and ends in [Q]. *)
Definition wp {S A} (m : M S A) (Q : A → S → Prop) (s : S) : Prop :=
  match m s with
  | (Ok a, s') => Q a s'
  | (Panic, _) => False
  end.

(** [pres R m]: whatever [m] does, panic included, the state it leaves is
    related to the one it started from. *)
Definition pres {S A} (R : S → S → Prop) (m : M S A) : Prop :=
  ∀ s, R s (m s).2.

Section monad_lemmas.
Context {S : Type}.

Lemma wp_ret {A} (a : A) Q (s : S) : Q a s → wp (ret a) Q s.
Proof. done. Qed.

Lemma wp_bind {A B} (m : M S A) (f : A → M S B) Q s :
  wp m (λ a s', wp (f a) Q s') s → wp (bind m f) Q s.
Proof. unfold wp, bind. by destruct (m s) as [[a|] s']. Qed.

Lemma wp_gets {A} (f : S → A) Q s : Q (f s) s → wp (gets f) Q s.
Proof. done. Qed.

Lemma wp_modify (f : S → S) Q s : Q tt (f s) → wp (modify f) Q s.
Proof. done. Qed.

Lemma wp_stepM {A} (f : S → A * S) Q s : Q (f s).1 (f s).2 → wp (stepM f) Q s.
Proof. unfold wp, stepM. by destruct (f s). Qed.

Lemma wp_index0 {A} (x : A) l Q (s : S) : Q x s → wp (index0 (x :: l)) Q s.
Proof. done. Qed.

Lemma wp_mono {A} (m : M S A) (Q Q' : A → S → Prop) s :
  (∀ a s', Q a s' → Q' a s') → wp m Q s → wp m Q' s.
Proof. unfold wp. destruct (m s) as [[a|] s']; auto. Qed.

Lemma wp_conj {A} (m : M S A) (Q Q' : A → S → Prop) s :
  wp m Q s → wp m Q' s → wp m (λ a s', Q a s' ∧ Q' a s') s.
Proof. unfold wp. destruct (m s) as [[a|] s']; auto. Qed.

Lemma wp_pres {A} (R : S → S → Prop) (m : M S A) Q s :
  pres R m → wp m Q s → wp m (λ a s', Q a s' ∧ R s s') s.
Proof. intros HR. specialize (HR s). unfold wp. by destruct (m s) as [[a|] s']. Qed.

Context (R : S → S → Prop) `{!PreOrder R}.

Lemma pres_ret {A} (a : A) : pres R (ret a).
Proof. intros s. reflexivity. Qed.

Lemma pres_panic {A} : pres R (panic (A := A)).
Proof. intros s. reflexivity. Qed.

Lemma pres_bind {A B} (m : M S A) (f : A → M S B) :
  pres R m → (∀ a, pres R (f a)) → pres R (bind m f).
Proof.
  intros Hm Hf s. unfold bind. specialize (Hm s).
  destruct (m s) as [[a|] s']; simpl in *; [|done].
  transitivity s'; [done|apply Hf].
Qed.

Lemma pres_gets {A} (f : S → A) : pres R (gets f).
Proof. intros s. reflexivity. Qed.

Lemma pres_modify (f : S → S) : (∀ s, R s (f s)) → pres R (modify f).
Proof. intros H s. apply H. Qed.

Lemma pres_stepM {A} (f : S → A * S) : (∀ s, R s (f s).2) → pres R (stepM f).
Proof. intros H s. specialize (H s). unfold stepM. by destruct (f s). Qed.

Lemma pres_index0 {A} (l : list A) : pres R (index0 l).
Proof. destruct l; [apply pres_panic|apply pres_ret]. Qed.
End monad_lemmas.

#[export] Hint Resolve pres_ret pres_panic pres_gets pres_index0 : rec53.

(** Walk through a computation for [pres], splitting its branches. *)
Ltac pres_step :=
  match goal with
  | |- pres _ (bind _ _) => apply pres_bind; [done|..|intros ?]
  | |- pres _ (ret _) => apply pres_ret
  | |- pres _ panic => apply pres_panic
  | |- pres _ (gets _) => apply pres_gets
  | |- pres _ (index0 _) => apply pres_index0
  | |- pres _ (if ?b then _ else _) => destruct b
  | |- pres _ (match ?x with _ => _ end) => destruct x
  end.
