(* ===== verification/GoLib.v ===== *)
(** * What the source uses of Go's standard library

    String comparison, [strings.Join], [strings.TrimSpace], [strings.ToLower] on
    ASCII text, and [sort.Slice].  [sort.Slice] is specified, not fixed: it is not
    stable, so the development only uses that it returns a sorted permutation
    when the comparison is a strict weak order. *)

From Stdlib Require Import Ascii.
From S2P Require Import Prelude.

(** ** Strings *)

(** [s < t]: bytewise lexicographic order. *)
Definition strings_lt (s t : string) : bool := String.ltb s t.

Lemma ascii_compare_trans a b c :
  Ascii.compare a b = Lt → Ascii.compare b c = Lt → Ascii.compare a c = Lt.
Proof. unfold Ascii.compare. rewrite !N.compare_lt_iff. lia. Qed.

Lemma string_compare_trans s t u :
  String.compare s t = Lt → String.compare t u = Lt → String.compare s u = Lt.
Proof.
  revert t u. induction s as [|a s IH]; intros [|b t] [|c u]; simpl; try done.
  destruct (Ascii.compare a b) eqn:Eab; try done; destruct (Ascii.compare b c) eqn:Ebc; try done.
  - apply Ascii.compare_eq_iff in Eab as ->. rewrite Ebc. apply IH.
  - apply Ascii.compare_eq_iff in Eab as ->. by rewrite Ebc.
  - apply Ascii.compare_eq_iff in Ebc as ->. by rewrite Eab.
  - by rewrite (ascii_compare_trans _ _ _ Eab Ebc).
Qed.

Lemma strings_lt_iff s t : strings_lt s t = true ↔ String.compare s t = Lt.
Proof. unfold strings_lt, String.ltb. by destruct (String.compare s t). Qed.

Lemma strings_lt_irrefl s : strings_lt s s = false.
Proof.
  apply not_true_is_false. rewrite strings_lt_iff. pose proof (String.compare_antisym s s) as H.
  by destruct (String.compare s s).
Qed.

Lemma strings_lt_trans s t u :
  strings_lt s t = true → strings_lt t u = true → strings_lt s u = true.
Proof. rewrite !strings_lt_iff. apply string_compare_trans. Qed.

Lemma strings_lt_total s t : s = t ∨ strings_lt s t = true ∨ strings_lt t s = true.
Proof.
  rewrite !strings_lt_iff, (String.compare_antisym t s).
  destruct (String.compare s t) eqn:E; auto. left. by apply String.compare_eq_iff.
Qed.

Lemma strings_lt_empty s : strings_lt s "" = false.
Proof. by destruct s. Qed.

(** [strings.Join(l, ".")] *)
Fixpoint Join_dot (l : list string) : string :=
  match l with
  | [] => ""
  | [x] => x
  | x :: l' => x +:+ "." +:+ Join_dot l'
  end.

(** ASCII white space, as [unicode.IsSpace] has it below U+0080. *)
Definition is_space (c : ascii) : bool :=
  let n := N_of_ascii c in
  ((9 <=? n) && (n <=? 13) || (n =? 32))%N.

Fixpoint trim_left (s : string) : string :=
  match s with
  | String c r => if is_space c then trim_left r else s
  | EmptyString => ""
  end.
Fixpoint trim_right (s : string) : string :=
  match s with
  | String c r =>
      let r' := trim_right r in
      if is_space c && String.eqb r' "" then "" else String c r'
  | EmptyString => ""
  end.
Definition TrimSpace (s : string) : string := trim_right (trim_left s).

Definition ascii_lower (c : ascii) : ascii :=
  let n := N_of_ascii c in
  if ((65 <=? n) && (n <=? 90))%N then ascii_of_N (n + 32) else c.
Fixpoint ToLower (s : string) : string :=
  match s with
  | String c r => String (ascii_lower c) (ToLower r)
  | EmptyString => ""
  end.

(** ** Sorting *)

(** [lt] is a strict weak order on the elements of [l]. *)
Record strict_weak_on {A} (lt : A → A → bool) (l : list A) : Prop := {
  sw_irrefl a : a ∈ l → lt a a = false;
  sw_trans a b c : a ∈ l → b ∈ l → c ∈ l → lt a b = true → lt b c = true → lt a c = true;
  sw_incomp a b c : a ∈ l → b ∈ l → c ∈ l → lt a b = false → lt b c = false → lt a c = false;
}.

Lemma strict_weak_on_subset {A} (lt : A → A → bool) l l' :
  (∀ a, a ∈ l' → a ∈ l) → strict_weak_on lt l → strict_weak_on lt l'.
Proof.
  intros Hs [Hi Ht Hc]. split.
  - intros a Ha. by apply Hi, Hs.
  - intros a b c Ha Hb Hc'. apply Ht; by apply Hs.
  - intros a b c Ha Hb Hc'. apply Hc; by apply Hs.
Qed.

Class GoSort := { sort_Slice : ∀ {A : Type}, (A → A → bool) → list A → list A }.

Class GoSortLaws `{GoSort} : Prop := {
  sort_Slice_perm {A} (lt : A → A → bool) l : sort_Slice lt l ≡ₚ l;
  sort_Slice_sorted {A} (lt : A → A → bool) l :
    strict_weak_on lt l → StronglySorted (λ a b, lt b a = false) (sort_Slice lt l);
}.

Module RefSort.

Fixpoint insert_by {A} (lt : A → A → bool) (x : A) (l : list A) : list A :=
  match l with
  | [] => [x]
  | y :: l' => if lt y x then y :: insert_by lt x l' else x :: l
  end.
Definition isort {A} (lt : A → A → bool) (l : list A) : list A := foldr (insert_by lt) [] l.

#[export] Instance lib : GoSort := { sort_Slice A := isort }.

Lemma insert_by_perm {A} (lt : A → A → bool) x l : insert_by lt x l ≡ₚ x :: l.
Proof.
  induction l as [|y l IH]; [done|]. simpl. destruct (lt y x); [|done].
  rewrite IH. apply Permutation_swap.
Qed.

Lemma isort_perm {A} (lt : A → A → bool) l : isort lt l ≡ₚ l.
Proof. induction l as [|x l IH]; [done|]. simpl. by rewrite insert_by_perm, IH. Qed.

Lemma insert_by_sorted {A} (lt : A → A → bool) x l :
  strict_weak_on lt (x :: l) → StronglySorted (λ a b, lt b a = false) l →
  StronglySorted (λ a b, lt b a = false) (insert_by lt x l).
Proof.
  induction l as [|y l IH]; intros Hlt Hs; simpl.
  - constructor; constructor.
  - pose proof Hlt as [Hi Ht Hc].
    assert (x ∈ x :: y :: l) as Hx by set_solver. assert (y ∈ x :: y :: l) as Hy' by set_solver.
    apply StronglySorted_inv in Hs as [Hs Hy]. destruct (lt y x) eqn:E.
    + constructor.
      * apply IH; [|done]. eapply strict_weak_on_subset; [|exact Hlt]. set_solver.
      * rewrite insert_by_perm. constructor; [|done].
        destruct (lt x y) eqn:E'; [|done]. specialize (Hi y Hy'). by rewrite (Ht _ _ _ Hy' Hx Hy' E E') in Hi.
    + constructor; [by constructor|]. constructor; [done|].
      rewrite Forall_forall in *. intros z Hz.
      apply (Hc z y x); auto. set_solver.
Qed.

#[export] Instance laws : GoSortLaws.
Proof.
  split; simpl; [intros; apply isort_perm|].
  intros A lt l. induction l as [|x l IH]; intros Hlt; [constructor|]. simpl.
  apply insert_by_sorted.
  - eapply strict_weak_on_subset; [|exact Hlt]. intros a. by rewrite !elem_of_cons, isort_perm.
  - apply IH. eapply strict_weak_on_subset; [|exact Hlt]. set_solver.
Qed.

End RefSort.
