(* ===== verification/GoText.v ===== *)
(** * Text functions of Go's standard library

    [strings.Join], [HasPrefix], [HasSuffix], [Contains], [strconv.Itoa] and
    [strconv.Atoi], on byte strings. *)

From Stdlib Require Import Ascii.
From S2P Require Import Prelude GoLib.

Definition newline_char : ascii := ascii_of_N 10.
Definition newline : string := String newline_char "".

(** ** strings *)

Fixpoint Join (sep : string) (l : list string) : string :=
  match l with
  | [] => ""
  | [x] => x
  | x :: l' => x +:+ sep +:+ Join sep l'
  end.

Definition HasPrefix (s pre : string) : bool := String.prefix pre s.

Fixpoint Contains (s sub : string) : bool :=
  String.prefix sub s ||
  match s with
  | EmptyString => false
  | String _ s' => Contains s' sub
  end.

Fixpoint HasSuffix (s suf : string) : bool :=
  String.eqb s suf ||
  match s with
  | EmptyString => false
  | String _ s' => HasSuffix s' suf
  end.

(** The pieces of [s] between the occurrences of [c]. *)
Fixpoint split_char (c : ascii) (s : string) : list string :=
  match s with
  | EmptyString => [""]
  | String d s' =>
      let r := split_char c s' in
      if Ascii.eqb d c then "" :: r
      else match r with
           | [] => [String d ""]
           | x :: r' => String d x :: r'
           end
  end.

Fixpoint has_char (c : ascii) (s : string) : bool :=
  match s with
  | EmptyString => false
  | String d s' => Ascii.eqb d c || has_char c s'
  end.

Lemma split_char_nonempty c s : split_char c s ≠ [].
Proof. destruct s as [|d s]; [done|]. simpl. destruct (Ascii.eqb d c); [done|]. by case_match. Qed.

Lemma split_char_app c s t :
  has_char c s = false → split_char c (s +:+ String c t) = s :: split_char c t.
Proof.
  induction s as [|d s IH]; intros Hs; simpl in *.
  - by rewrite Ascii.eqb_refl.
  - apply orb_false_iff in Hs as [-> Hs]. by rewrite (IH Hs).
Qed.

Lemma split_char_none c s : has_char c s = false → split_char c s = [s].
Proof.
  induction s as [|d s IH]; intros Hs; simpl in *; [done|].
  apply orb_false_iff in Hs as [-> Hs]. by rewrite (IH Hs).
Qed.

(** Lines that contain no separator are the pieces of their joining. *)
Lemma split_Join c l :
  l ≠ [] → Forall (λ s, has_char c s = false) l → split_char c (Join (String c "") l) = l.
Proof.
  induction l as [|x l IH]; intros Hne Hl; [done|]. inversion_clear Hl as [|? ? Hx Hl'].
  destruct l as [|y l]; [by apply split_char_none|].
  change (Join (String c "") (x :: y :: l)) with (x +:+ String c "" +:+ Join (String c "") (y :: l)).
  change (String c "" +:+ Join (String c "") (y :: l)) with (String c (Join (String c "") (y :: l))).
  rewrite (split_char_app c x _ Hx). by rewrite IH.
Qed.

Lemma has_char_app c s t : has_char c (s +:+ t) = has_char c s || has_char c t.
Proof. induction s as [|d s IH]; simpl; [done|]. by rewrite IH, orb_assoc. Qed.

Lemma HasSuffix_app s t : HasSuffix (s +:+ t) t = true.
Proof.
  induction s as [|d s IH]; simpl.
  - destruct t; simpl; [done|]. by rewrite Ascii.eqb_refl, String.eqb_refl.
  - by rewrite IH, orb_true_r.
Qed.

(** ** strconv *)

Definition Itoa (z : Z) : string := pretty z.

Definition digit_of (c : ascii) : option Z :=
  let n := Z.of_N (N_of_ascii c) in
  if (48 <=? n) && (n <=? 57) then Some (n - 48) else None.

(** The value of a string of digits, most significant first. *)
Fixpoint digits_value (acc : Z) (s : string) : option Z :=
  match s with
  | EmptyString => Some acc
  | String c s' => d ← digit_of c; digits_value (acc * 10 + d) s'
  end.

Definition unsigned_value (s : string) : option Z :=
  match s with EmptyString => None | _ => digits_value 0 s end.

(** [strconv.Atoi]: an optional sign and digits, within the range of a 64-bit [int]. *)
Definition Atoi (s : string) : option Z :=
  v ← (match s with
       | String "-"%char s' => Z.opp <$> unsigned_value s'
       | String "+"%char s' => unsigned_value s'
       | _ => unsigned_value s
       end);
  if (min_int64 <=? v) && (v <=? max_int64) then Some v else None.

Example Atoi_runs :
  (Atoi "9999", Atoi "-1", Atoi "+7", Atoi "", Atoi "12a", Atoi "9223372036854775808")
  = (Some 9999, Some (-1), Some 7, None, None, None).
Proof. vm_compute. reflexivity. Qed.

(** ** net.SplitHostPort *)

Fixpoint last_index_from (i : nat) (c : ascii) (s : string) (found : option nat) : option nat :=
  match s with
  | EmptyString => found
  | String d s' => last_index_from (S i) c s' (if Ascii.eqb d c then Some i else found)
  end.
Definition LastIndexByte (s : string) (c : ascii) : option nat := last_index_from 0 c s None.

Fixpoint IndexByte (s : string) (c : ascii) : option nat :=
  match s with
  | EmptyString => None
  | String d s' => if Ascii.eqb d c then Some 0%nat else S <$> IndexByte s' c
  end.

Definition str_take (n : nat) (s : string) : string := String.substring 0 n s.
Definition str_drop (n : nat) (s : string) : string := String.substring n (String.length s - n) s.

Inductive AddrErr :=
| MissingPort
| TooManyColons
| MissingBracket
| UnexpectedOpen
| UnexpectedClose.

(** The host and the start of the regions in which a bracket is still an error,
    then the checks on these regions. *)
Definition split_rest (hostport host : string) (j k i : nat) : string * string + AddrErr :=
  if has_char "[" (str_drop j hostport) then inr UnexpectedOpen
  else if has_char "]" (str_drop k hostport) then inr UnexpectedClose
  else inl (host, str_drop (S i) hostport).

Definition SplitHostPort (hostport : string) : string * string + AddrErr :=
  match LastIndexByte hostport ":" with
  | None => inr MissingPort
  | Some i =>
      match hostport with
      | String "["%char _ =>
          match IndexByte hostport "]" with
          | None => inr MissingBracket
          | Some e =>
              if (S e =? String.length hostport)%nat then inr MissingPort
              else if (S e =? i)%nat then
                split_rest hostport (String.substring 1 (e - 1) hostport) 1 (S e) i
              else if String.prefix ":" (str_drop (S e) hostport) then inr TooManyColons
              else inr MissingPort
          end
      | _ =>
          let host := str_take i hostport in
          if has_char ":" host then inr TooManyColons
          else split_rest hostport host 0 0 i
      end
  end.

Example SplitHostPort_runs :
  (SplitHostPort "192.0.2.1:53", SplitHostPort "[::1]:853", SplitHostPort "::1:53",
   SplitHostPort "ns.example", SplitHostPort ":53", SplitHostPort "[::1]")
  = (inl ("192.0.2.1", "53"), inl ("::1", "853"), inr TooManyColons, inr MissingPort,
     inl ("", "53"), inr MissingPort).
Proof. vm_compute. reflexivity. Qed.
