(* ===== verification/Runtime.v ===== *)
(** * Runtime state, readiness and request accounting

    [monitor/runtime_state.go] keeps a process-wide record of whether the server
    is ready and in which phase it is; [monitor/metric.go] serves it under
    [/healthz/ready]; [monitor/diag.go] counts requests in flight.  Two
    goroutines write the runtime state: the main one ([main], [server.Run],
    [server.Shutdown]) and the warm-up one ([server.warmupNSOnStartup]).  Module
    [Lifecycle] interleaves their locked regions. *)

From S2P Require Import Prelude GoLib GoText.

(** ** monitor/runtime_state.go *)

Definition RuntimePhaseColdStart : string := "cold-start".
Definition RuntimePhaseWarming : string := "warming".
Definition RuntimePhaseSteady : string := "steady".
Definition RuntimePhaseShuttingDown : string := "shutting-down".

Record RuntimeStateSnapshot := mkSnapshot {
  Readiness : bool;
  Phase : string;
}.

Record runtimeState := mkRuntime {
  rt_ready : bool;
  rt_phase : string;
  rt_warmupDone : bool;
}.

Definition runtimeState_init : runtimeState := mkRuntime false RuntimePhaseColdStart false.

Definition ResetRuntimeState (_ : runtimeState) : runtimeState :=
  mkRuntime false RuntimePhaseColdStart false.

Definition SetRuntimeState (ready : bool) (phase : string) (r : runtimeState) : runtimeState :=
  mkRuntime ready phase
    (if String.eqb phase RuntimePhaseColdStart then false else rt_warmupDone r).

(** [SetRuntimeServingPhase] reads [warmupDone] in one locked region and writes
    in another; the two regions are separate steps. *)
Definition serving_phase (warmupEnabled : bool) (r : runtimeState) : string :=
  if warmupEnabled && negb (rt_warmupDone r) then RuntimePhaseWarming else RuntimePhaseSteady.

Definition SetRuntimeServingPhase (warmupEnabled : bool) (r : runtimeState)
    : RuntimeStateSnapshot * runtimeState :=
  let phase := serving_phase warmupEnabled r in
  (mkSnapshot true phase, SetRuntimeState true phase r).

Definition MarkRuntimeShuttingDown (r : runtimeState) : RuntimeStateSnapshot * runtimeState :=
  (mkSnapshot false RuntimePhaseShuttingDown, SetRuntimeState false RuntimePhaseShuttingDown r).

Definition MarkRuntimeWarmupComplete (r : runtimeState)
    : (RuntimeStateSnapshot * bool) * runtimeState :=
  if negb (rt_ready r) || negb (String.eqb (rt_phase r) RuntimePhaseWarming)
  then ((mkSnapshot (rt_ready r) (rt_phase r), false), mkRuntime (rt_ready r) (rt_phase r) true)
  else ((mkSnapshot (rt_ready r) RuntimePhaseSteady, true), mkRuntime (rt_ready r) RuntimePhaseSteady true).

Definition RuntimeState (r : runtimeState) : RuntimeStateSnapshot :=
  mkSnapshot (rt_ready r) (rt_phase r).

(** ** monitor/metric.go: the readiness endpoint *)

Definition StatusOK : Z := 200.
Definition StatusServiceUnavailable : Z := 503.

Definition format_bool (b : bool) : string := if b then "true" else "false".

(** Status code and body. *)
Definition readinessHandler (r : runtimeState) : Z * string :=
  let state := RuntimeState r in
  (if Readiness state then StatusOK else StatusServiceUnavailable,
   "ready=" +:+ format_bool (Readiness state) +:+ newline +:+
   "phase=" +:+ Phase state +:+ newline).

(** ** The life of the process *)
Module Lifecycle.

(** Where the main goroutine is: before [Run] has the listeners ready; between
    the two locked regions of [SetRuntimeServingPhase], with the phase it chose;
    serving; after [MarkRuntimeShuttingDown]. *)
Inductive main_pc :=
| Starting
| Deciding (phase : string)
| Serving
| Down.

(** Where the warm-up goroutine is: not started or still querying, or finished
    with [MarkRuntimeWarmupComplete] executed.  It may also never finish (a panic
    in [WarmupNSRecords] skips the call). *)
Inductive warm_pc := Pending | Completed.

Record Life := mkLife {
  l_rt : runtimeState;
  l_main : main_pc;
  l_warm : warm_pc;
  (** the warm-up completed between the two regions, after "warming" was chosen *)
  l_raced : bool;
}.

(** [main] resets the state before it starts the server. *)
Definition life_init (r : runtimeState) : Life := mkLife (ResetRuntimeState r) Starting Pending false.

Definition is_deciding_warming (m : main_pc) : bool :=
  match m with
  | Deciding p => String.eqb p RuntimePhaseWarming
  | _ => false
  end.

(** [warmup] is [s.warmupCfg.Enabled]; the warm-up goroutine exists only then. *)
Inductive life_step (warmup : bool) : Life → Life → Prop :=
| step_read_done r w x :
    life_step warmup (mkLife r Starting w x) (mkLife r (Deciding (serving_phase warmup r)) w x)
| step_set_serving r p w x :
    life_step warmup (mkLife r (Deciding p) w x) (mkLife (SetRuntimeState true p r) Serving w x)
| step_warmup_complete r m x :
    warmup = true →
    life_step warmup (mkLife r m Pending x)
      (mkLife (MarkRuntimeWarmupComplete r).2 m Completed (x || is_deciding_warming m))
(** [Shutdown], also when [Run] returned because a listener failed to start. *)
| step_shutdown r m w x :
    m = Serving ∨ m = Starting →
    life_step warmup (mkLife r m w x) (mkLife (MarkRuntimeShuttingDown r).2 Down w x).

Definition life_inv (warmup : bool) (l : Life) : Prop :=
  (l_warm l = Completed → warmup = true ∧ rt_warmupDone (l_rt l) = true) ∧
  (l_warm l = Pending → rt_warmupDone (l_rt l) = false ∧ l_raced l = false) ∧
  match l_main l with
  | Starting => rt_ready (l_rt l) = false ∧ rt_phase (l_rt l) = RuntimePhaseColdStart ∧ l_raced l = false
  | Deciding p =>
      rt_ready (l_rt l) = false ∧ rt_phase (l_rt l) = RuntimePhaseColdStart ∧
      (p = RuntimePhaseSteady ∧ (warmup = false ∨ l_warm l = Completed) ∧ l_raced l = false ∨
       p = RuntimePhaseWarming ∧ warmup = true ∧ (l_warm l = Completed ↔ l_raced l = true))
  | Serving =>
      rt_ready (l_rt l) = true ∧
      (rt_phase (l_rt l) = RuntimePhaseSteady ∧ (warmup = false ∨ l_warm l = Completed) ∧ l_raced l = false ∨
       rt_phase (l_rt l) = RuntimePhaseWarming ∧ warmup = true ∧ (l_warm l = Completed ↔ l_raced l = true))
  | Down => rt_ready (l_rt l) = false ∧ rt_phase (l_rt l) = RuntimePhaseShuttingDown
  end.

Lemma life_inv_init warmup r : life_inv warmup (life_init r).
Proof. by repeat split. Qed.

Lemma serving_phase_cases warmup r :
  serving_phase warmup r = RuntimePhaseSteady ∧ (warmup = false ∨ rt_warmupDone r = true) ∨
  serving_phase warmup r = RuntimePhaseWarming ∧ warmup = true ∧ rt_warmupDone r = false.
Proof. unfold serving_phase. destruct warmup, (rt_warmupDone r); simpl; auto. Qed.

Lemma life_inv_read warmup r w x :
  life_inv warmup (mkLife r Starting w x) →
  life_inv warmup (mkLife r (Deciding (serving_phase warmup r)) w x).
Proof.
  intros (Hc & Hp & Hr & Hph & Hx). unfold life_inv. simpl in *. subst x.
  split_and!; try done.
  destruct (serving_phase_cases warmup r) as [[-> Hd]|(-> & -> & Hd)].
  - left. split_and!; [done| |done]. destruct Hd as [?|Hd]; [by left|]. right.
    destruct w; [|done]. simpl in Hp. destruct Hp; [done|]. congruence.
  - right. split_and!; [done|done|]. destruct w; [done|]. destruct Hc; [done|]. simpl in *. congruence.
Qed.

Lemma life_inv_set warmup r p w x :
  life_inv warmup (mkLife r (Deciding p) w x) →
  life_inv warmup (mkLife (SetRuntimeState true p r) Serving w x).
Proof.
  intros (Hc & Hp & Hr & Hph & Hcase). unfold life_inv. simpl in *.
  destruct Hcase as [(-> & H)|(-> & H)]; simpl; split_and!; eauto.
Qed.

Lemma life_inv_warm warmup r m x :
  warmup = true → life_inv warmup (mkLife r m Pending x) →
  life_inv warmup (mkLife (MarkRuntimeWarmupComplete r).2 m Completed (x || is_deciding_warming m)).
Proof.
  intros -> (_ & Hp & Hm). destruct Hp as [Hd Hx]; [done|]. simpl in Hx, Hd. subst x. simpl.
  unfold life_inv, MarkRuntimeWarmupComplete. simpl in *. destruct r as [rd ph wd]. simpl in *.
  destruct m as [|p| |]; simpl in *.
  - destruct Hm as (-> & -> & _). by split_and!.
  - destruct Hm as (-> & -> & [(-> & H & _)|(-> & _ & H)]); simpl; split_and!; try done.
    + left. split_and!; auto.
    + by right.
  - destruct Hm as (-> & [(-> & H & _)|(-> & _ & H)]); simpl; split_and!; try done; left; split_and!; auto.
  - destruct Hm as (-> & ->). by split_and!.
Qed.

Lemma life_inv_down warmup r m w x :
  life_inv warmup (mkLife r m w x) →
  life_inv warmup (mkLife (MarkRuntimeShuttingDown r).2 Down w x).
Proof. intros (Hc & Hp & _). unfold life_inv. simpl in *. split_and!; eauto. Qed.

Lemma life_inv_reachable warmup r l : rtc (life_step warmup) (life_init r) l → life_inv warmup l.
Proof.
  intros H. pose proof (life_inv_init warmup r) as Hi. revert Hi. generalize (life_init r) H. clear.
  intros l0 H. induction H as [|l0 l1 l2 Hs _ IH]; [done|]. intros Hi. apply IH.
  destruct Hs; eauto using life_inv_read, life_inv_set, life_inv_warm, life_inv_down.
Qed.

(** C19: readiness follows the life of the process in every interleaving of the
    main and the warm-up goroutine.  [/healthz/ready] answers 200 exactly between
    [Run]'s last step and [Shutdown]; it never reports ready again afterwards,
    whenever the warm-up ends.  While serving, the phase is "steady" or
    "warming"; it is "steady" when the warm-up is disabled, and "warming" with
    the warm-up over only if the warm-up ended between the two locked regions of
    [SetRuntimeServingPhase]. *)
Theorem readiness_exact (warmup : bool) (r : runtimeState) (l : Life) :
  rtc (life_step warmup) (life_init r) l →
  ((readinessHandler (l_rt l)).1 = StatusOK ↔ l_main l = Serving) ∧
  (l_main l = Serving → rt_phase (l_rt l) = RuntimePhaseSteady ∨ rt_phase (l_rt l) = RuntimePhaseWarming) ∧
  (l_main l = Serving → warmup = false → rt_phase (l_rt l) = RuntimePhaseSteady) ∧
  (l_main l = Serving → rt_phase (l_rt l) = RuntimePhaseWarming →
   l_warm l = Pending ∨ l_raced l = true) ∧
  (l_main l = Down → rt_phase (l_rt l) = RuntimePhaseShuttingDown).
Proof.
  intros (Hc & Hp & Hm)%life_inv_reachable. unfold readinessHandler, RuntimeState. simpl.
  destruct (l_main l) as [|p| |]; simpl in Hm.
  1,2: destruct Hm as (-> & Hph & _); by split_and!.
  - destruct Hm as (-> & [(-> & H)|(-> & H)]); split_and!; try done; eauto.
    + destruct H as (-> & _). done.
    + intros _ _. destruct H as (_ & H). destruct (l_warm l); [by left|right]. by apply H.
  - destruct Hm as (-> & ->). by split_and!.
Qed.

(** The gap between the two locked regions loses the end of the warm-up: a
    run exists in which the warm-up has completed and the server, still serving,
    reports "warming" until it shuts down. *)
Theorem warming_can_stick (r : runtimeState) :
  ∃ l, rtc (life_step true) (life_init r) l ∧
    l_main l = Serving ∧ l_warm l = Completed ∧ rt_warmupDone (l_rt l) = true ∧
    rt_phase (l_rt l) = RuntimePhaseWarming ∧
    (∀ l', life_step true l l' → l_main l' = Down).
Proof.
  eexists. split_and!.
  - eapply rtc_l; [apply step_read_done|].
    eapply rtc_l; [by apply step_warmup_complete|].
    eapply rtc_l; [apply step_set_serving|]. apply rtc_refl.
  - done.
  - done.
  - done.
  - done.
  - intros l' Hs. by inversion Hs.
Qed.

(** The straightforward run, in which the warm-up ends while the server serves. *)
Lemma readiness_exact_witness :
  ∃ l, rtc (life_step true) (life_init runtimeState_init) l ∧
    (readinessHandler (l_rt l)).1 = StatusOK ∧ rt_phase (l_rt l) = RuntimePhaseSteady ∧
    ((readinessHandler (l_rt l)).1 = StatusOK ↔ l_main l = Serving).
Proof.
  eexists (mkLife (mkRuntime true RuntimePhaseSteady true) Serving Completed false).
  assert (rtc (life_step true) (life_init runtimeState_init)
            (mkLife (mkRuntime true RuntimePhaseSteady true) Serving Completed false)) as Hr.
  { eapply rtc_l; [apply step_read_done|]. eapply rtc_l; [apply step_set_serving|].
    eapply rtc_l; [by apply step_warmup_complete|]. apply rtc_refl. }
  split_and!; [exact Hr|reflexivity|reflexivity|].
  exact (proj1 (readiness_exact true runtimeState_init _ Hr)).
Defined.

End Lifecycle.

(** ** monitor/diag.go: requests in flight *)
Module Diag.

Record Counters := mkCounters {
  dnsInFlight : Z;
  metricInFlight : Z;
  totalDNSRequests : Z;
  totalMetricScrapes : Z;
  lastDNSStartUnix : Z;
  lastDNSDoneUnix : Z;
  lastMetricStartUnix : Z;
  lastMetricDoneUnix : Z;
}.

Definition counters_init : Counters := mkCounters 0 0 0 0 0 0 0 0.

Definition slowHandlerThreshold : Z := 500 * Millisecond.

Inductive DiagLog :=
| HighDNSInflight (inFlight : Z) (name qtype : string)
| DNSFinished (name qtype rcode : string) (elapsed remaining : Z) (writeErr : option string)
| HighMetricInflight (inFlight : Z)
| ScrapeFinished (elapsed remaining : Z).

(** What the closure [DNSRequestStarted] returns captures. *)
Record dnsRequest := mkRequest {
  dr_name : string;
  dr_qtype : string;
  dr_start : Z;
  dr_once : bool;
}.

Definition DNSRequestStarted (name qtype : string) (now : Z) (c : Counters)
    : dnsRequest * Counters * list DiagLog :=
  let inFlight := i64 (dnsInFlight c + 1) in
  (mkRequest name qtype now false,
   mkCounters inFlight (metricInFlight c) (u64 (totalDNSRequests c + 1)) (totalMetricScrapes c)
     now (lastDNSDoneUnix c) (lastMetricStartUnix c) (lastMetricDoneUnix c),
   if 100 <=? inFlight then [HighDNSInflight inFlight name qtype] else []).

(** The closure: [doneAt] and [later] are its two clock readings. *)
Definition request_done (rcode : string) (writeErr : option string) (doneAt later : Z)
    (q : dnsRequest) (c : Counters) : dnsRequest * Counters * list DiagLog :=
  if dr_once q then (q, c, [])
  else
    let remaining := i64 (dnsInFlight c + -1) in
    let elapsed := time_Sub later (dr_start q) in
    (mkRequest (dr_name q) (dr_qtype q) (dr_start q) true,
     mkCounters remaining (metricInFlight c) (totalDNSRequests c) (totalMetricScrapes c)
       (lastDNSStartUnix c) doneAt (lastMetricStartUnix c) (lastMetricDoneUnix c),
     if (slowHandlerThreshold <=? elapsed) || (match writeErr with Some _ => true | None => false end)
     then [DNSFinished (dr_name q) (dr_qtype q) rcode elapsed remaining writeErr] else []).

(** [instrumentMetricsHandler], before and after the wrapped handler. *)
Definition scrape_started (now : Z) (c : Counters) : Counters * list DiagLog :=
  let inFlight := i64 (metricInFlight c + 1) in
  (mkCounters (dnsInFlight c) inFlight (totalDNSRequests c) (u64 (totalMetricScrapes c + 1))
     (lastDNSStartUnix c) (lastDNSDoneUnix c) now (lastMetricDoneUnix c),
   if 20 <=? inFlight then [HighMetricInflight inFlight] else []).

Definition scrape_finished (start doneAt later : Z) (c : Counters) : Counters * list DiagLog :=
  let remaining := i64 (metricInFlight c + -1) in
  let elapsed := time_Sub later start in
  (mkCounters (dnsInFlight c) remaining (totalDNSRequests c) (totalMetricScrapes c)
     (lastDNSStartUnix c) (lastDNSDoneUnix c) (lastMetricStartUnix c) doneAt,
   if slowHandlerThreshold <=? elapsed then [ScrapeFinished elapsed remaining] else []).

(** Requests and scrapes of any number of goroutines; [ServeDNS] may call the
    closure of a request once or twice. *)
Record DiagSys := mkDiagSys {
  d_counters : Counters;
  d_requests : list dnsRequest;
  d_scrapes : nat;
}.

Inductive diag_step : DiagSys → DiagSys → Prop :=
| step_request name qtype now c qs n :
    diag_step (mkDiagSys c qs n)
      (mkDiagSys (DNSRequestStarted name qtype now c).1.2
         (qs ++ [(DNSRequestStarted name qtype now c).1.1]) n)
| step_done i q rcode e t1 t2 c qs n :
    qs !! i = Some q →
    diag_step (mkDiagSys c qs n)
      (mkDiagSys (request_done rcode e t1 t2 q c).1.2
         (<[i := (request_done rcode e t1 t2 q c).1.1]> qs) n)
| step_scrape now c qs n :
    diag_step (mkDiagSys c qs n) (mkDiagSys (scrape_started now c).1 qs (S n))
| step_scraped t0 t1 t2 c qs n :
    diag_step (mkDiagSys c qs (S n)) (mkDiagSys (scrape_finished t0 t1 t2 c).1 qs n).

Definition unfinished (q : dnsRequest) : Z := if dr_once q then 0 else 1.
Definition open_requests (qs : list dnsRequest) : Z := foldr (λ q n, unfinished q + n) 0 qs.

Lemma open_requests_snoc qs q : open_requests (qs ++ [q]) = open_requests qs + unfinished q.
Proof. unfold open_requests. induction qs as [|x qs IH]; simpl; [lia|]. rewrite IH. lia. Qed.

Lemma open_requests_insert qs i q q' :
  qs !! i = Some q → open_requests (<[i := q']> qs) = open_requests qs - unfinished q + unfinished q'.
Proof.
  unfold open_requests. revert i. induction qs as [|x qs IH]; intros [|i] Hi; simplify_eq/=; [lia|].
  rewrite (IH i Hi). lia.
Qed.

Lemma open_requests_bounds qs : 0 ≤ open_requests qs ≤ Z.of_nat (length qs).
Proof.
  unfold open_requests. induction qs as [|q qs IH]; simpl; [lia|]. unfold unfinished at 1 3.
  destruct (dr_once q); lia.
Qed.

Lemma count_small z : - 2 ^ 63 ≤ z < 2 ^ 63 → i64 z = z.
Proof. intros. unfold i64. rewrite Z.mod_small; lia. Qed.

Definition diag_inv (d : DiagSys) : Prop :=
  Z.of_nat (length (d_requests d)) < 2 ^ 63 →
  dnsInFlight (d_counters d) = open_requests (d_requests d) ∧
  totalDNSRequests (d_counters d) = Z.of_nat (length (d_requests d)).

Lemma diag_inv_request c qs n name qtype now :
  diag_inv (mkDiagSys c qs n) →
  diag_inv (mkDiagSys (DNSRequestStarted name qtype now c).1.2
              (qs ++ [(DNSRequestStarted name qtype now c).1.1]) n).
Proof.
  unfold diag_inv. simpl. rewrite length_app, open_requests_snoc. simpl. intros IH Hlt.
  destruct IH as [-> ->]; [lia|]. pose proof (open_requests_bounds qs). unfold unfinished. simpl.
  rewrite count_small by lia. split; [done|]. unfold u64. rewrite Z.mod_small; lia.
Qed.

Lemma diag_inv_done c qs n i q rcode e t1 t2 :
  qs !! i = Some q → diag_inv (mkDiagSys c qs n) →
  diag_inv (mkDiagSys (request_done rcode e t1 t2 q c).1.2
              (<[i := (request_done rcode e t1 t2 q c).1.1]> qs) n).
Proof.
  unfold diag_inv, request_done. simpl. rewrite length_insert. intros Hi IH Hlt.
  destruct IH as [Hf Ht]; [done|]. destruct (dr_once q) eqn:Eq; simpl.
  - by rewrite list_insert_id by done.
  - rewrite (open_requests_insert _ _ q) by done. pose proof (open_requests_bounds qs).
    unfold unfinished. rewrite Eq, Hf. simpl. rewrite count_small by lia. split; [lia|done].
Qed.

Lemma diag_inv_reachable d :
  rtc diag_step (mkDiagSys counters_init [] 0) d → diag_inv d.
Proof.
  assert (diag_inv (mkDiagSys counters_init [] 0)) as Hi by done. revert Hi.
  generalize (mkDiagSys counters_init [] 0). intros d0 Hi H. revert Hi.
  induction H as [|d0 d1 d2 Hs _ IH]; [done|]. intros Hi. apply IH.
  destruct Hs; eauto using diag_inv_request, diag_inv_done.
Qed.

(** In every interleaving, [dns_inflight] is the number of requests whose closure
    has not run and [dns_total] the number of requests; closing a request twice
    counts once. *)
Theorem inflight_counts_open d :
  rtc diag_step (mkDiagSys counters_init [] 0) d →
  Z.of_nat (length (d_requests d)) < 2 ^ 63 →
  dnsInFlight (d_counters d) = open_requests (d_requests d) ∧
  0 ≤ dnsInFlight (d_counters d) ≤ totalDNSRequests (d_counters d) ∧
  totalDNSRequests (d_counters d) = Z.of_nat (length (d_requests d)).
Proof.
  intros Hr Hlt. destruct (diag_inv_reachable d Hr Hlt) as [-> ->].
  pose proof (open_requests_bounds (d_requests d)). split_and!; lia.
Qed.

End Diag.
