(* ===== verification/Float64.v ===== *)
(** * IEEE 754 binary64, as Go's [float64]

    Go's [float64] arithmetic is binary64 with round-to-nearest-even.  The
    Standard Library's [SpecFloat] gives the exact specification of these
    operations as plain functions on [spec_float]; this file fixes the format
    (precision 53, maximal exponent 1024) and adds the conversions the code
    uses.  Nothing here rounds through the real numbers, so every float of the
    model can be evaluated. *)

From Stdlib Require Import SpecFloat.
From S2P Require Import Prelude.

Abbreviation f64 := spec_float.

Definition f64_mul : f64 → f64 → f64 := SFmul 53 1024.
Definition f64_add : f64 → f64 → f64 := SFadd 53 1024.
Definition f64_sub : f64 → f64 → f64 := SFsub 53 1024.
Definition f64_div : f64 → f64 → f64 := SFdiv 53 1024.
Definition f64_ltb : f64 → f64 → bool := SFltb.
Definition f64_leb : f64 → f64 → bool := SFleb.

(** [float64(z)] of an integer [z]. *)
Definition f64_of_Z (z : Z) : f64 := binary_normalize 53 1024 z 0 false.

(** The decimal constant [n/d]: Go rounds a constant to the nearest float64,
    which is the correctly rounded quotient when [n] and [d] are exact. *)
Definition f64_const (n d : Z) : f64 := f64_div (f64_of_Z n) (f64_of_Z d).

Definition f64_zero : f64 := S754_zero false.

(** Truncation toward zero, the value part of [int32(x)], [int(x)].  The result
    of Go's conversion of a NaN, an infinity or a value out of range is
    implementation-defined; the model only uses it on finite values in range. *)
Definition f64_trunc (x : f64) : Z :=
  match x with
  | S754_finite s m e =>
      let a := if 0 <=? e then Z.pos m * 2 ^ e else Z.pos m / 2 ^ (- e) in
      if s then - a else a
  | _ => 0
  end.

(** [Duration.Seconds]: whole seconds and nanoseconds converted separately. *)
Definition Seconds (d : Z) : f64 :=
  f64_add (f64_of_Z (Z.quot d Second)) (f64_div (f64_of_Z (Z.rem d Second)) (f64_of_Z 1000000000)).

(** Comparison with a NaN is false either way; on the floats the code compares
    the order is total. *)
Definition is_nan (x : f64) : bool :=
  match x with
  | S754_nan => true
  | _ => false
  end.

Lemma f64_ltb_leb x y : f64_ltb x y = true → f64_leb x y = true.
Proof. unfold f64_ltb, f64_leb, SFltb, SFleb. by destruct (SFcompare x y) as [[]|]. Qed.

Lemma f64_leb_refl x : is_nan x = false → f64_leb x x = true.
Proof.
  unfold f64_leb, SFleb. destruct x as [s|s| |s m e]; simpl; try done.
  - by destruct s.
  - intros _. destruct s; rewrite Z.compare_refl, Pos.compare_refl; done.
Qed.

(** The comparison is a strict weak order: floats are compared by sign, then
    exponent, then mantissa. *)
Lemma f64_ltb_irrefl x : f64_ltb x x = false.
Proof.
  unfold f64_ltb, SFltb. destruct x as [s|s| |s m e]; simpl; try done; destruct s; try done;
    by rewrite Z.compare_refl, Pos.compare_refl.
Qed.

Ltac f64_cases :=
  unfold f64_ltb, f64_leb, SFltb, SFleb, SFcompare;
  repeat match goal with
  | |- context [match ?x with S754_zero _ => _ | _ => _ end] => destruct x as [[]|[]| |[] ? ?]
  end;
  repeat match goal with
  | |- context [Z.compare ?a ?b] => destruct (Z.compare_spec a b)
  | |- context [Pos.compare_cont Eq ?a ?b] =>
      change (Pos.compare_cont Eq a b) with (Pos.compare a b)
  | |- context [Pos.compare ?a ?b] => destruct (Pos.compare_spec a b)
  end; simpl; try done; try lia.

Lemma f64_ltb_trans x y z :
  f64_ltb x y = true → f64_ltb y z = true → f64_ltb x z = true.
Proof.
  destruct x as [[]|[]| |[] ? ?], y as [[]|[]| |[] ? ?]; try done;
    destruct z as [[]|[]| |[] ? ?]; try done; f64_cases.
Qed.

Lemma f64_leb_ltb_trans x y z :
  f64_leb x y = true → f64_ltb y z = true → f64_ltb x z = true.
Proof.
  destruct x as [[]|[]| |[] ? ?], y as [[]|[]| |[] ? ?]; try done;
    destruct z as [[]|[]| |[] ? ?]; try done; f64_cases.
Qed.

Lemma f64_ltb_leb_trans x y z :
  f64_ltb x y = true → f64_leb y z = true → f64_ltb x z = true.
Proof.
  destruct x as [[]|[]| |[] ? ?], y as [[]|[]| |[] ? ?]; try done;
    destruct z as [[]|[]| |[] ? ?]; try done; f64_cases.
Qed.

Lemma f64_leb_total x y :
  is_nan x = false → is_nan y = false → f64_ltb x y = false → f64_leb y x = true.
Proof.
  destruct x as [[]|[]| |[] ? ?], y as [[]|[]| |[] ? ?]; try done; intros _ _; f64_cases.
Qed.

(** Away from NaN, [>=] is transitive. *)
Lemma f64_ltb_incomp x y z :
  is_nan x = false → is_nan y = false → is_nan z = false →
  f64_ltb x y = false → f64_ltb y z = false → f64_ltb x z = false.
Proof.
  intros Hx Hy Hz Hxy Hyz. destruct (f64_ltb x z) eqn:E; [|done].
  assert (f64_leb y x = true) as H1 by by apply f64_leb_total.
  by rewrite (f64_leb_ltb_trans _ _ _ H1 E) in Hyz.
Qed.

(** Rounding never produces a NaN. *)
Lemma shr_1_nonneg r : 0 ≤ shr_m r → 0 ≤ shr_m (shr_1 r).
Proof. destruct r as [[|[p|p|]|[p|p|]] ? ?]; simpl; lia. Qed.

Lemma iter_shr_nonneg n r : 0 ≤ shr_m r → 0 ≤ shr_m (SpecFloat.iter_pos shr_1 n r).
Proof.
  revert r. induction n as [n IH|n IH|]; intros r Hr; simpl; auto using shr_1_nonneg.
Qed.

Lemma shr_fexp_nonneg m e l : 0 ≤ m → 0 ≤ shr_m (shr_fexp 53 1024 m e l).1.
Proof.
  intros Hm. unfold shr_fexp, shr.
  assert (0 ≤ shr_m (shr_record_of_loc m l)) as Hr by by destruct l as [|[]].
  case_match; [done| |done]. by apply iter_shr_nonneg.
Qed.

Lemma binary_round_aux_not_nan s m e l :
  0 ≤ m → is_nan (binary_round_aux 53 1024 s m e l) = false.
Proof.
  intros Hm. unfold binary_round_aux.
  pose proof (shr_fexp_nonneg m e l Hm) as H1. destruct (shr_fexp _ _ m e l) as [r1 e1]. simpl in H1.
  set (m2 := round_nearest_even _ _).
  assert (0 ≤ m2) as H2.
  { unfold m2, round_nearest_even. destruct (loc_of_shr_record r1) as [|[]]; try lia. case_match; lia. }
  pose proof (shr_fexp_nonneg m2 e1 loc_Exact H2) as H3.
  destruct (shr_fexp _ _ m2 e1 _) as [r2 e2]. simpl in H3.
  destruct (shr_m r2); [done|by case_match|lia].
Qed.

Lemma f64_of_Z_not_nan z : is_nan (f64_of_Z z) = false.
Proof.
  unfold f64_of_Z, binary_normalize, binary_round.
  destruct z; [done|..]; destruct (shl_align _ _ _); apply binary_round_aux_not_nan; lia.
Qed.

(** A finite factor other than zero does not turn a number into a NaN. *)
Definition is_finite (x : f64) : bool := match x with S754_finite _ _ _ => true | _ => false end.

Lemma f64_mul_not_nan x y : is_nan x = false → is_finite y = true → is_nan (f64_mul x y) = false.
Proof.
  unfold f64_mul, SFmul. destruct x, y; try done. intros _ _. by apply binary_round_aux_not_nan.
Qed.

(** A statement about all integers of an interval, checked by evaluation. *)
Fixpoint check_range (P : Z → bool) (lo : Z) (n : nat) : bool :=
  match n with
  | O => true
  | S n' => if P lo then check_range P (lo + 1) n' else false
  end.

Lemma check_range_sound P lo n :
  check_range P lo n = true → ∀ z, lo ≤ z < lo + Z.of_nat n → P z = true.
Proof.
  revert lo. induction n as [|n IH]; intros lo H z Hz; [lia|].
  simpl in H. destruct (P lo) eqn:E; [|done].
  destruct (decide (z = lo)) as [->|]; [done|].
  apply (IH (lo + 1)); [done|lia].
Qed.
