(* ===== verification/FloatExact.v ===== *)
(** * Integers in binary64

    Counters, totals and indices are integers that the code converts to
    [float64], adds up and truncates back.  Up to [2^53] this loses nothing:
    [float64(n)] has a closed form, sums of such floats are the floats of the sums,
    and multiplying by a fraction and truncating gives a value between zero and
    the integer.  The facts are about the rounding functions of [SpecFloat]. *)

From Stdlib Require Import SpecFloat.
From S2P Require Import Prelude Float64.

(** ** Shifts and digits *)

Lemma iter_pos_nat {A} (f : A → A) n x : SpecFloat.iter_pos f n x = Nat.iter (Pos.to_nat n) f x.
Proof.
  revert x. induction n as [n IH|n IH|]; intros x; cbn [SpecFloat.iter_pos]; [| |done].
  - rewrite !IH, <- Nat.iter_add.
    replace (Pos.to_nat n~1) with (Pos.to_nat n + Pos.to_nat n + 1)%nat by lia.
    by rewrite (Nat.iter_add (Pos.to_nat n + Pos.to_nat n) 1).
  - rewrite !IH, <- Nat.iter_add. f_equal. lia.
Qed.

Lemma digits2_log2 p : Zpos (digits2_pos p) = Z.log2 (Zpos p) + 1.
Proof.
  induction p as [p IH|p IH|]; [| |done].
  - change (Zpos (digits2_pos p~1)) with (Zpos (Pos.succ (digits2_pos p))).
    rewrite Pos2Z.inj_succ, IH, (Pos2Z.inj_xI p), Z.log2_succ_double; lia.
  - change (Zpos (digits2_pos p~0)) with (Zpos (Pos.succ (digits2_pos p))).
    rewrite Pos2Z.inj_succ, IH, (Pos2Z.inj_xO p), Z.log2_double; lia.
Qed.

Lemma Zdigits2_log2 m : 0 < m → Zdigits2 m = Z.log2 m + 1.
Proof. destruct m as [|p|p]; intros; try lia. apply digits2_log2. Qed.

Lemma shr_1_half m r s : 0 ≤ m → shr_m (shr_1 (Build_shr_record m r s)) = m / 2.
Proof.
  destruct m as [|[p|p|]|p]; intros; simpl; try done; try lia.
  - rewrite (Pos2Z.inj_xI p). apply (Z.div_unique _ _ _ 1); lia.
  - rewrite (Pos2Z.inj_xO p). apply (Z.div_unique _ _ _ 0); lia.
Qed.

Lemma iter_shr_div k r : 0 ≤ shr_m r → shr_m (Nat.iter k shr_1 r) = shr_m r / 2 ^ Z.of_nat k.
Proof.
  intros Hr. induction k as [|k IH]; [by rewrite Z.div_1_r|].
  rewrite Nat.iter_succ. destruct (Nat.iter k shr_1 r) as [m r' s] eqn:E. simpl in IH.
  assert (0 ≤ shr_m r / 2 ^ Z.of_nat k) by (apply Z.div_pos; lia).
  rewrite shr_1_half by lia. rewrite IH, Z.div_div by lia.
  f_equal. rewrite Nat2Z.inj_succ, Z.pow_succ_r by lia. lia.
Qed.

(** Shifting out zeros is exact. *)
Lemma iter_shr_exact k m : 0 < m →
  Nat.iter k shr_1 (Build_shr_record (m * 2 ^ Z.of_nat k) false false) = Build_shr_record m false false.
Proof.
  revert m. induction k as [|k IH]; intros m Hm; [by rewrite Z.mul_1_r|].
  rewrite Nat.iter_succ.
  replace (m * 2 ^ Z.of_nat (S k)) with ((m * 2) * 2 ^ Z.of_nat k)
    by (rewrite Nat2Z.inj_succ, Z.pow_succ_r by lia; lia).
  rewrite IH by lia. destruct m as [|p|p]; try lia. by rewrite Z.mul_comm.
Qed.

Lemma shl_align_pow m e e' :
  e' ≤ e → shl_align m e e' = (Z.to_pos (Zpos m * 2 ^ (e - e')), e').
Proof.
  intros H. unfold shl_align.
  assert (∀ d, Zpos (Pos.iter xO m d) = Zpos m * 2 ^ Zpos d) as Hiter.
  { induction d as [|d IH] using Pos.peano_ind; [simpl; lia|].
    rewrite Pos.iter_succ, Pos2Z.inj_xO, IH, Pos2Z.inj_succ, Z.pow_succ_r; lia. }
  destruct (e' - e) as [|p|p] eqn:E; [|lia|].
  - assert (e = e') as -> by lia. by rewrite Z.sub_diag, Z.mul_1_r.
  - replace (e - e') with (Zpos p) by lia. by rewrite <- Hiter.
Qed.

Lemma shl_align_none m e e' : e ≤ e' → shl_align m e e' = (m, e).
Proof. intros H. unfold shl_align. destruct (e' - e) eqn:E; [done|done|lia]. Qed.

(** ** The float of an integer *)

(** The normal form of [n < 2^53]: 53 binary digits. *)
Definition int_float (n : Z) : f64 :=
  S754_finite false (Z.to_pos (n * 2 ^ (52 - Z.log2 n))) (Z.log2 n - 52).

Lemma log2_small n : 0 < n < 2 ^ 53 → 0 ≤ Z.log2 n ≤ 52.
Proof.
  intros H. split; [apply Z.log2_nonneg|].
  enough (Z.log2 n < 53) by lia. apply Z.log2_lt_pow2; lia.
Qed.

Lemma fexp_normal d : - 1021 ≤ d → fexp 53 1024 d = d - 53.
Proof. intros H. unfold fexp, emin. lia. Qed.

(** Rounding to 53 digits shifts the others out. *)
Lemma shr_fexp_digits m e k :
  0 < m → Z.log2 m = 52 + Z.of_nat k → - 1074 ≤ e + Z.of_nat k →
  shr_fexp 53 1024 m e loc_Exact =
  (Nat.iter k shr_1 (Build_shr_record m false false), e + Z.of_nat k).
Proof.
  intros Hm Hl He. unfold shr_fexp. rewrite Zdigits2_log2, Hl, fexp_normal by lia.
  replace (52 + Z.of_nat k + 1 + e - 53 - e) with (Z.of_nat k) by lia.
  destruct k as [|k]; [by rewrite Z.add_0_r|].
  unfold shr. destruct (Z.of_nat (S k)) as [|p|p] eqn:E; try lia.
  rewrite iter_pos_nat. by replace (Pos.to_nat p) with (S k) by lia.
Qed.

(** Excess zeros at the end are shifted out; a mantissa of 53 digits is kept. *)
Lemma round_aux_zeros k m e :
  0 < m → Z.log2 m = 52 → - 1074 ≤ e + Z.of_nat k ≤ 971 →
  binary_round_aux 53 1024 false (m * 2 ^ Z.of_nat k) e loc_Exact =
  S754_finite false (Z.to_pos m) (e + Z.of_nat k).
Proof.
  intros Hm Hl He. unfold binary_round_aux.
  rewrite (shr_fexp_digits _ _ k) by (rewrite ?Z.log2_mul_pow2; lia).
  rewrite iter_shr_exact by done. cbn [round_nearest_even loc_of_shr_record shr_m].
  rewrite (shr_fexp_digits _ _ 0) by lia. cbn [Nat.iter shr_m]. rewrite Z.add_0_r.
  destruct m as [|p|p]; try lia. by destruct (Z.leb_spec (e + Z.of_nat k) (1024 - 53)); [|lia].
Qed.

Lemma round_aux_canonical m e :
  0 < m → Z.log2 m = 52 → - 1074 ≤ e ≤ 971 →
  binary_round_aux 53 1024 false m e loc_Exact = S754_finite false (Z.to_pos m) e.
Proof.
  intros Hm Hl He. pose proof (round_aux_zeros 0 m e Hm Hl) as H.
  rewrite Z.mul_1_r, Z.add_0_r in H. apply H. lia.
Qed.

Lemma mantissa_log2 n : 0 < n < 2 ^ 53 →
  0 < n * 2 ^ (52 - Z.log2 n) ∧ Z.log2 (n * 2 ^ (52 - Z.log2 n)) = 52.
Proof. intros H. pose proof (log2_small n H). split; [lia|]. rewrite Z.log2_mul_pow2; lia. Qed.

(** Whatever exponent the integer is presented with. *)
Lemma normalize_int n j : 0 < n < 2 ^ 53 → 0 ≤ j ≤ 1000 →
  binary_normalize 53 1024 (n * 2 ^ j) (- j) false = int_float n.
Proof.
  intros Hn Hj. pose proof (log2_small n Hn) as Hl. destruct (mantissa_log2 n Hn) as [Hm Hd].
  assert (0 < n * 2 ^ j) as Hp by lia.
  destruct (n * 2 ^ j) as [|p|p] eqn:Ep; try lia. unfold binary_normalize, binary_round.
  rewrite digits2_log2, <- Ep, Z.log2_mul_pow2, fexp_normal by lia.
  replace (j + Z.log2 n + 1 + - j - 53) with (Z.log2 n - 52) by lia.
  destruct (Z_le_gt_dec (Z.log2 n - 52) (- j)) as [Hle|Hgt].
  - rewrite shl_align_pow by done.
    replace (Zpos p * 2 ^ (- j - (Z.log2 n - 52))) with (n * 2 ^ (52 - Z.log2 n)).
    2: { rewrite <- Ep, <- Z.mul_assoc, <- Z.pow_add_r by lia. do 2 f_equal. lia. }
    rewrite Z2Pos.id by done. rewrite round_aux_canonical by (done || lia). done.
  - rewrite shl_align_none, <- Ep by lia.
    replace (n * 2 ^ j) with (n * 2 ^ (52 - Z.log2 n) * 2 ^ Z.of_nat (Z.to_nat (j - (52 - Z.log2 n)))).
    2: { rewrite <- Z.mul_assoc, <- Z.pow_add_r by lia. do 2 f_equal. lia. }
    rewrite round_aux_zeros by (done || lia). unfold int_float. f_equal. lia.
Qed.

Lemma f64_of_Z_int n : 0 < n < 2 ^ 53 → f64_of_Z n = int_float n.
Proof.
  intros Hn. unfold f64_of_Z. rewrite <- (normalize_int n 0) by (done || lia).
  by rewrite Z.mul_1_r.
Qed.

(** The mantissa of [x], at a smaller exponent. *)
Lemma shifted_mantissa x ez : 0 < x < 2 ^ 53 → ez ≤ Z.log2 x - 52 →
  Zpos (Z.to_pos (Zpos (Z.to_pos (x * 2 ^ (52 - Z.log2 x))) * 2 ^ (Z.log2 x - 52 - ez))) = x * 2 ^ (- ez).
Proof.
  intros Hx Hez. destruct (mantissa_log2 x Hx) as [Hm _]. pose proof (log2_small x Hx).
  rewrite (Z2Pos.id (x * _)) by done. rewrite Z2Pos.id by lia.
  rewrite <- Z.mul_assoc, <- Z.pow_add_r by lia. do 2 f_equal. lia.
Qed.

(** Positive integers add and subtract exactly. *)
Lemma int_float_add a b : 0 < a → 0 < b → a + b < 2 ^ 53 →
  f64_add (int_float a) (int_float b) = int_float (a + b).
Proof.
  intros Ha Hb Hab.
  pose proof (log2_small a ltac:(lia)) as La. pose proof (log2_small b ltac:(lia)) as Lb.
  unfold int_float at 1 2. unfold f64_add, SFadd. cbn [cond_Zopp].
  set (ez := Z.min _ _). rewrite !shl_align_pow by lia. cbn [fst].
  rewrite !shifted_mantissa by lia. rewrite <- Z.mul_add_distr_r.
  rewrite <- (Z.opp_involutive ez) at 2. apply normalize_int; lia.
Qed.

Lemma int_float_sub a b : 0 < b < a → a < 2 ^ 53 →
  f64_sub (int_float a) (int_float b) = int_float (a - b).
Proof.
  intros Hb Ha.
  pose proof (log2_small a ltac:(lia)) as La. pose proof (log2_small b ltac:(lia)) as Lb.
  unfold int_float at 1 2. unfold f64_sub, SFsub. cbn [cond_Zopp].
  set (ez := Z.min _ _). rewrite !shl_align_pow by lia. cbn [fst].
  rewrite !shifted_mantissa by lia. rewrite <- Z.mul_sub_distr_r.
  rewrite <- (Z.opp_involutive ez) at 2. apply normalize_int; lia.
Qed.

(** Adding the float of a count to the float of a count. *)
Lemma f64_add_int a b : 0 ≤ a → 0 ≤ b → a + b < 2 ^ 53 →
  f64_add (f64_of_Z a) (f64_of_Z b) = f64_of_Z (a + b).
Proof.
  intros Ha Hb Hab.
  destruct (Z.eq_dec a 0) as [->|Ha0]; [|destruct (Z.eq_dec b 0) as [->|Hb0]].
  - destruct (Z.eq_dec b 0) as [->|]; [done|]. by rewrite Z.add_0_l, (f64_of_Z_int b) by lia.
  - by rewrite Z.add_0_r, (f64_of_Z_int a) by lia.
  - rewrite !f64_of_Z_int by lia. apply int_float_add; lia.
Qed.

Lemma f64_sub_int a b : 0 ≤ b ≤ a → a < 2 ^ 53 →
  f64_sub (f64_of_Z a) (f64_of_Z b) = f64_of_Z (a - b).
Proof.
  intros Hb Ha. destruct (Z.eq_dec b 0) as [->|Hb0]; [|destruct (Z.eq_dec a b) as [->|Hab]].
  - rewrite Z.sub_0_r. destruct (Z.eq_dec a 0) as [->|]; [done|]. by rewrite (f64_of_Z_int a) by lia.
  - rewrite Z.sub_diag, (f64_of_Z_int b) by lia. unfold f64_sub, SFsub, int_float. cbn [cond_Zopp].
    by rewrite Z.sub_diag.
  - rewrite !f64_of_Z_int by lia. apply int_float_sub; lia.
Qed.

(** The order of the floats of counts is the order of the counts. *)
Lemma f64_ltb_int a b : 0 ≤ a < 2 ^ 53 → 0 ≤ b < 2 ^ 53 → f64_ltb (f64_of_Z a) (f64_of_Z b) = (a <? b).
Proof.
  intros Ha Hb. destruct (Z.eq_dec a 0) as [->|Ha0]; destruct (Z.eq_dec b 0) as [->|Hb0]; [done|..].
  - rewrite (f64_of_Z_int b) by lia. by destruct (Z.ltb_spec 0 b); [|lia].
  - rewrite (f64_of_Z_int a) by lia. by destruct (Z.ltb_spec a 0); [lia|].
  - rewrite !f64_of_Z_int by lia. unfold f64_ltb, SFltb, int_float, SFcompare.
    destruct (mantissa_log2 a ltac:(lia)) as [Ma _]. destruct (mantissa_log2 b ltac:(lia)) as [Mb _].
    destruct (Z.compare_spec (Z.log2 a - 52) (Z.log2 b - 52)) as [E|E|E].
    + change (Pos.compare_cont Eq ?x ?y) with (Pos.compare x y). rewrite Pos2Z.inj_compare, !Z2Pos.id by done.
      replace (Z.log2 b) with (Z.log2 a) by lia. pose proof (log2_small a ltac:(lia)).
      rewrite <- (Zmult_compare_compat_r) by lia. by rewrite Z.ltb_compare.
    + symmetry. apply Z.ltb_lt. apply Z.log2_lt_cancel. lia.
    + symmetry. apply Z.ltb_ge. apply Z.lt_le_incl, Z.log2_lt_cancel. lia.
Qed.

Lemma f64_zero_of_Z : f64_zero = f64_of_Z 0.
Proof. done. Qed.

(** A sum of counts is the count of the whole, in whatever order it is taken. *)
Lemma f64_sum_int (l : list Z) a :
  Forall (λ n, 0 ≤ n) l → 0 ≤ a → a + foldr Z.add 0 l < 2 ^ 53 →
  foldl f64_add (f64_of_Z a) (f64_of_Z <$> l) = f64_of_Z (a + foldr Z.add 0 l).
Proof.
  revert a. induction l as [|n l IH]; intros a Hl Ha Hs; simpl in *; [by rewrite Z.add_0_r|].
  apply Forall_cons in Hl as [Hn Hl].
  assert (0 ≤ foldr Z.add 0 l) as H0 by (clear -Hl; induction Hl; simpl; lia).
  rewrite f64_add_int by lia. rewrite IH by (done || lia). f_equal. lia.
Qed.

(** ** Fractions of an integer *)

(** [x] is a non-negative float of value at most [n]. *)
Definition at_most (n : Z) (x : f64) : Prop :=
  match x with
  | S754_zero false => True
  | S754_finite false m e => Zpos m * 2 ^ Z.max 0 e ≤ n * 2 ^ Z.max 0 (- e)
  | _ => False
  end.

Lemma at_most_trunc n x : 0 ≤ n → at_most n x → 0 ≤ f64_trunc x ≤ n.
Proof.
  intros Hn. destruct x as [[]|[]| |[] m e]; simpl; try done; intros H; try lia.
  destruct (Z.leb_spec 0 e).
  - rewrite (Z.max_r 0 e), (Z.max_l 0 (- e)) in H by lia. lia.
  - rewrite (Z.max_l 0 e), (Z.max_r 0 (- e)) in H by lia. split; [apply Z.div_pos; lia|].
    apply Z.div_le_upper_bound; lia.
Qed.

(** Rounding [k] digits away: the mantissa is rounded down or up by one, and
    renormalised when that makes it [2^53]. *)
Lemma round_aux_near m e k :
  0 < m → Z.log2 m = 52 + Z.of_nat k → - 1074 ≤ e + Z.of_nat k ≤ 960 →
  ∃ m1, m / 2 ^ Z.of_nat k ≤ m1 ≤ m / 2 ^ Z.of_nat k + 1 ∧ 2 ^ 52 ≤ m1 ∧
    (m1 < 2 ^ 53 ∧
       binary_round_aux 53 1024 false m e loc_Exact = S754_finite false (Z.to_pos m1) (e + Z.of_nat k) ∨
     m1 = 2 ^ 53 ∧
       binary_round_aux 53 1024 false m e loc_Exact = S754_finite false (2 ^ 52) (e + Z.of_nat k + 1)).
Proof.
  intros Hm Hl He. destruct (Z.log2_spec m Hm) as [Hlo Hhi]. unfold binary_round_aux.
  rewrite (shr_fexp_digits _ _ k) by lia.
  pose proof (iter_shr_div k (Build_shr_record m false false) ltac:(simpl; lia)) as Hd.
  destruct (Nat.iter k shr_1 _) as [f r s]. cbn [shr_m] in *. subst f.
  assert (2 ^ 52 ≤ m / 2 ^ Z.of_nat k < 2 ^ 53) as Hf.
  { rewrite Hl in Hlo, Hhi. replace (Z.succ (52 + Z.of_nat k)) with (53 + Z.of_nat k) in Hhi by lia.
    rewrite Z.pow_add_r in Hlo, Hhi by lia. split; [apply Z.div_le_lower_bound; lia|].
    apply Z.div_lt_upper_bound; lia. }
  set (m1 := round_nearest_even _ _).
  assert (m / 2 ^ Z.of_nat k ≤ m1 ≤ m / 2 ^ Z.of_nat k + 1) as Hm1.
  { unfold m1, round_nearest_even. destruct r, s; simpl; try lia. case_match; lia. }
  exists m1. split; [done|]. split; [lia|]. clearbody m1. destruct (decide (m1 = 2 ^ 53)) as [->|Hne]; [right|left].
  - split; [done|]. rewrite (shr_fexp_digits _ _ 1) by (simpl; lia). cbn [Nat.iter shr_m].
    destruct (Z.leb_spec (e + Z.of_nat k + Z.of_nat 1) (1024 - 53)); [done|lia].
  - split; [lia|]. assert (Z.log2 m1 = 52) as Hl1 by (apply Z.log2_unique; lia).
    rewrite (shr_fexp_digits _ _ 0) by lia. cbn [Nat.iter shr_m]. rewrite Z.add_0_r.
    destruct m1 as [|p|p]; try lia. by destruct (Z.leb_spec (e + Z.of_nat k) (1024 - 53)); [|lia].
Qed.

(** An integer times a fraction below one is at most the integer. *)
Lemma f64_mul_fraction n mp ep :
  0 < n < 2 ^ 53 → Z.log2 (Zpos mp) = 52 → - 900 ≤ ep ≤ - 53 →
  at_most n (f64_mul (f64_of_Z n) (S754_finite false mp ep)).
Proof.
  intros Hn Hp He. rewrite f64_of_Z_int by done. unfold f64_mul, int_float, SFmul. cbn [xorb].
  pose proof (log2_small n Hn) as Hl. destruct (mantissa_log2 n Hn) as [Hm Hd].
  set (mx := n * 2 ^ (52 - Z.log2 n)) in *.
  destruct (Z.log2_spec mx Hm) as [Hx1 Hx2]. rewrite Hd in Hx1, Hx2.
  destruct (Z.log2_spec (Zpos mp) ltac:(lia)) as [Hp1 Hp2]. rewrite Hp in Hp1, Hp2.
  rewrite Pos2Z.inj_mul, Z2Pos.id by done.
  assert (∃ k : nat, (k = 52 ∨ k = 53)%nat ∧ Z.log2 (mx * Zpos mp) = 52 + Z.of_nat k) as (k & Hk & Hlk).
  { pose proof (Z.log2_mul_below mx (Zpos mp) ltac:(lia) ltac:(lia)).
    pose proof (Z.log2_mul_above mx (Zpos mp) ltac:(lia) ltac:(lia)).
    destruct (decide (Z.log2 (mx * Zpos mp) = 104)); [exists 52%nat|exists 53%nat]; split; [auto|lia|auto|lia]. }
  destruct (round_aux_near (mx * Zpos mp) (Z.log2 n - 52 + ep) k) as (m1 & Hm1 & Hpos & Hres);
    [lia|done|lia|].
  assert (mx = n * 2 ^ (52 - Z.log2 n)) as Emx by done. clearbody mx.
  set (e1 := Z.log2 n - 52 + ep + Z.of_nat k) in *.
  assert (m1 ≤ n * 2 ^ (- e1)) as Hle.
  { replace (- e1) with ((52 - Z.log2 n) + (- (ep + Z.of_nat k))) by lia.
    rewrite Z.pow_add_r, Z.mul_assoc, <- Emx by lia.
    destruct (decide (ep + Z.of_nat k = 0)) as [E0|E0].
    - rewrite E0. enough (mx * Zpos mp / 2 ^ Z.of_nat k < mx) by lia.
      destruct Hk as [->| ->]; [lia|]. apply Z.div_lt_upper_bound; [lia|].
      change (Z.of_nat 53) with 53. nia.
    - assert (2 ^ 1 ≤ 2 ^ (- (ep + Z.of_nat k))) by (apply Z.pow_le_mono_r; lia).
      assert (m1 ≤ 2 ^ 53) by (destruct Hres as [[? _]|[? _]]; lia). nia. }
  destruct Hres as [[Hlt ->]|[-> ->]]; simpl.
  - rewrite (Z.max_l 0 e1), (Z.max_r 0 (- e1)) by lia. rewrite Z2Pos.id; lia.
  - destruct (decide (e1 = 0)) as [->|He1]; [simpl in *; lia|].
    rewrite (Z.max_l 0 (e1 + 1)), (Z.max_r 0 (- (e1 + 1))) by lia.
    replace (- e1) with (Z.succ (- (e1 + 1))) in Hle by lia. rewrite Z.pow_succ_r in Hle by lia. lia.
Qed.

(** [int(float64(n) * p)] is an index up to [n], for every fraction [p < 1]. *)
Lemma trunc_fraction n mp ep :
  0 ≤ n < 2 ^ 53 → Z.log2 (Zpos mp) = 52 → - 900 ≤ ep ≤ - 53 →
  0 ≤ f64_trunc (f64_mul (f64_of_Z n) (S754_finite false mp ep)) ≤ n.
Proof.
  intros Hn Hp He. destruct (decide (n = 0)) as [->|]; [done|].
  apply at_most_trunc; [lia|]. apply f64_mul_fraction; [lia|done|done].
Qed.
