(* ===== verification/Base64.v ===== *)
(** * encoding/base64

    [base64.StdEncoding] as the snapshot code uses it: bytes are [Z] in [0,256). *)

From Stdlib Require Import Ascii.
From S2P Require Import Prelude.

(** The character of a 6-bit value. *)
Definition b64_char (n : Z) : ascii :=
  ascii_of_nat (Z.to_nat
    (if n <? 26 then n + 65
     else if n <? 52 then n + 71
     else if n <? 62 then n - 4
     else if n =? 62 then 43 else 47)).

Definition b64_val (c : ascii) : option Z :=
  let n := Z.of_nat (nat_of_ascii c) in
  if (65 <=? n) && (n <=? 90) then Some (n - 65)
  else if (97 <=? n) && (n <=? 122) then Some (n - 71)
  else if (48 <=? n) && (n <=? 57) then Some (n + 4)
  else if n =? 43 then Some 62
  else if n =? 47 then Some 63
  else None.

Definition b64_pad : ascii := "="%char.

(** [EncodeToString] *)
Fixpoint EncodeToString (src : list Z) : list ascii :=
  match src with
  | a :: b :: c :: rest =>
      b64_char (a / 4) :: b64_char (a mod 4 * 16 + b / 16) :: b64_char (b mod 16 * 4 + c / 64) ::
      b64_char (c mod 64) :: EncodeToString rest
  | [a; b] => [b64_char (a / 4); b64_char (a mod 4 * 16 + b / 16); b64_char (b mod 16 * 4); b64_pad]
  | [a] => [b64_char (a / 4); b64_char (a mod 4 * 16); b64_pad; b64_pad]
  | [] => []
  end.

(** [DecodeString]: line breaks are ignored, a final group may be padded, anything
    else is an error. *)
Definition not_newline (c : ascii) : bool := negb (Ascii.eqb c "010"%char) && negb (Ascii.eqb c "013"%char).

Fixpoint decode_quads (s : list ascii) : option (list Z) :=
  match s with
  | [] => Some []
  | p :: q :: r :: t :: rest =>
      a ← b64_val p; b ← b64_val q;
      if Ascii.eqb r b64_pad then
        if Ascii.eqb t b64_pad then match rest with [] => Some [a * 4 + b / 16] | _ => None end else None
      else
        c ← b64_val r;
        if Ascii.eqb t b64_pad then
          match rest with [] => Some [a * 4 + b / 16; b mod 16 * 16 + c / 4] | _ => None end
        else
          d ← b64_val t;
          l ← decode_quads rest;
          Some (a * 4 + b / 16 :: b mod 16 * 16 + c / 4 :: c mod 4 * 64 + d :: l)
  | _ => None
  end.

Definition DecodeString (s : list ascii) : option (list Z) := decode_quads (List.filter not_newline s).

Definition is_byte (b : Z) : Prop := 0 ≤ b < 256.

(** Checked for all 64 values. *)
Definition b64_ok (n : Z) : bool :=
  bool_decide (b64_val (b64_char n) = Some n) && negb (Ascii.eqb (b64_char n) b64_pad) &&
  not_newline (b64_char n).

Lemma b64_all : forallb b64_ok (seqZ 0 64) = true.
Proof. vm_compute. reflexivity. Qed.

Lemma b64_char_spec n : 0 ≤ n < 64 →
  b64_val (b64_char n) = Some n ∧ Ascii.eqb (b64_char n) b64_pad = false ∧ not_newline (b64_char n) = true.
Proof.
  intros Hn. pose proof (proj1 (forallb_forall _ _) b64_all n) as Hf.
  assert (b64_ok n = true) as Hok.
  { apply Hf. apply list_elem_of_In, elem_of_seqZ. lia. }
  unfold b64_ok in Hok. rewrite !andb_true_iff, negb_true_iff, bool_decide_eq_true in Hok. tauto.
Qed.

Ltac divmod := Z.to_euclidean_division_equations; lia.

Lemma b64_list_ind (P : list Z → Prop) :
  P [] → (∀ a, P [a]) → (∀ a b, P [a; b]) → (∀ a b c l, P l → P (a :: b :: c :: l)) → ∀ l, P l.
Proof.
  intros H0 H1 H2 H3. assert (∀ l, P l ∧ (∀ a, P (a :: l)) ∧ ∀ a b, P (a :: b :: l)) as H; [|intros l; apply H].
  induction l as [|x l (IH1 & IH2 & IH3)]; [done|]. split_and!; [apply IH2|intros a; apply IH3|].
  intros a b. apply H3, IH1.
Qed.

(** Decoding what was encoded gives the bytes back. *)
Lemma b64_roundtrip l : Forall is_byte l → DecodeString (EncodeToString l) = Some l.
Proof.
  intros Hl. assert (List.filter not_newline (EncodeToString l) = EncodeToString l ∧
    decode_quads (EncodeToString l) = Some l) as [Hn Hd]; [|unfold DecodeString; by rewrite Hn].
  induction l as [|a|a b|a b c l IH] using b64_list_ind; [done|..].
  - inversion_clear Hl as [|? ? Ha _]. unfold is_byte in Ha.
    destruct (b64_char_spec (a / 4) ltac:(divmod)) as (V1 & P1 & N1).
    destruct (b64_char_spec (a mod 4 * 16) ltac:(divmod)) as (V2 & P2 & N2).
    simpl. rewrite N1, N2, V1, V2. split; [done|]. simpl. do 2 f_equal. divmod.
  - inversion_clear Hl as [|? ? Ha Hl']. inversion_clear Hl' as [|? ? Hb _]. unfold is_byte in *.
    destruct (b64_char_spec (a / 4) ltac:(divmod)) as (V1 & P1 & N1).
    destruct (b64_char_spec (a mod 4 * 16 + b / 16) ltac:(divmod)) as (V2 & P2 & N2).
    destruct (b64_char_spec (b mod 16 * 4) ltac:(divmod)) as (V3 & P3 & N3).
    simpl. rewrite N1, N2, N3, V1, V2. split; [done|]. simpl. rewrite P3, V3. simpl.
    do 2 f_equal; [divmod|]. f_equal. divmod.
  - inversion_clear Hl as [|? ? Ha Hl']. inversion_clear Hl' as [|? ? Hb Hl]. inversion_clear Hl as [|? ? Hc Hl'].
    destruct (IH Hl') as [IHn IHd]. unfold is_byte in *.
    destruct (b64_char_spec (a / 4) ltac:(divmod)) as (V1 & P1 & N1).
    destruct (b64_char_spec (a mod 4 * 16 + b / 16) ltac:(divmod)) as (V2 & P2 & N2).
    destruct (b64_char_spec (b mod 16 * 4 + c / 64) ltac:(divmod)) as (V3 & P3 & N3).
    destruct (b64_char_spec (c mod 64) ltac:(divmod)) as (V4 & P4 & N4).
    simpl. rewrite N1, N2, N3, N4, IHn, V1, V2. split; [done|]. simpl.
    rewrite P3, V3. simpl. rewrite P4, V4. simpl. rewrite IHd. simpl.
    do 2 f_equal; [divmod|]. f_equal; [divmod|]. f_equal. divmod.
Qed.
