(* ===== verification/Codec.v ===== *)
(** * Byte codecs

    Encoders to bytes with a decoder that reads one value off the front of its
    input, closed under the usual type formers.  They give the reference instance
    of the DNS library a wire format that can be read back. *)

From Stdlib Require Import Ascii.
From S2P Require Import Prelude Base64.

Class Codec (A : Type) := {
  enc : A → list Z;
  dec : list Z → option (A * list Z);
  dec_enc a l : dec (enc a ++ l) = Some (a, l);
  enc_bytes a : Forall is_byte (enc a);
}.

Section codecs.
Context {A B : Type} `{!Codec A, !Codec B}.

(** Numbers in unary. *)
Fixpoint dec_nat (l : list Z) : option (nat * list Z) :=
  match l with
  | 0 :: l => Some (O, l)
  | 1 :: l => '(n, l) ← dec_nat l; Some (S n, l)
  | _ => None
  end.

#[export] Instance nat_codec : Codec nat.
Proof.
  refine {| enc n := repeat 1 n ++ [0]; dec := dec_nat |}.
  - intros n l. induction n as [|n IH]; [done|]. simpl. by rewrite IH.
  - intros n. apply Forall_app. split; [|by repeat constructor].
  induction n as [|n IH]; [constructor|]. constructor; [done|exact IH].
Defined.

#[export] Instance prod_codec : Codec (A * B).
Proof.
  refine {| enc p := enc p.1 ++ enc p.2;
  dec l := '(a, l) ← dec l; '(b, l) ← dec l; Some ((a, b), l) |}.
  - intros [a b] l. rewrite <-app_assoc, dec_enc. simpl. rewrite dec_enc. done.
  - intros [a b]. apply Forall_app. split; apply enc_bytes.
Defined.

(** Lists behind their length. *)
Fixpoint dec_list (n : nat) (l : list Z) : option (list A * list Z) :=
  match n with
  | O => Some ([], l)
  | S n => '(a, l) ← dec l; '(x, l) ← dec_list n l; Some (a :: x, l)
  end.

Lemma dec_list_enc x l : dec_list (length x) (concat (enc <$> x) ++ l) = Some (x, l).
Proof.
  induction x as [|a x IH]; [done|]. cbn [length dec_list]. rewrite fmap_cons. cbn [concat].
  rewrite <-app_assoc, dec_enc. cbn. rewrite IH. done.
Qed.

#[export] Instance list_codec : Codec (list A).
Proof.
  refine {| enc x := enc (length x) ++ concat (enc <$> x);
  dec l := '(n, l) ← dec l; dec_list n l |}.
  - intros x l. rewrite <-app_assoc, dec_enc. apply dec_list_enc.
  - intros x. apply Forall_app. split; [apply enc_bytes|]. induction x as [|a x IH]; [constructor|].
  apply Forall_app. split; [apply enc_bytes|exact IH].
Defined.
End codecs.

(** A type that embeds in another. *)
Definition iso_codec {A B} `{!Codec B} (f : A → B) (g : B → A) (Hgf : ∀ a, g (f a) = a) : Codec A.
Proof.
  refine {| enc a := enc (f a); dec l := '(b, l) ← dec l; Some (g b, l) |}.
  - intros a l. rewrite dec_enc. simpl. by rewrite Hgf.
  - intros a. apply enc_bytes.
Defined.

#[export] Instance bool_codec : Codec bool.
Proof.
  refine {| enc b := [if b : bool then 1 else 0];
  dec l := match l with 0 :: l => Some (false, l) | 1 :: l => Some (true, l) | _ => None end |}.
  - by intros [] l.
  - intros []; by repeat constructor.
Defined.

(** Characters are their codes. *)
#[export] Instance byte_codec : Codec ascii.
Proof.
  refine {| enc c := [Z.of_nat (nat_of_ascii c)];
  dec l := match l with z :: l => Some (ascii_of_nat (Z.to_nat z), l) | [] => None end |}.
  - intros c l. simpl. by rewrite Nat2Z.id, ascii_nat_embedding.
  - intros c. repeat constructor; [lia|]. pose proof (nat_ascii_bounded c). lia.
Defined.

#[export] Instance string_codec : Codec string :=
  iso_codec String.list_ascii_of_string String.string_of_list_ascii String.string_of_list_ascii_of_string.

(** Integers as a sign and the bits of the magnitude. *)
Fixpoint pos_bits (p : positive) : list bool :=
  match p with xH => [] | xO p => false :: pos_bits p | xI p => true :: pos_bits p end.
Fixpoint bits_pos (l : list bool) : positive :=
  match l with [] => xH | false :: l => xO (bits_pos l) | true :: l => xI (bits_pos l) end.

Lemma bits_pos_bits p : bits_pos (pos_bits p) = p.
Proof. induction p; simpl; congruence. Qed.

Definition Z_split (z : Z) : nat * list bool :=
  match z with Z0 => (0%nat, []) | Zpos p => (1%nat, pos_bits p) | Zneg p => (2%nat, pos_bits p) end.
Definition Z_join (x : nat * list bool) : Z :=
  match x with (0%nat, _) => Z0 | (1%nat, l) => Zpos (bits_pos l) | (_, l) => Zneg (bits_pos l) end.

Lemma Z_join_split z : Z_join (Z_split z) = z.
Proof. destruct z; simpl; by rewrite ?bits_pos_bits. Qed.

#[export] Instance Z_codec : Codec Z := iso_codec Z_split Z_join Z_join_split.
