(* ===== verification/NetIP.v ===== *)
(** * Go's [net.IP]: parsing and printing

    The part of the standard library's [net] package the resolver uses:
    [net.ParseIP], [IP.To4] and [IP.String].  An address is its byte slice: 4
    bytes, or 16 bytes where the prefix ::ffff:0:0/96 holds an IPv4 address; the
    nil slice is the empty list. *)

From Stdlib Require Import Ascii.
From S2P Require Import Prelude.

Definition v4InV6Prefix : list Z := [0; 0; 0; 0; 0; 0; 0; 0; 0; 0; 255; 255].

(** [ip.To4()] *)
Definition To4 (ip : list Z) : option (list Z) :=
  if Nat.eqb (length ip) 4 then Some ip
  else if Nat.eqb (length ip) 16 && bool_decide (take 12 ip = v4InV6Prefix) then Some (drop 12 ip)
  else None.

(** ** Printing *)

Definition dotted (ip : list Z) : string :=
  String.concat "." (map (λ b : Z, pretty b) ip).

Definition hex_digit (n : Z) : ascii :=
  if n <? 10 then Ascii.ascii_of_nat (Z.to_nat (48 + n)) else Ascii.ascii_of_nat (Z.to_nat (87 + n)).

(** Lower-case hexadecimal without leading zeros, for a 16-bit group. *)
Fixpoint hex_go (fuel : nat) (n : Z) (acc : string) : string :=
  match fuel with
  | O => acc
  | S f =>
      let acc := String (hex_digit (n mod 16)) acc in
      if n / 16 =? 0 then acc else hex_go f (n / 16) acc
  end.
Definition hex (n : Z) : string := hex_go 4 n "".

Fixpoint groups16 (ip : list Z) : list Z :=
  match ip with
  | a :: b :: r => (a * 256 + b) :: groups16 r
  | _ => []
  end.

Fixpoint zero_run (l : list Z) : nat :=
  match l with
  | 0 :: r => S (zero_run r)
  | _ => 0
  end.

(** Start and length of the first longest run of at least two zero groups. *)
Fixpoint best_run (i : nat) (l : list Z) (best : nat * nat) : nat * nat :=
  match l with
  | [] => best
  | _ :: r =>
      let n := zero_run l in
      best_run (S i) r (if Nat.ltb best.2 n && Nat.leb 2 n then (i, n) else best)
  end.

Definition ip6_string (ip : list Z) : string :=
  let g := groups16 ip in
  let '(s, n) := best_run 0 g (0%nat, 0%nat) in
  let show l := String.concat ":" (map hex l) in
  if Nat.eqb n 0 then show g
  else show (take s g) +:+ "::" +:+ show (drop (s + n) g).

Definition hex_byte (b : Z) : string := String (hex_digit (b / 16)) (String (hex_digit (b mod 16)) "").

(** [ip.String()] *)
Definition IP_String (ip : list Z) : string :=
  match To4 ip with
  | Some v4 => dotted v4
  | None =>
      match ip with
      | [] => "<nil>"
      | _ => if Nat.eqb (length ip) 16 then ip6_string ip
             else "?" +:+ String.concat "" (map hex_byte ip)
      end
  end.

(** ** Parsing *)

Definition is_digit (a : ascii) : bool :=
  let n := Z.of_nat (Ascii.nat_of_ascii a) in (48 <=? n) && (n <=? 57).

Definition digit_val (a : ascii) : Z := Z.of_nat (Ascii.nat_of_ascii a) - 48.

Definition hex_val (a : ascii) : option Z :=
  let n := Z.of_nat (Ascii.nat_of_ascii a) in
  if (48 <=? n) && (n <=? 57) then Some (n - 48)
  else if (97 <=? n) && (n <=? 102) then Some (n - 87)
  else if (65 <=? n) && (n <=? 70) then Some (n - 55)
  else None.

(** Dotted decimal: four fields of one to three digits, no leading zero, each
    at most 255.  [val] and [digLen] are the value and the number of digits of
    the field being read, [fields] the bytes read so far. *)
Fixpoint parse_v4 (s : string) (val digLen : Z) (fields : list Z) : option (list Z) :=
  match s with
  | EmptyString =>
      if (0 <? digLen) && Nat.eqb (length fields) 3 then Some (fields ++ [val]) else None
  | String c r =>
      if is_digit c then
        if (digLen =? 1) && (val =? 0) then None
        else
          let v := val * 10 + digit_val c in
          if 255 <? v then None else parse_v4 r v (digLen + 1) fields
      else if Ascii.eqb c "."%char then
        if (digLen =? 0) then None
        else if Nat.eqb (length fields) 3 then None
        else parse_v4 r 0 0 (fields ++ [val])
      else None
  end.

(** Up to four hexadecimal digits: the value, how many digits, and the rest. *)
Fixpoint take_hex (fuel : nat) (s : string) (acc n : Z) : option (Z * Z * string) :=
  match s with
  | String c r =>
      match hex_val c with
      | Some v =>
          match fuel with
          | O => None
          | S f => take_hex f r (acc * 16 + v) (n + 1)
          end
      | None => Some (acc, n, s)
      end
  | EmptyString => Some (acc, n, s)
  end.

(** [bytes] are the bytes read, [ell] the position of "::" if it was seen.  The
    result pairs them; every turn of the loop reads two bytes, so eight are
    enough for an address. *)
Fixpoint parse_v6_loop (fuel : nat) (s : string) (bytes : list Z) (ell : option nat)
    : option (list Z * option nat * string) :=
  match fuel with
  | O => Some (bytes, ell, s)
  | S f =>
      match take_hex 4 s 0 0 with
      | None => None
      | Some (_, 0, _) => None
      | Some (acc, _, String "."%char _) =>
          if (match ell with None => negb (Nat.eqb (length bytes) 12) | Some _ => false end) then None
          else if Nat.ltb 16 (length bytes + 4) then None
          else match parse_v4 s 0 0 [] with
               | Some v4 => Some (bytes ++ v4, ell, EmptyString)
               | None => None
               end
      | Some (acc, _, rest) =>
          let bytes := bytes ++ [acc / 256; acc mod 256] in
          match rest with
          | EmptyString => Some (bytes, ell, EmptyString)
          | String c r =>
              if negb (Ascii.eqb c ":"%char) then None
              else match r with
                   | EmptyString => None
                   | String c2 r2 =>
                       if Ascii.eqb c2 ":"%char then
                         match ell with
                         | Some _ => None
                         | None =>
                             match r2 with
                             | EmptyString => Some (bytes, Some (length bytes), EmptyString)
                             | _ => parse_v6_loop f r2 bytes (Some (length bytes))
                             end
                         end
                       else parse_v6_loop f r bytes ell
                   end
          end
      end
  end.

(** Expanding "::" once the bytes are read. *)
Definition v6_finish (r : option (list Z * option nat * string)) : option (list Z) :=
  match r with
  | Some (bytes, ell, EmptyString) =>
      if Nat.ltb (length bytes) 16 then
        match ell with
        | None => None
        | Some e => Some (take e bytes ++ replicate (16 - length bytes) 0 ++ drop e bytes)
        end
      else match ell with None => Some bytes | Some _ => None end
  | _ => None
  end.

Definition parse_v6 (s : string) : option (list Z) :=
  match s with
  | String ":"%char (String ":"%char EmptyString) => Some (replicate 16 0)
  | String ":"%char (String ":"%char r) => v6_finish (parse_v6_loop 8 r [] (Some 0%nat))
  | _ => v6_finish (parse_v6_loop 8 s [] None)
  end.

(** The first of [.] and [:] decides the family. *)
Fixpoint ip_family (s : string) : option bool :=
  match s with
  | EmptyString => None
  | String c r =>
      if Ascii.eqb c "."%char then Some true
      else if Ascii.eqb c ":"%char then Some false
      else if Ascii.eqb c "%"%char then None
      else ip_family r
  end.

(** [net.ParseIP(s)]: 16 bytes, or nil. *)
Definition ParseIP (s : string) : option (list Z) :=
  match ip_family s with
  | Some true => (λ v4, v4InV6Prefix ++ v4) <$> parse_v4 s 0 0 []
  | Some false => parse_v6 s
  | None => None
  end.

Example ParseIP_v4 : ParseIP "198.41.0.4" = Some (v4InV6Prefix ++ [198; 41; 0; 4]).
Proof. reflexivity. Qed.
Example ParseIP_v4_bad : (ParseIP "1.2.3", ParseIP "1.2.3.256", ParseIP "01.2.3.4", ParseIP "a.b") = (None, None, None, None).
Proof. reflexivity. Qed.
Example ParseIP_v6 : IP_String <$> ParseIP "2001:DB8::1" = Some "2001:db8::1".
Proof. reflexivity. Qed.
Example ParseIP_v6_bad : (ParseIP "1::2::3", ParseIP ":1", ParseIP "1:2:3:4:5:6:7:8::", ParseIP "12345::") = (None, None, None, None).
Proof. reflexivity. Qed.
Example ParseIP_v6_all : (IP_String <$> ParseIP "::", IP_String <$> ParseIP "1:0:0:2:0:0:0:3", IP_String <$> ParseIP "::ffff:1.2.3.4")
  = (Some "::", Some "1:0:0:2::3", Some "1.2.3.4").
Proof. vm_compute. reflexivity. Qed.

Lemma parse_v4_length s v n fields ip : parse_v4 s v n fields = Some ip → length ip = 4%nat.
Proof.
  revert v n fields. induction s as [|c s IH]; intros v n fields; simpl.
  - destruct (Nat.eqb_spec (length fields) 3) as [E|]; [|by rewrite andb_false_r].
    destruct (0 <? n); [|done]. intros [= <-]. rewrite length_app, E. done.
  - repeat case_match; try done; apply IH.
Qed.

Lemma parse_v6_loop_length fuel s bytes ell b e rest :
  (length bytes + 2 * fuel ≤ 16)%nat → parse_v6_loop fuel s bytes ell = Some (b, e, rest) →
  (length b ≤ 16)%nat.
Proof.
  revert s bytes ell. induction fuel as [|fuel IH]; intros s bytes ell Hl; cbn [parse_v6_loop].
  { intros [= <- _ _]. lia. }
  assert (∀ x y, length (bytes ++ [x; y]) = (length bytes + 2)%nat) as Hb
    by (intros; rewrite length_app; simpl; lia).
  destruct (take_hex 4 s 0 0) as [[[acc n] r]|]; [|done].
  destruct n; [done|..].
  all: destruct r as [|c r].
  all: try destruct c as [[] [] [] [] [] [] [] []].
  all: repeat match goal with
    | |- (match ?x with _ => _ end) = _ → _ => destruct x eqn:?
    | |- (if ?x then _ else _) = _ → _ => destruct x eqn:?
    end; try done.
  all: try (intros [= <- _ _]; rewrite ?Hb; lia).
  all: try (apply IH; rewrite Hb; lia).
  all: intros [= <- _ _]; rewrite length_app;
    match goal with H : parse_v4 _ _ _ _ = Some _ |- _ => rewrite (parse_v4_length _ _ _ _ _ H) end;
    match goal with H : Nat.ltb _ _ = false |- _ => apply Nat.ltb_ge in H; lia end.
Qed.

(** [net.ParseIP] gives sixteen bytes. *)
Lemma ParseIP_length s ip : ParseIP s = Some ip → length ip = 16%nat.
Proof.
  unfold ParseIP. destruct (ip_family s) as [[]|]; [| |done].
  - destruct (parse_v4 s 0 0 []) as [v4|] eqn:E; [|done]. intros [= <-]. simpl.
    f_equal. rewrite (parse_v4_length _ _ _ _ _ E). done.
  - unfold parse_v6.
    assert (∀ s' ell, v6_finish (parse_v6_loop 8 s' [] ell) = Some ip → length ip = 16%nat) as Hfin.
    { intros s' ell. destruct (parse_v6_loop 8 s' [] ell) as [[[b e] [|]]|] eqn:E; [|done..].
      pose proof (parse_v6_loop_length 8 s' [] ell b e "" ltac:(simpl; lia) E) as Hb. simpl.
      destruct (Nat.ltb_spec (length b) 16); destruct e as [e|]; try done; intros [= <-]; [|lia].
      rewrite !length_app, length_replicate, length_take, length_drop. lia. }
    repeat match goal with
    | |- (match ?x with _ => _ end) = _ → _ => destruct x; try apply Hfin
    end. by intros [= <-].
Qed.

Lemma To4_length ip v4 : To4 ip = Some v4 → length v4 = 4%nat.
Proof.
  unfold To4. destruct (Nat.eqb_spec (length ip) 4); [by intros [= <-]|].
  destruct (Nat.eqb_spec (length ip) 16) as [E|]; [|done]. simpl. case_match; [|done].
  intros [= <-]. rewrite length_drop. lia.
Qed.
