(* ===== verification/Dns.v ===== *)
(** * The interface of github.com/miekg/dns

    The resolver is written against the types and functions of the third-party
    package [dns].  Its message types are transcribed with the fields the
    resolver reads or writes; its functions are the operations of the class
    [DnsLib], and what the resolver relies on of them are the laws of
    [DnsLibLaws].  [RefDns] at the end is one instance, so that every theorem
    that uses the interface can be evaluated. *)

From Stdlib Require Import Ascii.
From S2P Require Import Prelude NetIP Base64 Codec.

(** ** Messages *)

Record RR_Header := mkHdr {
  Hdr_Name : string;
  Hdr_Rrtype : Z;     (* uint16 *)
  Hdr_Class : Z;      (* uint16 *)
  Hdr_Ttl : Z;        (* uint32 *)
}.

(** [dns.RR] is an interface; the resolver only ever asserts the concrete types
    below, every other record type is [RR_other]. *)
Inductive RR : Type :=
| RR_A (h : RR_Header) (A : list Z)
| RR_AAAA (h : RR_Header) (AAAA : list Z)
| RR_NS (h : RR_Header) (Ns : string)
| RR_CNAME (h : RR_Header) (Target : string)
| RR_SOA (h : RR_Header) (Minttl : Z)
| RR_OPT (h : RR_Header)
| RR_other (h : RR_Header) (rdata : string).

(** [rr.Header()] *)
Definition Header (rr : RR) : RR_Header :=
  match rr with
  | RR_A h _ | RR_AAAA h _ | RR_NS h _ | RR_CNAME h _ | RR_SOA h _ | RR_OPT h | RR_other h _ => h
  end.

Record Question := mkQ {
  Q_Name : string;
  Q_Qtype : Z;
  Q_Qclass : Z;
}.

Record MsgHdr := mkMsgHdr {
  Id : Z;
  Response : bool;
  Opcode : Z;
  Authoritative : bool;
  Truncated : bool;
  RecursionDesired : bool;
  RecursionAvailable : bool;
  AuthenticatedData : bool;
  CheckingDisabled : bool;
  Rcode : Z;
}.

Record Msg := mkMsg {
  Hdr : MsgHdr;
  Compress : bool;
  Questions : list Question;
  Answer : list RR;
  Ns : list RR;
  Extra : list RR;
}.

#[global] Instance RR_Header_eq_dec : EqDecision RR_Header.
Proof. solve_decision. Defined.
#[global] Instance RR_eq_dec : EqDecision RR.
Proof. solve_decision. Defined.
#[global] Instance Question_eq_dec : EqDecision Question.
Proof. solve_decision. Defined.
#[global] Instance MsgHdr_eq_dec : EqDecision MsgHdr.
Proof. solve_decision. Defined.
#[global] Instance Msg_eq_dec : EqDecision Msg.
Proof. solve_decision. Defined.

(** [new(dns.Msg)] *)
Definition new_MsgHdr : MsgHdr := mkMsgHdr 0 false 0 false false false false false false 0.
Definition new_Msg : Msg := mkMsg new_MsgHdr false [] [] [] [].

(** ** Constants of the protocol *)

Definition TypeA : Z := 1.
Definition TypeNS : Z := 2.
Definition TypeCNAME : Z := 5.
Definition TypeSOA : Z := 6.
Definition TypeAAAA : Z := 28.
Definition TypeOPT : Z := 41.
Definition ClassINET : Z := 1.
Definition OpcodeQuery : Z := 0.
Definition RcodeSuccess : Z := 0.
Definition RcodeFormatError : Z := 1.
Definition RcodeServerFailure : Z := 2.
Definition RcodeNameError : Z := 3.
Definition RcodeNotImplemented : Z := 4.
Definition RcodeRefused : Z := 5.

(** ** Field updates *)

Definition set_Rcode (m : Msg) (rc : Z) : Msg :=
  let h := Hdr m in
  mkMsg (mkMsgHdr (Id h) (Response h) (Opcode h) (Authoritative h) (Truncated h)
           (RecursionDesired h) (RecursionAvailable h) (AuthenticatedData h)
           (CheckingDisabled h) rc)
        (Compress m) (Questions m) (Answer m) (Ns m) (Extra m).
Definition set_Authoritative (m : Msg) (b : bool) : Msg :=
  let h := Hdr m in
  mkMsg (mkMsgHdr (Id h) (Response h) (Opcode h) b (Truncated h)
           (RecursionDesired h) (RecursionAvailable h) (AuthenticatedData h)
           (CheckingDisabled h) (Rcode h))
        (Compress m) (Questions m) (Answer m) (Ns m) (Extra m).
Definition set_Truncated (m : Msg) (b : bool) : Msg :=
  let h := Hdr m in
  mkMsg (mkMsgHdr (Id h) (Response h) (Opcode h) (Authoritative h) b
           (RecursionDesired h) (RecursionAvailable h) (AuthenticatedData h)
           (CheckingDisabled h) (Rcode h))
        (Compress m) (Questions m) (Answer m) (Ns m) (Extra m).
Definition set_RecursionDesired (m : Msg) (b : bool) : Msg :=
  let h := Hdr m in
  mkMsg (mkMsgHdr (Id h) (Response h) (Opcode h) (Authoritative h) (Truncated h)
           b (RecursionAvailable h) (AuthenticatedData h)
           (CheckingDisabled h) (Rcode h))
        (Compress m) (Questions m) (Answer m) (Ns m) (Extra m).
Definition set_Id (m : Msg) (i : Z) : Msg :=
  let h := Hdr m in
  mkMsg (mkMsgHdr i (Response h) (Opcode h) (Authoritative h) (Truncated h)
           (RecursionDesired h) (RecursionAvailable h) (AuthenticatedData h)
           (CheckingDisabled h) (Rcode h))
        (Compress m) (Questions m) (Answer m) (Ns m) (Extra m).
Definition set_Response (m : Msg) (b : bool) : Msg :=
  let h := Hdr m in
  mkMsg (mkMsgHdr (Id h) b (Opcode h) (Authoritative h) (Truncated h)
           (RecursionDesired h) (RecursionAvailable h) (AuthenticatedData h)
           (CheckingDisabled h) (Rcode h))
        (Compress m) (Questions m) (Answer m) (Ns m) (Extra m).
Definition set_Hdr (m : Msg) (h : MsgHdr) : Msg :=
  mkMsg h (Compress m) (Questions m) (Answer m) (Ns m) (Extra m).
Definition set_Compress (m : Msg) (b : bool) : Msg :=
  mkMsg (Hdr m) b (Questions m) (Answer m) (Ns m) (Extra m).
Definition set_Questions (m : Msg) (q : list Question) : Msg :=
  mkMsg (Hdr m) (Compress m) q (Answer m) (Ns m) (Extra m).
Definition set_Answer (m : Msg) (l : list RR) : Msg :=
  mkMsg (Hdr m) (Compress m) (Questions m) l (Ns m) (Extra m).
Definition set_Ns (m : Msg) (l : list RR) : Msg :=
  mkMsg (Hdr m) (Compress m) (Questions m) (Answer m) l (Extra m).
Definition set_Extra (m : Msg) (l : list RR) : Msg :=
  mkMsg (Hdr m) (Compress m) (Questions m) (Answer m) (Ns m) l.

(** ** Type assertions on records *)

Definition is_A (rr : RR) : bool := match rr with RR_A _ _ => true | _ => false end.
Definition is_NS (rr : RR) : bool := match rr with RR_NS _ _ => true | _ => false end.
Definition is_CNAME (rr : RR) : bool := match rr with RR_CNAME _ _ => true | _ => false end.
Definition is_SOA (rr : RR) : bool := match rr with RR_SOA _ _ => true | _ => false end.
Definition is_OPT (rr : RR) : bool := match rr with RR_OPT _ => true | _ => false end.

(** ** The functions of the package *)

Class DnsLib := {
  (** [reply.SetReply(request)] *)
  SetReply : Msg → Msg → Msg;
  (** [reply.SetRcode(request, rcode)] *)
  SetRcode : Msg → Msg → Z → Msg;
  (** [m.SetQuestion(z, t)]; the generated id is the third argument *)
  SetQuestion : Msg → string → Z → Z → Msg;
  (** [m.SetUpdate(z)]; the generated id is the third argument *)
  SetUpdate : Msg → string → Z → Msg;
  (** [m.SetEdns0(udpsize, do)] *)
  SetEdns0 : Msg → Z → bool → Msg;
  (** [m.Copy()] and [dns.Copy(rr)] *)
  Msg_Copy : Msg → Msg;
  RR_Copy : RR → RR;
  (** [m.Len()] *)
  Len : Msg → Z;
  (** [m.IsEdns0()] and [opt.UDPSize()] together: the size an OPT record
      announces, if there is one *)
  IsEdns0_UDPSize : Msg → option Z;
  (** [dns.IsSubDomain(parent, child)] *)
  IsSubDomain : string → string → bool;
  (** [dns.Fqdn(s)] *)
  Fqdn : string → string;
  (** [dns.SplitDomainName(s)] *)
  SplitDomainName : string → list string;
  (** [dns.CanonicalName(s)] *)
  CanonicalName : string → string;
  (** [dns.PackDomainName(s, make([]byte, 255), 0, nil, false)]: the bytes
      written, or an error *)
  PackDomainName : string → option (list Z);
  (** [m.Pack()] and [m.Unpack(wire)] *)
  Pack : Msg → option (list Z);
  Unpack : list Z → option Msg;
}.

(** The name tables of the DNS library ([dns.TypeToString], [dns.RcodeToString],
    [dns.StringToType]); a missing key reads as the empty string. *)
Class DnsNames := {
  TypeToString : Z → string;
  RcodeToString : Z → string;
  TypeOfString : string → option Z;
}.

(** What the package documents of them, and the resolver relies on. *)
Class DnsLibLaws `{DnsLib} : Prop := {
  SetReply_spec m r :
    let m' := SetReply m r in
    Questions m' = match Questions r with q :: _ => [q] | [] => Questions m end ∧ Id (Hdr m') = Id (Hdr r) ∧
    Response (Hdr m') = true ∧ Opcode (Hdr m') = Opcode (Hdr r) ∧
    Rcode (Hdr m') = RcodeSuccess ∧
    Answer m' = Answer m ∧ Ns m' = Ns m ∧ Extra m' = Extra m;
  SetRcode_spec m r rc : SetRcode m r rc = set_Rcode (SetReply m r) rc;
  SetQuestion_spec m z t id :
    let m' := SetQuestion m z t id in
    Questions m' = [mkQ z t ClassINET] ∧ RecursionDesired (Hdr m') = true ∧
    Response (Hdr m') = Response (Hdr m) ∧ Opcode (Hdr m') = Opcode (Hdr m) ∧
    Answer m' = Answer m ∧ Ns m' = Ns m ∧ Extra m' = Extra m;
  SetEdns0_Questions m n b : Questions (SetEdns0 m n b) = Questions m;
  Msg_Copy_spec m : Msg_Copy m = m;
  RR_Copy_spec rr : RR_Copy rr = rr;
  Len_nonneg m : 0 ≤ Len m;
  IsEdns0_UDPSize_extra m m' : Extra m = Extra m' → IsEdns0_UDPSize m = IsEdns0_UDPSize m';
  IsSubDomain_refl s : IsSubDomain s s = true;
  IsSubDomain_trans a b c :
    IsSubDomain a b = true → IsSubDomain b c = true → IsSubDomain a c = true;
  Fqdn_idemp s : Fqdn (Fqdn s) = Fqdn s;
}.

(** All records of a message. *)
Definition all_rrs (m : Msg) : list RR := Answer m ++ Ns m ++ Extra m.

(** A message put together from what was read from the wire: questions and records
    have the form [Unpack] gives them (addresses of the right length, names as they
    are printed), header fields fit, and there is no OPT record, which would carry
    the upper bits of the response code. *)
Record from_wire `{DnsLib} (m : Msg) : Prop := {
  fw_header : 0 ≤ Id (Hdr m) < 2 ^ 16 ∧ 0 ≤ Opcode (Hdr m) < 16 ∧ 0 ≤ Rcode (Hdr m) < 16;
  fw_questions q : q ∈ Questions m → ∃ w m', Unpack w = Some m' ∧ q ∈ Questions m';
  fw_records rr : rr ∈ all_rrs m → is_OPT rr = false ∧ ∃ w m', Unpack w = Some m' ∧ rr ∈ all_rrs m';
}.

(** The dynamic type of a record agrees with the type in its header: records
    unpacked from the wire have it. *)
Definition rr_typed (rr : RR) : Prop :=
  match rr with
  | RR_A h _ => Hdr_Rrtype h = TypeA
  | RR_AAAA h _ => Hdr_Rrtype h = TypeAAAA
  | RR_NS h _ => Hdr_Rrtype h = TypeNS
  | RR_CNAME h _ => Hdr_Rrtype h = TypeCNAME
  | RR_SOA h _ => Hdr_Rrtype h = TypeSOA
  | RR_OPT h => Hdr_Rrtype h = TypeOPT
  | RR_other h _ =>
      Hdr_Rrtype h ∉ [TypeA; TypeAAAA; TypeNS; TypeCNAME; TypeSOA; TypeOPT]
  end.

#[global] Instance rr_typed_dec rr : Decision (rr_typed rr).
Proof. destruct rr; simpl; apply _. Defined.

(** The wire format: bytes, from which such a message is read back.  Whether names
    were compressed is not part of a message read from the wire. *)
Class DnsWireLaws `{DnsLib} : Prop := {
  Pack_bytes m w : Pack m = Some w → Forall is_byte w;
  Unpack_Pack m w : from_wire m → Pack m = Some w → Unpack w = Some (set_Compress m false);
  Unpack_typed w m : Unpack w = Some m → Forall rr_typed (all_rrs m);
}.

Definition msg_typed (m : Msg) : Prop :=
  Forall rr_typed (Answer m) ∧ Forall rr_typed (Ns m) ∧ Forall rr_typed (Extra m).

Lemma rr_typed_A rr : rr_typed rr → Hdr_Rrtype (Header rr) = TypeA → is_A rr = true.
Proof.
  destruct rr; simpl; intros H E; rewrite E in H; try done. destruct H. set_solver.
Qed.

(** ** A reference instance

    Lengths count one byte per character and record; names are compared as
    written, label by label from the right. *)
Module RefDns.

Definition ends_with_dot (s : string) : bool :=
  match String.get (String.length s - 1) s with
  | Some c => Ascii.eqb c "."%char && negb (String.eqb s "")
  | None => false
  end.

Definition fqdn (s : string) : string := if ends_with_dot s then s else s +:+ ".".

(** Labels of a name, without the empty one after a final dot. *)
Fixpoint labels_go (s cur : string) : list string :=
  match s with
  | EmptyString => if String.eqb cur "" then [] else [cur]
  | String c r =>
      if Ascii.eqb c "."%char then
        if String.eqb cur "" then labels_go r "" else cur :: labels_go r ""
      else labels_go r (cur +:+ String c "")
  end.
Definition labels (s : string) : list string := labels_go s "".

Definition isSubDomain (p c : string) : bool :=
  let lp := labels p in
  let lc := labels c in
  bool_decide (drop (length lc - length lp) lc = lp).

Definition setReply (m r : Msg) : Msg :=
  mkMsg (mkMsgHdr (Id (Hdr r)) true (Opcode (Hdr r)) (Authoritative (Hdr m)) (Truncated (Hdr m))
           (RecursionDesired (Hdr r)) (RecursionAvailable (Hdr m)) (AuthenticatedData (Hdr m))
           (CheckingDisabled (Hdr r)) RcodeSuccess)
        (Compress m) (match Questions r with q :: _ => [q] | [] => Questions m end) (Answer m) (Ns m) (Extra m).

(** Not the wire format, only an encoding in bytes that can be read back. *)
#[export] Instance RR_Header_codec : Codec RR_Header.
Proof.
  refine (iso_codec (λ h, (Hdr_Name h, Hdr_Rrtype h, Hdr_Class h, Hdr_Ttl h))
    (λ '(n, t, c, l), mkHdr n t c l) _). by intros [].
Defined.
#[export] Instance RR_codec : Codec RR.
Proof.
  refine (iso_codec (λ rr, match rr with
      | RR_A h ip => (0%nat, h, ip, "", 0) | RR_AAAA h ip => (1%nat, h, ip, "", 0)
      | RR_NS h n => (2%nat, h, [], n, 0) | RR_CNAME h n => (3%nat, h, [], n, 0)
      | RR_SOA h m => (4%nat, h, [], "", m) | RR_OPT h => (5%nat, h, [], "", 0)
      | RR_other h d => (6%nat, h, [], d, 0) end)
    (λ '(k, h, ip, n, m), match k with
      | 0%nat => RR_A h ip | 1%nat => RR_AAAA h ip | 2%nat => RR_NS h n | 3%nat => RR_CNAME h n
      | 4%nat => RR_SOA h m | 5%nat => RR_OPT h | _ => RR_other h n end) _). by intros [].
Defined.
#[export] Instance Question_codec : Codec Question.
Proof.
  refine (iso_codec (λ q, (Q_Name q, Q_Qtype q, Q_Qclass q)) (λ '(n, t, c), mkQ n t c) _). by intros [].
Defined.
#[export] Instance MsgHdr_codec : Codec MsgHdr.
Proof.
  refine (iso_codec (λ h, (Id h, Response h, Opcode h, Authoritative h, Truncated h, RecursionDesired h,
      RecursionAvailable h, AuthenticatedData h, CheckingDisabled h, Rcode h))
    (λ '(i, r, o, a, t, d, v, ad, cd, rc), mkMsgHdr i r o a t d v ad cd rc) _). by intros [].
Defined.
#[export] Instance Msg_codec : Codec Msg.
Proof.
  refine (iso_codec (λ m, (Hdr m, Compress m, Questions m, Answer m, Ns m, Extra m))
    (λ '(h, c, q, a, n, e), mkMsg h c q a n e) _). by intros [].
Defined.

Definition encode_Msg (m : Msg) : list Z := enc (set_Compress m false).
Definition decode_Msg (w : list Z) : option Msg :=
  match dec w with
  | Some (m, []) => if bool_decide (Forall rr_typed (all_rrs m)) then Some m else None
  | _ => None
  end.

#[export] Instance lib : DnsLib := {
  SetReply := setReply;
  SetRcode m r rc := set_Rcode (setReply m r) rc;
  SetQuestion m z t i :=
    set_Questions (set_RecursionDesired (set_Id m i) true) [mkQ z t ClassINET];
  SetUpdate m z i := set_Questions (set_Id m i) [mkQ z TypeSOA ClassINET];
  SetEdns0 m n _ := set_Extra m (Extra m ++ [RR_OPT (mkHdr "." TypeOPT n 0)]);
  Msg_Copy m := m;
  RR_Copy rr := rr;
  Len m := 12 + 20 * Z.of_nat (length (Questions m)) +
           30 * Z.of_nat (length (Answer m) + length (Ns m) + length (Extra m));
  IsEdns0_UDPSize m :=
    (λ rr, Hdr_Class (Header rr)) <$> head (filter (λ rr, is_OPT rr = true) (Extra m));
  IsSubDomain := isSubDomain;
  Fqdn := fqdn;
  SplitDomainName := labels;
  CanonicalName s := fqdn s;
  PackDomainName s :=
    let wire := concat ((λ l, Z.of_nat (String.length l) ::
      ((λ a, Z.of_nat (nat_of_ascii a)) <$> String.list_ascii_of_string l)) <$> labels s) ++ [0] in
    if bool_decide (length wire ≤ 255)%nat then Some wire else None;
  Pack m := Some (encode_Msg m);
  Unpack w := decode_Msg w;
}.

Lemma get_snoc s c : String.get (String.length s) (s +:+ String c "") = Some c.
Proof. induction s as [|d s IH]; [done|simpl; done]. Qed.

Lemma ends_with_dot_fqdn s : ends_with_dot (fqdn s) = true.
Proof.
  unfold fqdn. destruct (ends_with_dot s) eqn:E; [done|]. unfold ends_with_dot.
  replace (String.length (s +:+ ".") - 1)%nat with (String.length s).
  - rewrite get_snoc. by destruct s.
  - assert (String.length (s +:+ ".") = S (String.length s)) as ->; [|lia].
    clear E. induction s as [|d s IH]; [done|]. simpl. by f_equal.
Qed.

#[export] Instance laws : DnsLibLaws.
Proof.
  split; try done.
  - intros m. simpl. lia.
  - intros m m' E. simpl. by rewrite E.
  - intros s. simpl. unfold isSubDomain. by rewrite Nat.sub_diag, drop_0, bool_decide_true.
  - intros a b c. simpl. unfold isSubDomain. rewrite !bool_decide_eq_true. intros Hab Hbc.
    assert (length (labels a) ≤ length (labels b))%nat as H1
      by (apply (f_equal length) in Hab; rewrite length_drop in Hab; lia).
    assert (length (labels b) ≤ length (labels c))%nat as H2
      by (apply (f_equal length) in Hbc; rewrite length_drop in Hbc; lia).
    rewrite <-Hab at 2. rewrite <-Hbc at 2. rewrite drop_drop. f_equal.
    lia.
  - intros s. simpl. unfold fqdn at 1. by rewrite ends_with_dot_fqdn.
Qed.

Lemma decode_encode_Msg m :
  Forall rr_typed (all_rrs m) → decode_Msg (encode_Msg m) = Some (set_Compress m false).
Proof.
  intros Ht. unfold decode_Msg, encode_Msg. pose proof (dec_enc (set_Compress m false) []) as Hd.
  rewrite app_nil_r in Hd. rewrite Hd. by rewrite bool_decide_eq_true_2.
Qed.

Lemma decode_typed w m : decode_Msg w = Some m → Forall rr_typed (all_rrs m).
Proof. unfold decode_Msg. repeat case_match; try done. intros [= <-]. by eapply bool_decide_eq_true_1. Qed.

#[export] Instance wire : DnsWireLaws.
Proof.
  split.
  - intros m w [= <-]. apply enc_bytes.
  - intros m w [_ _ Hr] [= <-]. apply decode_encode_Msg, Forall_forall. intros rr Hrr.
    destruct (Hr rr Hrr) as (_ & w & m' & Hw & Hin). apply decode_typed in Hw.
    by apply (Forall_forall _ _) with rr in Hw.
  - apply decode_typed.
Qed.

(** Here every well-typed message with a fitting header and no OPT record is of
    that kind. *)
Lemma from_wire_intro m :
  0 ≤ Id (Hdr m) < 2 ^ 16 → 0 ≤ Opcode (Hdr m) < 16 → 0 ≤ Rcode (Hdr m) < 16 →
  Forall (λ rr, is_OPT rr = false) (all_rrs m) → Forall rr_typed (all_rrs m) → from_wire m.
Proof.
  intros Hi Ho Hr Hopt Ht.
  constructor; [done|intros q Hq|intros rr Hrr; split; [by apply (Forall_forall _ _) with rr in Hopt|]];
    (exists (encode_Msg m), (set_Compress m false); split; [by apply decode_encode_Msg|done]).
Qed.

End RefDns.
