(* ===== verification/Zone.v ===== *)
(** * Zones and root hints (utils/zone.go, utils/root.go)

    [GetZoneList] walks from a name up to the root; [GetRootGlue] is the built-in
    delegation of the root zone that resolution starts from when nothing closer
    is cached. *)

From Stdlib Require Import Ascii.
From S2P Require Import Prelude NetIP Dns.

(** ** GetZoneList *)

(** [strings.Index(s, ".")] *)
Fixpoint Index_dot (s : string) : option nat :=
  match s with
  | EmptyString => None
  | String c r => if Ascii.eqb c "."%char then Some 0%nat else S <$> Index_dot r
  end.

(** [s[n:]] *)
Fixpoint string_drop (n : nat) (s : string) : string :=
  match n, s with
  | O, _ => s
  | S n', String _ r => string_drop n' r
  | S _, EmptyString => EmptyString
  end.

(** The [for] loop.  [None] would mean the loop is still running when the fuel
    is gone. *)
Fixpoint zone_loop (fuel : nat) (domain : string) (zoneList : list string) : option (list string) :=
  match fuel with
  | O => None
  | S f =>
      if Nat.eqb (String.length domain) 0 then Some zoneList
      else match Index_dot domain with
           | None => Some zoneList
           | Some idx =>
               let domain := string_drop (idx + 1) domain in
               zone_loop f domain (zoneList ++ [domain])
           end
  end.

Definition GetZoneList (domain : string) : option (list string) :=
  zone_loop (S (String.length domain)) domain [domain].

(** The suffixes of a name that start right after one of its dots. *)
Fixpoint parents (s : string) : list string :=
  match s with
  | EmptyString => []
  | String c r => if Ascii.eqb c "."%char then r :: parents r else parents r
  end.

Lemma Index_dot_parents s :
  match Index_dot s with
  | None => parents s = []
  | Some i => parents s = string_drop (i + 1) s :: parents (string_drop (i + 1) s) ∧
              (String.length (string_drop (i + 1) s) < String.length s)%nat
  end.
Proof.
  induction s as [|c s IH]; simpl; [done|].
  destruct (Ascii.eqb c "."%char); simpl; [split; [done|lia]|].
  destruct (Index_dot s) as [i|]; simpl in *; [|done].
  destruct IH as [IH1 IH2]. split; [done|lia].
Qed.

Lemma zone_loop_spec fuel domain acc :
  (String.length domain < fuel)%nat → zone_loop fuel domain acc = Some (acc ++ parents domain).
Proof.
  revert domain acc. induction fuel as [|f IH]; intros domain acc Hf; [lia|]. simpl.
  destruct (Nat.eqb_spec (String.length domain) 0) as [H0|H0].
  { destruct domain; [by rewrite app_nil_r|done]. }
  pose proof (Index_dot_parents domain) as Hp. destruct (Index_dot domain) as [i|].
  - destruct Hp as [Hp Hl]. rewrite IH by lia. rewrite <-app_assoc. simpl. by rewrite <-Hp.
  - by rewrite Hp, app_nil_r.
Qed.

Lemma GetZoneList_parents domain : GetZoneList domain = Some (domain :: parents domain).
Proof. unfold GetZoneList. rewrite zone_loop_spec by lia. done. Qed.

Lemma parents_shorter s z : z ∈ parents s → (String.length z < String.length s)%nat.
Proof.
  induction s as [|c s IH]; simpl; [by intros ?%elem_of_nil|].
  destruct (Ascii.eqb c "."%char); [intros [->|?]%elem_of_cons|intros ?]; try (specialize (IH ltac:(done))); lia.
Qed.

Lemma parents_suffix s z : z ∈ parents s ↔ ∃ p, s = p +:+ String "."%char z.
Proof.
  induction s as [|c s IH]; simpl.
  - split; [by intros ?%elem_of_nil|intros [[|] ?]; done].
  - destruct (Ascii.eqb_spec c "."%char) as [->|Hc].
    + rewrite elem_of_cons, IH. split.
      * intros [->|[p ->]]; [exists ""|exists (String "."%char p)]; reflexivity.
      * intros [[|d p] Hp]; injection Hp; intros; subst; [by left|right; eauto].
    + rewrite IH. split; [intros [p ->]; exists (String c p); reflexivity|].
      intros [[|d p] Hp]; injection Hp; intros; subst; [done|eauto].
Qed.

Lemma parents_sorted s :
  StronglySorted (λ a b, (String.length b < String.length a)%nat) (s :: parents s).
Proof.
  induction s as [|c s IH]; simpl; [repeat constructor|].
  assert (StronglySorted (λ a b, (String.length b < String.length a)%nat) (parents s)) as Hs
    by by inversion IH.
  destruct (Ascii.eqb c "."%char).
  - constructor; [done|]. apply Forall_cons. split; [simpl; lia|].
    apply Forall_forall. intros z Hz%parents_shorter. simpl. lia.
  - constructor; [done|]. apply Forall_forall. intros z Hz%parents_shorter. simpl. lia.
Qed.

Lemma parents_last s z : last (parents s) = Some z → Index_dot z = None.
Proof.
  induction s as [|c s IH]; simpl; [done|]. destruct (Ascii.eqb c "."%char); [|done].
  rewrite last_cons. destruct (last (parents s)) as [z'|] eqn:El; [intros [= <-]; by apply IH|].
  intros [= <-]. pose proof (Index_dot_parents s) as Hp. destruct (Index_dot s); [|done].
  destruct Hp as [Hp _]. rewrite Hp in El. rewrite last_cons in El. by destruct (last _).
Qed.

(** A suffix of a name that ends in a dot ends in a dot, or is empty. *)
Lemma suffix_dot p a z : p +:+ "." = a +:+ String "."%char z → z = "" ∨ ∃ b, z = b +:+ ".".
Proof.
  revert p. induction a as [|c a IH]; intros [|d p] Hp; simpl in Hp; injection Hp; intros; subst.
  - by left.
  - right. by exists p.
  - by destruct a.
  - by eapply IH.
Qed.

(** The walk from a fully qualified name ends in the root. *)
Lemma parents_root p : last (parents (p +:+ ".")) = Some "".
Proof.
  assert ("" ∈ parents (p +:+ ".")) as Hin by (apply parents_suffix; by exists p).
  destruct (last (parents (p +:+ "."))) as [z|] eqn:El; [|apply last_None in El; rewrite El in Hin; by apply elem_of_nil in Hin].
  assert (z ∈ parents (p +:+ ".")) as [a Ha]%parents_suffix by (by apply last_Some_elem_of).
  apply suffix_dot in Ha as [->|[b ->]]; [done|]. apply parents_last in El. exfalso. clear -El.
  induction b as [|c b IH]; simpl in El; [done|]. destruct (Ascii.eqb c "."%char); [done|].
  apply IH. by destruct (Index_dot (b +:+ ".")).
Qed.

(** C25: [GetZoneList] terminates on every string, and returns the name itself
    followed by exactly the suffixes that start after one of its dots, each strictly
    shorter than the one before: most specific zone first.  For a fully qualified
    name the list ends in the root, written as the empty string; for any other name
    the root is not in the list.  A name without a dot gives only itself; one that
    has dots but is not fully qualified is walked up all the same. *)
Theorem GetZoneList_spec (domain : string) :
  ∃ zones, GetZoneList domain = Some (domain :: zones) ∧
    (∀ z, z ∈ zones ↔ ∃ p, domain = p +:+ String "."%char z) ∧
    StronglySorted (λ a b, (String.length b < String.length a)%nat) (domain :: zones) ∧
    (∀ p, domain = p +:+ "." → last zones = Some "") ∧
    ((∀ p, domain ≠ p +:+ ".") → "" ∉ zones).
Proof.
  exists (parents domain). split_and!; [apply GetZoneList_parents|apply parents_suffix|apply parents_sorted| |].
  - intros p ->. apply parents_root.
  - intros Hno [p Hp]%parents_suffix. by eapply Hno.
Qed.

(** Names of the three kinds. *)
Example zone_lists :
  GetZoneList "www.example." = Some ["www.example."; "example."; ""] ∧
  GetZoneList "com" = Some ["com"] ∧ GetZoneList "a.b" = Some ["a.b"; "b"].
Proof. by vm_compute. Qed.

(** ** Root hints *)

Section root.
Context `{DnsLib}.

Definition rootGlueHeader : RR_Header := mkHdr "." TypeNS ClassINET 0.

Definition root_ns (name : string) : RR := RR_NS rootGlueHeader name.

Definition root_a (name ip : string) : RR :=
  RR_A (mkHdr name TypeA ClassINET 0) (default [] (ParseIP ip)).

(** [rootGlueOverride] is the first argument; [id] is the id [SetUpdate]
    generates. *)
Definition GetRootGlue (rootGlueOverride : option Msg) (id : Z) : Msg :=
  match rootGlueOverride with
  | Some m => Msg_Copy m
  | None =>
      let rootGlue := SetUpdate new_Msg "." id in
      let rootGlue := set_Ns rootGlue [
        root_ns "a.root-servers.net.";
        root_ns "b.root-servers.net.";
        root_ns "c.root-servers.net.";
        root_ns "d.root-servers.net.";
        root_ns "e.root-servers.net.";
        root_ns "f.root-servers.net.";
        root_ns "g.root-servers.net.";
        root_ns "h.root-servers.net.";
        root_ns "i.root-servers.net.";
        root_ns "j.root-servers.net.";
        root_ns "k.root-servers.net.";
        root_ns "l.root-servers.net.";
        root_ns "m.root-servers.net."
      ] in
      set_Extra rootGlue [
        root_a "a.root-servers.net." "198.41.0.4";
        root_a "b.root-servers.net." "199.9.14.201";
        root_a "c.root-servers.net." "192.33.4.12";
        root_a "d.root-servers.net." "199.7.91.13";
        root_a "e.root-servers.net." "192.203.230.10";
        root_a "f.root-servers.net." "192.5.5.241";
        root_a "g.root-servers.net." "192.112.36.4";
        root_a "h.root-servers.net." "198.97.190.53";
        root_a "i.root-servers.net." "192.36.148.17";
        root_a "j.root-servers.net." "192.58.128.30";
        root_a "k.root-servers.net." "193.0.14.129";
        root_a "l.root-servers.net." "199.7.83.42";
        root_a "m.root-servers.net." "202.12.27.33"
      ]
  end.

(** [result[a.A.String()] = struct{}{}] over the A records of the glue. *)
Definition ExtractRootIPs (rootGlueOverride : option Msg) (id : Z) : gset string :=
  fold_left (λ result rr,
    match rr with
    | RR_A _ (b :: bs) => {[ IP_String (b :: bs) ]} ∪ result
    | _ => result
    end) (Extra (GetRootGlue rootGlueOverride id)) ∅.

Definition SetRootGlue (msg : Msg) : option Msg := Some (Msg_Copy msg).
Definition ResetRootGlue : option Msg := None.

End root.

(** The built-in root hints are consistent: each of the thirteen name servers
    of the root zone has exactly one glue record, in the same order, every address
    parses, and [ExtractRootIPs] is the set of these thirteen addresses. *)
Theorem root_glue_consistent `{DnsLib} (id : Z) :
  let glue := GetRootGlue None id in
  (λ rr, match rr with RR_NS _ n => n | _ => "" end) <$> Ns glue =
    (λ rr, Hdr_Name (Header rr)) <$> Extra glue ∧
  length (Ns glue) = 13%nat ∧
  Forall (λ rr, Hdr_Name (Header rr) = "." ∧ is_NS rr = true) (Ns glue) ∧
  Forall (λ rr, match rr with RR_A _ ip => is_Some (To4 ip) | _ => False end) (Extra glue) ∧
  ExtractRootIPs None id =
    list_to_set ((λ rr, match rr with RR_A _ ip => IP_String ip | _ => "" end) <$> Extra glue) ∧
  size (ExtractRootIPs None id) = 13%nat.
Proof.
  intros glue. split_and!.
  - reflexivity.
  - reflexivity.
  - repeat (constructor; [by split|]). constructor.
  - repeat (constructor; [by eexists|]). constructor.
  - apply (bool_decide_unpack _). by vm_compute.
  - by vm_compute.
Qed.
