(* ===== verification/External.v ===== *)
(** * The other third-party interfaces

    [GoCache] is github.com/patrickmn/go-cache, the store behind the DNS cache;
    [EbpfMap] is a hash map of github.com/cilium/ebpf, the kernel's copy of it.
    Each is a class of operations with the documented laws the resolver relies
    on, and a reference instance. *)

From S2P Require Import Prelude.

(** ** go-cache *)

(** Times are nanoseconds; a duration of 0 is [cache.DefaultExpiration]. *)
Class GoCache (V : Type) := {
  gc : Type;
  gc_New : Z → Z → gc;                      (* cache.New(default, cleanup) *)
  gc_default : gc → Z;                      (* the default expiration it was made with *)
  gc_Get : gc → Z → string → option V;      (* c.Get(k) at a time *)
  gc_Set : gc → Z → string → V → Z → gc;    (* c.Set(k, v, d) at a time *)
  gc_DeleteExpired : gc → Z → gc;
  gc_Flush : gc → gc;
  gc_ItemCount : gc → Z;
  gc_Items : gc → Z → list (string * V);    (* unexpired items, as a map *)
}.
Arguments gc V {_}.

Class GoCacheLaws (V : Type) `{GoCache V} : Prop := {
  Get_New d i now k : gc_Get (gc_New d i) now k = None;
  default_New d i : gc_default (gc_New d i) = d;
  default_Set c now k v d : gc_default (gc_Set c now k v d) = gc_default c;
  default_DeleteExpired c now : gc_default (gc_DeleteExpired c now) = gc_default c;
  default_Flush c : gc_default (gc_Flush c) = gc_default c;
  (** "If the duration is 0, the cache's default expiration time is used." *)
  Set_default c now k v : gc_Set c now k v 0 = gc_Set c now k v (gc_default c);
  Get_Set_fresh c now k v d now' :
    0 < d → now ≤ now' < now + d → gc_Get (gc_Set c now k v d) now' k = Some v;
  Get_Set_expired c now k v d now' :
    0 < d → now + d < now' → gc_Get (gc_Set c now k v d) now' k = None;
  Get_Set_inv c now k v d now' v' :
    gc_Get (gc_Set c now k v d) now' k = Some v' → v' = v;
  Get_Set_other c now k v d now' k' :
    k ≠ k' → gc_Get (gc_Set c now k v d) now' k' = gc_Get c now' k';
  Get_Flush c now k : gc_Get (gc_Flush c) now k = None;
  Get_DeleteExpired c now now' k :
    now ≤ now' → gc_Get (gc_DeleteExpired c now) now' k = gc_Get c now' k;
  Get_DeleteExpired_inv c now now' k v :
    gc_Get (gc_DeleteExpired c now) now' k = Some v → gc_Get c now' k = Some v;
  ItemCount_Flush c : gc_ItemCount (gc_Flush c) = 0;
  Items_spec c now k v : (k, v) ∈ gc_Items c now ↔ gc_Get c now k = Some v;
  Items_NoDup c now : NoDup (gc_Items c now).*1;
}.

Module RefCache.
Section ref.
Context (V : Type).

Record t := { items : gmap string (V * option Z); dflt : Z }.

Definition expired (now : Z) (e : option Z) : bool :=
  match e with
  | Some t => t <? now
  | None => false
  end.

#[export] Instance lib : GoCache V := {
  gc := t;
  gc_New d _ := {| items := ∅; dflt := d |};
  gc_default := dflt;
  gc_Get c now k :=
    match items c !! k with
    | Some (v, e) => if expired now e then None else Some v
    | None => None
    end;
  gc_Set c now k v d :=
    let d := if d =? 0 then dflt c else d in
    {| items := <[k := (v, if 0 <? d then Some (now + d) else None)]> (items c); dflt := dflt c |};
  gc_DeleteExpired c now :=
    {| items := filter (λ p, expired now p.2.2 = false) (items c); dflt := dflt c |};
  gc_Flush c := {| items := ∅; dflt := dflt c |};
  gc_ItemCount c := Z.of_nat (size (items c));
  gc_Items c now := map_to_list (fst <$> filter (λ p, expired now p.2.2 = false) (items c));
}.

Lemma Get_iff c now k v :
  gc_Get c now k = Some v ↔ ∃ e, items c !! k = Some (v, e) ∧ expired now e = false.
Proof.
  simpl. split.
  - intros H. destruct (items c !! k) as [[v' e]|]; [|done].
    destruct (expired now e) eqn:E; simplify_eq. eauto.
  - intros (e & -> & ->). done.
Qed.

#[export] Instance laws : GoCacheLaws V.
Proof.
  split; try done.
  - intros c now k v. simpl. destruct (Z.eqb_spec (dflt c) 0) as [->|]; done.
  - intros c now k v d now' Hd Hn. simpl. rewrite lookup_insert_eq.
    destruct (Z.eqb_spec d 0); [lia|]. destruct (Z.ltb_spec 0 d); [|lia]. simpl.
    destruct (Z.ltb_spec (now + d) now'); [lia|done].
  - intros c now k v d now' Hd Hn. simpl. rewrite lookup_insert_eq.
    destruct (Z.eqb_spec d 0); [lia|]. destruct (Z.ltb_spec 0 d); [|lia]. simpl.
    destruct (Z.ltb_spec (now + d) now'); [done|lia].
  - intros c now k v d now' v'. simpl. rewrite lookup_insert_eq. case_match; [done|].
    by intros [= ->].
  - intros c now k v d now' k' Hk. simpl. by rewrite lookup_insert_ne.
  - intros c now now' k Hn. simpl. destruct (items c !! k) as [[v e]|] eqn:E.
    + destruct (expired now e) eqn:Ee.
      * rewrite map_lookup_filter_None_2 by (right; intros ? ?; simplify_eq; simpl; congruence).
        destruct e as [t0|]; [|done]. simpl in *. bool_prop.
        destruct (Z.ltb_spec t0 now'); [done|lia].
      * erewrite map_lookup_filter_Some_2 by done. done.
    + rewrite map_lookup_filter_None_2 by by left. done.
  - intros c now now' k v. rewrite !Get_iff. intros (e & He & Hx). exists e. split; [|done].
    by apply map_lookup_filter_Some in He as [? _].
  - intros c now k v. simpl. rewrite elem_of_map_to_list, lookup_fmap, fmap_Some.
    change (match items c !! k with Some (v, e) => if expired now e then None else Some v | None => None end)
      with (gc_Get c now k). rewrite Get_iff. split.
    + intros ([v' e] & [H1 H2]%map_lookup_filter_Some & ->). eauto.
    + intros (e & H1 & H2). exists (v, e). split; [|done]. by apply map_lookup_filter_Some.
  - intros c now. apply NoDup_fst_map_to_list.
Qed.

End ref.
End RefCache.

(** ** eBPF maps *)

Class EbpfMap (K V : Type) := {
  emap : Type;
  em_Update : emap → K → V → option emap;   (* m.Update(k, v, ebpf.UpdateAny); None: an error *)
  em_Lookup : emap → K → option V;
  em_Delete : emap → K → option emap;
  em_Iterate : emap → list (K * V);
}.
Arguments emap K V {_}.

Class EbpfMapLaws (K V : Type) `{EbpfMap K V} : Prop := {
  Lookup_Update m k v m' : em_Update m k v = Some m' → em_Lookup m' k = Some v;
  Lookup_Update_other m k v m' k' :
    em_Update m k v = Some m' → k ≠ k' → em_Lookup m' k' = em_Lookup m k';
  Lookup_Delete m k m' : em_Delete m k = Some m' → em_Lookup m' k = None;
  Lookup_Delete_other m k m' k' :
    em_Delete m k = Some m' → k ≠ k' → em_Lookup m' k' = em_Lookup m k';
  Iterate_spec m k v : (k, v) ∈ em_Iterate m ↔ em_Lookup m k = Some v;
}.

Module RefEbpf.
Section ref.
Context (K V : Type) `{Countable K}.

#[export] Instance lib : EbpfMap K V := {
  emap := gmap K V;
  em_Update m k v := Some (<[k := v]> m);
  em_Lookup m k := m !! k;
  em_Delete m k := match m !! k with Some _ => Some (delete k m) | None => None end;
  em_Iterate m := map_to_list m;
}.

#[export] Instance laws : EbpfMapLaws K V.
Proof.
  split; simpl.
  - intros m k v m' [= <-]. apply lookup_insert_eq.
  - intros m k v m' k' [= <-] ?. by apply lookup_insert_ne.
  - intros m k m' Hm. case_match; simplify_eq. apply lookup_delete_eq.
  - intros m k m' k' Hm ?. case_match; simplify_eq. by apply lookup_delete_ne.
  - intros m k v. apply elem_of_map_to_list.
Qed.

End ref.
End RefEbpf.
