(* ===== verification/Cache.v ===== *)
(** * The DNS cache and its kernel copy (server/cache.go, server/xdp_sync.go)

    The cache maps string keys to messages in a go-cache store.  Answers are
    stored under [name:qtype], delegations under the bare zone name.  A write
    stores a copy without OPT records and, when the XDP fast path is active,
    also packs positive answers into the eBPF map.  The state of the component is
    [Cache]; the clock readings an operation takes are its arguments. *)

From Stdlib Require Import Ascii.
From S2P Require Import Prelude NetIP Dns External.

(** ** Keys of the eBPF map *)

(** [dnsCacheCacheKey]: 255 name bytes, zero padded, and the query type. *)
Record BPFKey := mkBPFKey { BK_Qname : list Z; BK_Qtype : Z }.
(** [dnsCacheCacheValue]: expiry on the monotonic clock, length and 512 bytes. *)
Record BPFValue := mkBPFValue { BV_ExpireTs : Z; BV_RespLen : Z; BV_Response : list Z }.

#[global] Instance BPFKey_eq_dec : EqDecision BPFKey.
Proof. solve_decision. Defined.
#[global] Instance BPFKey_countable : Countable BPFKey.
Proof.
  apply (inj_countable' (λ k, (BK_Qname k, BK_Qtype k)) (λ p, mkBPFKey p.1 p.2)).
  by intros [].
Defined.

(** [copy(dst[:], src)] into a fixed-size array of [n] zeros. *)
Definition copy_into (n : nat) (src : list Z) : list Z :=
  take n src ++ replicate (n - length src) 0.

(** [getCacheKey]: [name + ":" + strconv.FormatUint(uint64(qtype), 10)] *)
Definition getCacheKey (name : string) (qtype : Z) : string :=
  name +:+ ":" +:+ pretty (Z.to_N qtype).

(** [hasSOAInAuthority] (state_shared.go) *)
Definition hasSOAInAuthority (m : Msg) : bool := existsb is_SOA (Ns m).

(** [shallowCopyMsg]: the question section is left out. *)
Definition shallowCopyMsg (m : Msg) : Msg :=
  mkMsg (Hdr m) (Compress m) [] (Answer m) (Ns m) (Extra m).

(** [stripOPT] compacts [msg.Extra] in place: the loop reads slot [i] of the
    backing array [arr] and writes the records it keeps to slot [n], in the same
    array.  (The slots past [n] are then set to nil and cut off by the final
    re-slicing, so clearing them is not observable.) *)
Fixpoint stripOPT_loop (k : nat) (arr : list RR) (i n : nat) : list RR * nat :=
  match k with
  | O => (arr, n)
  | S k' =>
      match arr !! i with
      | Some rr =>
          if is_OPT rr then stripOPT_loop k' arr (S i) n
          else stripOPT_loop k' (<[n := rr]> arr) (S i) (S n)
      | None => (arr, n)
      end
  end.

Definition stripOPT (m : Msg) : Msg :=
  match Extra m with
  | [] => m
  | _ =>
      let '(arr, n) := stripOPT_loop (length (Extra m)) (Extra m) 0 0 in
      set_Extra m (take n arr)
  end.

(** The label [getCacheCopy] counts a lookup under. *)
Definition cacheLookupLabel (found : option Msg) : string :=
  match found with
  | None => "miss"
  | Some msg =>
      match Answer msg with
      | _ :: _ => "positive_hit"
      | [] => if hasSOAInAuthority msg then "negative_hit" else "delegation_hit"
      end
  end.

Section cache.
Context `{DnsLib} `{GC : GoCache Msg} `{EM : EbpfMap BPFKey BPFValue}.

(** [globalDnsCache] and [globalXDPCacheMap] (nil when XDP is off). *)
Record Cache := mkCache {
  dnsCache : gc Msg;
  xdpMap : option (emap BPFKey BPFValue);
}.

Definition newCache : gc Msg := gc_New (5 * Minute) (10 * Minute).

Definition getCache (c : Cache) (now : Z) (key : string) : option Msg := gc_Get (dnsCache c) now key.

Definition getCacheCopy (c : Cache) (now : Z) (key : string) : option Msg :=
  shallowCopyMsg <$> getCache c now key.

Definition getCacheCopyByType (c : Cache) (now : Z) (name : string) (qtype : Z) : option Msg :=
  getCacheCopy c now (getCacheKey name qtype).

(** [expire] is a uint32 number of seconds. *)
Definition setCache (c : Cache) (now : Z) (key : string) (value : Msg) (expire : Z) : Cache :=
  mkCache (gc_Set (dnsCache c) now key value (expire * Second)) (xdpMap c).

Definition domainToWireFormat (name : string) : option (list Z) :=
  PackDomainName (CanonicalName name).

Definition buildBPFCacheKey (name : string) (qtype : Z) : option BPFKey :=
  wire ← domainToWireFormat name;
  Some (mkBPFKey (copy_into 255 wire) qtype).

(** [mono] is [getMonotonicSeconds()]; [None] when reading the clock fails. *)
Definition buildBPFCacheValue (msg : Msg) (ttlSeconds : Z) (mono : option Z) : option BPFValue :=
  let minimal := mkMsg (Hdr msg) true (Questions msg) (Answer msg) [] [] in
  packed ← Pack minimal;
  if 512 <? Z.of_nat (length packed) then None else
  now ← mono;
  Some (mkBPFValue (u64 (now + ttlSeconds)) (Z.of_nat (length packed)) (copy_into 512 packed)).

Definition syncToBPFMap (c : Cache) (name : string) (qtype : Z) (msg : Msg) (ttlSeconds : Z)
    (mono : option Z) : Cache :=
  match xdpMap c with
  | None => c
  | Some m =>
      match buildBPFCacheKey name qtype with
      | None => c
      | Some key =>
          match buildBPFCacheValue msg ttlSeconds mono with
          | None => c
          | Some val =>
              match em_Update m key val with
              | None => c
              | Some m' => mkCache (dnsCache c) (Some m')
              end
          end
      end
  end.

Definition setCacheCopy (c : Cache) (now : Z) (mono : option Z) (key : string) (value : Msg)
    (expire : Z) : Cache :=
  let cp := stripOPT (Msg_Copy value) in
  let c := setCache c now key cp expire in
  match Answer cp, Questions cp with
  | _ :: _, q :: _ => syncToBPFMap c (Q_Name q) (Q_Qtype q) cp expire mono
  | _, _ => c
  end.

Definition setCacheCopyByType (c : Cache) (now : Z) (mono : option Z) (name : string) (qtype : Z)
    (value : Msg) (expire : Z) : Cache :=
  setCacheCopy c now mono (getCacheKey name qtype) value expire.

Definition deleteExpiredCache (c : Cache) (now : Z) : Cache :=
  mkCache (gc_DeleteExpired (dnsCache c) now) (xdpMap c).

Definition deleteAllCache (c : Cache) : Cache :=
  mkCache (gc_Flush (dnsCache c)) (xdpMap c).

Definition getCacheSize (c : Cache) : Z := gc_ItemCount (dnsCache c).

(** [cleanupExpiredBPFEntries] (xdp_metrics.go): first collect the expired keys,
    then delete them; a failed delete is ignored.  Returns the map and the number
    of entries deleted. *)
Definition cleanupExpiredBPFEntries (m : emap BPFKey BPFValue) (mono : option Z)
    : emap BPFKey BPFValue * Z :=
  match mono with
  | None => (m, 0)
  | Some nowSec =>
      let toDelete := (filter (λ kv, BV_ExpireTs kv.2 ≤ nowSec) (em_Iterate m)).*1 in
      fold_left (λ '(m, deleted) k,
        match em_Delete m k with
        | Some m' => (m', deleted + 1)
        | None => (m, deleted)
        end) toDelete (m, 0)
  end.

End cache.

(** ** In-place compaction *)

Lemma stripOPT_loop_spec k arr i n :
  (i + k = length arr)%nat → (n ≤ i)%nat →
  ∃ arr' n', stripOPT_loop k arr i n = (arr', n') ∧
    take n' arr' = take n arr ++ filter (λ rr, is_OPT rr = false) (drop i arr).
Proof.
  revert arr i n. induction k as [|k IH]; intros arr i n Hk Hn; simpl.
  { exists arr, n. split; [done|]. rewrite drop_ge by lia. by rewrite app_nil_r. }
  destruct (lookup_lt_is_Some_2 arr i) as [rr Hrr]; [lia|]. rewrite Hrr.
  rewrite (drop_S _ _ _ Hrr). destruct (is_OPT rr) eqn:E.
  - destruct (IH arr (S i) n) as (arr' & n' & -> & Ht); [lia..|].
    exists arr', n'. split; [done|]. rewrite Ht, filter_cons_False by congruence. done.
  - destruct (IH (<[n := rr]> arr) (S i) (S n)) as (arr' & n' & -> & Ht);
      [rewrite length_insert; lia|lia|].
    exists arr', n'. split; [done|]. rewrite Ht, filter_cons_True by done.
    rewrite (take_S_r _ _ rr) by (apply list_lookup_insert_eq; lia).
    rewrite take_insert_ge, drop_insert_lt by lia. by rewrite <-app_assoc.
Qed.

Lemma stripOPT_filter m :
  stripOPT m = set_Extra m (filter (λ rr, is_OPT rr = false) (Extra m)).
Proof.
  unfold stripOPT. destruct (Extra m) as [|rr l] eqn:E; [by destruct m; simplify_eq/=|].
  rewrite <-E. destruct (stripOPT_loop_spec (length (Extra m)) (Extra m) 0 0) as (arr & n & -> & ->);
    [lia..|]. done.
Qed.

Definition no_opt (m : Msg) : Prop := Forall (λ rr, is_OPT rr = false) (Extra m).

Lemma stripOPT_no_opt m : no_opt (stripOPT m).
Proof.
  rewrite stripOPT_filter. unfold no_opt. simpl. apply Forall_forall.
  intros rr [? _]%list_elem_of_filter. done.
Qed.

(** ** Keys *)

Fixpoint no_colon (s : string) : Prop :=
  match s with
  | EmptyString => True
  | String c r => c ≠ ":"%char ∧ no_colon r
  end.

Lemma pretty_N_no_colon (n : N) : no_colon (pretty n).
Proof.
  assert (∀ x s, no_colon s → no_colon (pretty_N_go x s)) as Hgo.
  { intros x. induction (N.lt_wf_0 x) as [x _ IH]; intros s Hs.
    destruct (decide (0 < x)%N) as [Hx|Hx].
    - rewrite pretty_N_go_step by done. apply IH; [by apply N.div_lt|].
      split; [|done]. unfold pretty_N_char. by repeat case_match.
    - replace x with 0%N by lia. by rewrite pretty_N_go_0. }
  unfold pretty, pretty_N. case_decide; [by repeat split|by apply Hgo].
Qed.

Lemma no_colon_app s t : ¬ no_colon (s +:+ String ":"%char t).
Proof.
  induction s as [|c s IH]; intros H'.
  - by destruct H'.
  - by destruct H' as [_ H'%IH].
Qed.

Lemma colon_split s1 s2 d1 d2 :
  no_colon d1 → no_colon d2 →
  s1 +:+ String ":"%char d1 = s2 +:+ String ":"%char d2 → s1 = s2 ∧ d1 = d2.
Proof.
  intros H1 H2. revert s2. induction s1 as [|c s1 IH]; intros [|c' s2] Heq;
    injection Heq; intros; subst; try done.
  - by apply no_colon_app in H1.
  - by apply no_colon_app in H2.
  - destruct (IH s2) as [-> ->]; done.
Qed.

(** The last character of a key under which an answer is stored is a digit. *)
Fixpoint last_char (s : string) : option ascii :=
  match s with
  | EmptyString => None
  | String c EmptyString => Some c
  | String _ r => last_char r
  end.

Lemma last_char_app s t : t ≠ "" → last_char (s +:+ t) = last_char t.
Proof.
  intros Ht. induction s as [|c s IH]; [done|]. change (String c s +:+ t) with (String c (s +:+ t)).
  simpl. rewrite IH. destruct s; simpl; by destruct t.
Qed.

Lemma pretty_N_nonempty (n : N) : pretty n ≠ "".
Proof.
  unfold pretty, pretty_N. case_decide; [done|].
  assert (∀ x s, s ≠ "" → pretty_N_go x s ≠ "") as Hgo.
  { intros x. induction (N.lt_wf_0 x) as [x _ IH]; intros s Hs.
    destruct (decide (0 < x)%N) as [Hx|Hx].
    - rewrite pretty_N_go_step by done. apply IH; [by apply N.div_lt|done].
    - replace x with 0%N by lia. by rewrite pretty_N_go_0. }
  rewrite pretty_N_go_step by lia. by apply Hgo.
Qed.

Lemma pretty_N_last_char (n : N) : last_char (pretty n) ≠ Some "."%char.
Proof.
  assert (∀ x s, s ≠ "" → last_char s ≠ Some "."%char → last_char (pretty_N_go x s) ≠ Some "."%char)
    as Hgo.
  { intros x. induction (N.lt_wf_0 x) as [x _ IH]; intros s Hs Hl.
    destruct (decide (0 < x)%N) as [Hx|Hx].
    - rewrite pretty_N_go_step by done. apply IH; [by apply N.div_lt|done|].
      simpl. by destruct s.
    - replace x with 0%N by lia. by rewrite pretty_N_go_0. }
  unfold pretty, pretty_N. case_decide; [done|].
  rewrite pretty_N_go_step by lia. apply Hgo; [done|].
  simpl. unfold pretty_N_char. by repeat case_match.
Qed.

Lemma cacheKey_inj n1 n2 q1 q2 :
  0 ≤ q1 < 2 ^ 16 → 0 ≤ q2 < 2 ^ 16 →
  getCacheKey n1 q1 = getCacheKey n2 q2 → n1 = n2 ∧ q1 = q2.
Proof.
  unfold getCacheKey. intros H1 H2 Heq.
  apply colon_split in Heq as [-> Hp]; [|apply pretty_N_no_colon..].
  split; [done|]. apply (inj pretty) in Hp. lia.
Qed.

(** The cache key determines the name and the query type, so answers of
    different names or types never overwrite each other; and no answer key equals
    a delegation key, which is a zone name: the empty string or a name ending in a
    dot. *)
Theorem getCacheKey_inj (n1 n2 : string) (q1 q2 : Z) (zone : string) :
  (0 ≤ q1 < 2 ^ 16 → 0 ≤ q2 < 2 ^ 16 →
   getCacheKey n1 q1 = getCacheKey n2 q2 → n1 = n2 ∧ q1 = q2) ∧
  (zone = "" ∨ last_char zone = Some "."%char → getCacheKey n1 q1 ≠ zone).
Proof.
  split; [apply cacheKey_inj|]. unfold getCacheKey.
  intros Hz Heq. assert (last_char zone = last_char (pretty (Z.to_N q1))) as Hl.
  { rewrite <-Heq, !last_char_app; try done; apply pretty_N_nonempty. }
  destruct Hz as [->|Hz].
  - by destruct n1.
  - rewrite Hz in Hl. by eapply pretty_N_last_char.
Qed.

Lemma getCacheKey_inj_witness :
  getCacheKey "a." 1 ≠ getCacheKey "a." 28 ∧ getCacheKey "a." 1 ≠ "a.".
Proof.
  split.
  - intros H. destruct (proj1 (getCacheKey_inj "a." "a." 1 28 "") ltac:(lia) ltac:(lia) H). lia.
  - apply (proj2 (getCacheKey_inj "a." "a." 1 1 "a.")). right. reflexivity.
Defined.

(** ** Reads and writes *)

Section cache_lemmas.
Context `{DnsLibLaws} `{GoCacheLaws Msg} `{EbpfMapLaws BPFKey BPFValue}.

Lemma syncToBPFMap_dnsCache c name q m ttl mono :
  dnsCache (syncToBPFMap c name q m ttl mono) = dnsCache c.
Proof. unfold syncToBPFMap. by repeat case_match. Qed.

Lemma setCacheCopy_dnsCache c now mono key v expire :
  dnsCache (setCacheCopy c now mono key v expire) =
  gc_Set (dnsCache c) now key (stripOPT v) (expire * Second).
Proof.
  unfold setCacheCopy. rewrite Msg_Copy_spec.
  repeat case_match; simpl; rewrite ?syncToBPFMap_dnsCache; done.
Qed.

Lemma getCacheCopy_set_other c now mono key v expire now' key' :
  key ≠ key' →
  getCacheCopy (setCacheCopy c now mono key v expire) now' key' = getCacheCopy c now' key'.
Proof.
  intros. unfold getCacheCopy, getCache. rewrite setCacheCopy_dnsCache.
  by rewrite Get_Set_other.
Qed.

Definition cached_form (m : Msg) : Msg :=
  mkMsg (Hdr m) (Compress m) [] (Answer m) (Ns m) (filter (λ rr, is_OPT rr = false) (Extra m)).

Lemma shallowCopy_stripOPT m : shallowCopyMsg (stripOPT m) = cached_form m.
Proof. by rewrite stripOPT_filter. Qed.

(** C14: an answer written under a name and type with a TTL of [ttl] > 0 seconds is
    returned, without its OPT records and question section, to every lookup of that
    name and type during the next [ttl] seconds and to none after; lookups of any
    other name or type are unaffected by the write. *)
Theorem cache_set_get (c : Cache) (now now' : Z) (mono : option Z) (name name' : string)
    (q q' : Z) (m : Msg) (ttl : Z) :
  0 < ttl < 2 ^ 32 → 0 ≤ q < 2 ^ 16 → 0 ≤ q' < 2 ^ 16 →
  let c' := setCacheCopyByType c now mono name q m ttl in
  (now ≤ now' < now + ttl * Second →
   getCacheCopyByType c' now' name q = Some (cached_form m)) ∧
  (now + ttl * Second < now' → getCacheCopyByType c' now' name q = None) ∧
  ((name', q') ≠ (name, q) →
   getCacheCopyByType c' now' name' q' = getCacheCopyByType c now' name' q').
Proof.
  intros Ht Hq Hq' c'. unfold getCacheCopyByType. subst c'. unfold setCacheCopyByType.
  assert (0 < ttl * Second) by (unfold Second, Millisecond; lia).
  repeat split.
  - intros Hn. unfold getCacheCopy, getCache. rewrite setCacheCopy_dnsCache.
    rewrite Get_Set_fresh by lia. simpl. by rewrite shallowCopy_stripOPT.
  - intros Hn. unfold getCacheCopy, getCache. rewrite setCacheCopy_dnsCache.
    by rewrite Get_Set_expired by lia.
  - intros Hne. apply getCacheCopy_set_other. unfold getCacheKey.
    intros [-> Hp]%colon_split; [|apply pretty_N_no_colon..].
    apply (inj pretty) in Hp. apply Hne. f_equal. lia.
Qed.

(** A TTL of 0 does not keep a message out of the cache: the duration 0 is
    go-cache's DefaultExpiration, so the message is served for five minutes, the
    default the cache is created with. *)
Theorem cache_zero_ttl (c : Cache) (now now' : Z) (mono : option Z) (name : string) (q : Z) (m : Msg) :
  gc_default (dnsCache c) = gc_default newCache →
  now ≤ now' < now + 5 * Minute →
  getCacheCopyByType (setCacheCopyByType c now mono name q m 0) now' name q = Some (cached_form m).
Proof.
  intros Hd Hn. unfold getCacheCopyByType, setCacheCopyByType, getCacheCopy, getCache.
  rewrite setCacheCopy_dnsCache, Set_default, Hd.
  unfold newCache. rewrite default_New.
  rewrite Get_Set_fresh by (unfold Minute, Second, Millisecond in *; lia).
  simpl. by rewrite shallowCopy_stripOPT.
Qed.

(** ** The OPT-free invariant *)

(** No lookup at any time returns a message with an OPT record. *)
Definition cache_safe (c : Cache) : Prop :=
  ∀ now k m, getCache c now k = Some m → no_opt m.

Lemma cache_safe_new xdp : cache_safe (mkCache newCache xdp).
Proof. intros now k m. unfold getCache. simpl. unfold newCache. by rewrite Get_New. Qed.

Lemma cache_safe_set c now mono key v expire :
  cache_safe c → cache_safe (setCacheCopy c now mono key v expire).
Proof.
  intros Hc now' k m. unfold getCache. rewrite setCacheCopy_dnsCache.
  destruct (decide (key = k)) as [<-|Hne].
  - intros ->%Get_Set_inv. apply stripOPT_no_opt.
  - rewrite Get_Set_other by done. apply Hc.
Qed.

Lemma cache_safe_deleteExpired c now : cache_safe c → cache_safe (deleteExpiredCache c now).
Proof. intros Hc now' k m. unfold getCache. simpl. intros ?%Get_DeleteExpired_inv. by eapply Hc. Qed.

Lemma cache_safe_flush c : cache_safe (deleteAllCache c).
Proof. intros now k m. unfold getCache. simpl. by rewrite Get_Flush. Qed.

(** What the program can do to the cache. *)
Inductive cache_step : Cache → Cache → Prop :=
| step_setCacheCopy c now mono key v expire : cache_step c (setCacheCopy c now mono key v expire)
| step_setCacheCopyByType c now mono name q v expire :
    cache_step c (setCacheCopyByType c now mono name q v expire)
| step_deleteExpired c now : cache_step c (deleteExpiredCache c now)
| step_deleteAll c : cache_step c (deleteAllCache c).

(** Whatever the program does to the cache, no cached message ever holds an
    OPT record, so sharing its records between concurrent readers is safe, and the
    default expiration stays five minutes. *)
Theorem cache_opt_free (xdp : option (emap BPFKey BPFValue)) (c : Cache) :
  rtc cache_step (mkCache newCache xdp) c →
  (∀ now k m, getCacheCopy c now k = Some m → no_opt m) ∧
  gc_default (dnsCache c) = 5 * Minute.
Proof.
  intros Hc. assert (cache_safe c ∧ gc_default (dnsCache c) = 5 * Minute) as [Hs Hd].
  { remember (mkCache newCache xdp) as c0 eqn:E0.
    assert (cache_safe c0 ∧ gc_default (dnsCache c0) = 5 * Minute) as Hinit.
    { subst c0. split; [apply cache_safe_new|]. simpl. unfold newCache. by rewrite default_New. }
    clear E0. induction Hc as [|c0 c1 c2 Hstep _ IH]; [done|]. apply IH.
    destruct Hinit as [Hs Hd]. destruct Hstep; split;
      eauto using cache_safe_set, cache_safe_deleteExpired, cache_safe_flush;
      unfold setCacheCopyByType; rewrite ?setCacheCopy_dnsCache; simpl;
      by rewrite ?default_Set, ?default_DeleteExpired, ?default_Flush. }
  split; [|done]. intros now k m. unfold getCacheCopy.
  destruct (getCache c now k) as [m'|] eqn:E; [|done]. intros [= <-].
  by apply (Hs _ _ _ E).
Qed.

(** ** The kernel copy *)

Lemma length_copy_into n l : length (copy_into n l) = n.
Proof. unfold copy_into. rewrite length_app, length_take, length_replicate. lia. Qed.

(** C37: a cache write touches the eBPF map only for a message that has both a
    question and an answer, that packs and whose name packs; then the entry under
    the question's key holds the packed answer-only message padded to 512 bytes,
    its length, at most 512, and the expiry clock + TTL, and no other entry
    changes.  In particular negative answers and delegations are never copied. *)
Theorem xdp_sync_entry (c : Cache) (now : Z) (mono : option Z) (key : string) (m : Msg) (ttl : Z)
    (xm xm' : emap BPFKey BPFValue) :
  xdpMap c = Some xm →
  xdpMap (setCacheCopy c now mono key m ttl) = Some xm' →
  xm' = xm ∨
  ∃ q qs wire packed t,
    Questions m = q :: qs ∧ Answer m ≠ [] ∧
    PackDomainName (CanonicalName (Q_Name q)) = Some wire ∧
    Pack (mkMsg (Hdr m) true (Questions m) (Answer m) [] []) = Some packed ∧
    (length packed ≤ 512)%nat ∧ mono = Some t ∧
    let k := mkBPFKey (copy_into 255 wire) (Q_Qtype q) in
    let v := mkBPFValue (u64 (t + ttl)) (Z.of_nat (length packed)) (copy_into 512 packed) in
    em_Lookup xm' k = Some v ∧ length (BV_Response v) = 512%nat ∧
    ∀ k', k ≠ k' → em_Lookup xm' k' = em_Lookup xm k'.
Proof.
  intros Hx. unfold setCacheCopy. rewrite Msg_Copy_spec, stripOPT_filter. simpl.
  destruct (Answer m) as [|a ans] eqn:Ea; [simpl; rewrite Hx; intros [= ->]; by left|].
  destruct (Questions m) as [|q qs] eqn:Eq; [simpl; rewrite Hx; intros [= ->]; by left|].
  unfold syncToBPFMap. simpl. rewrite Hx.
  unfold buildBPFCacheKey, domainToWireFormat, buildBPFCacheValue. simpl.
  destruct (PackDomainName _) as [wire|] eqn:Ew; simpl; [|rewrite Hx; intros [= ->]; by left].
  rewrite Ea, Eq. destruct (Pack _) as [packed|] eqn:Ep; simpl; [|rewrite Hx; intros [= ->]; by left].
  destruct (Z.ltb_spec 512 (Z.of_nat (length packed))) as [|Hlen]; simpl;
    [rewrite Hx; intros [= ->]; by left|].
  destruct mono as [t|]; simpl; [|rewrite Hx; intros [= ->]; by left].
  destruct (em_Update _ _ _) as [m'|] eqn:Eu; simpl; [|rewrite Hx; intros [= ->]; by left].
  intros [= ->]. right. exists q, qs, wire, packed, t. split_and!; try done; [lia|..].
  - by eapply Lookup_Update.
  - by rewrite length_copy_into.
  - intros k' Hk. by eapply Lookup_Update_other.
Qed.

Lemma cleanup_fold (dead : BPFKey → Prop) (m0 : emap BPFKey BPFValue) ks m d :
  Forall dead ks →
  (∀ k v, em_Lookup m k = Some v → em_Lookup m0 k = Some v) →
  (∀ k, ¬ dead k → em_Lookup m k = em_Lookup m0 k) →
  let r := fold_left (λ '(m, deleted) k,
    match em_Delete m k with Some m' => (m', deleted + 1) | None => (m, deleted) end) ks (m, d) in
  (∀ k v, em_Lookup r.1 k = Some v → em_Lookup m0 k = Some v) ∧
  (∀ k, ¬ dead k → em_Lookup r.1 k = em_Lookup m0 k) ∧
  d ≤ r.2 ≤ d + Z.of_nat (length ks).
Proof.
  revert m d. induction ks as [|k ks IH]; intros m d Hks Hsub Hkeep; [simpl; split_and!; (done || lia)|].
  apply Forall_cons in Hks as [Hk Hks]. cbn [fold_left].
  destruct (em_Delete m k) as [m'|] eqn:Ed.
  - destruct (IH m' (d + 1)) as (Ha & Hb & Hc); [done| | |split_and!; simpl in *; (done || lia)].
    + intros k' v Hl. destruct (decide (k = k')) as [<-|Hne].
      * by rewrite (Lookup_Delete _ _ _ Ed) in Hl.
      * apply Hsub. by rewrite <-(Lookup_Delete_other _ _ _ _ Ed Hne).
    + intros k' Hk'. rewrite <-Hkeep by done. eapply Lookup_Delete_other; [done|]. by intros <-.
  - destruct (IH m d) as (Ha & Hb & Hc); [done..|]. split_and!; simpl in *; (done || lia).
Qed.

(** The cleanup of the eBPF map removes only entries whose expiry has passed:
    what remains was there before with the same value, every live entry remains,
    and the count it reports is between 0 and the number of entries. *)
Theorem cleanup_only_expired (m : emap BPFKey BPFValue) (mono : option Z) :
  let '(m', deleted) := cleanupExpiredBPFEntries m mono in
  (∀ k v, em_Lookup m' k = Some v → em_Lookup m k = Some v) ∧
  (∀ k v, em_Lookup m k = Some v →
    (∀ t, mono = Some t → t < BV_ExpireTs v) → em_Lookup m' k = Some v) ∧
  0 ≤ deleted ≤ Z.of_nat (length (em_Iterate m)).
Proof.
  unfold cleanupExpiredBPFEntries. destruct mono as [t|]; [|split_and!; eauto; lia].
  set (ks := (filter _ (em_Iterate m)).*1).
  pose proof (cleanup_fold (λ k, ∃ v, em_Lookup m k = Some v ∧ BV_ExpireTs v ≤ t) m ks m 0) as Hf.
  destruct (fold_left _ ks (m, 0)) as [m' d] eqn:Efold. simpl in Hf.
  destruct Hf as (H1' & H2' & H3').
  - apply Forall_forall. intros k ([k' v] & -> & [He Hi]%list_elem_of_filter)%list_elem_of_fmap.
    simpl in *. exists v. split; [by apply Iterate_spec|done].
  - done.
  - done.
  - split_and!; [done| |lia|].
    + intros k v Hk Hlive. rewrite H2'; [done|]. intros (v' & Hv & Hexp).
      rewrite Hk in Hv. simplify_eq. specialize (Hlive t eq_refl). lia.
    + transitivity (Z.of_nat (length ks)); [lia|]. unfold ks. rewrite length_fmap.
      apply Nat2Z.inj_le, length_filter.
Qed.

End cache_lemmas.

(** ** Witnesses, at the reference instances *)

Module CacheWitness.
Import RefDns RefCache RefEbpf.

Definition no_entries : emap BPFKey BPFValue := (∅ : gmap BPFKey BPFValue).
Definition start : Cache := mkCache newCache (Some no_entries).
Definition msg : Msg :=
  mkMsg new_MsgHdr false [mkQ "a." TypeA ClassINET] [RR_A (mkHdr "a." TypeA ClassINET 60) [1; 2; 3; 4]] []
    [RR_OPT (mkHdr "." TypeOPT 4096 0)].

Lemma cache_set_get_witness :
  getCacheCopyByType (setCacheCopyByType start 1000 None "a." 1 msg 60) 2000 "a." 1 =
    Some (cached_form msg) ∧
  getCacheCopyByType (setCacheCopyByType start 1000 None "a." 1 msg 60) (61 * Second) "a." 1 = None.
Proof.
  split.
  - refine (proj1 (cache_set_get start 1000 2000 None "a." "a." 1 1 msg 60 _ _ _) _);
      unfold Second, Millisecond; lia.
  - refine (proj1 (proj2 (cache_set_get start 1000 (61 * Second) None "a." "a." 1 1 msg 60 _ _ _)) _);
      unfold Second, Millisecond; lia.
Defined.

Lemma cache_zero_ttl_witness :
  getCacheCopyByType (setCacheCopyByType start 1000 None "a." 1 msg 0) (299 * Second) "a." 1 =
    Some (cached_form msg).
Proof.
  apply (cache_zero_ttl start 1000 (299 * Second) None "a." 1 msg).
  - reflexivity.
  - unfold Minute, Second, Millisecond. lia.
Defined.

Lemma cache_opt_free_witness :
  (∀ now k m, getCacheCopy (setCacheCopyByType start 1000 None "a." 1 msg 60) now k = Some m → no_opt m) ∧
  gc_default (dnsCache (setCacheCopyByType start 1000 None "a." 1 msg 60)) = 5 * Minute.
Proof.
  refine (cache_opt_free (Some no_entries) (setCacheCopyByType start 1000 None "a." 1 msg 60) _).
  eapply rtc_l; [apply step_setCacheCopyByType|apply rtc_refl].
Defined.

Lemma xdp_sync_entry_witness :
  ∃ xm', xdpMap (setCacheCopy start 1000 (Some 7) "a.:1" msg 60) = Some xm' ∧
  (xm' = no_entries ∨ ∃ q qs wire packed t,
    Questions msg = q :: qs ∧ Answer msg ≠ [] ∧
    PackDomainName (CanonicalName (Q_Name q)) = Some wire ∧
    Pack (mkMsg (Hdr msg) true (Questions msg) (Answer msg) [] []) = Some packed ∧
    (length packed ≤ 512)%nat ∧ Some 7 = Some t ∧
    let k := mkBPFKey (copy_into 255 wire) (Q_Qtype q) in
    let v := mkBPFValue (u64 (t + 60)) (Z.of_nat (length packed)) (copy_into 512 packed) in
    em_Lookup xm' k = Some v ∧ length (BV_Response v) = 512%nat ∧
    ∀ k', k ≠ k' → em_Lookup xm' k' = em_Lookup no_entries k').
Proof.
  eexists. split; [reflexivity|].
  apply (xdp_sync_entry start 1000 (Some 7) "a.:1" msg 60 no_entries); reflexivity.
Defined.

Lemma cleanup_only_expired_witness :
  let m : emap BPFKey BPFValue := <[ mkBPFKey [1] 1 := mkBPFValue 5 0 [] ]> (∅ : gmap BPFKey BPFValue) in
  cleanupExpiredBPFEntries m (Some 5) = (no_entries, 1) ∧
  let '(m', deleted) := cleanupExpiredBPFEntries m (Some 5) in
  0 ≤ deleted ≤ Z.of_nat (length (em_Iterate m)).
Proof.
  intros m. split; [by vm_compute|].
  pose proof (cleanup_only_expired m (Some 5)) as Hc.
  destruct (cleanupExpiredBPFEntries m (Some 5)) as [m' d]. apply Hc.
Defined.

End CacheWitness.
