(* ===== verification/Snapshot.v ===== *)
(** * Cache snapshots (server/snapshot.go)

    The cache is written to a file at shutdown and read back at the next start.
    An entry of the file holds the key, the message in wire format (base64) and
    the time of the snapshot; at load time the entry's remaining lifetime is
    computed from the TTLs of its records and that time.

    The file is modelled after JSON decoding: [json.Unmarshal] of what
    [json.Marshal] wrote gives the same entries, and other contents either fail to
    decode or are some list of entries. *)

From Stdlib Require Import Ascii.
From S2P Require Import Prelude NetIP Base64 Dns External Cache.

Record SnapshotConfig := mkSnapshotConfig {
  sc_Enabled : bool;
  sc_File : string;
}.

Record snapshotEntry := mkSnapshotEntry {
  se_Key : string;
  se_MsgB64 : list ascii;
  se_SavedAt : Z;      (* int64, unix seconds *)
}.

(** What reading the file gives. *)
Inductive FileContent :=
| FileMissing
| FileUnreadable
| FileCorrupt                                  (* not JSON of this shape *)
| FileEntries (Entries : list snapshotEntry).

(** [t.Unix()], in seconds from the zero of the model's clock; only differences of
    such times matter. *)
Definition Unix (t : Z) : Z := t / Second.

(** [remainingTTL]: the loop over the records of the three sections. *)
Definition ttl_step (elapsed : Z) (st : bool * Z) (rr : RR) : bool * Z :=
  let '(first, minRemaining) := st in
  let originalTTL := Hdr_Ttl (Header rr) in
  if originalTTL <=? elapsed then st
  else
    let remaining := u32 (originalTTL - elapsed) in
    if first || (remaining <? minRemaining) then (false, remaining) else st.

Definition remainingTTL (msg : Msg) (savedAt now : Z) : Z :=
  let elapsed := Z.max 0 (i64 (now - savedAt)) in
  (foldl (ttl_step elapsed) (true, 0) (Answer msg ++ Ns msg ++ Extra msg)).2.

Section snapshot.
Context `{DL : DnsLib} `{GC : GoCache Msg} `{EM : EbpfMap BPFKey BPFValue}.

Definition save_entry (now : Z) (item : string * Msg) : option snapshotEntry :=
  wire ← Pack item.2;
  Some (mkSnapshotEntry item.1 (EncodeToString wire) now).

(** [SaveSnapshot]: whether there was an error, and the file afterwards.
    [write] is the outcome of creating the directory and writing the file: on an
    error, what is left in the file. *)
Definition SaveSnapshot (cfg : SnapshotConfig) (c : Cache) (now : Z) (write : option FileContent)
    (file : FileContent) : bool * FileContent :=
  if negb (sc_Enabled cfg) || String.eqb (sc_File cfg) "" then (false, file)
  else
    let entries := omap (save_entry (Unix now)) (gc_Items (dnsCache c) now) in
    match write with
    | Some leftover => (true, leftover)
    | None => (false, FileEntries entries)
    end.

(** The fate of an entry at load time. *)
Inductive entryStatus :=
| EntryCorrupt
| EntryExpired
| EntryImport (msg : Msg) (minTTL : Z).

Definition entry_status (now : Z) (entry : snapshotEntry) : entryStatus :=
  match DecodeString (se_MsgB64 entry) with
  | None => EntryCorrupt
  | Some wire =>
      match Unpack wire with
      | None => EntryCorrupt
      | Some msg =>
          let minTTL := remainingTTL msg (se_SavedAt entry) now in
          if minTTL =? 0 then EntryExpired else EntryImport msg minTTL
      end
  end.

Record LoadStats := mkLoadStats {
  ld_imported : Z;
  ld_expired : Z;
  ld_corrupt : Z;
}.

Definition load_entry (now : Z) (mono : option Z) (st : LoadStats * Cache) (entry : snapshotEntry)
    : LoadStats * Cache :=
  let '(n, c) := st in
  match entry_status (Unix now) entry with
  | EntryCorrupt => (mkLoadStats (ld_imported n) (ld_expired n) (ld_corrupt n + 1), c)
  | EntryExpired => (mkLoadStats (ld_imported n) (ld_expired n + 1) (ld_corrupt n), c)
  | EntryImport msg minTTL =>
      (mkLoadStats (ld_imported n + 1) (ld_expired n) (ld_corrupt n),
       setCacheCopy c now mono (se_Key entry) msg minTTL)
  end.

Definition no_stats : LoadStats := mkLoadStats 0 0 0.

(** [LoadSnapshot]: whether there was an error, the counts, and the cache. *)
Definition LoadSnapshot (cfg : SnapshotConfig) (file : FileContent) (c : Cache) (now : Z)
    (mono : option Z) : bool * (LoadStats * Cache) :=
  if negb (sc_Enabled cfg) || String.eqb (sc_File cfg) "" then (false, (no_stats, c))
  else
    match file with
    | FileMissing => (false, (no_stats, c))
    | FileUnreadable | FileCorrupt => (true, (no_stats, c))
    | FileEntries entries => (false, foldl (load_entry now mono) (no_stats, c) entries)
    end.
End snapshot.

(** ** Remaining lifetimes *)

Definition ttl_ok (rr : RR) : Prop := 0 ≤ Hdr_Ttl (Header rr) < 2 ^ 32.

(** The lifetimes left to the records that are still alive. *)
Definition alive (elapsed : Z) (rrs : list RR) : list Z :=
  omap (λ rr, if Hdr_Ttl (Header rr) <=? elapsed then None else Some (Hdr_Ttl (Header rr) - elapsed)) rrs.

Lemma ttl_step_spec elapsed rrs first m :
  0 ≤ elapsed → Forall ttl_ok rrs → (first = true → m = 0) → (first = false → 0 < m) →
  let r := (foldl (ttl_step elapsed) (first, m) rrs).2 in
  (first = true ∧ alive elapsed rrs = [] ∧ r = 0) ∨
  (0 < r ∧ Forall (λ x, r ≤ x) (alive elapsed rrs) ∧ (first = false → r ≤ m) ∧
   (r ∈ alive elapsed rrs ∨ first = false ∧ r = m)).
Proof.
  intros He. revert first m. induction rrs as [|rr rrs IH]; intros first m Hok Hf Hm; simpl.
  - destruct first; [left; auto|right]. split_and!; [by apply Hm|constructor|done|by right].
  - inversion_clear Hok as [|? ? Hrr Hrrs]. unfold ttl_ok in Hrr.
    destruct (Z.leb_spec (Hdr_Ttl (Header rr)) elapsed) as [Hd|Hd]; [by apply IH|].
    rewrite u32_small by lia.
    set (x := Hdr_Ttl (Header rr) - elapsed) in *. assert (0 < x) by lia.
    destruct (first || (x <? m)) eqn:Eb.
    + destruct (IH false x Hrrs) as [(? & _)|(Hr & Hall & Hle & Hin)]; try done.
      right. specialize (Hle eq_refl). split_and!; [done|by constructor| |].
      * intros ->. simpl in Eb. bool_prop. lia.
      * left. destruct Hin as [?|[_ ->]]; [by right|by left].
    + apply orb_false_iff in Eb as [-> Eb]. bool_prop.
      destruct (IH false m Hrrs) as [(? & _)|(Hr & Hall & Hle & Hin)]; try done.
      specialize (Hle eq_refl). right. split_and!; [done|constructor; [lia|done]|done|].
      destruct Hin as [?|[_ ->]]; [by left; right|by right].
Qed.

Lemma i64_small z : min_int64 ≤ z ≤ max_int64 → i64 z = z.
Proof.
  unfold min_int64, max_int64, i64. intros Hz. rewrite Z.mod_small by lia. lia.
Qed.

(** The remaining TTL is the least lifetime left to a live record, and zero exactly
    when no record is alive. *)
Lemma remainingTTL_spec msg savedAt now :
  Forall ttl_ok (Answer msg ++ Ns msg ++ Extra msg) → 0 ≤ now - savedAt ≤ max_int64 →
  let l := alive (now - savedAt) (Answer msg ++ Ns msg ++ Extra msg) in
  (l = [] ∧ remainingTTL msg savedAt now = 0) ∨
  (0 < remainingTTL msg savedAt now ∧ remainingTTL msg savedAt now ∈ l ∧
   Forall (λ x, remainingTTL msg savedAt now ≤ x) l).
Proof.
  intros Hok Hn l. unfold remainingTTL. rewrite i64_small by (unfold min_int64, max_int64 in *; lia).
  rewrite Z.max_r by lia. cbv zeta.
  destruct (ttl_step_spec (now - savedAt) _ true 0 ltac:(lia) Hok ltac:(done) ltac:(done))
    as [(_ & ? & ?)|(? & ? & _ & [?|[? _]])]; [by left|by right|done].
Qed.

(** ** Save and load *)

Section roundtrip.
Context `{DLL : DnsLibLaws} `{DWL : !DnsWireLaws}.
Context `{GCL : GoCacheLaws Msg} `{EML : EbpfMapLaws BPFKey BPFValue}.

Lemma load_entry_cache now mono st e :
  (load_entry now mono st e).2 = match entry_status (Unix now) e with
    | EntryImport msg ttl => setCacheCopy st.2 now mono (se_Key e) msg ttl
    | _ => st.2
    end.
Proof. destruct st as [n c]. unfold load_entry. by destruct (entry_status _ _). Qed.

(** Entries with other keys do not matter. *)
Lemma load_other now mono st es t k :
  k ∉ (se_Key <$> es) →
  getCache (foldl (load_entry now mono) st es).2 t k = getCache st.2 t k.
Proof.
  revert st. induction es as [|e es IH]; intros st Hk; [done|]. cbn [foldl].
  rewrite fmap_cons, not_elem_of_cons in Hk. destruct Hk as [Hne Hk]. rewrite IH by done.
  rewrite load_entry_cache. destruct (entry_status _ _) as [| |m ttl]; [done..|].
  unfold getCache. by rewrite setCacheCopy_dnsCache, Get_Set_other.
Qed.

(** An entry's own key holds what loading that entry stored. *)
Lemma load_own now mono st es e t :
  NoDup (se_Key <$> es) → e ∈ es →
  ∃ c, getCache (foldl (load_entry now mono) st es).2 t (se_Key e) =
    match entry_status (Unix now) e with
    | EntryImport msg ttl => gc_Get (gc_Set c now (se_Key e) (stripOPT msg) (ttl * Second)) t (se_Key e)
    | _ => getCache st.2 t (se_Key e)
    end.
Proof.
  intros Hnd (l1 & l2 & ->)%list_elem_of_split.
  rewrite fmap_app, fmap_cons in Hnd. apply NoDup_app in Hnd as (_ & Hd & [Hnin _]%NoDup_cons).
  rewrite foldl_app. cbn [foldl]. rewrite load_other by done. rewrite load_entry_cache.
  assert (se_Key e ∉ (se_Key <$> l1)) as Hk1 by (intros ?; eapply Hd; [done|by left]).
  exists (dnsCache (foldl (load_entry now mono) st l1).2).
  destruct (entry_status _ _); [by apply load_other..|]. unfold getCache. by rewrite setCacheCopy_dnsCache.
Qed.

(** ** The round trip *)

Definition saved (c : Cache) (t : Z) : list snapshotEntry := omap (save_entry (Unix t)) (gc_Items (dnsCache c) t).

Lemma elem_of_saved c t e :
  e ∈ saved c t ↔ ∃ m w, getCache c t (se_Key e) = Some m ∧ Pack m = Some w ∧
    e = mkSnapshotEntry (se_Key e) (EncodeToString w) (Unix t).
Proof.
  unfold saved. rewrite list_elem_of_omap. split.
  - intros ([k m] & Hin & He). unfold save_entry in He. simpl in He.
    destruct (Pack m) as [w|] eqn:Ep; [|done]. injection He as <-. exists m, w.
    split_and!; [by apply Items_spec|done|done].
  - intros (m & w & Hg & Hp & ->). simpl in *. exists (se_Key e, m). split; [by apply Items_spec|].
    unfold save_entry. simpl. by rewrite Hp.
Qed.

Lemma saved_NoDup c t : NoDup (se_Key <$> saved c t).
Proof.
  unfold saved. pose proof (Items_NoDup (dnsCache c) t) as Hnd.
  induction (gc_Items (dnsCache c) t) as [|[k m] items IH]; [constructor|].
  simpl in Hnd. apply NoDup_cons in Hnd as [Hk Hnd]. simpl. unfold save_entry at 1. simpl.
  destruct (Pack m) as [w|]; simpl; [|by apply IH]. apply NoDup_cons. split; [|by apply IH].
  intros (e & -> & ([k' m'] & Hin & He)%list_elem_of_omap)%list_elem_of_fmap.
  unfold save_entry in He. simpl in He. destruct (Pack m'); [|done]. injection He as <-. apply Hk. simpl.
  apply list_elem_of_fmap. by exists (k', m').
Qed.

(** How a message comes back: the compression flag is not saved. *)
Abbreviation reloaded m := (set_Compress m false).

Lemma filter_no_opt (rrs : list RR) :
  Forall (λ rr, is_OPT rr = false) rrs → filter (λ rr, is_OPT rr = false) rrs = rrs.
Proof. induction 1 as [|rr l Hrr Hl IH]; [done|]. by rewrite filter_cons_True, IH. Qed.

Lemma stripOPT_none m : Forall (λ rr, is_OPT rr = false) (Extra m) → stripOPT m = m.
Proof. intros Hm. rewrite stripOPT_filter, filter_no_opt by done. by destruct m. Qed.

Lemma from_wire_no_opt m : from_wire m → Forall (λ rr, is_OPT rr = false) (Extra m).
Proof.
  intros Hm. apply Forall_forall. intros rr Hrr. apply (fw_records m Hm). unfold all_rrs. rewrite !elem_of_app. by right; right.
Qed.

Lemma saved_status m w k t1 t2 :
  from_wire m → Pack m = Some w →
  entry_status t2 (mkSnapshotEntry k (EncodeToString w) t1) =
    let ttl := remainingTTL m t1 t2 in
    if ttl =? 0 then EntryExpired else EntryImport (set_Compress m false) ttl.
Proof.
  intros Hm Hp. unfold entry_status. simpl. rewrite b64_roundtrip by (by eapply Pack_bytes).
  by rewrite (Unpack_Pack m w Hm Hp).
Qed.

Definition snapshot_on (cfg : SnapshotConfig) : Prop := sc_Enabled cfg = true ∧ sc_File cfg ≠ "".

(** Writing the cache [c] at [t1] and loading it into [c0] at [t2]. *)
Definition restart (cfg : SnapshotConfig) (c : Cache) (t1 : Z) (c0 : Cache) (t2 : Z) (mono : option Z) : Cache :=
  (LoadSnapshot cfg (SaveSnapshot cfg c t1 None FileMissing).2 c0 t2 mono).2.2.

Lemma restart_eq cfg c t1 c0 t2 mono :
  snapshot_on cfg → restart cfg c t1 c0 t2 mono = (foldl (load_entry t2 mono) (no_stats, c0) (saved c t1)).2.
Proof.
  intros [He Hf]. unfold restart, SaveSnapshot, LoadSnapshot. rewrite He.
  destruct (String.eqb_spec (sc_File cfg) ""); done.
Qed.

Lemma restart_get cfg c t1 c0 t2 mono t k m w :
  snapshot_on cfg → getCache c t1 k = Some m → from_wire m → Pack m = Some w →
  ∃ g, getCache (restart cfg c t1 c0 t2 mono) t k =
    let ttl := remainingTTL m (Unix t1) (Unix t2) in
    if ttl =? 0 then getCache c0 t k
    else gc_Get (gc_Set g t2 k (reloaded m) (ttl * Second)) t k.
Proof.
  intros Hon Hg Hm Hp. rewrite restart_eq by done. set (e := mkSnapshotEntry k (EncodeToString w) (Unix t1)).
  assert (e ∈ saved c t1) as Hin by (apply elem_of_saved; by exists m, w).
  destruct (load_own t2 mono (no_stats, c0) _ e t (saved_NoDup c t1) Hin) as [g Hgo]. exists g.
  rewrite (Hgo : getCache _ t k = _). unfold e. rewrite (saved_status m w) by done. cbv zeta.
  destruct (_ =? 0); [done|]. by rewrite (stripOPT_none (set_Compress m false)) by (exact (from_wire_no_opt m Hm)).
Qed.

(** [n] is the least TTL of the records that outlive [elapsed] seconds. *)
Definition least_live (elapsed : Z) (rrs : list RR) (n : Z) : Prop :=
  elapsed < n ∧ (∃ rr, rr ∈ rrs ∧ Hdr_Ttl (Header rr) = n) ∧
  ∀ rr, rr ∈ rrs → elapsed < Hdr_Ttl (Header rr) → n ≤ Hdr_Ttl (Header rr).

Lemma elem_of_alive elapsed rrs x :
  x ∈ alive elapsed rrs ↔ ∃ rr, rr ∈ rrs ∧ elapsed < Hdr_Ttl (Header rr) ∧ x = Hdr_Ttl (Header rr) - elapsed.
Proof.
  unfold alive. rewrite list_elem_of_omap. split.
  - intros (rr & Hin & Hx). exists rr. destruct (Z.leb_spec (Hdr_Ttl (Header rr)) elapsed); [done|]. by simplify_eq.
  - intros (rr & Hin & Ht & ->). exists rr. split; [done|]. destruct (Z.leb_spec (Hdr_Ttl (Header rr)) elapsed); [lia|done].
Qed.

Lemma remainingTTL_least m t1 t2 :
  Forall ttl_ok (all_rrs m) → 0 ≤ t2 - t1 ≤ max_int64 →
  (∀ n, least_live (t2 - t1) (all_rrs m) n → remainingTTL m t1 t2 = n - (t2 - t1)) ∧
  ((∀ rr, rr ∈ all_rrs m → Hdr_Ttl (Header rr) ≤ t2 - t1) → remainingTTL m t1 t2 = 0).
Proof.
  intros Hok Ht. unfold all_rrs in *. destruct (remainingTTL_spec m t1 t2 Hok Ht) as [[He ->]|(Hpos & Hin & Hall)].
  - split; [|done]. intros n (Hn & (rr & Hrr & En) & _).
    assert (n - (t2 - t1) ∈ alive (t2 - t1) (Answer m ++ Ns m ++ Extra m)) as Ha
      by (apply elem_of_alive; exists rr; split_and!; [done|lia|lia]).
    rewrite He in Ha. by apply not_elem_of_nil in Ha.
  - apply elem_of_alive in Hin as (rr & Hrr & Hl & Er). split.
    + intros n (Hn & (rr' & Hrr' & En) & Hmin). rewrite Forall_forall in Hall.
      assert (n - (t2 - t1) ∈ alive (t2 - t1) (Answer m ++ Ns m ++ Extra m)) as Ha
        by (apply elem_of_alive; exists rr'; split_and!; [done|lia|lia]).
      specialize (Hall _ Ha). specialize (Hmin rr Hrr Hl). lia.
    + intros Hdead. specialize (Hdead rr Hrr). lia.
Qed.

(** C15: restarting with a snapshot.  Let the messages in the cache be put together
    from what was read from the wire, and let the snapshot taken at [t1] be loaded
    at [t2] into an empty cache.  Then a key holds something afterwards only if it
    held a message when the snapshot was taken, and that message has a wire format
    and a record whose TTL is more than the seconds elapsed since the snapshot.  In
    that case the message is back, whole, from the load until the least such TTL has
    run out, counted from the snapshot, and not after. *)
Theorem snapshot_roundtrip (cfg : SnapshotConfig) (c c0 : Cache) (t1 t2 t : Z) (mono : option Z) (k : string) :
  snapshot_on cfg → (∀ k t, getCache c0 t k = None) →
  (∀ k m, getCache c t1 k = Some m → from_wire m ∧ Forall ttl_ok (all_rrs m)) →
  0 ≤ Unix t2 - Unix t1 ≤ max_int64 →
  let r := restart cfg c t1 c0 t2 mono in
  let elapsed := Unix t2 - Unix t1 in
  match getCache c t1 k with
  | None => getCache r t k = None
  | Some m =>
      (Pack m = None → getCache r t k = None) ∧
      ((∀ rr, rr ∈ all_rrs m → Hdr_Ttl (Header rr) ≤ elapsed) → getCache r t k = None) ∧
      (∀ n, is_Some (Pack m) → least_live elapsed (all_rrs m) n →
         (t2 ≤ t < t2 + (n - elapsed) * Second → getCache r t k = Some (set_Compress m false)) ∧
         (t2 + (n - elapsed) * Second < t → getCache r t k = None))
  end.
Proof.
  intros Hon Hc0 Hcache Ht r elapsed. assert (0 < Second) as HS by (unfold Second, Millisecond; lia).
  assert ((∀ m, getCache c t1 k = Some m → Pack m = None) → getCache r t k = None) as Hgone.
  { intros Hno. unfold r. rewrite restart_eq by done. rewrite load_other; [apply Hc0|].
    intros (e & -> & (m & w & Hm & Hp & _)%elem_of_saved)%list_elem_of_fmap. specialize (Hno m Hm). congruence. }
  destruct (getCache c t1 k) as [m|] eqn:Hm; [|by apply Hgone].
  destruct (Hcache k m Hm) as [Hw Hok]. destruct (remainingTTL_least m (Unix t1) (Unix t2) Hok Ht) as [Hleast Hdead].
  split; [intros Hp; apply Hgone; by intros ? [= <-]|].
  destruct (Pack m) as [w|] eqn:Hp; [|split; [intros _; apply Hgone; by intros ? [= <-]|by intros n []]].
  destruct (restart_get cfg c t1 c0 t2 mono t k m w Hon Hm Hw Hp) as [g Hr]. fold r in Hr. cbv zeta in Hr.
  split; [intros Hd; rewrite Hr, (Hdead Hd); apply Hc0|]. intros n _ Hn. rewrite (Hleast n Hn) in Hr.
  assert (0 < n - elapsed) as Hpos by (destruct Hn; unfold elapsed; lia).
  assert ((n - elapsed =? 0) = false) as E0 by (apply Z.eqb_neq; lia). unfold elapsed in *. rewrite E0 in Hr.
  split; intros Hin; rewrite Hr; [apply Get_Set_fresh|apply Get_Set_expired]; try done; apply Z.mul_pos_pos; lia.
Qed.

Lemma remainingTTL_uniform m n t1 t2 :
  Answer m ≠ [] → Forall (λ rr, Hdr_Ttl (Header rr) = n) (Answer m ++ Ns m ++ Extra m) →
  n < 2 ^ 32 → 0 ≤ t2 - t1 < n → remainingTTL m t1 t2 = n - (t2 - t1).
Proof.
  intros Ha Hall Hn Ht.
  assert (Forall ttl_ok (Answer m ++ Ns m ++ Extra m)) as Hok.
  { eapply Forall_impl; [exact Hall|]. intros rr Hrr. unfold ttl_ok. cbn beta in Hrr. lia. }
  assert (∀ x, x ∈ alive (t2 - t1) (Answer m ++ Ns m ++ Extra m) → x = n - (t2 - t1)) as Hx.
  { intros x (rr & Hin & Hrr)%list_elem_of_omap. rewrite Forall_forall in Hall. rewrite (Hall _ Hin) in Hrr.
    destruct (n <=? t2 - t1); [done|]. by injection Hrr. }
  destruct (remainingTTL_spec m t1 t2 Hok) as [[He _]|(_ & Hin & _)]; [unfold max_int64; lia| |by apply Hx].
  exfalso. destruct (Answer m) as [|rr rrs]; [done|]. simpl in He, Hall. inversion_clear Hall as [|? ? Hrr _].
  rewrite Hrr in He. destruct (Z.leb_spec n (t2 - t1)); [lia|done].
Qed.

(** A snapshot restarts lifetimes.  A message cached at [t0] whose records all
    have TTL [n] leaves the cache [n] seconds later.  When a snapshot is taken at
    [t1] while the message is cached, and loaded at [t2], the message is served
    again for [n] seconds from the time of the snapshot, not from [t0]: however
    long it had been cached before, and so also after its TTL has run out. *)
Theorem snapshot_restarts_lifetime (cfg : SnapshotConfig) (c c0 : Cache) (t0 t1 t2 t n : Z) (mono : option Z)
    (k : string) (m : Msg) :
  snapshot_on cfg → (∀ k t, getCache c0 t k = None) → n < 2 ^ 32 → Answer m ≠ [] → from_wire m →
  Forall (λ rr, Hdr_Ttl (Header rr) = n) (Answer m ++ Ns m ++ Extra m) → is_Some (Pack m) →
  t0 ≤ t1 < t0 + n * Second → 0 ≤ Unix t2 - Unix t1 < n →
  let c1 := setCacheCopy c t0 mono k m n in
  (t0 + n * Second < t → getCache c1 t k = None) ∧
  (t2 ≤ t < t2 + (n - (Unix t2 - Unix t1)) * Second →
     getCache (restart cfg c1 t1 c0 t2 mono) t k = Some (reloaded m)).
Proof.
  intros Hon Hc0 Hn Ha Hopt Hall [w Hp] Ht1 Ht2 c1. assert (0 < Second) as HS by (unfold Second, Millisecond; lia).
  pose proof (stripOPT_none m (from_wire_no_opt m Hopt)) as Hs.
  assert (getCache c1 t1 k = Some m) as Hg.
  { unfold c1, getCache. rewrite setCacheCopy_dnsCache, Hs. apply Get_Set_fresh; [apply Z.mul_pos_pos; lia|done]. }
  split.
  - intros Ht. unfold c1, getCache. rewrite setCacheCopy_dnsCache. apply Get_Set_expired; [apply Z.mul_pos_pos; lia|done].
  - intros Ht. destruct (restart_get cfg c1 t1 c0 t2 mono t k m w Hon Hg Hopt Hp) as [g Hr]. rewrite Hr.
    rewrite (remainingTTL_uniform m n) by done. cbv zeta. destruct (Z.eqb_spec (n - (Unix t2 - Unix t1)) 0); [lia|].
    apply Get_Set_fresh; [apply Z.mul_pos_pos; lia|done].
Qed.
End roundtrip.

Module SnapshotWitness.
Import RefDns.
#[local] Existing Instance RefCache.lib.
#[local] Existing Instance RefCache.laws.
#[local] Existing Instance RefEbpf.lib.
#[local] Existing Instance RefEbpf.laws.

Definition cfg : SnapshotConfig := mkSnapshotConfig true "cache.json".
Definition empty : Cache := mkCache newCache None.

(** An answer that lives for five minutes, in a zone whose NS record lives for one. *)
Definition msg : Msg :=
  mkMsg new_MsgHdr false [mkQ "a." TypeA ClassINET] [RR_A (mkHdr "a." TypeA ClassINET 300) [1; 2; 3; 4]]
    [RR_NS (mkHdr "." TypeNS ClassINET 60) "b."] [].
Definition full : Cache := setCacheCopy empty (1000 * Second) None "a.:1" msg 300.

Lemma on : snapshot_on cfg.
Proof. split; [reflexivity|discriminate]. Qed.
Lemma is_empty k t : getCache empty t k = None.
Proof. reflexivity. Qed.

Lemma msg_from_wire : from_wire msg.
Proof. apply from_wire_intro; try (vm_compute; split; [discriminate|reflexivity]); repeat constructor. Qed.

Lemma full_from_wire k m :
  getCache full (1290 * Second) k = Some m → from_wire m ∧ Forall ttl_ok (all_rrs m).
Proof.
  unfold full, getCache. rewrite setCacheCopy_dnsCache. destruct (decide ("a.:1" = k)) as [<-|Hne].
  - intros Hg%Get_Set_inv. subst. split; [apply msg_from_wire|]. repeat constructor; vm_compute; discriminate.
  - rewrite Get_Set_other by done. done.
Qed.

(** The bytes on disk are read back. *)
Example saved_bytes_decode :
  match saved full (1290 * Second) with
  | [e] => match entry_status 1291 e with EntryImport m ttl => m = msg ∧ ttl = 59 | _ => False end
  | _ => False
  end.
Proof. vm_compute. split; reflexivity. Qed.

Lemma msg_least : least_live 1 (all_rrs msg) 60.
Proof.
  split_and!; [lia|exists (RR_NS (mkHdr "." TypeNS ClassINET 60) "b."); split; [right; left|reflexivity]|].
  intros rr [->|[->|Hrr%not_elem_of_nil]%elem_of_cons]%elem_of_cons; simpl; [lia..|done].
Qed.

(** Loaded one second later, the message is back for the minute its NS record has,
    less that second. *)
Lemma snapshot_roundtrip_witness :
  getCache (restart cfg full (1290 * Second) empty (1291 * Second) None) (1349 * Second) "a.:1" = Some msg ∧
  getCache (restart cfg full (1290 * Second) empty (1291 * Second) None) (1351 * Second) "a.:1" = None.
Proof.
  assert (0 ≤ Unix (1291 * Second) - Unix (1290 * Second) ≤ max_int64) as Ht
    by (vm_compute; split; discriminate).
  assert (is_Some (Pack msg)) as Hp by (eexists; reflexivity).
  pose proof (snapshot_roundtrip cfg full empty (1290 * Second) (1291 * Second) (1349 * Second) None "a.:1"
    on is_empty full_from_wire Ht) as H1.
  pose proof (snapshot_roundtrip cfg full empty (1290 * Second) (1291 * Second) (1351 * Second) None "a.:1"
    on is_empty full_from_wire Ht) as H2.
  split.
  - destruct H1 as (_ & _ & H1). destruct (H1 60 Hp msg_least) as [H3 _].
    apply H3. vm_compute. split; [discriminate|reflexivity].
  - destruct H2 as (_ & _ & H2). destruct (H2 60 Hp msg_least) as [_ H3]. apply H3. vm_compute. reflexivity.
Defined.

(** A message whose records all live for five minutes. *)
Definition even : Msg :=
  mkMsg new_MsgHdr false [mkQ "a." TypeA ClassINET] [RR_A (mkHdr "a." TypeA ClassINET 300) [1; 2; 3; 4]] [] [].

Lemma snapshot_restarts_lifetime_witness :
  let full := setCacheCopy empty (1000 * Second) None "a.:1" even 300 in
  getCache full (1500 * Second) "a.:1" = None ∧
  getCache (restart cfg full (1290 * Second) empty (1291 * Second) None) (1500 * Second) "a.:1" = Some even.
Proof.
  destruct (snapshot_restarts_lifetime cfg empty empty (1000 * Second) (1290 * Second) (1291 * Second)
    (1500 * Second) 300 None "a.:1" even on is_empty) as [He Hr].
  - lia.
  - discriminate.
  - apply from_wire_intro; try (vm_compute; split; [discriminate|reflexivity]); repeat constructor.
  - repeat constructor.
  - vm_compute. eexists. reflexivity.
  - vm_compute. split; [discriminate|reflexivity].
  - vm_compute. split; [discriminate|reflexivity].
  - split; [apply He; vm_compute; reflexivity|].
    apply Hr. vm_compute. split; [discriminate|reflexivity].
Defined.
End SnapshotWitness.
