(* ===== verification/RateLog.v ===== *)
(** * Rate-limited warnings

    The upstream gate, the expensive-request limiter and the hot-zone controller
    write the same log limiter three times: per key, a warning is written if none
    was written in the last 30 seconds, otherwise it is counted and reported with
    the next one.  The shared step is [log_decide]; the components apply it to
    the state they keep per key. *)

From S2P Require Import Prelude.

Record LogState := mkLogState {
  lastLogAt : Z;
  suppressedCount : Z;
}.

Definition new_LogState : LogState := mkLogState time_zero 0.

(** Returns whether to log, the suppressed count to report, and the new state. *)
Definition log_decide (interval now : Z) (st : LogState) : bool * Z * LogState :=
  if IsZero (lastLogAt st) || (interval <=? time_Sub now (lastLogAt st))
  then (true, suppressedCount st, mkLogState now 0)
  else (false, 0, mkLogState (lastLogAt st) (suppressedCount st + 1)).

(** All decisions for a sequence of clock readings. *)
Fixpoint log_run (interval : Z) (times : list Z) (st : LogState) : list (bool * Z) * LogState :=
  match times with
  | [] => ([], st)
  | t :: ts =>
      let '(b, n, st1) := log_decide interval t st in
      let '(out, st2) := log_run interval ts st1 in
      ((b, n) :: out, st2)
  end.

Definition logged (out : list (bool * Z)) : Z := foldr (λ p acc, Z.b2z p.1 + acc) 0 out.
Definition reported (out : list (bool * Z)) : Z := foldr (λ p acc, p.2 + acc) 0 out.

Lemma log_run_balance interval times st :
  let '(out, st') := log_run interval times st in
  suppressedCount st + Z.of_nat (length times) =
    logged out + reported out + suppressedCount st'.
Proof.
  revert st. induction times as [|t ts IH]; intros st; simpl; [lia|].
  destruct (log_decide interval t st) as [[b n] st1] eqn:E.
  specialize (IH st1). destruct (log_run interval ts st1) as [out st']. simpl.
  unfold log_decide in E. destruct (_ || _); simplify_eq/=; lia.
Qed.

(** Two warnings are at least [interval] apart. *)
Lemma log_decide_spacing interval now st :
  lastLogAt st ≠ time_zero → (log_decide interval now st).1.1 = true →
  interval ≤ time_Sub now (lastLogAt st).
Proof.
  intros Hz. unfold log_decide, IsZero. destruct (Z.eqb_spec (lastLogAt st) time_zero); [done|].
  simpl. case_match; [by bool_prop|done].
Qed.
