(* ===== verification/Gate.v ===== *)
(** * The upstream concurrency gate (server/upstream_concurrency_gate.go)

    A counting gate in front of every query sent upstream: at most [limit]
    queries are in flight, and fan-out is given up when the gate is nearly full.
    The mutex makes each method atomic, so concurrent use is an interleaving of
    the methods: the step relation [gate_step].  The receiver is the package
    variable [globalUpstreamGate], which is never nil, so the nil-receiver guards
    are not modelled; metrics and log lines are the returned events. *)

From S2P Require Import Prelude RateLog.

Definition upstreamGateLogInterval : Z := 30 * Second.

Inductive upstreamGatePath :=
| upstreamGatePathForward
| upstreamGatePathIterative
| upstreamGatePathHappyEyeballs
| upstreamGatePathNSResolution
| upstreamGatePathIterativeRetry.

Definition gate_metricLabel (p : upstreamGatePath) : string :=
  match p with
  | upstreamGatePathForward => "forward"
  | upstreamGatePathIterative => "iterative"
  | upstreamGatePathHappyEyeballs => "happy_eyeballs"
  | upstreamGatePathNSResolution => "ns_resolution"
  | upstreamGatePathIterativeRetry => "iterative_retry"
  end.

Record upstreamGateEvent := mkGateEvent {
  ge_action : string;
  ge_path : upstreamGatePath;
  ge_qname : string;
  ge_inflight : Z;
  ge_limit : Z;
  ge_shouldLog : bool;
  ge_suppressedCount : Z;
}.

Record upstreamConcurrencyGate := mkGate {
  limit : Z;
  inflight : Z;
  logStates : gmap string LogState;
}.

(** [numCPU] is [runtime.NumCPU()]. *)
Definition normalizeUpstreamConcurrencyLimit (numCPU limit : Z) : Z :=
  let limit := if limit <=? 0 then numCPU else limit in
  if limit <? 1 then 1 else limit.

Definition setLimit (numCPU : Z) (g : upstreamConcurrencyGate) (l : Z) : upstreamConcurrencyGate :=
  mkGate (normalizeUpstreamConcurrencyLimit numCPU l) (inflight g) (logStates g).

Definition newUpstreamConcurrencyGate (numCPU l : Z) : upstreamConcurrencyGate :=
  setLimit numCPU (mkGate 0 0 ∅) l.

Definition getLimit (g : upstreamConcurrencyGate) : Z := limit g.

Definition reset_gate (numCPU : Z) (g : upstreamConcurrencyGate) (l : Z) : upstreamConcurrencyGate :=
  mkGate (normalizeUpstreamConcurrencyLimit numCPU l) 0 ∅.

Definition buildEventLocked (g : upstreamConcurrencyGate) (now : Z) (action : string)
    (path : upstreamGatePath) (qname : string) : upstreamGateEvent * upstreamConcurrencyGate :=
  let key := action +:+ "|" +:+ gate_metricLabel path in
  let st := default new_LogState (logStates g !! key) in
  let '(shouldLog, suppressed, st') := log_decide upstreamGateLogInterval now st in
  (mkGateEvent action path qname (inflight g) (limit g) shouldLog suppressed,
   mkGate (limit g) (inflight g) (<[key := st']> (logStates g))).

Definition tryAcquire (g : upstreamConcurrencyGate) (now : Z) (path : upstreamGatePath)
    (qname : string) : bool * option upstreamGateEvent * upstreamConcurrencyGate :=
  if limit g <=? inflight g then
    let '(event, g) := buildEventLocked g now "saturated" path qname in
    (false, Some event, g)
  else
    (true, None, mkGate (limit g) (inflight g + 1) (logStates g)).

Definition release (g : upstreamConcurrencyGate) : upstreamConcurrencyGate :=
  mkGate (limit g) (if 0 <? inflight g then inflight g - 1 else inflight g) (logStates g).

Definition shouldDegradeFanout (g : upstreamConcurrencyGate) : bool :=
  if limit g <=? 1 then true else limit g - 1 <=? inflight g.

Definition recordDegraded (g : upstreamConcurrencyGate) (now : Z) (path : upstreamGatePath)
    (action qname : string) : upstreamGateEvent * upstreamConcurrencyGate :=
  buildEventLocked g now action path qname.

(** What [recordUpstreamGateEvent] writes to the log: nothing for an empty
    action or when the event is rate limited. *)
Definition recordUpstreamGateEvent (e : upstreamGateEvent) : option upstreamGateEvent :=
  if String.eqb (ge_action e) "" then None
  else if ge_shouldLog e then Some e else None.

(** ** Interleavings

    [holders] counts the goroutines between a successful [tryAcquire] and the
    [release] they defer. *)
Record GateSys := mkGateSys { gs_gate : upstreamConcurrencyGate; holders : Z }.

Inductive gate_step (numCPU : Z) : GateSys → GateSys → Prop :=
| gs_acquire g n now path qname e g' :
    tryAcquire g now path qname = (true, e, g') →
    gate_step numCPU (mkGateSys g n) (mkGateSys g' (n + 1))
| gs_reject g n now path qname e g' :
    tryAcquire g now path qname = (false, e, g') →
    gate_step numCPU (mkGateSys g n) (mkGateSys g' n)
| gs_release g n :
    0 < n → gate_step numCPU (mkGateSys g n) (mkGateSys (release g) (n - 1))
| gs_degraded g n now path action qname :
    gate_step numCPU (mkGateSys g n) (mkGateSys (recordDegraded g now path action qname).2 n)
| gs_setLimit g n l :
    gate_step numCPU (mkGateSys g n) (mkGateSys (setLimit numCPU g l) n).

Lemma buildEventLocked_frame g now action path qname :
  limit (buildEventLocked g now action path qname).2 = limit g ∧
  inflight (buildEventLocked g now action path qname).2 = inflight g.
Proof. unfold buildEventLocked. by destruct (log_decide _ _ _) as [[??]?]. Qed.

Lemma tryAcquire_true g now path qname e g' :
  tryAcquire g now path qname = (true, e, g') →
  inflight g < limit g ∧ inflight g' = inflight g + 1 ∧ limit g' = limit g ∧
  logStates g' = logStates g ∧ e = None.
Proof.
  unfold tryAcquire. destruct (Z.leb_spec (limit g) (inflight g)).
  - by destruct (buildEventLocked _ _ _ _ _).
  - intros [= <- <-]. done.
Qed.

Lemma tryAcquire_false g now path qname e g' :
  tryAcquire g now path qname = (false, e, g') →
  limit g ≤ inflight g ∧ inflight g' = inflight g ∧ limit g' = limit g ∧ is_Some e.
Proof.
  unfold tryAcquire. destruct (Z.leb_spec (limit g) (inflight g)); [|done].
  pose proof (buildEventLocked_frame g now "saturated" path qname) as [Hl Hi].
  destruct (buildEventLocked _ _ _ _ _). intros [= <- <-]. simpl in *. rewrite Hl, Hi. done.
Qed.

Lemma normalize_pos numCPU l : 1 ≤ normalizeUpstreamConcurrencyLimit numCPU l.
Proof. unfold normalizeUpstreamConcurrencyLimit. repeat case_match; bool_prop; lia. Qed.

Definition gate_inv (s : GateSys) : Prop :=
  inflight (gs_gate s) = holders s ∧ 0 ≤ holders s ∧ 1 ≤ limit (gs_gate s).

Lemma gate_inv_step numCPU s s' : gate_inv s → gate_step numCPU s s' → gate_inv s'.
Proof.
  intros (Hi & Hn & Hl) Hs. destruct Hs as
    [g n now path qname e g' Ht|g n now path qname e g' Ht|g n Hpos|g n now path action qname|g n l];
    unfold gate_inv; simpl in *.
  - apply tryAcquire_true in Ht as (? & ? & ? & _). lia.
  - apply tryAcquire_false in Ht as (? & ? & ? & _). lia.
  - destruct (Z.ltb_spec 0 (inflight g)); lia.
  - unfold recordDegraded. pose proof (buildEventLocked_frame g now action path qname) as [-> ->]. lia.
  - pose proof (normalize_pos numCPU l). lia.
Qed.

(** C9: under every interleaving of acquires, rejections, releases, degradation
    records and limit changes, the in-flight counter equals the number of
    goroutines that hold a slot; the limit is at least 1; a slot is granted only
    while fewer than [limit] are held, and refused only when the gate is full; and
    as long as the limit is not lowered the counter never exceeds it. *)
Theorem gate_counts_holders (numCPU l : Z) (s : GateSys) :
  rtc (gate_step numCPU) (mkGateSys (newUpstreamConcurrencyGate numCPU l) 0) s →
  inflight (gs_gate s) = holders s ∧ 0 ≤ holders s ∧ 1 ≤ limit (gs_gate s) ∧
  (∀ now path qname,
    (tryAcquire (gs_gate s) now path qname).1.1 = bool_decide (holders s < limit (gs_gate s))) ∧
  (∀ s', gate_step numCPU s s' → limit (gs_gate s) ≤ limit (gs_gate s') →
    holders s ≤ limit (gs_gate s) → holders s' ≤ limit (gs_gate s')).
Proof.
  intros Hr. assert (gate_inv s) as (Hi & Hn & Hl).
  { remember (mkGateSys _ 0) as s0 eqn:E0.
    assert (gate_inv s0) as H0.
    { subst s0. pose proof (normalize_pos numCPU l). unfold gate_inv. simpl. lia. }
    clear E0. induction Hr as [|s0 s1 s2 Hs _ IH]; [done|]. apply IH. by eapply gate_inv_step. }
  split_and!; try done.
  - intros now path qname. unfold tryAcquire. rewrite Hi.
    destruct (Z.leb_spec (limit (gs_gate s)) (holders s)).
    + destruct (buildEventLocked _ _ _ _ _). simpl. by rewrite bool_decide_false by lia.
    + simpl. by rewrite bool_decide_true by lia.
  - intros s' Hs. destruct Hs as
      [g n now path qname e g' Ht|g n now path qname e g' Ht|g n Hpos|g n now path action qname|g n l'];
      simpl in *; try lia.
    apply tryAcquire_true in Ht as (? & ? & ? & _). lia.
Qed.

Lemma gate_counts_holders_witness :
  let s := mkGateSys (mkGate 2 1 ∅) 1 in
  inflight (gs_gate s) = holders s ∧ 0 ≤ holders s ∧ 1 ≤ limit (gs_gate s).
Proof.
  intros s.
  destruct (gate_counts_holders 4 2 s) as (H1 & H2 & H3 & _).
  { eapply rtc_l; [|apply rtc_refl].
    apply (gs_acquire 4 (mkGate 2 0 ∅) 0 0 upstreamGatePathForward "a." None). reflexivity. }
  split; [exact H1|split; [exact H2|exact H3]].
Defined.

(** When the gate does not ask to degrade fan-out, both slots of a two-way
    race are available: two acquires in a row succeed, and two releases restore
    the counter. *)
Theorem fanout_slots_available (g : upstreamConcurrencyGate) (now1 now2 : Z)
    (p1 p2 : upstreamGatePath) (q : string) :
  0 ≤ inflight g →
  shouldDegradeFanout g = false →
  ∃ g1 g2, tryAcquire g now1 p1 q = (true, None, g1) ∧ tryAcquire g1 now2 p2 q = (true, None, g2) ∧
    inflight g2 = inflight g + 2 ∧ inflight g2 ≤ limit g2 ∧ release (release g2) = g.
Proof.
  intros Hn. unfold shouldDegradeFanout. destruct (Z.leb_spec (limit g) 1); [done|].
  destruct (Z.leb_spec (limit g - 1) (inflight g)); [done|intros _].
  exists (mkGate (limit g) (inflight g + 1) (logStates g)),
    (mkGate (limit g) (inflight g + 1 + 1) (logStates g)).
  unfold tryAcquire. simpl.
  destruct (Z.leb_spec (limit g) (inflight g)); [lia|].
  destruct (Z.leb_spec (limit g) (inflight g + 1)); [lia|].
  split_and!; try done; try (simpl; lia).
  unfold release. simpl. destruct (Z.ltb_spec 0 (inflight g + 1 + 1)); [|lia].
  destruct (Z.ltb_spec 0 (inflight g + 1 + 1 - 1)); [|lia].
  destruct g as [l i ls]. simpl. f_equal. lia.
Qed.

Lemma fanout_slots_available_witness :
  let g := newUpstreamConcurrencyGate 4 3 in
  ∃ g1 g2, tryAcquire g 0 upstreamGatePathIterative "a." = (true, None, g1) ∧
    tryAcquire g1 0 upstreamGatePathHappyEyeballs "a." = (true, None, g2) ∧
    inflight g2 = inflight g + 2 ∧ inflight g2 ≤ limit g2 ∧ release (release g2) = g.
Proof.
  intros g. apply (fanout_slots_available g 0 0).
  - apply Z.le_refl.
  - reflexivity.
Defined.
