(* ===== verification/HostsForward.v ===== *)
(** * Static hosts and forwarding zones

    server/hosts_config.go compiles the configured hosts into messages keyed like
    the cache; server/forward_config.go sorts the forwarding zones so that a
    linear scan finds the longest match; server/state_shared.go publishes both as
    one immutable snapshot, and holds the negative-answer helpers. *)

From Stdlib Require Import Ascii.
From S2P Require Import Prelude GoLib NetIP Dns External Cache.

(** ** Hosts *)

Record HostEntry := mkHostEntry {
  he_Name : string;
  he_Type : string;
  he_Value : string;
  he_TTL : Z;   (* uint32 *)
}.

Definition defaultHostsTTL : Z := 60.

Definition ascii_upper (c : ascii) : ascii :=
  let n := N_of_ascii c in
  if ((97 <=? n) && (n <=? 122))%N then ascii_of_N (n - 32) else c.
Fixpoint ToUpper (s : string) : string :=
  match s with
  | String c r => String (ascii_upper c) (ToUpper r)
  | EmptyString => ""
  end.

(** [dns.StringToType], at the types [buildHostRR] accepts. *)
Definition StringToType (s : string) : Z :=
  if String.eqb s "A" then TypeA
  else if String.eqb s "AAAA" then TypeAAAA
  else if String.eqb s "CNAME" then TypeCNAME
  else 0.

Section hosts.
Context `{DnsLib}.

(** An address that does not parse is a nil slice. *)
Definition buildHostRR (fqdn rrType value : string) (ttl : Z) : option RR :=
  let t := ToUpper rrType in
  if String.eqb t "A" then
    Some (RR_A (mkHdr fqdn TypeA ClassINET ttl) (default [] (ParseIP value ≫= To4)))
  else if String.eqb t "AAAA" then
    Some (RR_AAAA (mkHdr fqdn TypeAAAA ClassINET ttl) (default [] (ParseIP value)))
  else if String.eqb t "CNAME" then
    Some (RR_CNAME (mkHdr fqdn TypeCNAME ClassINET ttl) (Fqdn value))
  else None.

Definition host_ttl (h : HostEntry) : Z := if he_TTL h =? 0 then defaultHostsTTL else he_TTL h.

Definition compileHost (acc : gmap string Msg * gset string) (h : HostEntry)
    : gmap string Msg * gset string :=
  let '(hostsMap, hostsNames) := acc in
  let fqdn := Fqdn (he_Name h) in
  let hostsNames := {[fqdn]} ∪ hostsNames in
  match buildHostRR fqdn (he_Type h) (he_Value h) (host_ttl h) with
  | None => (hostsMap, hostsNames)
  | Some rr =>
      let key := getCacheKey fqdn (StringToType (ToUpper (he_Type h))) in
      match hostsMap !! key with
      | Some existing =>
          (<[key := set_Answer existing (Answer existing ++ [rr])]> hostsMap, hostsNames)
      | None =>
          (<[key := set_Answer (set_Authoritative new_Msg true) [rr]]> hostsMap, hostsNames)
      end
  end.

Definition compileHostsEntries (hosts : list HostEntry) : gmap string Msg * gset string :=
  foldl compileHost (∅, ∅) hosts.

(** ** Forwarding zones *)

Record ForwardZone := mkForwardZone {
  fz_Zone : string;
  fz_Upstreams : list string;
}.

Definition zone_longer (a b : ForwardZone) : bool :=
  (String.length (fz_Zone b) <? String.length (fz_Zone a))%nat.

Definition sortForwardZones `{GoSort} (zones : list ForwardZone) : list ForwardZone :=
  match zones with
  | [] => []
  | _ => sort_Slice zone_longer
           ((λ z, mkForwardZone (Fqdn (fz_Zone z)) (fz_Upstreams z)) <$> zones)
  end.

(** The scan of [forwardLookupState.handle]: the first zone the name is in. *)
Fixpoint matchForwardZone (zones : list ForwardZone) (qname : string) : option ForwardZone :=
  match zones with
  | [] => None
  | z :: zones' => if IsSubDomain (fz_Zone z) qname then Some z else matchForwardZone zones' qname
  end.

(** ** The published snapshot *)

Record hostsForwardSnapshot := mkHostsForward {
  hostsMap : gmap string Msg;
  hostsNames : gset string;
  forwardZones : list ForwardZone;
}.

Definition empty_hostsForward : hostsForwardSnapshot := mkHostsForward ∅ ∅ [].

(** [SetHostsAndForwardForTest], and the same three calls in [NewServerWithFullConfig]. *)
Definition SetHostsAndForward `{GoSort} (hosts : list HostEntry) (forwarding : list ForwardZone)
    : hostsForwardSnapshot :=
  let '(m, n) := compileHostsEntries hosts in
  mkHostsForward m n (sortForwardZones forwarding).

(** ** Negative answers *)

Definition DefaultNegativeCacheTTL : Z := 60.

Fixpoint extractSOA (ns : list RR) : option (RR * Z) :=
  match ns with
  | [] => None
  | rr :: ns' =>
      match rr with
      | RR_SOA h minttl =>
          let ttl := if minttl <? Hdr_Ttl h then minttl else Hdr_Ttl h in
          Some (rr, if ttl =? 0 then DefaultNegativeCacheTTL else ttl)
      | _ => extractSOA ns'
      end
  end.

Definition extractSOAFromAuthority (response : Msg) : option (RR * Z) := extractSOA (Ns response).

(** ** Properties *)

(** The records the configuration gives for a name and a type, in order. *)
Definition host_record (name : string) (qtype : Z) (h : HostEntry) : option RR :=
  if String.eqb (Fqdn (he_Name h)) name && (StringToType (ToUpper (he_Type h)) =? qtype)
  then buildHostRR name (he_Type h) (he_Value h) (host_ttl h) else None.

Definition host_records (hosts : list HostEntry) (name : string) (qtype : Z) : list RR :=
  omap (host_record name qtype) hosts.

Definition host_msg (rrs : list RR) : option Msg :=
  match rrs with [] => None | _ => Some (set_Answer (set_Authoritative new_Msg true) rrs) end.

Lemma buildHostRR_type fqdn t v ttl rr :
  buildHostRR fqdn t v ttl = Some rr →
  0 ≤ StringToType (ToUpper t) < 2 ^ 16 ∧ Hdr_Rrtype (Header rr) = StringToType (ToUpper t) ∧
  Hdr_Name (Header rr) = fqdn ∧ Hdr_Ttl (Header rr) = ttl ∧ rr_typed rr.
Proof.
  unfold buildHostRR, StringToType. repeat case_match; intros [= <-]; simpl; split_and!; try done;
    unfold TypeA, TypeAAAA, TypeCNAME; lia.
Qed.

Lemma host_records_snoc hosts h name qtype :
  host_records (hosts ++ [h]) name qtype =
    host_records hosts name qtype ++ option_list (host_record name qtype h).
Proof.
  unfold host_records. rewrite omap_app. simpl. by destruct (host_record name qtype h).
Qed.

Lemma host_msg_snoc rrs rr :
  host_msg (rrs ++ [rr]) = Some match host_msg rrs with
    | Some m => set_Answer m (Answer m ++ [rr])
    | None => set_Answer (set_Authoritative new_Msg true) [rr]
    end.
Proof. unfold host_msg. by destruct rrs. Qed.

Definition host_append (m : option Msg) (rr : RR) : Msg :=
  match m with
  | Some m => set_Answer m (Answer m ++ [rr])
  | None => set_Answer (set_Authoritative new_Msg true) [rr]
  end.

Lemma compileHost_lookup m ns h name qtype :
  0 ≤ qtype < 2 ^ 16 →
  (compileHost (m, ns) h).1 !! getCacheKey name qtype =
    match host_record name qtype h with
    | Some rr => Some (host_append (m !! getCacheKey name qtype) rr)
    | None => m !! getCacheKey name qtype
    end.
Proof.
  intros Hq. unfold compileHost, host_record.
  destruct (String.eqb_spec (Fqdn (he_Name h)) name) as [<-|En],
    (Z.eqb_spec (StringToType (ToUpper (he_Type h))) qtype) as [<-|Eq]; simpl.
  { destruct (buildHostRR _ _ _ _) as [rr|]; [|done].
    destruct (m !! _); simpl; by rewrite lookup_insert_eq. }
  all: destruct (buildHostRR _ _ _ _) as [rr|] eqn:Eb; [|done].
  all: destruct (buildHostRR_type _ _ _ _ _ Eb) as (Ht & _).
  all: destruct (m !! getCacheKey (Fqdn (he_Name h)) _); simpl; apply lookup_insert_ne;
    intros E; apply cacheKey_inj in E; naive_solver.
Qed.

Lemma compileHost_names m ns h : (compileHost (m, ns) h).2 = {[Fqdn (he_Name h)]} ∪ ns.
Proof. unfold compileHost. destruct (buildHostRR _ _ _ _); [|done]. by destruct (m !! _). Qed.

Lemma compiled_hosts (hosts : list HostEntry) (name : string) (qtype : Z) :
  0 ≤ qtype < 2 ^ 16 →
  (compileHostsEntries hosts).1 !! getCacheKey name qtype = host_msg (host_records hosts name qtype) ∧
  (name ∈ (compileHostsEntries hosts).2 ↔ ∃ h, h ∈ hosts ∧ Fqdn (he_Name h) = name).
Proof.
  intros Hq. unfold compileHostsEntries. induction hosts as [|h hosts IH] using rev_ind.
  { split; [apply lookup_empty|]. simpl. split; [set_solver|].
    intros (h & Hh & _). by apply not_elem_of_nil in Hh. }
  rewrite foldl_app. simpl. destruct (foldl compileHost (∅, ∅) hosts) as [m ns]. simpl in IH.
  destruct IH as [IH1 IH2]. split.
  - rewrite compileHost_lookup, host_records_snoc, IH1 by done.
    destruct (host_record name qtype h) as [rr|]; simpl; [|by rewrite app_nil_r].
    by rewrite host_msg_snoc.
  - rewrite compileHost_names, elem_of_union, elem_of_singleton, IH2. setoid_rewrite elem_of_app.
    setoid_rewrite list_elem_of_singleton. naive_solver.
Qed.

(** C27: after compilation, looking up a name and a type gives exactly the
    configured records for them, in configuration order and with the default TTL
    where none was set, in one authoritative answer (none if there are none); and
    the name set holds exactly the configured names. *)
Theorem compileHostsEntries_spec (hosts : list HostEntry) (name : string) (qtype : Z) :
  0 ≤ qtype < 2 ^ 16 →
  (compileHostsEntries hosts).1 !! getCacheKey name qtype = host_msg (host_records hosts name qtype) ∧
  (name ∈ (compileHostsEntries hosts).2 ↔ ∃ h, h ∈ hosts ∧ Fqdn (he_Name h) = name).
Proof. apply compiled_hosts. Qed.

Lemma zone_longer_weak l : strict_weak_on zone_longer l.
Proof.
  unfold zone_longer. split; intros *; rewrite ?Nat.ltb_lt, ?Nat.ltb_ge; try lia.
Qed.

Lemma matchForwardZone_spec zones qname :
  match matchForwardZone zones qname with
  | Some z => ∃ l1 l2, zones = l1 ++ z :: l2 ∧ IsSubDomain (fz_Zone z) qname = true ∧
      Forall (λ z', IsSubDomain (fz_Zone z') qname = false) l1
  | None => Forall (λ z', IsSubDomain (fz_Zone z') qname = false) zones
  end.
Proof.
  induction zones as [|z zones IH]; simpl; [constructor|].
  destruct (IsSubDomain (fz_Zone z) qname) eqn:E.
  - exists [], zones. done.
  - destruct (matchForwardZone zones qname) as [z'|].
    + destruct IH as (l1 & l2 & -> & H1 & H2). exists (z :: l1), l2. by split_and!; [|..|constructor].
    + by constructor.
Qed.

(** C26: the linear scan over the sorted zones is longest-suffix matching: it finds
    a zone exactly if the name is in some configured zone, the zone found (with
    its upstreams) is configured, contains the name, and no configured zone that
    contains the name is longer. *)
Theorem forward_longest_match `{GoSort} `{!GoSortLaws} (zones : list ForwardZone) (qname : string) :
  match matchForwardZone (sortForwardZones zones) qname with
  | Some z =>
      (∃ z0, z0 ∈ zones ∧ fz_Zone z = Fqdn (fz_Zone z0) ∧ fz_Upstreams z = fz_Upstreams z0) ∧
      IsSubDomain (fz_Zone z) qname = true ∧
      (∀ z0, z0 ∈ zones → IsSubDomain (Fqdn (fz_Zone z0)) qname = true →
        (String.length (Fqdn (fz_Zone z0)) ≤ String.length (fz_Zone z))%nat)
  | None => ∀ z0, z0 ∈ zones → IsSubDomain (Fqdn (fz_Zone z0)) qname = false
  end.
Proof.
  set (f := λ z, mkForwardZone (Fqdn (fz_Zone z)) (fz_Upstreams z)).
  assert (sortForwardZones zones = sort_Slice zone_longer (f <$> zones)) as Hs.
  { destruct zones; [|done]. simpl. symmetry. apply Permutation_nil_r, sort_Slice_perm. }
  rewrite Hs. pose proof (sort_Slice_perm zone_longer (f <$> zones)) as Hp.
  pose proof (sort_Slice_sorted zone_longer (f <$> zones) (zone_longer_weak _)) as Hsort.
  pose proof (matchForwardZone_spec (sort_Slice zone_longer (f <$> zones)) qname) as Hm.
  assert (∀ z0, z0 ∈ zones → f z0 ∈ sort_Slice zone_longer (f <$> zones)) as Hin.
  { intros z0 Hz. rewrite Hp. by apply list_elem_of_fmap_2. }
  destruct (matchForwardZone _ qname) as [z|].
  - destruct Hm as (l1 & l2 & E & Hz & HF). split_and!; [|done|].
    + assert (z ∈ sort_Slice zone_longer (f <$> zones)) as Hz' by (rewrite E; set_solver).
      rewrite Hp in Hz'. apply list_elem_of_fmap in Hz' as (z0 & -> & Hz0). by exists z0.
    + intros z0 Hz0 Hsub. apply Hin in Hz0. rewrite E in Hz0, Hsort.
      apply elem_of_app in Hz0 as [Hz0|Hz0].
      { rewrite Forall_forall in HF. apply HF in Hz0. simpl in Hz0. congruence. }
      apply elem_of_cons in Hz0 as [<-|Hz0]; [done|].
      apply StronglySorted_app_1_r in Hsort. apply StronglySorted_inv in Hsort as [_ Hall].
      rewrite Forall_forall in Hall. apply Hall in Hz0. simpl in Hz0.
      unfold zone_longer in Hz0. apply Nat.ltb_ge in Hz0. done.
  - intros z0 Hz0. apply Hin in Hz0. rewrite Forall_forall in Hm. by apply Hm in Hz0.
Qed.

End hosts.

Module HostsForwardWitness.
Import RefDns RefSort.

Lemma compileHostsEntries_spec_witness :
  (compileHostsEntries [mkHostEntry "db.lan" "a" "10.0.0.1" 0; mkHostEntry "db.lan." "A" "10.0.0.2" 5]).1
    !! getCacheKey "db.lan." TypeA =
  Some (set_Answer (set_Authoritative new_Msg true)
    [RR_A (mkHdr "db.lan." TypeA ClassINET 60) [10; 0; 0; 1];
     RR_A (mkHdr "db.lan." TypeA ClassINET 5) [10; 0; 0; 2]]).
Proof.
  rewrite (proj1 (compileHostsEntries_spec _ "db.lan." TypeA ltac:(unfold TypeA; lia))).
  vm_compute. reflexivity.
Defined.

Lemma forward_longest_match_witness :
  let zones := [mkForwardZone "example.com" ["10.0.0.1:53"]; mkForwardZone "corp.example.com" ["10.0.0.2:53"]] in
  (fz_Upstreams <$> matchForwardZone (sortForwardZones zones) "a.corp.example.com.") = Some ["10.0.0.2:53"] ∧
  match matchForwardZone (sortForwardZones zones) "a.corp.example.com." with
  | Some z => IsSubDomain (fz_Zone z) "a.corp.example.com." = true
  | None => False
  end.
Proof.
  intros zones. split; [vm_compute; reflexivity|].
  pose proof (forward_longest_match zones "a.corp.example.com.") as H.
  destruct (matchForwardZone (sortForwardZones zones) "a.corp.example.com.") as [z|] eqn:E.
  - exact (proj1 (proj2 H)).
  - vm_compute in E. discriminate E.
Defined.

End HostsForwardWitness.
