(* ===== verification/IPQuality.v ===== *)
(** * The quality tracker of one upstream address (server/ip_pool_quality_v2.go)

    [IPQualityV2] keeps a ring buffer of the last 64 round-trip times, the
    percentiles computed from it, a confidence, and a failure counter that
    drives the state ACTIVE / DEGRADED / SUSPECT / RECOVERED.  Every method of
    the type is a definition here; the mutex makes each of them one atomic step,
    so the tracker is the step relation [iq_step] on the record. *)

From S2P Require Import Prelude Float64.

(** ** Data *)

Definition IP_STATE_ACTIVE : Z := 0.
Definition IP_STATE_DEGRADED : Z := 1.
Definition IP_STATE_SUSPECT : Z := 2.
Definition IP_STATE_RECOVERED : Z := 3.
Definition INIT_IP_LATENCY : Z := 1000.
Definition MAX_IP_LATENCY : Z := 10000.

Record IPQualityV2 := mkIQ {
  samples : list Z;      (* [64]int32 *)
  sampleCount : Z;       (* uint8 *)
  nextIdx : Z;           (* uint8 *)
  p50 : Z;               (* int32 *)
  p95 : Z;
  p99 : Z;
  confidence : Z;        (* uint8 *)
  failCount : Z;         (* uint8 *)
  state : Z;             (* uint8 *)
  lastUpdate : Z;        (* time.Time *)
  lastFailure : Z;
  lastSeen : Z;
}.

(** [time.Now()] is read twice, once per timestamp. *)
Definition NewIPQualityV2 (now1 now2 : Z) : IPQualityV2 := {|
  samples := replicate 64 0;
  sampleCount := 0;
  nextIdx := 0;
  p50 := INIT_IP_LATENCY;
  p95 := INIT_IP_LATENCY;
  p99 := INIT_IP_LATENCY;
  confidence := 0;
  failCount := 0;
  state := IP_STATE_ACTIVE;
  lastUpdate := now1;
  lastFailure := time_zero;
  lastSeen := now2;
|}.

(** ** Operations *)

(** [sorted[i]] on the sorted copy of the samples. *)
Definition at_rank (sorted : list Z) (i : Z) : Z := default 0 (sorted !! Z.to_nat i).

(** [int(float64(n) * c)], the index expression of P95 and P99. *)
Definition frac_index (n : Z) (c : f64) : Z :=
  let idx := f64_trunc (f64_mul (f64_of_Z n) c) in
  if n <=? idx then n - 1 else idx.

Definition updatePercentiles (iq : IPQualityV2) : IPQualityV2 :=
  if sampleCount iq =? 0 then iq else
  let sorted := merge_sort Z.le (take (Z.to_nat (sampleCount iq)) (samples iq)) in
  let idx95 := frac_index (sampleCount iq) (f64_const 95 100) in
  let idx99 := frac_index (sampleCount iq) (f64_const 99 100) in
  {| samples := samples iq; sampleCount := sampleCount iq; nextIdx := nextIdx iq;
     p50 := at_rank sorted (sampleCount iq / 2);
     p95 := at_rank sorted idx95;
     p99 := at_rank sorted idx99;
     confidence := confidence iq; failCount := failCount iq; state := state iq;
     lastUpdate := lastUpdate iq; lastFailure := lastFailure iq; lastSeen := lastSeen iq |}.

(** [uint8(int(sampleCount) * 10)], then the cap at 100. *)
Definition confidence_of (count : Z) : Z :=
  let c := u8 (count * 10) in
  if 100 <? c then 100 else c.

Definition RecordLatency (iq : IPQualityV2) (latency now : Z) : IPQualityV2 :=
  let count := if sampleCount iq <? 64 then u8 (sampleCount iq + 1) else sampleCount iq in
  let iq1 := {|
    samples := <[Z.to_nat (nextIdx iq) := latency]> (samples iq);
    sampleCount := count;
    nextIdx := u8 (nextIdx iq + 1) mod 64;
    p50 := p50 iq; p95 := p95 iq; p99 := p99 iq;
    confidence := confidence_of count;
    failCount := 0;
    state := IP_STATE_ACTIVE;
    lastUpdate := lastUpdate iq; lastFailure := lastFailure iq; lastSeen := lastSeen iq |} in
  let iq2 := updatePercentiles iq1 in
  {| samples := samples iq2; sampleCount := sampleCount iq2; nextIdx := nextIdx iq2;
     p50 := p50 iq2; p95 := p95 iq2; p99 := p99 iq2;
     confidence := confidence iq2; failCount := failCount iq2; state := state iq2;
     lastUpdate := now; lastFailure := lastFailure iq2; lastSeen := now |}.

(** [int32(float64(p) * 1.2)] *)
Definition penalized (p : Z) : Z := i32 (f64_trunc (f64_mul (f64_of_Z p) (f64_const 12 10))).

Definition RecordFailure (iq : IPQualityV2) (now : Z) : IPQualityV2 :=
  let fc := u8 (failCount iq + 1) in
  let '(st, q50, q95, q99) :=
    if fc <=? 3 then
      let p := penalized (p50 iq) in
      (IP_STATE_DEGRADED, (if MAX_IP_LATENCY <? p then MAX_IP_LATENCY else p), p95 iq, p99 iq)
    else if fc <=? 6 then
      (IP_STATE_SUSPECT, MAX_IP_LATENCY, MAX_IP_LATENCY, MAX_IP_LATENCY)
    else
      (IP_STATE_SUSPECT, p50 iq, p95 iq, p99 iq) in
  {| samples := samples iq; sampleCount := sampleCount iq; nextIdx := nextIdx iq;
     p50 := q50; p95 := q95; p99 := q99;
     confidence := confidence iq; failCount := fc; state := st;
     lastUpdate := lastUpdate iq; lastFailure := now; lastSeen := now |}.

Definition ResetForProbe (iq : IPQualityV2) (now : Z) : IPQualityV2 :=
  {| samples := samples iq; sampleCount := sampleCount iq; nextIdx := nextIdx iq;
     p50 := p50 iq; p95 := p95 iq; p99 := p99 iq;
     confidence := confidence iq; failCount := 0; state := IP_STATE_RECOVERED;
     lastUpdate := now; lastFailure := lastFailure iq; lastSeen := lastSeen iq |}.

Definition ShouldProbe (iq : IPQualityV2) (now : Z) : bool :=
  if negb (state iq =? IP_STATE_SUSPECT) then false
  else if negb (IsZero (lastFailure iq)) && (time_Sub now (lastFailure iq) <? 5 * Second)
  then false
  else true.

Definition stateWeights : list f64 :=
  [f64_of_Z 1; f64_const 15 10; f64_of_Z 100; f64_const 11 10].

Definition GetScore (iq : IPQualityV2) : f64 :=
  let score := f64_of_Z (p50 iq) in
  let confidenceMult :=
    f64_add (f64_of_Z 1) (f64_mul (f64_of_Z (u8 (100 - confidence iq))) (f64_const 1 100)) in
  let score := f64_mul score confidenceMult in
  let stateIdx := if 4 <=? state iq then IP_STATE_ACTIVE else state iq in
  f64_mul score (default f64_zero (stateWeights !! Z.to_nat stateIdx)).

(** ** The tracker as a transition system *)

Inductive iq_op :=
| OpLatency (latency : Z)
| OpFailure
| OpReset.

Definition iq_apply (op : iq_op) (now : Z) (iq : IPQualityV2) : IPQualityV2 :=
  match op with
  | OpLatency l => RecordLatency iq l now
  | OpFailure => RecordFailure iq now
  | OpReset => ResetForProbe iq now
  end.

Inductive iq_step : IPQualityV2 → IPQualityV2 → Prop :=
| iq_step_op op now iq : iq_step iq (iq_apply op now iq).

Definition iq_run (ops : list (iq_op * Z)) (iq : IPQualityV2) : IPQualityV2 :=
  fold_left (λ q '(op, now), iq_apply op now q) ops iq.

(** ** Well-formedness *)

Record iq_wf (iq : IPQualityV2) : Prop := {
  wf_len : length (samples iq) = 64%nat;
  wf_count : 0 ≤ sampleCount iq ≤ 64;
  wf_next : 0 ≤ nextIdx iq < 64;
  wf_confidence : confidence iq = confidence_of (sampleCount iq);
  wf_fail : 0 ≤ failCount iq < 256;
  wf_state : 0 ≤ state iq ≤ 3;
  wf_suspect : state iq = IP_STATE_SUSPECT ↔ 4 ≤ failCount iq;
  wf_max : 4 ≤ failCount iq →
    p50 iq = MAX_IP_LATENCY ∧ p95 iq = MAX_IP_LATENCY ∧ p99 iq = MAX_IP_LATENCY;
}.

Lemma updatePercentiles_frame iq :
  samples (updatePercentiles iq) = samples iq ∧
  sampleCount (updatePercentiles iq) = sampleCount iq ∧
  nextIdx (updatePercentiles iq) = nextIdx iq ∧
  confidence (updatePercentiles iq) = confidence iq ∧
  failCount (updatePercentiles iq) = failCount iq ∧
  state (updatePercentiles iq) = state iq.
Proof. unfold updatePercentiles. by case_match. Qed.

Lemma iq_wf_new now1 now2 : iq_wf (NewIPQualityV2 now1 now2).
Proof. split; simpl; try lia; done. Qed.

Lemma count_bump c :
  0 ≤ c ≤ 64 → (if c <? 64 then u8 (c + 1) else c) = Z.min 64 (c + 1).
Proof.
  intros. case_match; bool_prop; [rewrite u8_small|]; lia.
Qed.

Lemma next_bump i : 0 ≤ i < 64 → u8 (i + 1) mod 64 = (i + 1) mod 64.
Proof. intros. rewrite u8_small; lia. Qed.

Lemma RecordLatency_fields iq l now :
  iq_wf iq →
  let iq' := RecordLatency iq l now in
  samples iq' = <[Z.to_nat (nextIdx iq) := l]> (samples iq) ∧
  sampleCount iq' = Z.min 64 (sampleCount iq + 1) ∧
  nextIdx iq' = (nextIdx iq + 1) mod 64 ∧
  confidence iq' = confidence_of (Z.min 64 (sampleCount iq + 1)) ∧
  failCount iq' = 0 ∧ state iq' = IP_STATE_ACTIVE.
Proof.
  intros [Hlen Hc Hn _ _ _ _ _] iq'. subst iq'. unfold RecordLatency.
  rewrite count_bump, next_bump by lia. cbn [samples sampleCount nextIdx confidence failCount state].
  set (iq1 := mkIQ _ _ _ _ _ _ _ _ _ _ _ _).
  destruct (updatePercentiles_frame iq1) as (-> & -> & -> & -> & -> & ->). done.
Qed.

Lemma RecordFailure_fields iq now :
  samples (RecordFailure iq now) = samples iq ∧
  sampleCount (RecordFailure iq now) = sampleCount iq ∧
  nextIdx (RecordFailure iq now) = nextIdx iq ∧
  confidence (RecordFailure iq now) = confidence iq ∧
  failCount (RecordFailure iq now) = u8 (failCount iq + 1).
Proof. unfold RecordFailure. by repeat case_match. Qed.

Lemma RecordFailure_state iq now :
  state (RecordFailure iq now) =
    if u8 (failCount iq + 1) <=? 3 then IP_STATE_DEGRADED else IP_STATE_SUSPECT.
Proof. unfold RecordFailure. by repeat case_match; simplify_eq. Qed.

Lemma RecordFailure_max iq now :
  iq_wf iq → 4 ≤ u8 (failCount iq + 1) →
  p50 (RecordFailure iq now) = MAX_IP_LATENCY ∧
  p95 (RecordFailure iq now) = MAX_IP_LATENCY ∧
  p99 (RecordFailure iq now) = MAX_IP_LATENCY.
Proof.
  intros [_ _ _ _ Hf _ _ Hmax] H4. unfold RecordFailure.
  destruct (u8 (failCount iq + 1) <=? 3) eqn:E3; [bool_prop; lia|].
  destruct (u8 (failCount iq + 1) <=? 6) eqn:E6; simpl; [done|]. bool_prop.
  apply Hmax. unfold u8 in *.
  destruct (decide (failCount iq = 255)) as [e|]; [rewrite e in *; vm_compute in E6; lia|].
  rewrite Z.mod_small in E6; lia.
Qed.

Lemma iq_wf_apply op now iq : iq_wf iq → iq_wf (iq_apply op now iq).
Proof.
  intros Hwf. destruct op as [l| |]; simpl.
  - destruct (RecordLatency_fields iq l now Hwf) as (H1 & H2 & H3 & H4 & H5 & H6).
    destruct Hwf. split; rewrite ?H1, ?H2, ?H3, ?H4, ?H5, ?H6; try done; try lia.
    + by rewrite length_insert.
    + apply Z.mod_pos_bound. lia.
  - destruct (RecordFailure_fields iq now) as (H1 & H2 & H3 & H4 & H5).
    pose proof (RecordFailure_state iq now) as H6. pose proof (u8_range (failCount iq + 1)).
    pose proof (RecordFailure_max iq now Hwf).
    destruct Hwf. split; rewrite ?H1, ?H2, ?H3, ?H4, ?H5, ?H6; try done;
      unfold IP_STATE_DEGRADED, IP_STATE_SUSPECT; case_match; bool_prop; lia.
  - destruct Hwf. split; simpl; try lia; done.
Qed.

#[export] Hint Resolve iq_wf_new iq_wf_apply : rec53.

Lemma iq_wf_run ops iq : iq_wf iq → iq_wf (iq_run ops iq).
Proof.
  revert iq. induction ops as [|[op now] ops IH]; intros iq H; simpl; [done|].
  apply IH. by apply iq_wf_apply.
Qed.

(** ** The ring buffer refines the list of the last 64 samples *)

Definition latencies (ops : list (iq_op * Z)) : list Z :=
  omap (λ '(op, _), match op with OpLatency l => Some l | _ => None end) ops.

Definition window (h : list Z) : list Z := drop (length h - 64) h.

(** The buffer holds sample number [j] of the history at slot [j mod 64]. *)
Record ring (h : list Z) (iq : IPQualityV2) : Prop := {
  ring_wf : iq_wf iq;
  ring_count : sampleCount iq = Z.of_nat (length h `min` 64);
  ring_next : nextIdx iq = Z.of_nat (length h `mod` 64);
  ring_slot j : (j < length h)%nat → (length h ≤ j + 64)%nat →
    samples iq !! (j `mod` 64)%nat = h !! j;
}.

Lemma mod64_ne (a b : nat) :
  (a < b)%nat → (b < a + 64)%nat → (a `mod` 64 ≠ b `mod` 64)%nat.
Proof.
  intros ? ? Heq. pose proof (Nat.div_mod_eq a 64). pose proof (Nat.div_mod_eq b 64). lia.
Qed.

Lemma ring_latency h iq l now : ring h iq → ring (h ++ [l]) (RecordLatency iq l now).
Proof.
  intros [Hwf Hc Hn Hs].
  destruct (RecordLatency_fields iq l now Hwf) as (H1 & H2 & H3 & _).
  assert (length (h ++ [l]) = S (length h)) as Hlen by (rewrite length_app; simpl; lia).
  split.
  - by apply (iq_wf_apply (OpLatency l)).
  - rewrite H2, Hc, Hlen. lia.
  - rewrite H3, Hn, Hlen, !Nat2Z.inj_mod.
    change (Z.of_nat 64) with 64. rewrite Zplus_mod_idemp_l. f_equal. lia.
  - intros j Hj Hw. rewrite H1, Hn, Nat2Z.id, Hlen in *.
    destruct (decide (j = length h)) as [->|Hne].
    + rewrite list_lookup_insert_eq; [|rewrite (wf_len _ Hwf); apply Nat.mod_upper_bound; lia].
      by rewrite lookup_app_r, Nat.sub_diag by lia.
    + rewrite list_lookup_insert_ne by (apply not_eq_sym, mod64_ne; lia).
      rewrite lookup_app_l by lia. apply Hs; lia.
Qed.

Lemma ring_other h iq iq' :
  ring h iq → iq_wf iq' → samples iq' = samples iq → sampleCount iq' = sampleCount iq →
  nextIdx iq' = nextIdx iq → ring h iq'.
Proof. intros [? ? ? ?] ? E1 E2 E3. split; rewrite ?E1, ?E2, ?E3; done. Qed.

Lemma ring_apply h iq op now :
  ring h iq → ring (h ++ latencies [(op, now)]) (iq_apply op now iq).
Proof.
  intros Hr. pose proof (iq_wf_apply op now iq (ring_wf _ _ Hr)) as Hwf.
  destruct op as [l| |]; simpl in *; rewrite ?app_nil_r.
  - by apply ring_latency.
  - pose proof (RecordFailure_fields iq now) as (? & ? & ? & _). by eapply ring_other.
  - by eapply ring_other.
Qed.

Lemma ring_run ops h iq : ring h iq → ring (h ++ latencies ops) (iq_run ops iq).
Proof.
  revert h iq. induction ops as [|[op now] ops IH]; intros h iq Hr; simpl.
  { by rewrite app_nil_r. }
  apply (ring_apply _ _ op now) in Hr. apply IH in Hr.
  revert Hr. rewrite <-app_assoc. by destruct op.
Qed.

Lemma ring_new now1 now2 : ring [] (NewIPQualityV2 now1 now2).
Proof. split; simpl; [apply iq_wf_new|done|done|lia]. Qed.

(** The filled part of the buffer is a rotation of the window. *)
Lemma ring_window h iq :
  ring h iq → Permutation (take (Z.to_nat (sampleCount iq)) (samples iq)) (window h).
Proof.
  intros [Hwf Hc Hn Hs]. pose proof (wf_len _ Hwf) as Hlen. rewrite Hc, Nat2Z.id.
  destruct (decide (length h ≤ 64)%nat) as [Hle|Hgt].
  { unfold window. replace (length h - 64)%nat with 0%nat by lia. rewrite drop_0, Nat.min_l by lia.
    assert (take (length h) (samples iq) = h) as ->; [|done].
    apply list_eq_same_length with (n := length h); [done|rewrite length_take; lia|].
    intros i x y Hi. rewrite lookup_take_lt by lia.
    rewrite <-(Nat.mod_small i 64) at 1 by lia. rewrite Hs by lia. congruence. }
  rewrite Nat.min_r, take_ge by lia.
  remember (length h `mod` 64)%nat as r eqn:Er. remember (window h) as w eqn:Ew.
  assert (r < 64)%nat by (subst r; apply Nat.mod_upper_bound; lia).
  assert (length w = 64%nat) by (subst w; unfold window; rewrite length_drop; lia).
  assert (∀ k, w !! k = h !! (length h - 64 + k)%nat) as Hw
    by (intros; subst w; unfold window; by rewrite lookup_drop).
  pose proof (Nat.div_mod_eq (length h) 64) as Hdm. rewrite <-Er in Hdm.
  assert (∀ i c, (i < 64)%nat → (i + c * 64)%nat `mod` 64 = i)%nat as Hmod
    by (intros i c ?; rewrite Nat.Div0.mod_add, Nat.mod_small; lia).
  assert (samples iq = drop (64 - r) w ++ take (64 - r) w) as ->.
  { apply list_eq_same_length with (n := 64%nat);
      [rewrite length_app, length_drop, length_take; lia|done|].
    intros i x y Hi Hx Hy. destruct (decide (i < r)%nat).
    - rewrite lookup_app_l, lookup_drop, Hw in Hy by (rewrite length_drop; lia).
      rewrite <-(Hmod i (length h / 64)%nat) in Hx by lia.
      rewrite Hs in Hx by lia.
      replace (i + length h / 64 * 64)%nat with (length h - 64 + (64 - r + i))%nat in Hx by lia.
      congruence.
    - rewrite lookup_app_r, length_drop in Hy by (rewrite length_drop; lia).
      rewrite lookup_take_lt, Hw in Hy by lia.
      rewrite <-(Hmod i (length h / 64 - 1)%nat) in Hx by lia.
      rewrite Hs in Hx by lia.
      replace (i + (length h / 64 - 1) * 64)%nat
        with (length h - 64 + (i - (length w - (64 - r))))%nat in Hx by lia.
      congruence. }
  rewrite Permutation_app_comm. by rewrite take_drop.
Qed.

(** ** Percentiles are order statistics of the window *)

Lemma frac_index_95 n : 1 ≤ n ≤ 64 → frac_index n (f64_const 95 100) = 95 * n / 100.
Proof.
  intros Hn. apply Z.eqb_eq.
  apply (check_range_sound (λ n, frac_index n (f64_const 95 100) =? 95 * n / 100) 1 64);
    [by vm_compute|lia].
Qed.

Lemma frac_index_99 n : 1 ≤ n ≤ 64 → frac_index n (f64_const 99 100) = 99 * n / 100.
Proof.
  intros Hn. apply Z.eqb_eq.
  apply (check_range_sound (λ n, frac_index n (f64_const 99 100) =? 99 * n / 100) 1 64);
    [by vm_compute|lia].
Qed.

Lemma merge_sort_Permutation_eq (l1 l2 : list Z) :
  Permutation l1 l2 → merge_sort Z.le l1 = merge_sort Z.le l2.
Proof.
  intros Hp. apply (StronglySorted_unique Z.le).
  - apply StronglySorted_merge_sort; apply _.
  - apply StronglySorted_merge_sort; apply _.
  - by rewrite !merge_sort_Permutation.
Qed.

Lemma at_rank_mono (l : list Z) i j :
  StronglySorted Z.le l → 0 ≤ i ≤ j → j < Z.of_nat (length l) → at_rank l i ≤ at_rank l j.
Proof.
  intros Hs Hij Hj. unfold at_rank.
  destruct (lookup_lt_is_Some_2 l (Z.to_nat i)) as [x Hx]; [lia|].
  destruct (lookup_lt_is_Some_2 l (Z.to_nat j)) as [y Hy]; [lia|].
  rewrite Hx, Hy. simpl.
  destruct (decide (i = j)) as [->|]; [by simplify_eq|].
  revert Hx Hy. generalize (Z.to_nat i) (Z.to_nat j) (Z2Nat.inj_lt i j ltac:(lia) ltac:(lia)).
  intros a b [Hab _]. specialize (Hab ltac:(lia)). clear -Hs Hab.
  revert a b Hab. induction Hs as [|z l Hs IH Hz]; intros [|a] [|b] Hab Hx Hy; simplify_eq/=; try lia.
  - rewrite Forall_forall in Hz. apply Hz, list_elem_of_lookup. eauto.
  - apply (IH a b); [lia|done..].
Qed.

Lemma length_window h : length (window h) = (length h `min` 64)%nat.
Proof. unfold window. rewrite length_drop. lia. Qed.

(** C24: after any sequence of operations on a fresh tracker, recording one more
    latency sets P50, P95 and P99 to the elements of rank n/2, 95n/100 and
    99n/100 of the sorted list of the last n = min(64, number of samples)
    latencies, whatever failures and probe resets came in between and however
    often the ring buffer wrapped; the ranks are in range and the three
    percentiles are ordered. *)
Theorem RecordLatency_percentiles (ops : list (iq_op * Z)) (l now t1 t2 : Z) :
  let w := window (latencies ops ++ [l]) in
  let n := Z.of_nat (length w) in
  let sorted := merge_sort Z.le w in
  let iq := RecordLatency (iq_run ops (NewIPQualityV2 t1 t2)) l now in
  1 ≤ n ≤ 64 ∧ 0 ≤ n / 2 < n ∧ 0 ≤ 95 * n / 100 < n ∧ 0 ≤ 99 * n / 100 < n ∧
  p50 iq = at_rank sorted (n / 2) ∧
  p95 iq = at_rank sorted (95 * n / 100) ∧
  p99 iq = at_rank sorted (99 * n / 100) ∧
  p50 iq ≤ p95 iq ≤ p99 iq.
Proof.
  intros w n sorted iq.
  pose proof (ring_latency _ _ l now (ring_run ops [] _ (ring_new t1 t2))) as Hr.
  simpl in Hr. fold iq in Hr. pose proof (ring_window _ _ Hr) as Hp. fold w in Hp.
  assert (sampleCount iq = n) as Hc.
  { unfold n, w. by rewrite length_window, (ring_count _ _ Hr). }
  assert (1 ≤ n ≤ 64) as Hn.
  { unfold n, w. rewrite length_window, length_app. simpl. lia. }
  assert (p50 iq = at_rank sorted (n / 2) ∧ p95 iq = at_rank sorted (95 * n / 100) ∧
          p99 iq = at_rank sorted (99 * n / 100)) as (E50 & E95 & E99).
  { unfold sorted. rewrite <-(merge_sort_Permutation_eq _ _ Hp), Hc.
    rewrite <-frac_index_95, <-frac_index_99 by done. rewrite <-Hc.
    subst iq. unfold RecordLatency. cbn [p50 p95 p99 sampleCount samples].
    set (iq1 := mkIQ _ _ _ _ _ _ _ _ _ _ _ _).
    unfold updatePercentiles. destruct (sampleCount iq1 =? 0) eqn:E0; [|done].
    exfalso. bool_prop. rewrite <-Hc in Hn. revert Hn. unfold RecordLatency. fold iq1.
    cbn [sampleCount]. rewrite (proj1 (proj2 (updatePercentiles_frame iq1))). lia. }
  assert (StronglySorted Z.le sorted) as Hs by (apply StronglySorted_merge_sort; apply _).
  assert (Z.of_nat (length sorted) = n) as Hl.
  { unfold n, sorted. by rewrite merge_sort_Permutation. }
  rewrite E50, E95, E99.
  repeat split; try lia; try (Z.to_euclidean_division_equations; lia);
    apply at_rank_mono; rewrite ?Hl; try done; Z.to_euclidean_division_equations; lia.
Qed.

(** ** Confidence *)

Definition confidence_doc (count : Z) : Z := Z.min 100 (count * 10).

Definition confidence_dips (count : Z) : bool :=
  ((26 <=? count) && (count <=? 35)) || ((52 <=? count) && (count <=? 61)).

Lemma confidence_of_doc count :
  0 ≤ count ≤ 64 →
  (confidence_of count = confidence_doc count ↔ confidence_dips count = false) ∧
  0 ≤ confidence_of count ≤ confidence_doc count.
Proof.
  intros Hc.
  pose proof (check_range_sound
    (λ c, Bool.eqb (confidence_of c =? confidence_doc c) (negb (confidence_dips c)) &&
          ((0 <=? confidence_of c) && (confidence_of c <=? confidence_doc c))) 0 65
    ltac:(by vm_compute) count ltac:(lia)) as H.
  simpl in H. bool_prop. apply Bool.eqb_prop in H.
  split; [|lia]. rewrite <-Z.eqb_eq, H. by destruct (confidence_dips count).
Qed.

(** The confidence of every reachable tracker is at most the documented
    min(100, 10 * samples), and it is that value exactly when the sample count is
    not between 26 and 35 or between 52 and 61: there the conversion to uint8
    wraps before the cap is applied, and the confidence falls back (26 samples
    give 4 instead of 100). *)
Theorem confidence_reachable (ops : list (iq_op * Z)) (t1 t2 : Z) :
  let iq := iq_run ops (NewIPQualityV2 t1 t2) in
  0 ≤ confidence iq ≤ confidence_doc (sampleCount iq) ∧
  (confidence iq = confidence_doc (sampleCount iq) ↔
   confidence_dips (sampleCount iq) = false) ∧
  confidence_of 26 = 4.
Proof.
  intros iq. pose proof (iq_wf_run ops _ (iq_wf_new t1 t2)) as [_ Hc _ E _ _ _ _]. fold iq in Hc, E.
  rewrite E. destruct (confidence_of_doc _ Hc) as [H1 H2]. done.
Qed.

(** ** Failures *)

Lemma penalized_exact p : 0 ≤ p ≤ MAX_IP_LATENCY → penalized p = p * 6 / 5.
Proof.
  intros Hp. apply Z.eqb_eq.
  apply (check_range_sound (λ p, penalized p =? p * 6 / 5) 0 (Z.to_nat 10001));
    [by vm_compute|unfold MAX_IP_LATENCY in Hp; lia].
Qed.

Definition failures (ts : list Z) : list (iq_op * Z) := map (λ t, (OpFailure, t)) ts.

Lemma failures_snoc ts t iq :
  iq_run (failures (ts ++ [t])) iq = RecordFailure (iq_run (failures ts) iq) t.
Proof. unfold iq_run, failures. by rewrite map_app, fold_left_app. Qed.

Lemma failures_count ts iq :
  failCount iq = 0 →
  failCount (iq_run (failures ts) iq) = u8 (Z.of_nat (length ts)).
Proof.
  intros H0. induction ts as [|t ts IH] using rev_ind; [simpl; by rewrite H0|].
  rewrite failures_snoc. destruct (RecordFailure_fields (iq_run (failures ts) iq) t)
    as (_ & _ & _ & _ & ->).
  rewrite IH, length_app. simpl. unfold u8. rewrite Zplus_mod_idemp_l. f_equal. lia.
Qed.

(** K consecutive failures of a tracker whose failure counter is 0 put it in
    state DEGRADED for k = 1..3 and SUSPECT for k = 4..255, with all three
    percentiles at the maximum from the fourth on; one failure multiplies P50 by
    6/5 rounded down and capped at 10000, exactly, although the code computes in
    float64.  The 256th consecutive failure wraps the uint8 counter to 0 and the
    tracker is DEGRADED again, not SUSPECT. *)
Theorem failures_escalate (ts : list Z) (t : Z) (iq : IPQualityV2) :
  iq_wf iq → failCount iq = 0 → ts ≠ [] →
  let k := Z.of_nat (length ts) in
  let iq' := iq_run (failures ts) iq in
  (1 ≤ k ≤ 3 → state iq' = IP_STATE_DEGRADED) ∧
  (4 ≤ k ≤ 255 → state iq' = IP_STATE_SUSPECT ∧ p50 iq' = MAX_IP_LATENCY ∧
                 p95 iq' = MAX_IP_LATENCY ∧ p99 iq' = MAX_IP_LATENCY) ∧
  (k = 256 → failCount iq' = 0 ∧ state iq' = IP_STATE_DEGRADED) ∧
  (0 ≤ p50 iq ≤ MAX_IP_LATENCY →
   p50 (RecordFailure iq t) = Z.min MAX_IP_LATENCY (p50 iq * 6 / 5)).
Proof.
  intros Hwf H0 Hne k iq'.
  pose proof (iq_wf_run (failures ts) _ Hwf) as Hwf'. fold iq' in Hwf'.
  pose proof (failures_count ts iq H0) as Hf. fold k iq' in Hf.
  assert (state iq' = if u8 k <=? 3 then IP_STATE_DEGRADED else IP_STATE_SUSPECT) as Hs.
  { destruct ts as [|t0 ts _] using rev_ind; [done|]. subst iq'.
    rewrite failures_snoc, RecordFailure_state, failures_count by done.
    unfold k. rewrite length_app. simpl. unfold u8. rewrite Zplus_mod_idemp_l.
    by replace (Z.of_nat (length ts) + 1) with (Z.of_nat (length ts + 1)) by lia. }
  repeat split.
  - intros. rewrite Hs, u8_small by lia. destruct (Z.leb_spec k 3); [done|lia].
  - rewrite Hs, u8_small by lia. destruct (Z.leb_spec k 3); [lia|done].
  - apply (wf_max _ Hwf'). rewrite Hf, u8_small; lia.
  - apply (wf_max _ Hwf'). rewrite Hf, u8_small; lia.
  - apply (wf_max _ Hwf'). rewrite Hf, u8_small; lia.
  - by rewrite Hf, H.
  - by rewrite Hs, H.
  - intros Hp. unfold RecordFailure. rewrite H0, penalized_exact by done.
    change (u8 (0 + 1) <=? 3) with true. cbn [p50].
    destruct (Z.ltb_spec MAX_IP_LATENCY (p50 iq * 6 / 5)); lia.
Qed.

Lemma failures_escalate_witness :
  state (iq_run (failures [1; 2; 3; 4]) (NewIPQualityV2 0 0)) = IP_STATE_SUSPECT ∧
  state (iq_run (failures (replicate 256 1)) (NewIPQualityV2 0 0)) = IP_STATE_DEGRADED.
Proof.
  split.
  - refine (proj1 (proj1 (proj2 (failures_escalate [1; 2; 3; 4] 0 (NewIPQualityV2 0 0) _ _ _)) _)).
    + apply iq_wf_new.
    + reflexivity.
    + discriminate.
    + simpl. lia.
  - refine (proj2 (proj1 (proj2 (proj2
      (failures_escalate (replicate 256 1) 0 (NewIPQualityV2 0 0) _ _ _))) _)).
    + apply iq_wf_new.
    + reflexivity.
    + discriminate.
    + reflexivity.
Defined.

(** ** Scores *)

Definition with_score_inputs (p c st : Z) : IPQualityV2 :=
  mkIQ [] 0 0 p 0 0 c 0 st 0 0 0.

Lemma GetScore_inputs iq :
  GetScore iq = GetScore (with_score_inputs (p50 iq) (confidence iq) (state iq)).
Proof. done. Qed.

Lemma suspect_score_floor c :
  0 ≤ c ≤ 100 →
  f64_leb (f64_of_Z 1000000) (GetScore (with_score_inputs MAX_IP_LATENCY c IP_STATE_SUSPECT)) = true.
Proof.
  intros. apply (check_range_sound (λ c, f64_leb (f64_of_Z 1000000)
    (GetScore (with_score_inputs MAX_IP_LATENCY c IP_STATE_SUSPECT))) 0 101); [by vm_compute|lia].
Qed.

Lemma healthy_score_ceiling c st :
  0 ≤ c ≤ 100 → 0 ≤ st ≤ 3 → st ≠ IP_STATE_SUSPECT →
  f64_leb (GetScore (with_score_inputs MAX_IP_LATENCY c st)) (f64_of_Z 30000) = true.
Proof.
  intros Hc Hst Hne.
  assert (st = 0 ∨ st = 1 ∨ st = 3) as [->|[->| ->]] by (unfold IP_STATE_SUSPECT in *; lia).
  - apply (check_range_sound (λ c, f64_leb
      (GetScore (with_score_inputs MAX_IP_LATENCY c 0)) (f64_of_Z 30000)) 0 101); [by vm_compute|lia].
  - apply (check_range_sound (λ c, f64_leb
      (GetScore (with_score_inputs MAX_IP_LATENCY c 1)) (f64_of_Z 30000)) 0 101); [by vm_compute|lia].
  - apply (check_range_sound (λ c, f64_leb
      (GetScore (with_score_inputs MAX_IP_LATENCY c 3)) (f64_of_Z 30000)) 0 101); [by vm_compute|lia].
Qed.

(** A SUSPECT tracker ranks behind every other one: its P50 is at the
    maximum, so its composite score exceeds that of any tracker in another state
    even when that one's P50 is at the maximum too, for every pair of confidence
    values. *)
Theorem suspect_ranks_last (ops : list (iq_op * Z)) (t1 t2 c st : Z) :
  let iq := iq_run ops (NewIPQualityV2 t1 t2) in
  state iq = IP_STATE_SUSPECT →
  0 ≤ c ≤ 100 → 0 ≤ st ≤ 3 → st ≠ IP_STATE_SUSPECT →
  f64_ltb (GetScore (with_score_inputs MAX_IP_LATENCY c st)) (GetScore iq) = true.
Proof.
  intros iq Hs Hc Hst Hne. pose proof (iq_wf_run ops _ (iq_wf_new t1 t2)) as Hwf. fold iq in Hwf.
  destruct (wf_max _ Hwf) as [Hp _]; [by apply (wf_suspect _ Hwf)|].
  destruct (confidence_of_doc _ (wf_count _ Hwf)) as [_ Hcc].
  rewrite (GetScore_inputs iq), Hp, Hs, (wf_confidence _ Hwf).
  eapply f64_leb_ltb_trans; [by apply healthy_score_ceiling|].
  eapply f64_ltb_leb_trans; [|apply suspect_score_floor; unfold confidence_doc in Hcc; lia].
  by vm_compute.
Qed.

Lemma suspect_ranks_last_witness :
  f64_ltb (GetScore (with_score_inputs MAX_IP_LATENCY 0 IP_STATE_DEGRADED))
    (GetScore (iq_run (failures [1; 2; 3; 4]) (NewIPQualityV2 0 0))) = true.
Proof.
  apply (suspect_ranks_last (failures [1; 2; 3; 4]) 0 0 0 IP_STATE_DEGRADED).
  - reflexivity.
  - lia.
  - unfold IP_STATE_DEGRADED. lia.
  - discriminate.
Defined.
