(* ===== verification/IPPool.v ===== *)
(** * The pool of upstream addresses (server/ip_pool.go)

    A map from addresses to their quality trackers, with selection of the two
    best addresses, recovery probing and pruning.  The pool's mutex makes the map
    operations atomic; [GetBestIPsV2] drops its read lock to create a tracker, and
    looks again before it does.  The goroutine that calls [probe_tick],
    its start and its [Shutdown] are in [Background]. *)

From S2P Require Import Prelude GoLib Float64 NetIP Dns IPQuality.

Definition STALE_IP_THRESHOLD : Z := 24 * Hour.
Definition PRUNE_INTERVAL : Z := 30 * Minute.

Record IPPool := mkPool {
  poolV2 : gmap string IPQualityV2;
  exemptIPs : gset string;
  lastPruneAt : Z;
}.

Definition NewIPPool : IPPool := mkPool ∅ ∅ time_zero.

Definition set_poolV2 (p : IPPool) (m : gmap string IPQualityV2) : IPPool :=
  mkPool m (exemptIPs p) (lastPruneAt p).

Definition GetIPQualityV2 (p : IPPool) (ip : string) : option IPQualityV2 := poolV2 p !! ip.
Definition SetIPQualityV2 (p : IPPool) (ip : string) (iq : IPQualityV2) : IPPool :=
  set_poolV2 p (<[ip := iq]> (poolV2 p)).

Definition StartProbeLoop (p : IPPool) (exempt : gset string) (now : Z) : IPPool :=
  mkPool (poolV2 p) exempt now.

Definition is_stale (now threshold : Z) (iq : IPQualityV2) : bool :=
  threshold <? time_Sub now (lastSeen iq).

Definition PruneStaleIPs (p : IPPool) (now threshold : Z) : IPPool :=
  set_poolV2 p (filter (λ kv, kv.1 ∈ exemptIPs p ∨ is_stale now threshold kv.2 = false) (poolV2 p)).

(** The readings of the clock in one turn of the loop: in [ShouldProbe] and in
    [ResetForProbe] of each address, in [time.Since(ipp.lastPruneAt)], in
    [PruneStaleIPs], and for the new [lastPruneAt]. *)
Record probeClock := mkProbeClock {
  pc_check : string → Z;
  pc_reset : string → Z;
  pc_since : Z;
  pc_prune : Z;
  pc_after : Z;
}.

(** The pool after one probe: [ok] says whether the address answered. *)
Definition probe_one (reset : string → Z) (ok : string → bool) (p : IPPool) (ip : string) : IPPool :=
  match GetIPQualityV2 p ip with
  | None => p
  | Some iq => if ok ip then set_poolV2 p (<[ip := ResetForProbe iq (reset ip)]> (poolV2 p)) else p
  end.

(** [candidates], in the order the map is visited. *)
Definition probe_candidates (p : IPPool) (check : string → Z) : list string :=
  (filter (λ kv, ShouldProbe kv.2 (check kv.1) = true) (map_to_list (poolV2 p))).*1.

Definition probeAllSuspiciousIPs (p : IPPool) (check reset : string → Z) (ok : string → bool) : IPPool :=
  foldl (probe_one reset ok) p (probe_candidates p check).

(** One turn of [periodicProbeLoop], with no request at work in between. *)
Definition probe_tick (p : IPPool) (clock : probeClock) (ok : string → bool) : IPPool :=
  let p := probeAllSuspiciousIPs p (pc_check clock) (pc_reset clock) ok in
  if PRUNE_INTERVAL <=? time_Sub (pc_since clock) (lastPruneAt p) then
    let p := PruneStaleIPs p (pc_prune clock) STALE_IP_THRESHOLD in
    mkPool (poolV2 p) (exemptIPs p) (pc_after clock)
  else p.

(** The scores of the candidates, creating missing trackers; [now] is the clock
    when a tracker is created. *)
Fixpoint collect_scores (p : IPPool) (now : Z) (ips : list string) : list (string * f64) * IPPool :=
  match ips with
  | [] => ([], p)
  | ip :: ips' =>
      let iq := default (NewIPQualityV2 now now) (poolV2 p !! ip) in
      let p := match poolV2 p !! ip with
               | Some _ => p
               | None => set_poolV2 p (<[ip := iq]> (poolV2 p))
               end in
      let '(scores, p) := collect_scores p now ips' in
      ((ip, GetScore iq) :: scores, p)
  end.

Definition score_less (a b : string * f64) : bool := f64_ltb a.2 b.2.

Definition GetBestIPsV2 `{GoSort} (p : IPPool) (now : Z) (ips : list string) : string * string * IPPool :=
  let '(scores, p) := collect_scores p now ips in
  let sorted := sort_Slice score_less scores in
  (default "" (fst <$> sorted !! 0%nat), default "" (fst <$> sorted !! 1%nat), p).

(** ** Scores are numbers *)

Lemma confidence_mult_finite c :
  is_finite (f64_add (f64_of_Z 1) (f64_mul (f64_of_Z (u8 c)) (f64_const 1 100))) = true.
Proof.
  pose proof (u8_range c).
  apply (check_range_sound (λ u, is_finite (f64_add (f64_of_Z 1) (f64_mul (f64_of_Z u) (f64_const 1 100))))
    0 256); [by vm_compute|lia].
Qed.

Lemma state_weight_finite st :
  is_finite (default f64_zero (stateWeights !! Z.to_nat (if 4 <=? st then IP_STATE_ACTIVE else st))) = true.
Proof.
  destruct (Z.leb_spec 4 st); [done|].
  assert (Z.to_nat st = 0 ∨ Z.to_nat st = 1 ∨ Z.to_nat st = 2 ∨ Z.to_nat st = 3)%nat
    as [->|[->|[->| ->]]] by lia; done.
Qed.

Lemma GetScore_not_nan iq : is_nan (GetScore iq) = false.
Proof.
  unfold GetScore. apply f64_mul_not_nan; [|apply state_weight_finite].
  apply f64_mul_not_nan; [apply f64_of_Z_not_nan|apply confidence_mult_finite].
Qed.

Lemma score_less_weak l :
  Forall (λ p : string * f64, is_nan p.2 = false) l → strict_weak_on score_less l.
Proof.
  rewrite Forall_forall. intros Hl. unfold score_less. split.
  - intros. apply f64_ltb_irrefl.
  - intros a b c _ _ _. apply f64_ltb_trans.
  - intros a b c Ha Hb Hc. apply f64_ltb_incomp; auto.
Qed.

(** ** Selection *)

(** The tracker an address has once the selection has created the missing ones. *)
Definition tracker (p : IPPool) (now : Z) (ip : string) : IPQualityV2 :=
  default (NewIPQualityV2 now now) (poolV2 p !! ip).
Definition score_of (p : IPPool) (now : Z) (ip : string) : f64 := GetScore (tracker p now ip).

Lemma collect_scores_spec now ips p :
  let '(scores, p') := collect_scores p now ips in
  scores = (λ ip, (ip, score_of p now ip)) <$> ips ∧
  exemptIPs p' = exemptIPs p ∧ lastPruneAt p' = lastPruneAt p ∧
  (∀ ip, poolV2 p' !! ip =
    if decide (ip ∈ ips) then Some (tracker p now ip) else poolV2 p !! ip).
Proof.
  revert p. induction ips as [|ip ips IH]; intros p; simpl.
  { split_and!; try done. }
  set (p1 := match poolV2 p !! ip with Some _ => p | None => _ end).
  assert (∀ i, poolV2 p1 !! i = if decide (i = ip) then Some (tracker p now ip) else poolV2 p !! i) as Hp1.
  { intros i. unfold p1, tracker. destruct (poolV2 p !! ip) as [iq|] eqn:E; simpl.
    - case_decide; [by subst|done].
    - case_decide; [subst; by rewrite lookup_insert_eq|by rewrite lookup_insert_ne]. }
  assert (∀ i, tracker p1 now i = tracker p now i) as Ht.
  { intros i. unfold tracker. rewrite Hp1. case_decide; [by subst|done]. }
  assert (exemptIPs p1 = exemptIPs p ∧ lastPruneAt p1 = lastPruneAt p) as [He Hl]
    by (unfold p1; by destruct (poolV2 p !! ip)).
  specialize (IH p1). destruct (collect_scores p1 now ips) as [scores p'].
  destruct IH as (-> & H2 & H3 & H4). split_and!; [| congruence | congruence |].
  - f_equal. apply list_fmap_ext. intros ? i _. unfold score_of. by rewrite Ht.
  - intros i. rewrite H4, Ht, Hp1. repeat case_decide; subst; try done; set_solver.
Qed.

(** C23: [GetBestIPsV2] returns an address with the least score of all the
    candidates and one with the least score of the remaining ones (empty strings
    when there are not that many), adds a new tracker for every candidate that
    had none, and changes nothing else in the pool.  Scores are never NaN, so the
    order is total. *)
Theorem GetBestIPsV2_spec `{GoSort} `{!GoSortLaws} (p : IPPool) (now : Z) (ips : list string) :
  let '(best, second, p') := GetBestIPsV2 p now ips in
  (∀ ip, poolV2 p' !! ip = if decide (ip ∈ ips) then Some (tracker p now ip) else poolV2 p !! ip) ∧
  match ips with
  | [] => best = "" ∧ second = ""
  | [ip] => best = ip ∧ second = ""
  | _ => ∃ rest, ips ≡ₚ best :: second :: rest ∧
      (∀ ip, ip ∈ second :: rest → f64_leb (score_of p now best) (score_of p now ip) = true) ∧
      (∀ ip, ip ∈ rest → f64_leb (score_of p now second) (score_of p now ip) = true)
  end.
Proof.
  unfold GetBestIPsV2. pose proof (collect_scores_spec now ips p) as Hc.
  destruct (collect_scores p now ips) as [scores p']. destruct Hc as (-> & _ & _ & Hp').
  split; [done|]. clear Hp'. set (f := λ ip, (ip, score_of p now ip)).
  pose proof (sort_Slice_perm score_less (f <$> ips)) as Hperm.
  assert (Forall (λ q : string * f64, q.2 = score_of p now q.1 ∧ is_nan q.2 = false)
    (sort_Slice score_less (f <$> ips))) as HF.
  { rewrite Hperm. apply Forall_fmap, Forall_true. intros ip. split; [done|apply GetScore_not_nan]. }
  assert (StronglySorted (λ a b, score_less b a = false) (sort_Slice score_less (f <$> ips))) as Hs.
  { apply sort_Slice_sorted, score_less_weak. rewrite <-Hperm.
    eapply Forall_impl; [exact HF|]. by intros ? [_ ?]. }
  assert (ips ≡ₚ (sort_Slice score_less (f <$> ips)).*1) as Hips.
  { rewrite Hperm. clear. apply Permutation_refl'. induction ips as [|ip ips IH]; [done|].
    simpl. by f_equal. }
  destruct (sort_Slice score_less (f <$> ips)) as [|[b sb] [|[s ss] rest]]; simpl in *.
  - apply Permutation_nil_r in Hips as ->. done.
  - apply Permutation_singleton_r in Hips as ->. done.
  - destruct ips as [|x [|y ips]]; [by apply Permutation_length in Hips..|].
    exists rest.*1. split; [done|].
    apply StronglySorted_inv in Hs as [Hs Hb]. apply StronglySorted_inv in Hs as [_ Hs2].
    assert (∀ q, q ∈ (b, sb) :: (s, ss) :: rest → q.2 = score_of p now q.1 ∧ is_nan q.2 = false) as HF'
      by by rewrite <-Forall_forall.
    assert (∀ q r, q ∈ (b, sb) :: (s, ss) :: rest → r ∈ (b, sb) :: (s, ss) :: rest →
      score_less r q = false → f64_leb (score_of p now q.1) (score_of p now r.1) = true) as Hle.
    { intros q r Hq Hr Hqr. apply HF' in Hq as [<- ?], Hr as [<- ?]. by apply f64_leb_total. }
    rewrite Forall_forall in Hb, Hs2. split.
    + intros ip [->|(r & -> & Hr)%list_elem_of_fmap]%elem_of_cons.
      * apply (Hle (b, sb) (s, ss)); [set_solver..|]. apply Hb. by left.
      * apply (Hle (b, sb) r); [set_solver..|]. apply Hb. by right.
    + intros ip (r & -> & Hr)%list_elem_of_fmap. apply (Hle (s, ss) r); [set_solver..|]. by apply Hs2.
Qed.

(** ** Probing and pruning *)

Lemma probe_one_lookup now' ok p ip i :
  poolV2 (probe_one now' ok p ip) !! i =
    (λ iq, if String.eqb ip i && ok i then ResetForProbe iq (now' i) else iq) <$> poolV2 p !! i.
Proof.
  unfold probe_one, GetIPQualityV2. destruct (String.eqb_spec ip i) as [->|Hne]; simpl.
  - destruct (poolV2 p !! i) as [iq|] eqn:E; simpl; [|by rewrite E].
    destruct (ok i); simpl; [by rewrite lookup_insert_eq|by rewrite E].
  - destruct (poolV2 p !! ip) as [iq|]; [|by destruct (poolV2 p !! i)].
    destruct (ok ip); simpl; [rewrite lookup_insert_ne by done|]; by destruct (poolV2 p !! i).
Qed.

Lemma probe_fold_lookup now' ok l p i :
  NoDup l →
  poolV2 (foldl (probe_one now' ok) p l) !! i =
    (λ iq, if bool_decide (i ∈ l) && ok i then ResetForProbe iq (now' i) else iq) <$> poolV2 p !! i.
Proof.
  intros Hnd. revert p. induction Hnd as [|x l Hx Hnd IH]; intros p; simpl.
  { by destruct (poolV2 p !! i). }
  rewrite IH, probe_one_lookup. destruct (poolV2 p !! i) as [iq|]; [|done]. simpl. f_equal.
  destruct (String.eqb_spec x i) as [->|Hne]; simpl.
  - rewrite (bool_decide_false (i ∈ l)) by done. rewrite bool_decide_true by by left. done.
  - assert (bool_decide (i ∈ x :: l) = bool_decide (i ∈ l)) as -> by (apply bool_decide_ext; set_solver).
    done.
Qed.

Lemma probe_candidates_spec p now :
  NoDup (probe_candidates p now) ∧
  ∀ ip, ip ∈ probe_candidates p now ↔ ∃ iq, poolV2 p !! ip = Some iq ∧ ShouldProbe iq (now ip) = true.
Proof.
  unfold probe_candidates. split.
  - pose proof (NoDup_fst_map_to_list (poolV2 p)) as Hnd.
    induction (map_to_list (poolV2 p)) as [|[k q] l IH]; [constructor|].
    simpl in Hnd. apply NoDup_cons in Hnd as [Hk Hnd]. rewrite filter_cons.
    case_decide; [|by apply IH]. simpl. constructor; [|by apply IH].
    intros ([k' q'] & -> & [_ Hin]%list_elem_of_filter)%list_elem_of_fmap. apply Hk.
    apply list_elem_of_fmap. by exists (k', q').
  - intros ip. rewrite list_elem_of_fmap. split.
    + intros ([k q] & -> & [Hs Hin%elem_of_map_to_list]%list_elem_of_filter). by exists q.
    + intros (q & Hq & Hs). exists (ip, q). split; [done|]. apply list_elem_of_filter.
      split; [done|]. by apply elem_of_map_to_list.
Qed.

Lemma probeAll_lookup p now now' ok ip :
  poolV2 (probeAllSuspiciousIPs p now now' ok) !! ip =
    (λ iq, if ShouldProbe iq (now ip) && ok ip then ResetForProbe iq (now' ip) else iq) <$> poolV2 p !! ip.
Proof.
  destruct (probe_candidates_spec p now) as [Hnd Hin]. unfold probeAllSuspiciousIPs.
  rewrite probe_fold_lookup by done. destruct (poolV2 p !! ip) as [iq|] eqn:E; [|done]. simpl. f_equal.
  assert (bool_decide (ip ∈ probe_candidates p now) = ShouldProbe iq (now ip)) as ->; [|done].
  destruct (ShouldProbe iq (now ip)) eqn:Es.
  - apply bool_decide_true. apply Hin. eauto.
  - apply bool_decide_false. rewrite Hin. intros (q & Hq & Hs). congruence.
Qed.

Lemma probeAll_frame p now now' ok :
  exemptIPs (probeAllSuspiciousIPs p now now' ok) = exemptIPs p ∧
  lastPruneAt (probeAllSuspiciousIPs p now now' ok) = lastPruneAt p.
Proof.
  unfold probeAllSuspiciousIPs. generalize (probe_candidates p now). intros l. revert p.
  induction l as [|x l IH]; intros p; [done|]. simpl.
  destruct (IH (probe_one now' ok p x)) as [-> ->]. unfold probe_one.
  destruct (GetIPQualityV2 p x); [|done]. by destruct (ok x).
Qed.

Lemma time_Sub_over d t u : 0 ≤ d < max_int64 → (d <? time_Sub t u) = (d <? t - u).
Proof. unfold time_Sub, max_int64, min_int64. intros Hd. destruct (Z.ltb_spec d (t - u)); [apply Z.ltb_lt|apply Z.ltb_ge]; lia. Qed.

Lemma time_Sub_under d t u : 0 ≤ d < max_int64 → (time_Sub t u <? d) = (t - u <? d).
Proof. unfold time_Sub, max_int64, min_int64. intros Hd. destruct (Z.ltb_spec (t - u) d); [apply Z.ltb_lt|apply Z.ltb_ge]; lia. Qed.

(** When an address is probed: it is SUSPECT, and its last failure, if there is one,
    is at least five seconds back. *)
Definition probe_due (iq : IPQualityV2) (t : Z) : Prop :=
  state iq = IP_STATE_SUSPECT ∧ (lastFailure iq = time_zero ∨ 5 * Second ≤ t - lastFailure iq).

#[export] Instance probe_due_dec iq t : Decision (probe_due iq t).
Proof. unfold probe_due. apply _. Defined.

Lemma ShouldProbe_due iq t : ShouldProbe iq t = bool_decide (probe_due iq t).
Proof.
  unfold ShouldProbe, probe_due, IsZero.
  rewrite time_Sub_under by (unfold max_int64, Second, Millisecond; lia).
  destruct (Z.eqb_spec (state iq) IP_STATE_SUSPECT) as [Es|Es]; simpl; [|by rewrite bool_decide_false by tauto].
  destruct (Z.eqb_spec (lastFailure iq) time_zero) as [Ef|Ef]; simpl; [by rewrite bool_decide_true by auto|].
  destruct (Z.ltb_spec (t - lastFailure iq) (5 * Second));
    [rewrite bool_decide_false; [done|]|rewrite bool_decide_true; [done|]]; [intros [_ [?|?]]; [done|lia]|auto].
Qed.

(** An address that has answered a probe. *)
Definition recovered (iq iq' : IPQualityV2) (t : Z) : Prop :=
  state iq' = IP_STATE_RECOVERED ∧ failCount iq' = 0 ∧ lastUpdate iq' = t ∧
  samples iq' = samples iq ∧ sampleCount iq' = sampleCount iq ∧ nextIdx iq' = nextIdx iq ∧
  p50 iq' = p50 iq ∧ p95 iq' = p95 iq ∧ p99 iq' = p99 iq ∧ confidence iq' = confidence iq ∧
  lastFailure iq' = lastFailure iq ∧ lastSeen iq' = lastSeen iq.

(** When pruning takes an address away. *)
Definition pruned (p : IPPool) (clock : probeClock) (ip : string) (iq : IPQualityV2) : Prop :=
  30 * Minute ≤ pc_since clock - lastPruneAt p ∧ ¬ (ip ∈ exemptIPs p) ∧ 24 * Hour < pc_prune clock - lastSeen iq.

Lemma prune_lookup p clock ip :
  poolV2 (PruneStaleIPs p (pc_prune clock) STALE_IP_THRESHOLD) !! ip =
    iq ← poolV2 p !! ip;
    if bool_decide (¬ (ip ∈ exemptIPs p) ∧ 24 * Hour < pc_prune clock - lastSeen iq) then None else Some iq.
Proof.
  simpl. rewrite map_lookup_filter. destruct (poolV2 p !! ip) as [iq|]; [|done]. simpl.
  unfold is_stale. rewrite time_Sub_over by (unfold STALE_IP_THRESHOLD, max_int64, Hour, Minute, Second, Millisecond; lia).
  unfold STALE_IP_THRESHOLD. case_bool_decide as Hd.
  - destruct Hd as [Hex Hs]. rewrite option_guard_False; [done|]. intros [?|Hf]; [done|]. apply Z.ltb_ge in Hf. lia.
  - rewrite option_guard_True; [done|]. destruct (decide (ip ∈ exemptIPs p)) as [|Hex]; [by left|right].
    apply Z.ltb_ge. destruct (Z.lt_ge_cases (24 * Hour) (pc_prune clock - lastSeen iq)); [tauto|lia].
Qed.

(** C36: one turn of the probe loop treats each address on its own.  Pruning is due
    when thirty minutes have passed since the last time; then exactly the addresses
    not seen for more than 24 hours are dropped, except the exempt ones (the root
    servers), and the time is noted; otherwise none is.  Of the rest, an address that
    is SUSPECT, whose last failure is at least five seconds back and that answers the
    probe is RECOVERED with its failures cleared and its measurements kept; every
    other one stays as it is.  No address is added. *)
Theorem probe_tick_spec (p : IPPool) (clock : probeClock) (ok : string → bool) (ip : string) :
  let p' := probe_tick p clock ok in
  exemptIPs p' = exemptIPs p ∧
  (30 * Minute ≤ pc_since clock - lastPruneAt p → lastPruneAt p' = pc_after clock) ∧
  (pc_since clock - lastPruneAt p < 30 * Minute → lastPruneAt p' = lastPruneAt p) ∧
  (poolV2 p !! ip = None → poolV2 p' !! ip = None) ∧
  (∀ iq, poolV2 p !! ip = Some iq →
    (pruned p clock ip iq → poolV2 p' !! ip = None) ∧
    (¬ pruned p clock ip iq →
      ∃ iq', poolV2 p' !! ip = Some iq' ∧
        (probe_due iq (pc_check clock ip) → ok ip = true → recovered iq iq' (pc_reset clock ip)) ∧
        (¬ (probe_due iq (pc_check clock ip) ∧ ok ip = true) → iq' = iq))).
Proof.
  intros p'. destruct (probeAll_frame p (pc_check clock) (pc_reset clock) ok) as [He Hl].
  pose proof (probeAll_lookup p (pc_check clock) (pc_reset clock) ok ip) as Hlk.
  assert ((PRUNE_INTERVAL <=? time_Sub (pc_since clock) (lastPruneAt p)) =
    bool_decide (30 * Minute ≤ pc_since clock - lastPruneAt p)) as Edue.
  { unfold PRUNE_INTERVAL. rewrite Z.leb_antisym, time_Sub_under by (unfold max_int64, Minute, Second, Millisecond; lia).
    case_bool_decide as Hd; [apply negb_true_iff, Z.ltb_ge; lia|apply negb_false_iff, Z.ltb_lt; lia]. }
  unfold p', probe_tick, pruned. rewrite Hl, Edue. clear p' Edue.
  set (p1 := probeAllSuspiciousIPs p (pc_check clock) (pc_reset clock) ok) in *.
  assert (∀ iq, poolV2 p !! ip = Some iq → ∃ iq', poolV2 p1 !! ip = Some iq' ∧ lastSeen iq' = lastSeen iq ∧
    (probe_due iq (pc_check clock ip) → ok ip = true → recovered iq iq' (pc_reset clock ip)) ∧
    (¬ (probe_due iq (pc_check clock ip) ∧ ok ip = true) → iq' = iq)) as Hprobe.
  { intros iq Hiq. rewrite Hlk, Hiq. simpl. eexists. split; [done|]. rewrite ShouldProbe_due.
    case_bool_decide as Hd; simpl; [|split_and!; [done|by intros|done]].
    destruct (ok ip) eqn:Eok; simpl; [|split_and!; [done|by intros|done]].
    split_and!; [done|intros _ _; unfold recovered; by split_and!|tauto]. }
  case_bool_decide as Hdue.
  - pose proof (prune_lookup p1 clock ip) as Hp. rewrite He in Hp.
    split_and!; [exact He|done|lia|intros Hn; simpl in *; by rewrite Hp, Hlk, Hn|].
    intros iq Hiq. destruct (Hprobe iq Hiq) as (iq' & E1 & Es & Hrec & Hsame). simpl in Hp |- *.
    rewrite Hp, E1. simpl. rewrite Es. case_bool_decide as Hst; [split; [done|tauto]|]. split; [tauto|]. intros _. by exists iq'.
  - split_and!; [exact He|lia|intros _; exact Hl|intros Hn; by rewrite Hlk, Hn|].
    intros iq Hiq. destruct (Hprobe iq Hiq) as (iq' & E1 & Es & Hrec & Hsame). split; [tauto|]. intros _. by exists iq'.
Qed.

Module IPPoolWitness.
Import RefSort.

Lemma GetBestIPsV2_spec_witness :
  let p := SetIPQualityV2 NewIPPool "192.0.2.1" (iq_run (failures [1; 2; 3; 4]) (NewIPQualityV2 0 0)) in
  let r := GetBestIPsV2 p 0 ["192.0.2.1"; "192.0.2.2"] in
  r.1 = ("192.0.2.2", "192.0.2.1") ∧ poolV2 r.2 !! "192.0.2.2" = Some (NewIPQualityV2 0 0).
Proof.
  intros p r. split; [vm_compute; reflexivity|].
  pose proof (GetBestIPsV2_spec p 0 ["192.0.2.1"; "192.0.2.2"]) as H. unfold r.
  destruct (GetBestIPsV2 p 0 ["192.0.2.1"; "192.0.2.2"]) as [[b s] p'].
  cbn [snd]. rewrite (proj1 H "192.0.2.2"). vm_compute. reflexivity.
Defined.

(** Three addresses after 25 hours: one that failed often and answers now, one not
    seen since, and the same for a root server. *)
Definition aged : IPPool :=
  mkPool (<["192.0.2.1" := iq_run (failures [24 * Hour; 24 * Hour; 24 * Hour; 24 * Hour]) (NewIPQualityV2 0 0)]>
    (<["192.0.2.2" := NewIPQualityV2 1 1]> (<["198.41.0.4" := NewIPQualityV2 1 1]> ∅))) {["198.41.0.4"]} 0.
Definition later : probeClock := mkProbeClock (λ _, 25 * Hour) (λ _, 25 * Hour + 1) (25 * Hour + 2) (25 * Hour + 3) (25 * Hour + 4).

Lemma probe_tick_spec_witness :
  let p' := probe_tick aged later (λ _, true) in
  (state <$> poolV2 p' !! "192.0.2.1") = Some IP_STATE_RECOVERED ∧ poolV2 p' !! "192.0.2.2" = None ∧
  poolV2 p' !! "198.41.0.4" = Some (NewIPQualityV2 1 1) ∧ lastPruneAt p' = 25 * Hour + 4.
Proof.
  split_and!.
  - destruct (probe_tick_spec aged later (λ _, true) "192.0.2.1") as (_ & _ & _ & _ & H).
    destruct (H _ eq_refl) as [_ H1]. destruct H1 as (iq' & E & Hr & _).
    + intros (_ & _ & Hs). vm_compute in Hs. discriminate Hs.
    + rewrite E. destruct Hr as [Hs _]; [split; [reflexivity|]; right; vm_compute; discriminate|reflexivity|].
      simpl. by rewrite Hs.
  - destruct (probe_tick_spec aged later (λ _, true) "192.0.2.2") as (_ & _ & _ & _ & H).
    destruct (H _ eq_refl) as [H1 _]. apply H1. split_and!; [vm_compute; discriminate| |vm_compute; reflexivity].
    vm_compute. set_solver.
  - destruct (probe_tick_spec aged later (λ _, true) "198.41.0.4") as (_ & _ & _ & _ & H).
    destruct (H _ eq_refl) as [_ H1]. destruct H1 as (iq' & E & _ & Hs).
    + intros (_ & Hx & _). apply Hx. simpl. set_solver.
    + rewrite E, Hs; [reflexivity|]. intros [[Hst _] _]. discriminate Hst.
  - destruct (probe_tick_spec aged later (λ _, true) "192.0.2.1") as (_ & H & _). apply H. vm_compute. discriminate.
Defined.

End IPPoolWitness.
