(* ===== verification/HotZone.v ===== *)
(** * Hot-zone protection (server/hot_zone_protection.go)

    The controller accounts how long requests occupy the expensive path, per
    five-second window and per zone.  Under pressure (many concurrent requests
    and a busy CPU) it looks for the hottest zone; when the same zone is hottest
    in three windows in a row, requests below it are refused until the average
    concurrency is back near its value before the pressure.

    Every exported method takes the mutex, so it is one atomic function here.
    What the methods read from outside is the record [hzEnv]: the CPU usage, the
    number of CPUs and the clock readings of the log limiter.  Durations are
    integers; they stay far below the bounds of [int64]. *)

From S2P Require Import Prelude GoLib Float64 NetIP Dns RateLog.
From Stdlib Require Import SpecFloat.

Definition hotZoneWindowDuration : Z := 5 * Second.
Definition hotZoneRecentWindowCount : nat := 3.
Definition hotZoneEvaluateInterval : Z := Second.
Definition hotZoneObserveCPUThreshold : f64 := f64_of_Z 70.
Definition hotZoneObserveConcurrencyFactor : f64 := f64_const 75 100.
Definition hotZoneChildDominanceThreshold : f64 := f64_const 80 100.
Definition hotZoneProtectConfirmWindows : Z := 3.
Definition hotZoneExitBaselineFactor : f64 := f64_const 105 100.
Definition hotZoneLogInterval : Z := 30 * Second.

Definition DefaultCuratedTLDs : list string :=
  ["com"; "cn"; "de"; "net"; "org"; "uk"; "ru"; "nl";
   "br"; "xyz"; "info"; "top"; "it"; "fr"; "au"; "in";
   "us"; "pl"; "ir"; "eu"; "es"; "ca"; "io"; "ai";
   "me"; "site"; "shop"; "online"; "biz"; "app"].

Definition LoadTLDList (customTLDs : list string) : list string :=
  if (0 <? length customTLDs)%nat then customTLDs else DefaultCuratedTLDs.

Record hotZoneActiveRequest := mkActive {
  ar_id : Z;
  ar_qname : string;
  ar_coarseKey : string;
  ar_startedAt : Z;
  ar_accountedAt : Z;
}.

Record hotZoneWindow := mkWindow {
  w_start : Z;
  w_globalOccupancy : Z;
  w_coarseOccupancy : gmap string Z;
  w_childOccupancy : gmap string (gmap string Z);
}.

Record hotZoneSnapshot := mkHzSnapshot {
  currentWindowStart : Z;
  currentElapsed : Z;
  currentGlobalAvg : f64;
  aggregatedGlobal : Z;
  aggregatedCoarse : gmap string Z;
  aggregatedChild : gmap string (gmap string Z);
}.

(** The fields of the controller that [evaluateLocked] decides on. *)
Record hotZoneControl := mkControl {
  observeMode : bool;
  protectedZone : string;
  candidateZone : string;
  candidateStreak : Z;
  lastCandidateWindow : Z;
  lastNormalAvg : f64;
  preTriggerBaseline : f64;
}.

(** The metrics the controller exports: the events counted and the last gauges. *)
Record hotZoneMetrics := mkHzMetrics {
  hz_events : list string;
  hz_gauges : option (bool * bool * f64 * f64 * Z);
}.

Record hotZoneController := mkHotZone {
  evalEvery : Z;
  baseSuffixes : list string;
  active : gmap Z hotZoneActiveRequest;
  nextID : Z;
  windows : list hotZoneWindow;
  lastEvalAt : Z;
  control : hotZoneControl;
  hz_logState : gmap string LogState;
  hz_metrics : hotZoneMetrics;
}.

Record hzEnv := mkHzEnv {
  cpuUsage : f64;
  hz_numCPU : Z;
  hz_logNow : string → Z;
}.

Definition set_windows (c : hotZoneController) (ws : list hotZoneWindow) : hotZoneController :=
  mkHotZone (evalEvery c) (baseSuffixes c) (active c) (nextID c) ws (lastEvalAt c) (control c)
    (hz_logState c) (hz_metrics c).
Definition set_active (c : hotZoneController) (m : gmap Z hotZoneActiveRequest) : hotZoneController :=
  mkHotZone (evalEvery c) (baseSuffixes c) m (nextID c) (windows c) (lastEvalAt c) (control c)
    (hz_logState c) (hz_metrics c).
Definition set_control (c : hotZoneController) (k : hotZoneControl) : hotZoneController :=
  mkHotZone (evalEvery c) (baseSuffixes c) (active c) (nextID c) (windows c) (lastEvalAt c) k
    (hz_logState c) (hz_metrics c).
Definition set_lastEvalAt (c : hotZoneController) (t : Z) : hotZoneController :=
  mkHotZone (evalEvery c) (baseSuffixes c) (active c) (nextID c) (windows c) t (control c)
    (hz_logState c) (hz_metrics c).
Definition set_accountedAt (a : hotZoneActiveRequest) (t : Z) : hotZoneActiveRequest :=
  mkActive (ar_id a) (ar_qname a) (ar_coarseKey a) (ar_startedAt a) t.

(** [m[k] += d] *)
Definition map_add (m : gmap string Z) (k : string) (d : Z) : gmap string Z :=
  <[k := default 0 (m !! k) + d]> m.

(** Update the last window in place: [current] points to it. *)
Fixpoint update_last {A} (f : A → A) (l : list A) : list A :=
  match l with
  | [] => []
  | [x] => [f x]
  | x :: l' => x :: update_last f l'
  end.

(** ** Zones of names *)

Section zones.
Context `{DnsLib}.

Definition hotZoneIsPublicSuffixLike (zone : string) : bool :=
  (length (SplitDomainName zone) <=? 1)%nat.

Fixpoint hotZoneMatchedBaseSuffix (qname : string) (baseSuffixes : list string) : string :=
  match baseSuffixes with
  | [] => ""
  | suffix :: rest =>
      if IsSubDomain suffix qname then suffix else hotZoneMatchedBaseSuffix qname rest
  end.

Definition hotZoneBusinessRootAboveSuffix (qname suffix : string) : string :=
  let labels := SplitDomainName qname in
  let suffixLabels := SplitDomainName suffix in
  if (length labels <=? length suffixLabels)%nat then Fqdn suffix
  else Join_dot (drop (length labels - length suffixLabels - 1) labels) +:+ ".".

Definition hotZoneFallbackLevel3 (qname : string) : string :=
  let labels := SplitDomainName qname in
  if (length labels <=? 2)%nat then Fqdn qname
  else Join_dot (drop (length labels - 2) labels) +:+ ".".

Definition hotZoneDirectChild (qname parent : string) : string :=
  let fqdn := Fqdn qname in
  let parent := Fqdn parent in
  if String.eqb fqdn parent || negb (IsSubDomain parent fqdn) then ""
  else
    let labels := SplitDomainName fqdn in
    let parentLabels := SplitDomainName parent in
    if (length labels <=? length parentLabels)%nat then ""
    else Join_dot (drop (length labels - length parentLabels - 1) labels) +:+ ".".

Definition hotZoneCoarseKey (qname matchedForwardZone : string) (baseSuffixes : list string) : string :=
  if negb (String.eqb matchedForwardZone "") then Fqdn matchedForwardZone
  else
    let fqdn := Fqdn qname in
    let suffix := hotZoneMatchedBaseSuffix fqdn baseSuffixes in
    if negb (String.eqb suffix "") then hotZoneBusinessRootAboveSuffix fqdn suffix
    else hotZoneFallbackLevel3 fqdn.

(** The loops of [normalizeHotZoneBaseSuffixes]: [skip_root] is the extra test
    of the second one. *)
Definition add_suffix (skip_root : bool) (st : gset string * list string) (suffix : string)
    : gset string * list string :=
  let '(seen, suffixes) := st in
  if skip_root && String.eqb suffix "." then st
  else if bool_decide (suffix ∈ seen) then st
  else ({[suffix]} ∪ seen, suffixes ++ [suffix]).

Definition suffix_less (a b : string) : bool :=
  if (String.length a =? String.length b)%nat then strings_lt a b
  else (String.length b <? String.length a)%nat.

Definition normalizeHotZoneBaseSuffixes `{GoSort} (extra : list string) : list string :=
  let st := foldl (add_suffix false) (∅, []) (Fqdn <$> DefaultCuratedTLDs) in
  let st := foldl (add_suffix true) st ((λ v, Fqdn (TrimSpace v)) <$> extra) in
  sort_Slice suffix_less st.2.

Definition newHotZoneController `{GoSort} (suffixes : list string) : hotZoneController :=
  mkHotZone hotZoneEvaluateInterval (normalizeHotZoneBaseSuffixes suffixes) ∅ 0 [] time_zero
    (mkControl false "" "" 0 time_zero f64_zero f64_zero) ∅ (mkHzMetrics [] None).

(** ** Windows *)

Definition newHotZoneWindow (start : Z) : hotZoneWindow := mkWindow start 0 ∅ ∅.

Definition ensureCurrentWindowLocked (c : hotZoneController) (now : Z) : hotZoneController :=
  match windows c with
  | [] =>
      let start := Truncate now hotZoneWindowDuration in
      let start := if IsZero start then now else start in
      set_windows c [newHotZoneWindow start]
  | _ => c
  end.

Definition advanceWindowLocked (c : hotZoneController) (start : Z) : hotZoneController :=
  let ws := windows c ++ [newHotZoneWindow start] in
  set_windows c (drop (length ws - hotZoneRecentWindowCount) ws).

Definition addSampleSegmentLocked (end_ : Z) (w : hotZoneWindow) (a : hotZoneActiveRequest)
    : hotZoneWindow :=
  if negb (After end_ (ar_accountedAt a)) then w
  else
    let delta := time_Sub end_ (ar_accountedAt a) in
    let child := hotZoneDirectChild (ar_qname a) (ar_coarseKey a) in
    mkWindow (w_start w) (w_globalOccupancy w + delta)
      (map_add (w_coarseOccupancy w) (ar_coarseKey a) delta)
      (if String.eqb child "" then w_childOccupancy w
       else <[ar_coarseKey a :=
                map_add (default ∅ (w_childOccupancy w !! ar_coarseKey a)) child delta]>
              (w_childOccupancy w)).

(** [range c.active]: Go visits the map in any order; the additions commute. *)
Definition active_list (c : hotZoneController) : list hotZoneActiveRequest :=
  (map_to_list (active c)).*2.

Fixpoint rotate_loop (fuel : nat) (now : Z) (c : hotZoneController) (rotated : bool)
    : bool * hotZoneController :=
  match last (windows c) with
  | None => (rotated, c)
  | Some current =>
      if hotZoneWindowDuration <=? time_Sub now (w_start current) then
        match fuel with
        | O => (rotated, c)
        | S fuel' =>
            let boundary := w_start current + hotZoneWindowDuration in
            let ws := update_last
              (λ w, foldl (addSampleSegmentLocked boundary) w (active_list c)) (windows c) in
            let c1 := set_active (set_windows c ws) ((λ a, set_accountedAt a boundary) <$> active c) in
            rotate_loop fuel' now (advanceWindowLocked c1 boundary) true
        end
      else (rotated, c)
  end.

(** One round per window that has ended. *)
Definition rotate_fuel (now : Z) (c : hotZoneController) : nat :=
  match last (windows c) with
  | None => O
  | Some w => Z.to_nat ((now - w_start w) / hotZoneWindowDuration + 1)
  end.

Definition rotateLocked (c : hotZoneController) (now : Z) : bool * hotZoneController :=
  let c := ensureCurrentWindowLocked c now in
  rotate_loop (rotate_fuel now c) now c false.

(** [c.addSampleToCurrentWindowLocked(active, now)]; the caller deletes [active]
    next, so its own [accountedAt] is not stored. *)
Definition addSampleToCurrentWindowLocked (c : hotZoneController) (a : hotZoneActiveRequest) (now : Z)
    : hotZoneController :=
  if negb (After now (ar_accountedAt a)) then c
  else
    let c := ensureCurrentWindowLocked c now in
    set_windows c (update_last (λ w, addSampleSegmentLocked now w a) (windows c)).

(** ** Snapshots

    [copy(windows, c.windows)] copies the window structs, but the occupancy maps
    in them are references: the samples of the active requests are added to the
    maps of the stored window, while [globalOccupancy] is a field of the copy.
    [store_maps] is what is left in [c.windows]. *)

Definition store_maps (old new : hotZoneWindow) : hotZoneWindow :=
  mkWindow (w_start old) (w_globalOccupancy old) (w_coarseOccupancy new) (w_childOccupancy new).

Definition aggregate_coarse (agg m : gmap string Z) : gmap string Z :=
  foldl (λ acc p, map_add acc p.1 p.2) agg (map_to_list m).

Definition aggregate_child (agg m : gmap string (gmap string Z)) : gmap string (gmap string Z) :=
  foldl (λ acc p, <[p.1 := aggregate_coarse (default ∅ (acc !! p.1)) p.2]> acc) agg (map_to_list m).

Definition snapshotLocked (c : hotZoneController) (now : Z) : hotZoneSnapshot * hotZoneController :=
  let c := ensureCurrentWindowLocked c now in
  let sample w := foldl (addSampleSegmentLocked now) w (active_list c) in
  let copied := update_last sample (windows c) in
  let current := default (newHotZoneWindow 0) (last copied) in
  let elapsed := time_Sub now (w_start current) in
  let elapsed := if elapsed <=? 0 then Second else elapsed in
  (mkHzSnapshot (w_start current) elapsed
     (f64_div (f64_of_Z (w_globalOccupancy current)) (f64_of_Z elapsed))
     (foldl (λ acc w, acc + w_globalOccupancy w) 0 copied)
     (foldl (λ acc w, aggregate_coarse acc (w_coarseOccupancy w)) ∅ copied)
     (foldl (λ acc w, aggregate_child acc (w_childOccupancy w)) ∅ copied),
   set_windows c (update_last (λ w, store_maps w (sample w)) (windows c))).

(** ** Candidates *)

(** One step of the loops of [selectCandidate]. *)
Definition hotter (best : string * Z) (p : string * Z) : string * Z :=
  if (best.2 <? p.2) || ((p.2 =? best.2) && strings_lt p.1 best.1) then p else best.

Definition hottest_coarse (entries : list (string * Z)) : string * Z :=
  foldl (λ best p,
    if (p.2 <=? 0) || hotZoneIsPublicSuffixLike p.1 then best else hotter best p) ("", 0) entries.

Definition hottest_child (entries : list (string * Z)) : string * Z := foldl hotter ("", 0) entries.

(** [coarse] and [children] list the maps in the order the loops visit them. *)
Definition selectCandidate_over (coarse : list (string * Z)) (children : string → list (string * Z))
    : string :=
  let '(hottest, hottestDur) := hottest_coarse coarse in
  if String.eqb hottest "" || (hottestDur <=? 0) then ""
  else
    let '(hottestChild, hottestChildDur) := hottest_child (children hottest) in
    if String.eqb hottestChild "" || (hottestChildDur <=? 0) then hottest
    else if f64_leb (f64_mul (f64_of_Z hottestDur) hotZoneChildDominanceThreshold)
              (f64_of_Z hottestChildDur) then hottestChild
    else hottest.

Definition selectCandidate (s : hotZoneSnapshot) : string :=
  selectCandidate_over (map_to_list (aggregatedCoarse s))
    (λ z, map_to_list (default ∅ (aggregatedChild s !! z))).

(** ** Events and metrics *)

Definition logRateLimitedLocked (env : hzEnv) (c : hotZoneController) (key : string)
    : hotZoneController :=
  let st := default new_LogState (hz_logState c !! key) in
  let '(_, _, st') := log_decide hotZoneLogInterval (hz_logNow env key) st in
  mkHotZone (evalEvery c) (baseSuffixes c) (active c) (nextID c) (windows c) (lastEvalAt c)
    (control c) (<[key := st']> (hz_logState c)) (hz_metrics c).

Definition HotZoneEventAdd (c : hotZoneController) (event : string) : hotZoneController :=
  mkHotZone (evalEvery c) (baseSuffixes c) (active c) (nextID c) (windows c) (lastEvalAt c)
    (control c) (hz_logState c)
    (mkHzMetrics (hz_events (hz_metrics c) ++ [event]) (hz_gauges (hz_metrics c))).

Definition recordEventLocked (env : hzEnv) (c : hotZoneController) (event : string)
    : hotZoneController :=
  logRateLimitedLocked env (HotZoneEventAdd c event) event.

Definition recordRefusedLocked (env : hzEnv) (c : hotZoneController) : hotZoneController :=
  let c := HotZoneEventAdd c "refused" in
  let zone := protectedZone (control c) in
  if String.eqb zone "" then c else logRateLimitedLocked env c ("refused:" +:+ zone).

Definition publishMetricsLocked (c : hotZoneController) (s : hotZoneSnapshot) : hotZoneController :=
  let k := control c in
  if String.eqb (protectedZone k) "" && negb (observeMode k) && (candidateStreak k =? 0) &&
     SFeqb (preTriggerBaseline k) f64_zero && SFeqb (currentGlobalAvg s) f64_zero
  then c
  else
    mkHotZone (evalEvery c) (baseSuffixes c) (active c) (nextID c) (windows c) (lastEvalAt c)
      k (hz_logState c)
      (mkHzMetrics (hz_events (hz_metrics c))
        (Some (observeMode k, negb (String.eqb (protectedZone k) ""), currentGlobalAvg s,
               preTriggerBaseline k, candidateStreak k))).

(** ** Evaluation *)

(** What an evaluation decides on. *)
Record evalInput := mkEvalInput {
  ei_avg : f64;
  ei_pressure : bool;
  ei_candidate : string;
  ei_window : Z;
}.

Definition leave_observe (k : hotZoneControl) (avg : f64) : hotZoneControl :=
  mkControl false "" "" 0 time_zero avg (preTriggerBaseline k).

(** [evaluateLocked] from the pressure test to the end, with the events it
    records in order. *)
Definition evaluate_control (i : evalInput) (k : hotZoneControl) : hotZoneControl * list string :=
  let avg := ei_avg i in
  if negb (observeMode k) && negb (ei_pressure i) then
    (mkControl false (protectedZone k) (candidateZone k) (candidateStreak k)
       (lastCandidateWindow k) avg (preTriggerBaseline k), [])
  else
    let '(k, ev) :=
      if observeMode k then (k, [])
      else
        (mkControl true (protectedZone k) (candidateZone k) (candidateStreak k)
           (lastCandidateWindow k) (lastNormalAvg k)
           (if f64_leb (lastNormalAvg k) f64_zero then avg else lastNormalAvg k),
         ["observe_enter"]) in
    if negb (String.eqb (protectedZone k) "") then
      if f64_leb avg (f64_mul (preTriggerBaseline k) hotZoneExitBaselineFactor)
      then (leave_observe k avg, ev ++ ["protect_exit"])
      else (k, ev)
    else if negb (ei_pressure i) then (leave_observe k avg, ev ++ ["observe_exit"])
    else if String.eqb (ei_candidate i) "" then
      (mkControl (observeMode k) (protectedZone k) "" 0 (ei_window i) (lastNormalAvg k)
         (preTriggerBaseline k), ev)
    else
      let '(k, ev) :=
        if negb (String.eqb (ei_candidate i) (candidateZone k)) then
          (mkControl (observeMode k) (protectedZone k) (ei_candidate i) 1 (ei_window i)
             (lastNormalAvg k) (preTriggerBaseline k), ev ++ ["candidate_change"])
        else if negb (ei_window i =? lastCandidateWindow k) then
          (mkControl (observeMode k) (protectedZone k) (candidateZone k) (candidateStreak k + 1)
             (ei_window i) (lastNormalAvg k) (preTriggerBaseline k), ev ++ ["candidate_confirm"])
        else (k, ev) in
      if hotZoneProtectConfirmWindows <=? candidateStreak k then
        (mkControl (observeMode k) (candidateZone k) (candidateZone k) (candidateStreak k)
           (lastCandidateWindow k) (lastNormalAvg k) (preTriggerBaseline k), ev ++ ["protect_enter"])
      else (k, ev).

Definition eval_input (env : hzEnv) (s : hotZoneSnapshot) : evalInput :=
  let avg := currentGlobalAvg s in
  let threshold := f64_mul hotZoneObserveConcurrencyFactor (f64_of_Z (Z.max 1 (hz_numCPU env))) in
  mkEvalInput avg
    (f64_leb threshold avg && f64_leb hotZoneObserveCPUThreshold (cpuUsage env))
    (selectCandidate s) (currentWindowStart s).

Definition evaluateLocked (env : hzEnv) (c : hotZoneController) (now : Z) : hotZoneController :=
  let '(s, c) := snapshotLocked c now in
  let '(k, events) := evaluate_control (eval_input env s) (control c) in
  publishMetricsLocked (foldl (recordEventLocked env) (set_control c k) events) s.

Definition maybeEvaluateLocked (env : hzEnv) (c : hotZoneController) (now : Z) (rotated : bool)
    : hotZoneController :=
  let interval := if evalEvery c <=? 0 then hotZoneEvaluateInterval else evalEvery c in
  if rotated || IsZero (lastEvalAt c) || (interval <=? time_Sub now (lastEvalAt c))
  then set_lastEvalAt (evaluateLocked env c now) now
  else c.

Definition TryEnter (env : hzEnv) (c : hotZoneController) (now : Z) (qname matchedForwardZone : string)
    : bool * Z * hotZoneController :=
  let '(rotated, c) := rotateLocked c now in
  let c := maybeEvaluateLocked env c now rotated in
  let fqdn := Fqdn qname in
  if negb (String.eqb (protectedZone (control c)) "") && IsSubDomain (protectedZone (control c)) fqdn
  then (false, 0, recordRefusedLocked env c)
  else
    let id := u64 (nextID c + 1) in
    let a := mkActive id fqdn (hotZoneCoarseKey fqdn matchedForwardZone (baseSuffixes c)) now now in
    (true, id,
     mkHotZone (evalEvery c) (baseSuffixes c) (<[id := a]> (active c)) id (windows c) (lastEvalAt c)
       (control c) (hz_logState c) (hz_metrics c)).

Definition HotZone_Release (env : hzEnv) (c : hotZoneController) (now : Z) (id : Z)
    : hotZoneController :=
  if id =? 0 then c
  else
    let '(rotated, c) := rotateLocked c now in
    let c :=
      match active c !! id with
      | Some a =>
          let c := addSampleToCurrentWindowLocked c a now in
          set_active c (delete id (active c))
      | None => c
      end in
    maybeEvaluateLocked env c now rotated.

End zones.

(** ** The CPU sampler *)

Record cpuUsageSampler := mkSampler {
  lastReadAt : Z;
  lastTotal : Z;
  lastIdle : Z;
  lastValue : f64;
}.

Definition newCPUUsageSampler : cpuUsageSampler := mkSampler time_zero 0 0 f64_zero.

Definition is_inf (x : f64) : bool := match x with S754_infinity _ => true | _ => false end.

(** [stat] is the result of [readCPUStat()]. *)
Definition CPUUsage (s : cpuUsageSampler) (now : Z) (stat : option (Z * Z)) : f64 * cpuUsageSampler :=
  if negb (IsZero (lastReadAt s)) && (time_Sub now (lastReadAt s) <? Second) then (lastValue s, s)
  else
    match stat with
    | None => (lastValue s, s)
    | Some (total, idle) =>
        if (lastTotal s =? 0) || (total <=? lastTotal s) then
          (lastValue s, mkSampler now total idle (lastValue s))
        else
          let totalDelta := f64_of_Z (u64 (total - lastTotal s)) in
          let idleDelta := f64_of_Z (u64 (idle - lastIdle s)) in
          let usage := f64_mul (f64_of_Z 100) (f64_sub (f64_of_Z 1) (f64_div idleDelta totalDelta)) in
          let usage := if is_nan usage || is_inf usage then lastValue s else usage in
          let usage := if f64_ltb usage f64_zero then f64_zero else usage in
          let usage := if f64_ltb (f64_of_Z 100) usage then f64_of_Z 100 else usage in
          (usage, mkSampler now total idle usage)
    end.

(** The usages of a run of samples. *)
Fixpoint CPUUsage_run (s : cpuUsageSampler) (l : list (Z * option (Z * Z))) : list f64 :=
  match l with
  | [] => []
  | (now, stat) :: l' => let '(u, s') := CPUUsage s now stat in u :: CPUUsage_run s' l'
  end.

Definition percent (x : f64) : Prop :=
  f64_leb f64_zero x = true ∧ f64_leb x (f64_of_Z 100) = true.

Lemma percent_not_nan x : percent x → is_nan x = false.
Proof. intros [Hx _]. by destruct x. Qed.

Lemma clamp_percent last u :
  percent last →
  let u1 := if is_nan u || is_inf u then last else u in
  let u2 := if f64_ltb u1 f64_zero then f64_zero else u1 in
  percent (if f64_ltb (f64_of_Z 100) u2 then f64_of_Z 100 else u2).
Proof.
  intros Hp u1 u2.
  assert (is_nan u1 = false) as Hn.
  { unfold u1. destruct (is_nan u) eqn:E; simpl; [by apply percent_not_nan|].
    destruct (is_inf u); [by apply percent_not_nan|done]. }
  unfold u2. clearbody u1. clear u2.
  destruct (f64_ltb u1 f64_zero) eqn:E1; [by split|].
  assert (f64_leb f64_zero u1 = true) as H1 by by apply f64_leb_total.
  destruct (f64_ltb (f64_of_Z 100) u1) eqn:E2; [by split|].
  split; [done|]. by apply f64_leb_total.
Qed.

Lemma CPUUsage_percent s now stat :
  percent (lastValue s) →
  percent (CPUUsage s now stat).1 ∧ percent (lastValue (CPUUsage s now stat).2).
Proof.
  intros Hp. unfold CPUUsage. case_match; [done|]. destruct stat as [[total idle]|]; [|done].
  case_match; [done|]. cbv zeta. cbn [fst snd lastValue].
  set (u := f64_mul _ _). pose proof (clamp_percent (lastValue s) u Hp). done.
Qed.

(** Every CPU usage the sampler reports is a number between 0 and 100,
    whatever [/proc/stat] and the clock say: counters that go backwards, equal
    totals and read errors included. *)
Theorem CPUUsage_in_range (samples : list (Z * option (Z * Z))) :
  Forall (λ u, is_nan u = false ∧ f64_leb f64_zero u = true ∧ f64_leb u (f64_of_Z 100) = true)
    (CPUUsage_run newCPUUsageSampler samples).
Proof.
  assert (∀ s, percent (lastValue s) → Forall percent (CPUUsage_run s samples)) as H.
  { induction samples as [|[now stat] l IH]; intros s Hs; simpl; [constructor|].
    pose proof (CPUUsage_percent s now stat Hs) as [H1 H2].
    destruct (CPUUsage s now stat) as [u s']. constructor; [done|by apply IH]. }
  eapply Forall_impl; [by apply H|].
  intros u Hu. split; [by apply percent_not_nan|exact Hu].
Qed.

(** ** The control state machine *)

(** The controller's decisions over a sequence of evaluations. *)
Definition control_run (l : list evalInput) (k : hotZoneControl) : hotZoneControl :=
  foldl (λ k i, (evaluate_control i k).1) k l.

Definition init_control : hotZoneControl := mkControl false "" "" 0 time_zero f64_zero f64_zero.

(** The number of maximal blocks of equal values. *)
Fixpoint blocks (l : list Z) : Z :=
  match l with
  | [] => 0
  | x :: l' => match head l' with
               | Some y => if x =? y then blocks l' else blocks l' + 1
               | None => 1
               end
  end.

Lemma blocks_snoc l x y :
  last l = Some x → blocks (l ++ [y]) = if x =? y then blocks l else blocks l + 1.
Proof.
  induction l as [|a l IH]; [done|]. intros Hl. destruct l as [|b l].
  - simpl in *. simplify_eq. by destruct (x =? y).
  - specialize (IH Hl). change ((a :: b :: l) ++ [y]) with (a :: b :: (l ++ [y])).
    change (blocks (a :: b :: (l ++ [y]))) with
      (if a =? b then blocks (b :: (l ++ [y])) else blocks (b :: (l ++ [y])) + 1).
    change (blocks (a :: b :: l)) with (if a =? b then blocks (b :: l) else blocks (b :: l) + 1).
    change (b :: l ++ [y]) with ((b :: l) ++ [y]). rewrite IH.
    destruct (a =? b), (x =? y); lia.
Qed.

(** Evaluations under pressure that all select [z]. *)
Definition confirms (z : string) (i : evalInput) : Prop :=
  ei_pressure i = true ∧ ei_candidate i = z.

Definition confirmed (l : list evalInput) (z : string) : Prop :=
  ∃ l1 l2 l3, l = l1 ++ l2 ++ l3 ∧ Forall (confirms z) l2 ∧ 3 ≤ blocks (ei_window <$> l2).

Definition control_inv (l : list evalInput) (k : hotZoneControl) : Prop :=
  (observeMode k = false → protectedZone k = "" ∧ candidateZone k = "") ∧
  (candidateZone k = "" → candidateStreak k = 0) ∧
  (candidateZone k ≠ "" → protectedZone k = "" →
    ∃ l1 l2, l = l1 ++ l2 ∧ Forall (confirms (candidateZone k)) l2 ∧
      candidateStreak k = blocks (ei_window <$> l2) ∧
      last (ei_window <$> l2) = Some (lastCandidateWindow k)) ∧
  (protectedZone k ≠ "" → candidateZone k = protectedZone k ∧ confirmed l (protectedZone k)).

Lemma confirmed_snoc l i z : confirmed l z → confirmed (l ++ [i]) z.
Proof.
  intros (l1 & l2 & l3 & -> & HF & Hb). exists l1, l2, (l3 ++ [i]).
  by rewrite <-!app_assoc.
Qed.

(** The candidate bookkeeping of one evaluation under pressure that selects a
    candidate, before the streak is compared with the threshold. *)
Lemma streak_snoc l i k :
  (candidateZone k ≠ "" → ∃ l1 l2, l = l1 ++ l2 ∧ Forall (confirms (candidateZone k)) l2 ∧
      candidateStreak k = blocks (ei_window <$> l2) ∧
      last (ei_window <$> l2) = Some (lastCandidateWindow k)) →
  ei_pressure i = true → ei_candidate i ≠ "" →
  ∃ l1 l2, l ++ [i] = l1 ++ l2 ∧ Forall (confirms (ei_candidate i)) l2 ∧
    last (ei_window <$> l2) = Some (ei_window i) ∧
    blocks (ei_window <$> l2) =
      if String.eqb (ei_candidate i) (candidateZone k) then
        if ei_window i =? lastCandidateWindow k then candidateStreak k else candidateStreak k + 1
      else 1.
Proof.
  intros Hk Hp Hc. destruct (String.eqb_spec (ei_candidate i) (candidateZone k)) as [E|E].
  - destruct Hk as (l1 & l2 & -> & HF & Hs & Hl); [by rewrite <-E|].
    exists l1, (l2 ++ [i]). rewrite fmap_app. cbn [fmap list_fmap]. rewrite last_snoc.
    rewrite (blocks_snoc _ _ _ Hl), (Z.eqb_sym (ei_window i)), <-Hs. split_and!; try done.
    + by rewrite app_assoc.
    + rewrite E. apply Forall_app; split; [done|]. constructor; [by split|constructor].
  - exists l, [i]. split_and!; try done. constructor; [done|constructor].
Qed.

Lemma control_inv_idle l k :
  protectedZone k = "" → candidateZone k = "" → candidateStreak k = 0 → control_inv l k.
Proof. intros H1 H2 H3. by split_and!; rewrite ?H1, ?H2, ?H3. Qed.

Lemma control_inv_streak l l1 l2 k :
  observeMode k = true → protectedZone k = "" → candidateZone k ≠ "" →
  l = l1 ++ l2 → Forall (confirms (candidateZone k)) l2 →
  last (ei_window <$> l2) = Some (lastCandidateWindow k) →
  blocks (ei_window <$> l2) = candidateStreak k → control_inv l k.
Proof. intros H1 H2 H3 H4 H5 H6 H7. split_and!; rewrite ?H1, ?H2; try done. by exists l1, l2. Qed.

Lemma control_inv_protected l k :
  observeMode k = true → protectedZone k ≠ "" → candidateZone k = protectedZone k →
  confirmed l (protectedZone k) → control_inv l k.
Proof. intros H1 H2 H3 H4. split_and!; rewrite ?H1, ?H3; try done. Qed.

(** The end of the function, once the candidate is recorded. *)
Lemma control_inv_threshold l l1 l2 k :
  observeMode k = true → protectedZone k = "" → candidateZone k ≠ "" →
  l = l1 ++ l2 → Forall (confirms (candidateZone k)) l2 →
  last (ei_window <$> l2) = Some (lastCandidateWindow k) →
  blocks (ei_window <$> l2) = candidateStreak k → ∀ ev ev' : list string,
  control_inv l
    (if hotZoneProtectConfirmWindows <=? candidateStreak k then
       (mkControl (observeMode k) (candidateZone k) (candidateZone k) (candidateStreak k)
          (lastCandidateWindow k) (lastNormalAvg k) (preTriggerBaseline k), ev)
     else (k, ev')).1.
Proof.
  intros Ho Hp Hc Hl HF Hlast Hb ev ev'. unfold hotZoneProtectConfirmWindows.
  destruct (Z.leb_spec 3 (candidateStreak k)) as [H3|H3]; simpl.
  - apply control_inv_protected; try done. simpl. exists l1, l2, [].
    rewrite app_nil_r, Hb. done.
  - by eapply control_inv_streak.
Qed.

Lemma control_inv_snoc l i k :
  observeMode k = true → protectedZone k ≠ "" → control_inv l k → control_inv (l ++ [i]) k.
Proof.
  intros Ho Hp (_ & _ & _ & H). destruct (H Hp) as [Hz Hc].
  apply control_inv_protected; try done. by apply confirmed_snoc.
Qed.

(** An evaluation in observe mode (entered just now, or before). *)
Lemma control_inv_observing l i k ev :
  observeMode k = true → control_inv l k →
  control_inv (l ++ [i])
    (if negb (String.eqb (protectedZone k) "") then
       if f64_leb (ei_avg i) (f64_mul (preTriggerBaseline k) hotZoneExitBaselineFactor)
       then (leave_observe k (ei_avg i), ev ++ ["protect_exit"])
       else (k, ev)
     else if negb (ei_pressure i) then (leave_observe k (ei_avg i), ev ++ ["observe_exit"])
     else if String.eqb (ei_candidate i) "" then
       (mkControl (observeMode k) (protectedZone k) "" 0 (ei_window i) (lastNormalAvg k)
          (preTriggerBaseline k), ev)
     else
       let '(k, ev) :=
         if negb (String.eqb (ei_candidate i) (candidateZone k)) then
           (mkControl (observeMode k) (protectedZone k) (ei_candidate i) 1 (ei_window i)
              (lastNormalAvg k) (preTriggerBaseline k), ev ++ ["candidate_change"])
         else if negb (ei_window i =? lastCandidateWindow k) then
           (mkControl (observeMode k) (protectedZone k) (candidateZone k) (candidateStreak k + 1)
              (ei_window i) (lastNormalAvg k) (preTriggerBaseline k), ev ++ ["candidate_confirm"])
         else (k, ev) in
       if hotZoneProtectConfirmWindows <=? candidateStreak k then
         (mkControl (observeMode k) (candidateZone k) (candidateZone k) (candidateStreak k)
            (lastCandidateWindow k) (lastNormalAvg k) (preTriggerBaseline k), ev ++ ["protect_enter"])
       else (k, ev)).1.
Proof.
  intros Ho Hinv. destruct (String.eqb_spec (protectedZone k) "") as [E0|E0]; cbn [negb].
  2: { case_match; [by apply control_inv_idle|by apply control_inv_snoc]. }
  destruct (ei_pressure i) eqn:Ep; cbn [negb]; [|by apply control_inv_idle].
  destruct (String.eqb_spec (ei_candidate i) "") as [E1|E1]; [by apply control_inv_idle|].
  destruct Hinv as (_ & _ & Hcand & _).
  destruct (streak_snoc l i k) as (l1 & l2 & El & HF & Hlast & Hb); [by auto..|].
  destruct (String.eqb_spec (ei_candidate i) (candidateZone k)) as [E2|E2]; cbn [negb].
  - rewrite E2 in HF, E1. destruct (Z.eqb_spec (ei_window i) (lastCandidateWindow k)) as [E3|E3];
      cbn [negb]; eapply control_inv_threshold; try done. by rewrite <-E3.
  - by eapply control_inv_threshold.
Qed.

Lemma control_inv_step l i k :
  control_inv l k → control_inv (l ++ [i]) (evaluate_control i k).1.
Proof.
  intros Hinv. unfold evaluate_control. destruct (observeMode k) eqn:Eo; cbn [andb negb].
  - by apply control_inv_observing.
  - destruct Hinv as (Hobs & Hstr & _). destruct (Hobs Eo) as [Hp Hc].
    assert (∀ l' b w x y, control_inv l'
      (mkControl b (protectedZone k) (candidateZone k) (candidateStreak k) w x y)) as Hid.
    { intros. apply control_inv_idle; simpl; auto. }
    destruct (ei_pressure i) eqn:Ep; cbn [negb]; [|apply Hid].
    pose proof (λ Ht, control_inv_observing l i _ ["observe_enter"] Ht
      (Hid l true (lastCandidateWindow k) (lastNormalAvg k)
         (if f64_leb (lastNormalAvg k) f64_zero then ei_avg i else lastNormalAvg k))) as Ho.
    rewrite Ep in Ho. by apply Ho.
Qed.

(** A zone is protected only after it was confirmed: among the evaluations
    made so far there is a block of consecutive ones, all under pressure and all
    selecting that zone as the candidate, that spans at least three accounting
    windows.  Outside observe mode no zone is protected and no candidate is kept,
    and a protected zone stays the candidate. *)
Lemma protection_is_confirmed (inputs : list evalInput) :
  let k := control_run inputs init_control in
  (observeMode k = false → protectedZone k = "" ∧ candidateZone k = "" ∧ candidateStreak k = 0) ∧
  (protectedZone k ≠ "" →
    candidateZone k = protectedZone k ∧
    ∃ before block after, inputs = before ++ block ++ after ∧
      Forall (λ i, ei_pressure i = true ∧ ei_candidate i = protectedZone k) block ∧
      3 ≤ blocks (ei_window <$> block)).
Proof.
  intros k. assert (control_inv inputs k) as (H1 & H2 & _ & H4).
  { unfold k, control_run. clear k. induction inputs as [|i l IH] using rev_ind.
    - by apply control_inv_idle.
    - rewrite foldl_app. simpl. by apply control_inv_step. }
  split; [|exact H4]. intros Ho. destruct (H1 Ho). auto.
Qed.

(** ** Reachable controllers *)

Section reach.
Context `{DnsLib} `{GoSort}.

(** The evaluation [maybeEvaluateLocked] makes, if it makes one. *)
Definition maybe_input (env : hzEnv) (c : hotZoneController) (now : Z) (rotated : bool)
    : list evalInput :=
  let interval := if evalEvery c <=? 0 then hotZoneEvaluateInterval else evalEvery c in
  if rotated || IsZero (lastEvalAt c) || (interval <=? time_Sub now (lastEvalAt c))
  then [eval_input env (snapshotLocked c now).1] else [].

Definition enter_inputs (env : hzEnv) (c : hotZoneController) (now : Z) : list evalInput :=
  let '(rotated, c) := rotateLocked c now in maybe_input env c now rotated.

(** The controller when [Release] evaluates. *)
Definition release_account (c : hotZoneController) (now id : Z) : hotZoneController :=
  match active c !! id with
  | Some a => set_active (addSampleToCurrentWindowLocked c a now)
                (delete id (active (addSampleToCurrentWindowLocked c a now)))
  | None => c
  end.

Definition release_inputs (env : hzEnv) (c : hotZoneController) (now id : Z) : list evalInput :=
  if id =? 0 then []
  else let '(rotated, c) := rotateLocked c now in
       maybe_input env (release_account c now id) now rotated.

(** [reach suffixes l t c]: [c] is reached from a new controller by calls of
    [TryEnter] and [Release] at times that do not decrease, the last one that did
    anything at [t] ([Release(0)] does nothing);
    [l] are the evaluations made on the way. *)
Inductive reach (suffixes : list string) : list evalInput → Z → hotZoneController → Prop :=
| reach_new t : 0 < t → reach suffixes [] t (newHotZoneController suffixes)
| reach_enter l t c env now qname zone :
    reach suffixes l t c → t ≤ now →
    reach suffixes (l ++ enter_inputs env c now) now (TryEnter env c now qname zone).2
| reach_release l t c env now id :
    reach suffixes l t c → t ≤ now →
    reach suffixes (l ++ release_inputs env c now id) (if id =? 0 then t else now)
      (HotZone_Release env c now id).

(** What only the evaluation touches. *)
Definition same_control (c c' : hotZoneController) : Prop :=
  control c' = control c ∧ nextID c' = nextID c ∧ baseSuffixes c' = baseSuffixes c ∧
  lastEvalAt c' = lastEvalAt c ∧ evalEvery c' = evalEvery c ∧ hz_logState c' = hz_logState c ∧
  hz_metrics c' = hz_metrics c.

#[export] Instance same_control_preorder : PreOrder same_control.
Proof.
  split; [by intros c|]. intros c1 c2 c3 (?&?&?&?&?&?&?) (?&?&?&?&?&?&?).
  unfold same_control. split_and!; by etrans.
Qed.

Lemma ensure_same_control c now : same_control c (ensureCurrentWindowLocked c now).
Proof. unfold ensureCurrentWindowLocked. by destruct (windows c). Qed.

Lemma rotate_loop_same_control fuel now c b : same_control c (rotate_loop fuel now c b).2.
Proof.
  revert c b. induction fuel as [|fuel IH]; intros c b; simpl; case_match; try done;
    case_match; try done. etrans; [|apply IH]. done.
Qed.

Lemma rotateLocked_same_control c now : same_control c (rotateLocked c now).2.
Proof. unfold rotateLocked. etrans; [apply ensure_same_control|apply rotate_loop_same_control]. Qed.

Lemma addSample_same_control c a now : same_control c (addSampleToCurrentWindowLocked c a now).
Proof.
  unfold addSampleToCurrentWindowLocked. case_match; [done|].
  etrans; [apply (ensure_same_control c now)|done].
Qed.

Lemma release_account_same_control c now id : same_control c (release_account c now id).
Proof.
  unfold release_account. case_match; [|done]. by etrans; [apply addSample_same_control|].
Qed.

(** What an evaluation leaves as it is. *)
Definition same_requests (c c' : hotZoneController) : Prop :=
  active c' = active c ∧ nextID c' = nextID c ∧ baseSuffixes c' = baseSuffixes c ∧
  w_start <$> windows c' = w_start <$> windows c.

Lemma record_frame env c e :
  control (recordEventLocked env c e) = control c ∧ windows (recordEventLocked env c e) = windows c ∧
  active (recordEventLocked env c e) = active c ∧ nextID (recordEventLocked env c e) = nextID c ∧
  baseSuffixes (recordEventLocked env c e) = baseSuffixes c.
Proof. unfold recordEventLocked, logRateLimitedLocked. by destruct (log_decide _ _ _) as [[??]?]. Qed.

Lemma records_frame env events c :
  let c' := foldl (recordEventLocked env) c events in
  control c' = control c ∧ windows c' = windows c ∧ active c' = active c ∧
  nextID c' = nextID c ∧ baseSuffixes c' = baseSuffixes c.
Proof.
  revert c. induction events as [|e l IH]; intros c; simpl; [done|].
  destruct (IH (recordEventLocked env c e)) as (-> & -> & -> & -> & ->). apply record_frame.
Qed.

Lemma publish_frame c s :
  control (publishMetricsLocked c s) = control c ∧ windows (publishMetricsLocked c s) = windows c ∧
  active (publishMetricsLocked c s) = active c ∧ nextID (publishMetricsLocked c s) = nextID c ∧
  baseSuffixes (publishMetricsLocked c s) = baseSuffixes c.
Proof. unfold publishMetricsLocked. by case_match. Qed.

Lemma refused_frame env c :
  control (recordRefusedLocked env c) = control c ∧ windows (recordRefusedLocked env c) = windows c ∧
  active (recordRefusedLocked env c) = active c ∧ nextID (recordRefusedLocked env c) = nextID c.
Proof.
  unfold recordRefusedLocked, logRateLimitedLocked. case_match; [done|].
  by destruct (log_decide _ _ _) as [[??]?].
Qed.

Lemma update_last_fmap {A B} (g : A → B) (f : A → A) l :
  (∀ x, g (f x) = g x) → g <$> update_last f l = g <$> l.
Proof.
  intros Hg. induction l as [|x l IH]; [done|]. destruct l as [|y l]; [simpl; by rewrite Hg|].
  change (update_last f (x :: y :: l)) with (x :: update_last f (y :: l)).
  by rewrite !(fmap_cons _ x), IH.
Qed.

Lemma ensure_nonempty c now : windows c ≠ [] → ensureCurrentWindowLocked c now = c.
Proof. unfold ensureCurrentWindowLocked. by destruct (windows c). Qed.

Lemma evaluateLocked_spec env c now :
  windows c ≠ [] →
  same_requests c (evaluateLocked env c now) ∧
  windows (evaluateLocked env c now) = windows (snapshotLocked c now).2 ∧
  control (evaluateLocked env c now) =
    (evaluate_control (eval_input env (snapshotLocked c now).1) (control c)).1.
Proof.
  intros Hw. unfold evaluateLocked. destruct (snapshotLocked c now) as [s c'] eqn:E.
  unfold snapshotLocked in E. rewrite (ensure_nonempty _ _ Hw) in E.
  assert (c' = set_windows c (update_last (λ w, store_maps w
    (foldl (addSampleSegmentLocked now) w (active_list c))) (windows c))) as -> by congruence.
  clear E. simpl. destruct (evaluate_control _ _) as [k ev].
  match goal with |- context [publishMetricsLocked ?x ?y] =>
    destruct (publish_frame x y) as (H1 & H2 & H3 & H4 & H5) end.
  match goal with |- context [foldl (recordEventLocked env) ?x ?y] =>
    destruct (records_frame env y x) as (R1 & R2 & R3 & R4 & R5) end.
  unfold same_requests. rewrite H1, H2, H3, H4, H5, R1, R2, R3, R4, R5. simpl.
  split_and!; try done. by apply update_last_fmap.
Qed.

(** *** The windows *)

(** Consecutive windows start five seconds apart. *)
Fixpoint spaced (l : list hotZoneWindow) : Prop :=
  match l with
  | [] => True
  | w :: l' => match head l' with
               | Some w' => w_start w' = w_start w + hotZoneWindowDuration
               | None => True
               end ∧ spaced l'
  end.

(** At time [t]: at most three windows, spaced; the current one has begun, and
    every active request is accounted for up to a moment of it. *)
Definition windows_wf (t : Z) (c : hotZoneController) : Prop :=
  match last (windows c) with
  | None => windows c = [] ∧ active c = ∅
  | Some w =>
      (length (windows c) ≤ 3)%nat ∧ spaced (windows c) ∧ w_start w ≤ t ∧
      map_Forall (λ _ a, w_start w ≤ ar_accountedAt a ≤ t) (active c)
  end.

Lemma spaced_starts l l' : w_start <$> l = w_start <$> l' → spaced l → spaced l'.
Proof.
  revert l'. induction l as [|w l IH]; intros [|w' l'] E; try done. simpl in E.
  injection E as E1 E2. simpl. intros [Hh Hs]. split; [|by eapply IH].
  destruct l as [|v l], l' as [|v' l']; simpl in *; try done. injection E2 as E2 _. lia.
Qed.

Lemma spaced_snoc l w start :
  spaced l → last l = Some w → start = w_start w + hotZoneWindowDuration →
  spaced (l ++ [newHotZoneWindow start]).
Proof.
  induction l as [|v l IH]; [done|]. intros [Hh Hs] Hl ->. destruct l as [|u l].
  - simpl in *. simplify_eq. done.
  - specialize (IH Hs Hl eq_refl). split; [|exact IH]. done.
Qed.

Lemma spaced_drop n l : spaced l → spaced (drop n l).
Proof.
  revert n. induction l as [|w l IH]; intros [|n]; simpl; try done. intros [_ Hs]. by apply IH.
Qed.

Lemma last_update_last {A} (f : A → A) l : last (update_last f l) = f <$> last l.
Proof. induction l as [|x [|y [|z l]] IH]; [done..|]. exact IH. Qed.

Lemma length_update_last {A} (f : A → A) l : length (update_last f l) = length l.
Proof. induction l as [|x [|y l] IH]; [done..|]. simpl in *. by rewrite IH. Qed.

Lemma last_drop_lt {A} n (l : list A) : (n < length l)%nat → last (drop n l) = last l.
Proof.
  revert n. induction l as [|x l IH]; intros [|n] Hn; simpl in *; try done; try lia.
  rewrite IH by lia. destruct l; [simpl in Hn; lia|done].
Qed.

Lemma starts_last (l l' : list hotZoneWindow) :
  w_start <$> l = w_start <$> l' → w_start <$> last l = w_start <$> last l'.
Proof. intros E. apply (f_equal last) in E. by rewrite !fmap_last in E. Qed.

Lemma sample_start t w l : w_start (foldl (addSampleSegmentLocked t) w l) = w_start w.
Proof.
  revert w. induction l as [|a l IH]; intros w; simpl; [done|]. rewrite IH.
  unfold addSampleSegmentLocked. by case_match.
Qed.

(** Reading the occupancy maps does not change when windows start. *)
Lemma windows_wf_starts t c c' :
  w_start <$> windows c' = w_start <$> windows c → active c' = active c →
  windows_wf t c → windows_wf t c'.
Proof.
  intros E Ea. unfold windows_wf. pose proof (starts_last _ _ E) as El.
  destruct (last (windows c)) as [w|] eqn:E1, (last (windows c')) as [w'|] eqn:E2; try done.
  - injection El as ->. rewrite Ea. intros (H1 & H2 & H3 & H4). split_and!; try done.
    + apply (f_equal length) in E. rewrite !length_fmap in E. lia.
    + by eapply spaced_starts.
  - rewrite Ea. intros [H1 H2]. split; [|done]. by apply last_None in E2.
Qed.

Lemma ensure_wf t c now : windows_wf t c → t ≤ now → 0 ≤ now →
  windows_wf now (ensureCurrentWindowLocked c now) ∧ windows (ensureCurrentWindowLocked c now) ≠ [].
Proof.
  intros Hw Ht Hn. unfold ensureCurrentWindowLocked. destruct (windows c) as [|w l] eqn:E.
  - unfold windows_wf in *. rewrite E in Hw. simpl in *. destruct Hw as [_ Ha]. rewrite Ha.
    split; [|done]. split_and!; [lia|done|done| |by apply map_Forall_empty].
    unfold Truncate. pose proof (Z.mod_pos_bound now hotZoneWindowDuration eq_refl).
    case_match; [lia|]. destruct (hotZoneWindowDuration <=? 0); lia.
  - rewrite E. split; [|done]. unfold windows_wf in *. rewrite E in *.
    destruct (last (w :: l)); [|done]. destruct Hw as (H1 & H2 & H3 & H4).
    split_and!; try done; [lia|]. eapply map_Forall_impl; [exact H4|]. intros ? a. simpl. lia.
Qed.

Lemma window_over now start :
  (hotZoneWindowDuration <=? time_Sub now start) = (hotZoneWindowDuration <=? now - start).
Proof.
  unfold time_Sub, max_int64, min_int64, hotZoneWindowDuration, Second, Millisecond.
  destruct (Z.leb_spec (5 * (1000 * 1000000)) (now - start));
    [apply Z.leb_le|apply Z.leb_gt]; lia.
Qed.

(** One turn of the loop moves to the next window. *)
Lemma rotate_turn_wf now c w :
  windows_wf now c → last (windows c) = Some w → hotZoneWindowDuration ≤ now - w_start w →
  let boundary := w_start w + hotZoneWindowDuration in
  let c' := advanceWindowLocked
    (set_active (set_windows c (update_last
       (λ w, foldl (addSampleSegmentLocked boundary) w (active_list c)) (windows c)))
       ((λ a, set_accountedAt a boundary) <$> active c)) boundary in
  windows_wf now c' ∧ last (windows c') = Some (newHotZoneWindow boundary).
Proof.
  intros Hwf Hl Hd boundary c'. unfold windows_wf in Hwf. rewrite Hl in Hwf.
  destruct Hwf as (Hlen & Hsp & Hs & Ha).
  set (ws := update_last (λ w, foldl (addSampleSegmentLocked boundary) w (active_list c)) (windows c)).
  assert (w_start <$> ws = w_start <$> windows c) as Hst.
  { apply update_last_fmap. intros x. apply sample_start. }
  assert (length ws = length (windows c)) as Hlw by apply length_update_last.
  assert (last (windows c') = Some (newHotZoneWindow boundary)) as Hl'.
  { unfold c'. simpl. fold ws. rewrite last_drop_lt, last_snoc; [done|].
    rewrite length_app. simpl. unfold hotZoneRecentWindowCount. lia. }
  split; [|done]. unfold windows_wf. rewrite Hl'. split_and!.
  - unfold c'. simpl. fold ws. rewrite length_drop, length_app. unfold hotZoneRecentWindowCount. lia.
  - unfold c'. simpl. fold ws. apply spaced_drop.
    assert (w_start <$> last ws = Some (w_start w)) as Hlast.
    { rewrite (starts_last _ _ Hst), Hl. done. }
    destruct (last ws) as [v|] eqn:Ev; [|done]. simpl in Hlast. injection Hlast as Hlast.
    eapply spaced_snoc; [|exact Ev|by rewrite Hlast].
    eapply spaced_starts; [symmetry; exact Hst|done].
  - simpl. lia.
  - unfold c'. simpl. apply map_Forall_fmap. intros i a Hi. simpl. lia.
Qed.

Lemma rotate_loop_wf fuel now c b w :
  windows_wf now c → last (windows c) = Some w →
  now - w_start w < Z.of_nat fuel * hotZoneWindowDuration →
  let c' := (rotate_loop fuel now c b).2 in
  windows_wf now c' ∧ dom (active c') = dom (active c) ∧
  ∃ w', last (windows c') = Some w' ∧ w_start w' ≤ now < w_start w' + hotZoneWindowDuration.
Proof.
  revert c b w. induction fuel as [|fuel IH]; intros c b w Hwf Hl Hf; simpl; rewrite Hl, window_over.
  - assert (w_start w ≤ now) by (unfold windows_wf in Hwf; rewrite Hl in Hwf; naive_solver). lia.
  - destruct (Z.leb_spec hotZoneWindowDuration (now - w_start w)) as [Hd|Hd].
    + destruct (rotate_turn_wf now c w Hwf Hl Hd) as [Hwf' Hl'].
      edestruct IH as (H1 & H2 & H3); [exact Hwf'|exact Hl'|simpl; lia|].
      split_and!; [exact H1| |exact H3]. rewrite H2. simpl. apply dom_fmap_L.
    + simpl. split_and!; try done. exists w. split; [done|].
      unfold windows_wf in Hwf. rewrite Hl in Hwf. destruct Hwf as (_ & _ & Hs & _). lia.
Qed.

Lemma rotateLocked_wf t c now :
  windows_wf t c → t ≤ now → 0 ≤ now →
  let c' := (rotateLocked c now).2 in
  windows_wf now c' ∧ dom (active c') = dom (active c) ∧
  ∃ w', last (windows c') = Some w' ∧ w_start w' ≤ now < w_start w' + hotZoneWindowDuration.
Proof.
  intros Hwf Ht Hn. destruct (ensure_wf t c now Hwf Ht Hn) as [Hwf1 Hne].
  assert (active (ensureCurrentWindowLocked c now) = active c) as Ha
    by (unfold ensureCurrentWindowLocked; by case_match).
  unfold rotateLocked, rotate_fuel.
  destruct (last (windows (ensureCurrentWindowLocked c now))) as [w|] eqn:Hl;
    [|by apply last_None in Hl].
  rewrite <-Ha. apply (rotate_loop_wf _ _ _ _ w Hwf1 Hl).
  assert (w_start w ≤ now) as Hs by (unfold windows_wf in Hwf1; rewrite Hl in Hwf1; naive_solver).
  pose proof (Z.div_pos (now - w_start w) hotZoneWindowDuration ltac:(lia) eq_refl).
  rewrite Z2Nat.id by lia.
  pose proof (Z.mod_pos_bound (now - w_start w) hotZoneWindowDuration eq_refl).
  pose proof (Z.div_mod (now - w_start w) hotZoneWindowDuration ltac:(done)). lia.
Qed.

Lemma control_run_app l1 l2 k : control_run (l1 ++ l2) k = control_run l2 (control_run l1 k).
Proof. apply foldl_app. Qed.

Lemma maybeEvaluate_spec env c now b :
  windows c ≠ [] →
  let c' := maybeEvaluateLocked env c now b in
  same_requests c c' ∧ control c' = control_run (maybe_input env c now b) (control c).
Proof.
  intros Hw. unfold maybeEvaluateLocked, maybe_input. case_match; [|done].
  destruct (evaluateLocked_spec env c now Hw) as (Hs & _ & Hc). split; [exact Hs|exact Hc].
Qed.

Lemma wf_nonempty t c w : last (windows c) = Some w → windows_wf t c → windows c ≠ [].
Proof. intros Hl _ E. by rewrite E in Hl. Qed.

(** The controller [TryEnter] and [Release] decide on: rotated and evaluated. *)
Lemma enter_prefix env t c now :
  windows_wf t c → t ≤ now → 0 ≤ now →
  let r := rotateLocked c now in
  let c' := maybeEvaluateLocked env r.2 now r.1 in
  windows_wf now c' ∧ dom (active c') = dom (active c) ∧ nextID c' = nextID c ∧
  control c' = control_run (enter_inputs env c now) (control c) ∧
  ∃ w, last (windows c') = Some w ∧ w_start w ≤ now < w_start w + hotZoneWindowDuration.
Proof.
  intros Hwf Ht Hn r c'. destruct (rotateLocked_wf t c now Hwf Ht Hn) as (Hwf1 & Hd & w & Hl & Hw).
  destruct (rotateLocked_same_control c now) as (Hc & Hid & _).
  unfold enter_inputs. fold r in Hwf1, Hd, Hl, Hc, Hid |- *. unfold c'. clear c'. clearbody r.
  destruct r as [rot c1]. simpl in *.
  destruct (maybeEvaluate_spec env c1 now rot) as [(Ha & Hi & _ & Hst) Hk].
  { by eapply wf_nonempty. }
  split_and!.
  - by eapply windows_wf_starts.
  - by rewrite Ha.
  - by rewrite Hi.
  - by rewrite Hk, Hc.
  - pose proof (starts_last _ _ Hst) as E. rewrite Hl in E.
    destruct (last (windows (maybeEvaluateLocked env c1 now rot))) as [w'|]; [|done].
    injection E as E. exists w'. rewrite E. done.
Qed.

(** The three windows, after any call: what [TryEnter] and [Release] rely on. *)
Definition current_wf (t : Z) (c : hotZoneController) : Prop :=
  windows_wf t c ∧
  (windows c ≠ [] → ∃ w, last (windows c) = Some w ∧ w_start w ≤ t < w_start w + hotZoneWindowDuration).

Lemma current_wf_intro t c w :
  windows_wf t c → last (windows c) = Some w → w_start w ≤ t < w_start w + hotZoneWindowDuration →
  current_wf t c.
Proof. intros. split; eauto. Qed.

Lemma TryEnter_wf env t c now qname zone :
  windows_wf t c → t ≤ now → 0 ≤ now →
  let c' := (TryEnter env c now qname zone).2 in
  current_wf now c' ∧ control c' = control_run (enter_inputs env c now) (control c).
Proof.
  intros Hwf Ht Hn. destruct (enter_prefix env t c now Hwf Ht Hn) as (Hwf1 & Hd & Hi & Hk & w & Hl & Hw).
  unfold TryEnter. destruct (rotateLocked c now) as [rot c1]. simpl in *.
  set (c2 := maybeEvaluateLocked env c1 now rot) in *. case_match.
  - simpl. destruct (refused_frame env c2) as (-> & E2 & E3 & E4). split; [|done].
    eapply current_wf_intro; [|by rewrite E2|done].
    eapply windows_wf_starts; [by rewrite E2|done|done].
  - simpl. split; [|done]. eapply current_wf_intro; [|exact Hl|done].
    unfold windows_wf in *. simpl in *. rewrite Hl in *. destruct Hwf1 as (W1 & W2 & W3 & W4).
    split_and!; try done. apply map_Forall_insert_2; [simpl; lia|done].
Qed.

Lemma release_account_wf t c id :
  windows_wf t c → windows_wf t (release_account c t id) ∧
  w_start <$> windows (release_account c t id) = w_start <$> windows c ∧
  active (release_account c t id) = delete id (active c).
Proof.
  intros Hwf. unfold release_account. destruct (active c !! id) as [a|] eqn:Ea.
  2: { by rewrite delete_id. }
  unfold addSampleToCurrentWindowLocked.
  assert (ensureCurrentWindowLocked c t = c) as Hens.
  { apply ensure_nonempty. intros E. unfold windows_wf in Hwf. rewrite E in Hwf. simpl in Hwf.
    destruct Hwf as [_ Hact]. by rewrite Hact in Ea. }
  rewrite Hens. set (c1 := if negb _ then c else _).
  assert (w_start <$> windows c1 = w_start <$> windows c) as Hst.
  { unfold c1. case_match; [done|]. simpl. apply update_last_fmap.
    intros w. unfold addSampleSegmentLocked. by case_match. }
  assert (active c1 = active c) as Hact by (unfold c1; by case_match).
  split_and!; [|exact Hst|simpl; by rewrite Hact].
  assert (windows_wf t c1) as Hwf1 by by eapply windows_wf_starts.
  unfold windows_wf in *. simpl. destruct (last (windows c1)).
  - destruct Hwf1 as (W1 & W2 & W3 & W4). split_and!; try done. by apply map_Forall_delete.
  - destruct Hwf1 as [W1 W2]. rewrite W2. split; [done|]. apply delete_empty.
Qed.

Lemma Release_wf env t c now id :
  current_wf t c → t ≤ now → 0 ≤ now → id ≠ 0 →
  let c' := HotZone_Release env c now id in
  current_wf now c' ∧ control c' = control_run (release_inputs env c now id) (control c) ∧
  dom (active c') = dom (active c) ∖ {[id]}.
Proof.
  intros [Hwf _] Ht Hn Hid. unfold HotZone_Release, release_inputs.
  destruct (Z.eqb_spec id 0) as [|_]; [done|].
  destruct (rotateLocked_wf t c now Hwf Ht Hn) as (Hwf1 & Hd & w & Hl & Hw).
  destruct (rotateLocked_same_control c now) as (Hc & _).
  destruct (rotateLocked c now) as [rot c1]. simpl in *.
  change (match active c1 !! id with Some a => _ | None => c1 end) with (release_account c1 now id).
  destruct (release_account_wf now c1 id Hwf1) as (Hwf2 & Hst2 & Ha2).
  pose proof (release_account_same_control c1 now id) as (Hc2 & _).
  set (c2 := release_account c1 now id) in *. clearbody c2.
  pose proof (starts_last _ _ Hst2) as Hl2. rewrite Hl in Hl2.
  destruct (last (windows c2)) as [w2|] eqn:Hl2'; [|done]. injection Hl2 as Hl2.
  destruct (maybeEvaluate_spec env c2 now rot) as [(Ha & _ & _ & Hst) Hk]; [by eapply wf_nonempty|].
  split_and!.
  - pose proof (starts_last _ _ Hst) as El. rewrite Hl2' in El.
    destruct (last (windows (maybeEvaluateLocked env c2 now rot))) as [w3|] eqn:El3; [|done].
    injection El as El. eapply current_wf_intro; [|exact El3|lia].
    by eapply windows_wf_starts.
  - by rewrite Hk, Hc2, Hc.
  - rewrite Ha, Ha2, dom_delete_L, Hd. done.
Qed.

Lemma reach_inv suffixes l t c :
  reach suffixes l t c → 0 < t ∧ current_wf t c ∧ control c = control_run l init_control.
Proof.
  induction 1 as [t Ht|l t c env now qname zone _ (Ht & [Hwf _] & Hk) Hle
                 |l t c env now id _ (Ht & Hwf & Hk) Hle].
  - split_and!; [done| |done]. split; [|done]. done.
  - destruct (TryEnter_wf env t c now qname zone Hwf Hle ltac:(lia)) as [H1 H2].
    split_and!; [lia|done|]. by rewrite H2, control_run_app, Hk.
  - destruct (Z.eqb_spec id 0) as [->|Hid].
    + unfold HotZone_Release, release_inputs. simpl. by rewrite app_nil_r.
    + destruct (Release_wf env t c now id Hwf Hle ltac:(lia) Hid) as (H1 & H2 & _).
      split_and!; [lia|done|]. by rewrite H2, control_run_app, Hk.
Qed.

(** C34: after any sequence of [TryEnter] and [Release] calls with a clock that
    does not go back, the controller keeps at most three windows, spaced five
    seconds apart; the last one contains the current time; and every active
    request has been accounted for up to a moment within it, so no request's
    time is lost or charged to a later window. *)
Theorem hot_zone_windows (suffixes : list string) l t c :
  reach suffixes l t c →
  (length (windows c) ≤ 3)%nat ∧
  (∀ i w w', windows c !! i = Some w → windows c !! S i = Some w' →
    w_start w' = w_start w + hotZoneWindowDuration) ∧
  (windows c = [] → active c = ∅) ∧
  (∀ w, last (windows c) = Some w →
    w_start w ≤ t < w_start w + hotZoneWindowDuration ∧
    map_Forall (λ _ a, w_start w ≤ ar_accountedAt a ≤ t) (active c)).
Proof.
  intros Hr. apply reach_inv in Hr as (_ & [Hwf Hcur] & _). unfold windows_wf in Hwf.
  destruct (last (windows c)) as [w|] eqn:Hl.
  - destruct Hwf as (H1 & H2 & H3 & H4). split_and!; [done| | |].
    + clear -H2. induction (windows c) as [|v ws IH]; intros [|i] w w' Hi Hi'; try done.
      * simpl in *. simplify_eq. destruct ws; simplify_eq/=. naive_solver.
      * apply (IH (proj2 H2) i); done.
    + intros E. by rewrite E in Hl.
    + intros w' [= <-]. split; [|done]. destruct Hcur as (w' & [= <-] & Hw); [|done].
      intros E. by rewrite E in Hl.
  - destruct Hwf as [H1 H2]. rewrite H1. split_and!; simpl; try lia; done.
Qed.

(** *** Evaluations in the order of their windows *)

Lemma snapshot_window c now w :
  last (windows c) = Some w → currentWindowStart (snapshotLocked c now).1 = w_start w.
Proof.
  intros Hl. unfold snapshotLocked. rewrite ensure_nonempty by (intros E; by rewrite E in Hl).
  cbn [fst currentWindowStart]. rewrite last_update_last, Hl. simpl. apply sample_start.
Qed.

Lemma rotate_loop_later fuel now c b w :
  last (windows c) = Some w →
  ∃ w', last (windows (rotate_loop fuel now c b).2) = Some w' ∧ w_start w ≤ w_start w'.
Proof.
  revert c b w. induction fuel as [|fuel IH]; intros c b w Hl; simpl; rewrite Hl; case_match;
    try (exists w; split; [done|lia]).
  edestruct (IH (advanceWindowLocked (set_active (set_windows c (update_last
      (λ w0, foldl (addSampleSegmentLocked (w_start w + hotZoneWindowDuration)) w0 (active_list c)) (windows c)))
      ((λ a, set_accountedAt a (w_start w + hotZoneWindowDuration)) <$> active c))
      (w_start w + hotZoneWindowDuration)) true (newHotZoneWindow (w_start w + hotZoneWindowDuration)))
    as (w' & Hl' & Hle).
  - simpl. rewrite last_drop_lt, last_snoc; [done|]. rewrite length_app, length_update_last.
    unfold hotZoneRecentWindowCount. simpl. lia.
  - exists w'. split; [exact Hl'|]. simpl in Hle. unfold hotZoneWindowDuration, Second, Millisecond in *. lia.
Qed.

(** The evaluations [l] are in the order of their windows, none later than the
    current one. *)
Definition ordered (l : list evalInput) (c : hotZoneController) : Prop :=
  Sorted Z.le (ei_window <$> l) ∧
  match last (windows c) with
  | Some w => Forall (λ i, ei_window i ≤ w_start w) l
  | None => l = []
  end.

Lemma ordered_rotate l c now w' :
  ordered l c → last (windows (rotateLocked c now).2) = Some w' →
  Sorted Z.le (ei_window <$> l) ∧ Forall (λ i, ei_window i ≤ w_start w') l.
Proof.
  intros [Hs Hl] Hl'. split; [done|]. destruct (last (windows c)) as [w|] eqn:E; [|by subst].
  unfold rotateLocked in Hl'. rewrite ensure_nonempty in Hl' by (intros E'; by rewrite E' in E).
  destruct (rotate_loop_later (rotate_fuel now c) now c false w E) as (v & Ev & Hle).
  rewrite Hl' in Ev. injection Ev as ->. eapply Forall_impl; [exact Hl|]. simpl. intros i. lia.
Qed.

Lemma Sorted_snoc_le (l : list Z) x : Sorted Z.le l → Forall (λ y, y ≤ x) l → Sorted Z.le (l ++ [x]).
Proof.
  induction l as [|y l IH]; intros Hs Hf; [repeat constructor|]. inversion_clear Hs as [|? ? Hs' Hd].
  inversion_clear Hf as [|? ? Hy Hf']. simpl. constructor; [by apply IH|].
  destruct l; [by repeat constructor|]. inversion_clear Hd. by constructor.
Qed.

(** Evaluating with the current window keeps the order. *)
Lemma ordered_evaluate env l c now b c' w :
  Sorted Z.le (ei_window <$> l) → Forall (λ i, ei_window i ≤ w_start w) l → last (windows c) = Some w →
  w_start <$> windows c' = w_start <$> windows c → ordered (l ++ maybe_input env c now b) c'.
Proof.
  intros Hs Hf Hl Hst. apply starts_last in Hst. rewrite Hl in Hst.
  destruct (last (windows c')) as [w'|] eqn:Hl'; [|done]. injection Hst as Hst.
  unfold ordered. rewrite Hl'. unfold maybe_input. case_match; [|by rewrite app_nil_r, Hst].
  rewrite fmap_app.
  change (ei_window <$> [eval_input env (snapshotLocked c now).1]) with [currentWindowStart (snapshotLocked c now).1].
  rewrite (snapshot_window c now w Hl), Hst. split.
  - apply Sorted_snoc_le; [done|]. by apply Forall_fmap.
  - apply Forall_app. split; [done|]. constructor; [|done].
    change (currentWindowStart (snapshotLocked c now).1 ≤ w_start w). rewrite (snapshot_window c now w Hl). lia.
Qed.

Lemma maybeEvaluate_starts env c now b :
  windows c ≠ [] → w_start <$> windows (maybeEvaluateLocked env c now b) = w_start <$> windows c.
Proof. intros Hw. by destruct (maybeEvaluate_spec env c now b Hw) as [(_ & _ & _ & ?) _]. Qed.

Lemma TryEnter_starts env t c now qname zone :
  windows_wf t c → t ≤ now → 0 ≤ now →
  w_start <$> windows (TryEnter env c now qname zone).2 = w_start <$> windows (rotateLocked c now).2.
Proof.
  intros Hwf Hle Hn. destruct (rotateLocked_wf t c now Hwf Hle Hn) as (_ & _ & w & Hl & _).
  unfold TryEnter. destruct (rotateLocked c now) as [rot c1]. simpl in *.
  pose proof (maybeEvaluate_starts env c1 now rot) as Hst. case_match; simpl.
  - destruct (refused_frame env (maybeEvaluateLocked env c1 now rot)) as (_ & -> & _). apply Hst.
    intros E. by rewrite E in Hl.
  - apply Hst. intros E. by rewrite E in Hl.
Qed.

Lemma reach_ordered suffixes l t c : reach suffixes l t c → ordered l c.
Proof.
  induction 1 as [t Ht|l t c env now qname zone Hr IH Hle|l t c env now id Hr IH Hle].
  - by split; [constructor|].
  - destruct (reach_inv _ _ _ _ Hr) as (Ht & [Hwf _] & _).
    destruct (rotateLocked_wf t c now Hwf Hle ltac:(lia)) as (_ & _ & w & Hl & _).
    destruct (ordered_rotate l c now w IH Hl) as [Hs Hf]. unfold enter_inputs.
    pose proof (TryEnter_starts env t c now qname zone Hwf Hle ltac:(lia)) as Hst.
    destruct (rotateLocked c now) as [rot c1]. simpl in *. by eapply ordered_evaluate.
  - unfold release_inputs, HotZone_Release. destruct (Z.eqb_spec id 0) as [_|_]; [by rewrite app_nil_r|].
    destruct (reach_inv _ _ _ _ Hr) as (Ht & [Hwf _] & _).
    destruct (rotateLocked_wf t c now Hwf Hle ltac:(lia)) as (Hwf1 & _ & w & Hl & _).
    destruct (ordered_rotate l c now w IH Hl) as [Hs Hf].
    destruct (rotateLocked c now) as [rot c1]. simpl in *.
    change (match active c1 !! id with Some a => _ | None => c1 end) with (release_account c1 now id).
    destruct (release_account_wf now c1 id Hwf1) as (_ & Hst2 & _).
    pose proof (starts_last _ _ Hst2) as Hl2. rewrite Hl in Hl2.
    destruct (last (windows (release_account c1 now id))) as [w2|] eqn:El2; [|done]. injection Hl2 as Hl2.
    eapply (ordered_evaluate env l (release_account c1 now id) now rot _ w2);
      [done|by rewrite Hl2|done|]. apply maybeEvaluate_starts. intros E. by rewrite E in El2.
Qed.

(** Three maximal blocks of equal values in order are three values. *)
Lemma blocks_increase l : Sorted Z.le l → ∀ n, Z.of_nat (S n) ≤ blocks l →
  ∃ l', l' `sublist_of` l ∧ length l' = S n ∧ Sorted Z.lt l'.
Proof.
  induction l as [|x l IH]; intros Hs n Hn; [change (blocks []) with 0 in Hn; lia|].
  inversion_clear Hs as [|? ? Hs' Hd]. destruct l as [|y l].
  { change (blocks [x]) with 1 in Hn. exists [x]. assert (n = 0%nat) as -> by lia. by split_and!; repeat constructor. }
  change (blocks (x :: y :: l)) with (if x =? y then blocks (y :: l) else blocks (y :: l) + 1) in Hn.
  inversion_clear Hd as [|? ? Hxy]. specialize (IH Hs').
  destruct (Z.eqb_spec x y) as [->|Hne].
  { destruct (IH n Hn) as (l' & Hl' & Hlen & Hs1). exists l'. split_and!; [by apply sublist_cons|done|done]. }
  destruct n as [|n].
  { exists [x]. split_and!; [apply sublist_skip, sublist_nil_l|done|repeat constructor]. }
  destruct (IH n) as (l' & Hl' & Hlen & Hs1); [lia|]. exists (x :: l').
  split_and!; [by apply sublist_skip|simpl; lia|]. constructor; [done|].
  destruct l' as [|z l']; [constructor|]. constructor.
  assert (z ∈ y :: l) as Hz by (eapply elem_of_sublist; [by left|exact Hl']).
  apply elem_of_cons in Hz as [->|Hz]; [lia|].
  apply Sorted_StronglySorted in Hs'; [|intros ? ? ?; lia].
  inversion_clear Hs' as [|? ? _ Hall]. rewrite Forall_forall in Hall. specialize (Hall z Hz). lia.
Qed.

Lemma Sorted_sub (l1 l2 l3 : list Z) : Sorted Z.le (l1 ++ l2 ++ l3) → Sorted Z.le l2.
Proof.
  intros Hs. apply Sorted_StronglySorted in Hs; [|intros ? ? ?; lia]. apply StronglySorted_Sorted.
  induction l1 as [|x l1 IH]; [|inversion_clear Hs; auto]. simpl in Hs.
  induction l2 as [|y l2 IH]; [constructor|]. inversion_clear Hs as [|? ? Hs' Hf]. constructor; [auto|].
  by apply Forall_app in Hf as [Hf _].
Qed.

(** The windows of an ordered block of evaluations that has three of them. *)
Lemma block_windows l1 block l3 :
  Sorted Z.le (ei_window <$> l1 ++ block ++ l3) → 3 ≤ blocks (ei_window <$> block) →
  ∃ t1 t2 t3, t1 < t2 < t3 ∧ ∀ t, t ∈ [t1; t2; t3] → ∃ i, i ∈ block ∧ ei_window i = t.
Proof.
  rewrite !fmap_app. intros Hs%Sorted_sub Hb. destruct (blocks_increase _ Hs 2) as (l' & Hsub & Hlen & Hlt); [done|].
  destruct l' as [|t1 [|t2 [|t3 [|]]]]; try done.
  inversion_clear Hlt as [|? ? Hlt' Hd1]. inversion_clear Hd1. inversion_clear Hlt' as [|? ? _ Hd2]. inversion_clear Hd2.
  exists t1, t2, t3. split; [lia|]. intros t Ht. eapply elem_of_sublist in Ht; [|exact Hsub].
  apply list_elem_of_fmap in Ht as (i & -> & Hi). eauto.
Qed.

(** One evaluation under pressure that selects [z], no zone being protected. *)
Lemma evaluate_candidate k i z :
  confirms z i → z ≠ "" → protectedZone k = "" →
  let k' := (evaluate_control i k).1 in
  let streak := if String.eqb z (candidateZone k) then
                  if ei_window i =? lastCandidateWindow k then candidateStreak k else candidateStreak k + 1
                else 1 in
  candidateZone k' = z ∧ candidateStreak k' = streak ∧ lastCandidateWindow k' = ei_window i ∧
  protectedZone k' = if 3 <=? streak then z else "".
Proof.
  intros [Hp Hc] Hz Hpz. unfold evaluate_control, hotZoneProtectConfirmWindows. rewrite Hp, Hc.
  apply String.eqb_neq in Hz. destruct k as [obs pz cz st lcw lna ptb]. simpl in Hpz. subst pz.
  destruct obs; cbn -[Z.leb Z.add]; rewrite Hz;
    (destruct (String.eqb_spec z cz) as [->|Hne]; cbn -[Z.leb Z.add]; [|done]);
    (destruct (Z.eqb_spec (ei_window i) lcw) as [->|Hw]; cbn -[Z.leb Z.add]); by destruct (3 <=? _).
Qed.

(** Three evaluations in a row, in different windows. *)
Lemma three_windows_protect k z i1 i2 i3 :
  protectedZone k = "" → candidateZone k ≠ z → z ≠ "" → Forall (confirms z) [i1; i2; i3] →
  ei_window i1 ≠ ei_window i2 → ei_window i2 ≠ ei_window i3 →
  protectedZone (control_run [i1; i2; i3] k) = z.
Proof.
  intros Hp Hc Hz Hf H12 H23. rewrite !Forall_cons in Hf. destruct Hf as (F1 & F2 & F3 & _).
  destruct (evaluate_candidate k i1 z F1 Hz Hp) as (C1 & S1 & W1 & P1).
  assert (String.eqb z (candidateZone k) = false) as Hne by (apply String.eqb_neq; congruence). rewrite Hne in S1, P1.
  destruct (evaluate_candidate _ i2 z F2 Hz P1) as (C2 & S2 & W2 & P2).
  rewrite C1, W1, S1, String.eqb_refl in S2, P2. apply not_eq_sym, Z.eqb_neq in H12. rewrite H12 in S2, P2.
  destruct (evaluate_candidate _ i3 z F3 Hz P2) as (C3 & S3 & W3 & P3).
  rewrite C2, W2, S2, String.eqb_refl in P3. apply not_eq_sym, Z.eqb_neq in H23. rewrite H23 in P3. exact P3.
Qed.

(** C13: hot-zone protection is confirmed.  A request is refused only when its name
    is in a zone that was confirmed hot: among the evaluations made so far (the one
    of this call included) there is a run of consecutive ones, all under pressure
    and all selecting that zone, made in at least three different windows.  A refused
    request is not accounted: it becomes no active request and gets ticket 0.  And
    three windows are enough, however far apart: any three evaluations in a row,
    under pressure and selecting a zone that is not yet the candidate, protect that
    zone when each is in another window than the one before.  The windows need not
    follow each other: the streak is not reset by windows without an evaluation. *)
Theorem refusal_is_confirmed (suffixes : list string) :
  (∀ l t c env now qname zone id c', reach suffixes l t c → t ≤ now →
    TryEnter env c now qname zone = (false, id, c') →
    id = 0 ∧ dom (active c') = dom (active c) ∧
    ∃ z, z ≠ "" ∧ IsSubDomain z (Fqdn qname) = true ∧
      ∃ before block after, l ++ enter_inputs env c now = before ++ block ++ after ∧
        Forall (λ i, ei_pressure i = true ∧ ei_candidate i = z) block ∧
        ∃ t1 t2 t3, t1 < t2 < t3 ∧ ∀ t, t ∈ [t1; t2; t3] → ∃ i, i ∈ block ∧ ei_window i = t) ∧
  (∀ k z i1 i2 i3, protectedZone k = "" → candidateZone k ≠ z → z ≠ "" →
    Forall (λ i, ei_pressure i = true ∧ ei_candidate i = z) [i1; i2; i3] →
    ei_window i1 ≠ ei_window i2 → ei_window i2 ≠ ei_window i3 →
    protectedZone (control_run [i1; i2; i3] k) = z).
Proof.
  split; [|intros; by apply three_windows_protect].
  intros l t c env now qname zone id c' Hr Hle Hte.
  pose proof (reach_ordered _ _ _ _ (reach_enter suffixes l t c env now qname zone Hr Hle)) as [Hsort _].
  apply reach_inv in Hr as (Ht & [Hwf _] & Hk).
  destruct (enter_prefix env t c now Hwf Hle ltac:(lia)) as (_ & Hd & _ & Hc & _).
  unfold TryEnter in Hte. destruct (rotateLocked c now) as [rot c1] eqn:Er. simpl in *.
  set (c2 := maybeEvaluateLocked env c1 now rot) in *.
  destruct (String.eqb_spec (protectedZone (control c2)) "") as [|Hz]; [done|]. simpl in Hte.
  destruct (IsSubDomain (protectedZone (control c2)) (Fqdn qname)) eqn:Es; [|done].
  injection Hte as <- <-. destruct (refused_frame env c2) as (_ & _ & -> & _).
  split_and!; [done|done|]. exists (protectedZone (control c2)). split_and!; [done|done|].
  rewrite Hc, Hk, <-control_run_app in *.
  destruct (protection_is_confirmed (l ++ enter_inputs env c now)) as [_ Hconf].
  destruct (Hconf Hz) as (_ & l1 & block & l3 & El & Hall & Hb).
  exists l1, block, l3. split_and!; [done|done|]. rewrite El in Hsort. by eapply block_windows.
Qed.

(** Tickets are handed out in order: below the wrap-around of the counter they
    are fresh. *)
Definition tickets_below (c : hotZoneController) : Prop :=
  ∀ id, id ∈ dom (active c) → 0 < id ≤ nextID c.

(** An accepted request gets a fresh non-zero ticket and becomes the only new
    active request; releasing the ticket, at any later time and whatever happens
    to the windows and the protection meanwhile, removes exactly that request. *)
Theorem ticket_roundtrip (suffixes : list string) l t c env now qname zone id c' :
  reach suffixes l t c → t ≤ now → tickets_below c → 0 ≤ nextID c < 2 ^ 64 - 1 →
  TryEnter env c now qname zone = (true, id, c') →
  id ≠ 0 ∧ ¬ (id ∈ dom (active c)) ∧ tickets_below c' ∧
  dom (active c') = ({[id]} ∪ dom (active c)) ∧
  ∀ env' now', now ≤ now' → dom (active (HotZone_Release env' c' now' id)) = dom (active c).
Proof.
  intros Hr Hle Htb Hn Hte. pose proof (reach_inv _ _ _ _ Hr) as (Ht & [Hwf _] & _).
  pose proof (TryEnter_wf env t c now qname zone Hwf Hle ltac:(lia)) as [Hcur _].
  rewrite Hte in Hcur. simpl in Hcur.
  destruct (enter_prefix env t c now Hwf Hle ltac:(lia)) as (_ & Hd & Hid & _).
  unfold TryEnter in Hte. destruct (rotateLocked c now) as [rot c1]. simpl in *.
  set (c2 := maybeEvaluateLocked env c1 now rot) in *.
  destruct (negb _ && _); [done|]. injection Hte as <- <-.
  assert (u64 (nextID c2 + 1) = nextID c + 1) as Hu.
  { rewrite Hid. unfold u64. apply Z.mod_small. lia. }
  rewrite Hu in *. simpl.
  assert (nextID c + 1 ∉ dom (active c)) as Hfresh.
  { intros Hin. apply Htb in Hin. lia. }
  split_and!; [lia|done| |by rewrite dom_insert_L, Hd|].
  - intros i. unfold tickets_below in *. simpl. rewrite dom_insert_L, Hd.
    intros [->%elem_of_singleton|Hi%Htb]%elem_of_union; lia.
  - intros env' now' Hle'.
    destruct (Release_wf env' now _ now' (nextID c + 1) Hcur Hle' ltac:(lia) ltac:(lia)) as (_ & _ & E).
    rewrite E. simpl. rewrite dom_insert_L, Hd. set_solver.
Qed.

End reach.

(** ** Selecting the candidate *)

Section candidate.
Context `{DnsLib}.

(** [p] is at least as hot as [q]; equally hot zones are ordered by name. *)
Definition hot_ge (p q : string * Z) : Prop :=
  q.2 < p.2 ∨ (q.2 = p.2 ∧ (q.1 = p.1 ∨ strings_lt p.1 q.1 = true)).

Lemma hot_ge_refl p : hot_ge p p.
Proof. right. auto. Qed.

Lemma hot_ge_trans p q r : hot_ge p q → hot_ge q r → hot_ge p r.
Proof.
  intros [Hpq|[Epq [E|Hpq]]] [Hqr|[Eqr [E'|Hqr]]]; unfold hot_ge; try (left; lia); right;
    (split; [lia|]).
  - left. congruence.
  - right. by rewrite <-E.
  - right. by rewrite E'.
  - right. by eapply strings_lt_trans.
Qed.

Lemma hot_ge_antisym p q : hot_ge p q → hot_ge q p → p = q.
Proof.
  destruct p as [a x], q as [b y]. unfold hot_ge. simpl.
  intros [?|[-> [->|H1]]] [?|[Ey [Eb|H2]]]; try lia; try congruence.
  pose proof (strings_lt_trans _ _ _ H1 H2) as E. by rewrite strings_lt_irrefl in E.
Qed.

Lemma hotter_cases best p :
  (hotter best p = p ∨ hotter best p = best) ∧ hot_ge (hotter best p) p ∧ hot_ge (hotter best p) best.
Proof.
  unfold hotter. destruct (Z.ltb_spec best.2 p.2); simpl.
  { split_and!; [by left|apply hot_ge_refl|by left]. }
  destruct (Z.eqb_spec p.2 best.2) as [E|E]; simpl; [|split_and!; [by right|left; lia|apply hot_ge_refl]].
  destruct (strings_lt p.1 best.1) eqn:El.
  - split_and!; [by left|apply hot_ge_refl|]. right. auto.
  - split_and!; [by right| |apply hot_ge_refl]. right. split; [done|].
    destruct (strings_lt_total p.1 best.1) as [?|[?|?]]; auto. congruence.
Qed.

Lemma hottest_fold (ok : string * Z → bool) entries best :
  let r := foldl (λ b p, if ok p then hotter b p else b) best entries in
  (r = best ∨ (r ∈ entries ∧ ok r = true)) ∧ hot_ge r best ∧
  (∀ p, p ∈ entries → ok p = true → hot_ge r p).
Proof.
  revert best. induction entries as [|p l IH]; intros best; simpl.
  { split_and!; [by left|apply hot_ge_refl|]. intros p Hp. by apply not_elem_of_nil in Hp. }
  set (b := if ok p then hotter best p else best).
  destruct (IH b) as (H1 & H2 & H3).
  assert (hot_ge b best ∧ (ok p = true → hot_ge b p) ∧ (b = best ∨ b = p ∧ ok p = true)) as (B1 & B2 & B3).
  { unfold b. destruct (ok p); [|split_and!; [apply hot_ge_refl|done|by left]].
    destruct (hotter_cases best p) as ([->| ->] & ? & ?); auto. }
  split_and!.
  - destruct H1 as [->|[? ?]]; [|right; split; [by right|done]].
    destruct B3 as [->|[-> ?]]; [by left|right; split; [by left|done]].
  - by eapply hot_ge_trans.
  - intros q [->|Hq]%elem_of_cons Hok; [|by apply H3]. eapply hot_ge_trans; [done|by apply B2].
Qed.

(** A zone the controller may protect: busy, and not a top-level domain. *)
Definition eligible (p : string * Z) : Prop := 0 < p.2 ∧ hotZoneIsPublicSuffixLike p.1 = false.

Lemma hottest_coarse_spec entries :
  let r := hottest_coarse entries in
  (r = ("", 0) ∨ (r ∈ entries ∧ eligible r)) ∧ (∀ p, p ∈ entries → eligible p → hot_ge r p).
Proof.
  set (ok := λ p : string * Z, negb ((p.2 <=? 0) || hotZoneIsPublicSuffixLike p.1)).
  assert (∀ p, ok p = true ↔ eligible p) as Hok.
  { intros p. unfold ok, eligible. rewrite negb_true_iff, orb_false_iff, Z.leb_gt. done. }
  destruct (hottest_fold ok entries ("", 0)) as (H1 & _ & H3).
  assert (hottest_coarse entries = foldl (λ b p, if ok p then hotter b p else b) ("", 0) entries) as ->.
  { unfold hottest_coarse, ok. generalize ("", 0). clear. induction entries as [|p l IH]; intros b; [done|].
    simpl. rewrite IH. f_equal. by destruct (_ || _). }
  split.
  - destruct H1 as [?|[? ?%Hok]]; auto.
  - intros p Hp Hel. apply H3; [done|by apply Hok].
Qed.

Lemma hottest_child_spec entries :
  let r := hottest_child entries in
  (r = ("", 0) ∨ r ∈ entries) ∧ (∀ p, p ∈ entries → hot_ge r p).
Proof.
  destruct (hottest_fold (λ _, true) entries ("", 0)) as (H1 & _ & H3). split.
  - destruct H1 as [?|[? _]]; auto.
  - intros p Hp. by apply H3.
Qed.

Lemma hot_ge_zero r p : hot_ge r p → 0 < p.2 → r ≠ ("", 0).
Proof. intros [?|[? _]] ? ->; simpl in *; lia. Qed.

Lemma hottest_coarse_perm l l' : l ≡ₚ l' → hottest_coarse l = hottest_coarse l'.
Proof.
  intros Hp. destruct (hottest_coarse_spec l) as [H1 H2], (hottest_coarse_spec l') as [H3 H4].
  destruct H1 as [E1|[Hin1 El1]], H3 as [E3|[Hin3 El3]].
  - congruence.
  - assert (hot_ge (hottest_coarse l) (hottest_coarse l')) as Hg
      by (apply H2; [by rewrite Hp|done]). by apply hot_ge_zero in Hg; [|apply El3].
  - assert (hot_ge (hottest_coarse l') (hottest_coarse l)) as Hg
      by (apply H4; [by rewrite <-Hp|done]). by apply hot_ge_zero in Hg; [|apply El1].
  - apply hot_ge_antisym; [apply H2; [by rewrite Hp|done]|apply H4; [by rewrite <-Hp|done]].
Qed.

Lemma hottest_child_perm l l' :
  Forall (λ p, 0 < p.2) l → l ≡ₚ l' → hottest_child l = hottest_child l'.
Proof.
  intros Hpos Hp. destruct (hottest_child_spec l) as [H1 H2], (hottest_child_spec l') as [H3 H4].
  assert (Forall (λ p : string * Z, 0 < p.2) l') as Hpos' by by rewrite <-Hp.
  rewrite Forall_forall in Hpos, Hpos'.
  destruct H1 as [E1|Hin1], H3 as [E3|Hin3].
  - congruence.
  - assert (hot_ge (hottest_child l) (hottest_child l')) as Hg by (apply H2; by rewrite Hp).
    by apply hot_ge_zero in Hg; [|apply Hpos'].
  - assert (hot_ge (hottest_child l') (hottest_child l)) as Hg by (apply H4; by rewrite <-Hp).
    by apply hot_ge_zero in Hg; [|apply Hpos].
  - apply hot_ge_antisym; [apply H2; by rewrite Hp|apply H4; by rewrite <-Hp].
Qed.

(** Zones in a snapshot are names, and a child is listed once it was busy. *)
Definition snapshot_wf (s : hotZoneSnapshot) : Prop :=
  aggregatedCoarse s !! "" = None ∧
  map_Forall (λ _ m, m !! "" = None ∧ map_Forall (λ _ d, 0 < d) m) (aggregatedChild s).

Lemma children_positive s z :
  snapshot_wf s →
  Forall (λ p, p.1 ≠ "" ∧ 0 < p.2) (map_to_list (default ∅ (aggregatedChild s !! z))).
Proof.
  intros [_ Hpos]. apply Forall_forall. intros [y e] Hin%elem_of_map_to_list. simpl.
  destruct (aggregatedChild s !! z) as [m|] eqn:Em; [|done]. simpl in Hin.
  destruct (Hpos z m Em) as [He Hm]. split; [|by apply (Hm y e)]. intros ->. congruence.
Qed.

Lemma selectCandidate_perm s coarse children :
  snapshot_wf s → coarse ≡ₚ map_to_list (aggregatedCoarse s) →
  (∀ z, children z ≡ₚ map_to_list (default ∅ (aggregatedChild s !! z))) →
  selectCandidate_over coarse children = selectCandidate s.
Proof.
  intros Hwf Hc Hch. unfold selectCandidate, selectCandidate_over.
  rewrite (hottest_coarse_perm _ _ Hc).
  destruct (hottest_coarse (map_to_list (aggregatedCoarse s))) as [z d]. case_match; [done|].
  rewrite (hottest_child_perm (children z) (map_to_list (default ∅ (aggregatedChild s !! z)))); [done| |done].
  rewrite Hch. eapply Forall_impl; [by apply children_positive|]. by intros ? [_ ?].
Qed.

(** The selected candidate does not depend on the order in which Go visits
    the occupancy maps.  When there is one, there is a hottest zone [z] that is not
    a top-level domain (no eligible zone is busier, and among equally busy ones it
    is the first by name), and the candidate is [z] or the busiest direct child of
    [z]; there is none only if no eligible zone has been busy at all. *)
Theorem selectCandidate_spec (s : hotZoneSnapshot) coarse children :
  snapshot_wf s →
  coarse ≡ₚ map_to_list (aggregatedCoarse s) →
  (∀ z, children z ≡ₚ map_to_list (default ∅ (aggregatedChild s !! z))) →
  selectCandidate_over coarse children = selectCandidate s ∧
  (selectCandidate s = "" → ∀ z d, aggregatedCoarse s !! z = Some d → ¬ eligible (z, d)) ∧
  (selectCandidate s ≠ "" →
    ∃ z d, aggregatedCoarse s !! z = Some d ∧ eligible (z, d) ∧
      (∀ z' d', aggregatedCoarse s !! z' = Some d' → eligible (z', d') → hot_ge (z, d) (z', d')) ∧
      (selectCandidate s = z ∨
       ∃ e, aggregatedChild s !! z ≫= lookup (selectCandidate s) = Some e ∧
         ∀ y e', aggregatedChild s !! z ≫= lookup y = Some e' → hot_ge (selectCandidate s, e) (y, e'))).
Proof.
  intros Hwf Hc Hch. split; [by apply selectCandidate_perm|]. clear Hc Hch.
  unfold selectCandidate, selectCandidate_over.
  destruct (hottest_coarse_spec (map_to_list (aggregatedCoarse s))) as [H1 H2].
  destruct (hottest_coarse (map_to_list (aggregatedCoarse s))) as [z d].
  assert (∀ z' d', aggregatedCoarse s !! z' = Some d' → eligible (z', d') → hot_ge (z, d) (z', d')) as Hmax.
  { intros z' d' Hz'. apply H2. by apply elem_of_map_to_list. }
  destruct H1 as [[= -> ->]|[Hin%elem_of_map_to_list Hel]].
  { simpl. split; [|done]. intros _ z d Hz Hel. specialize (Hmax z d Hz Hel).
    apply hot_ge_zero in Hmax; [done|apply Hel]. }
  destruct (String.eqb_spec z "") as [->|Hz]; simpl; [by destruct Hwf as [? _]; simplify_eq|].
  destruct Hel as [Hd Hps]. simpl in Hd. destruct (Z.leb_spec d 0); [lia|].
  pose proof (children_positive s z Hwf) as Hpos.
  destruct (hottest_child_spec (map_to_list (default ∅ (aggregatedChild s !! z)))) as [C1 C2].
  destruct (hottest_child _) as [y e]. simpl in C1.
  assert (∀ w : string, w = z ∨ w = y ∧ y ≠ "" → w ≠ "") as Hne by naive_solver.
  match goal with |- (?r = "" → _) ∧ _ =>
    assert (r = z ∨ r = y ∧ y ≠ "") as Hr by (repeat case_match; auto;
      right; split; [done|]; intros ->; done); set (w := r) in * end.
  split; [by intros Hw; apply Hne in Hr|]. intros _. exists z, d. split_and!; try done.
  destruct Hr as [->|[-> Hy]]; [by left|right]. exists e.
  assert (∀ y e, aggregatedChild s !! z ≫= lookup y = Some e ↔
    (y, e) ∈ map_to_list (default ∅ (aggregatedChild s !! z))) as Hlk.
  { intros y' e'. rewrite elem_of_map_to_list. by destruct (aggregatedChild s !! z). }
  split; [|by intros y' e' Hy'%Hlk; apply C2]. destruct C1 as [[= -> ->]|Hin']; [done|].
  by apply Hlk.
Qed.
End candidate.

(** ** What an evaluation adds to the stored windows *)

Section recount.
Context `{DnsLib}.

(** The time of the active requests of a zone that is not accounted at [now]. *)
Definition pending (key : string) (now : Z) (l : list hotZoneActiveRequest) : Z :=
  foldr (λ a acc, (if String.eqb (ar_coarseKey a) key
                   then Z.max 0 (time_Sub now (ar_accountedAt a)) else 0) + acc) 0 l.

Definition coarse_of (key : string) (w : hotZoneWindow) : Z :=
  default 0 (w_coarseOccupancy w !! key).

Lemma map_add_lookup m k d key :
  default 0 (map_add m k d !! key) = default 0 (m !! key) + (if String.eqb k key then d else 0).
Proof.
  unfold map_add. destruct (String.eqb_spec k key) as [->|Hk].
  - by rewrite lookup_insert_eq.
  - rewrite lookup_insert_ne by done. lia.
Qed.

Lemma addSample_coarse now w a key :
  coarse_of key (addSampleSegmentLocked now w a) = coarse_of key w + pending key now [a].
Proof.
  unfold addSampleSegmentLocked, After, coarse_of, pending. cbn [foldr].
  destruct (Z.ltb_spec (ar_accountedAt a) now); simpl.
  - rewrite map_add_lookup. unfold time_Sub, max_int64, min_int64.
    destruct (String.eqb (ar_coarseKey a) key); lia.
  - unfold time_Sub, max_int64, min_int64. destruct (String.eqb (ar_coarseKey a) key); lia.
Qed.

Lemma pending_cons key now a l : pending key now (a :: l) = pending key now [a] + pending key now l.
Proof. unfold pending. simpl. lia. Qed.

Lemma samples_coarse now l w key :
  coarse_of key (foldl (addSampleSegmentLocked now) w l) = coarse_of key w + pending key now l.
Proof.
  revert w. induction l as [|a l IH]; intros w; [unfold pending; cbn [foldl foldr]; lia|].
  rewrite pending_cons. cbn [foldl]. rewrite IH, addSample_coarse. lia.
Qed.

Lemma snapshot_stored c now w :
  last (windows c) = Some w →
  let c' := (snapshotLocked c now).2 in
  active c' = active c ∧
  ∃ w', last (windows c') = Some w' ∧ w_globalOccupancy w' = w_globalOccupancy w ∧
    ∀ key, coarse_of key w' = coarse_of key w + pending key now (active_list c).
Proof.
  intros Hl. unfold snapshotLocked. rewrite ensure_nonempty by (intros E; by rewrite E in Hl).
  simpl. split; [done|]. rewrite last_update_last, Hl. simpl.
  eexists. split_and!; [done|done|]. intros key. apply (samples_coarse now (active_list c) w key).
Qed.

(** The copy of the windows an evaluation works on shares their maps: taking
    a snapshot at [now1] and another at [now2] charges the unaccounted time of
    every active request to its zone twice, once up to each of the two moments,
    because neither advances [accountedAt]; the global occupancy, a field of the
    copied struct, is not charged at all. *)
Theorem snapshots_recount (c : hotZoneController) (now1 now2 : Z) (w : hotZoneWindow) :
  last (windows c) = Some w →
  let c2 := (snapshotLocked (snapshotLocked c now1).2 now2).2 in
  active c2 = active c ∧
  ∃ w2, last (windows c2) = Some w2 ∧ w_globalOccupancy w2 = w_globalOccupancy w ∧
    ∀ key, coarse_of key w2 =
      coarse_of key w + pending key now1 (active_list c) + pending key now2 (active_list c).
Proof.
  intros Hl c2. destruct (snapshot_stored c now1 w Hl) as (Ha1 & w1 & Hl1 & Hg1 & Hc1).
  destruct (snapshot_stored _ now2 w1 Hl1) as (Ha2 & w2 & Hl2 & Hg2 & Hc2).
  split; [etrans; [exact Ha2|exact Ha1]|]. exists w2.
  split_and!; [done|etrans; [exact Hg2|exact Hg1]|]. intros key.
  rewrite Hc2, Hc1. unfold active_list. by rewrite Ha1.
Qed.

End recount.

(** ** Concrete runs *)

Module HotZoneWitness.
Import RefDns RefSort.

Definition env : hzEnv := mkHzEnv (f64_of_Z 90) 1 (λ _, 5000 * Second).
Definition t0 : Z := 5000 * Second.

(** One long request below [a.b.com.]; unknown tickets only tick the clock. *)
Definition run0 : hotZoneController := (TryEnter env (newHotZoneController []) t0 "x.a.b.com." "").2.
Definition run1 : hotZoneController := HotZone_Release env run0 (t0 + 4 * Second) 99.
Definition run2 : hotZoneController := HotZone_Release env run1 (t0 + 9 * Second) 99.
Definition run3 : hotZoneController := HotZone_Release env run2 (t0 + 14 * Second) 99.

Definition evaluations : list evalInput :=
  ((([] ++ enter_inputs env (newHotZoneController []) t0) ++
    release_inputs env run0 (t0 + 4 * Second) 99) ++
    release_inputs env run1 (t0 + 9 * Second) 99) ++
    release_inputs env run2 (t0 + 14 * Second) 99.

Lemma tick l t c now :
  reach [] l t c → t ≤ now →
  reach [] (l ++ release_inputs env c now 99) now (HotZone_Release env c now 99).
Proof. intros Hr Hle. exact (reach_release [] l t c env now 99 Hr Hle). Qed.

Lemma run3_reach : reach [] evaluations (t0 + 14 * Second) run3.
Proof.
  unfold evaluations, run3. apply (tick _ (t0 + 9 * Second)); [|unfold Second, Millisecond; lia].
  unfold run2. apply (tick _ (t0 + 4 * Second)); [|unfold Second, Millisecond; lia].
  unfold run1. apply (tick _ t0); [|unfold Second, Millisecond; lia].
  unfold run0. apply (reach_enter [] [] t0); [|lia]. by apply reach_new.
Qed.

Lemma hot_zone_windows_witness : (length (windows run3) ≤ 3)%nat.
Proof. destruct (hot_zone_windows [] _ _ _ run3_reach) as [Hw _]. exact Hw. Defined.

(** Candidates of windows twenty seconds apart, with nothing in between. *)
Definition gappy : list evalInput := (λ t, mkEvalInput (f64_of_Z 1) true "b.com." t) <$> [t0; t0 + 20 * Second; t0 + 40 * Second].

Lemma refusal_is_confirmed_witness :
  (∃ z, z ≠ "" ∧ IsSubDomain z "y.a.b.com." = true) ∧ protectedZone (control_run gappy init_control) = "b.com.".
Proof.
  destruct (refusal_is_confirmed []) as [H1 H2]. split.
  - destruct (H1 _ _ _ env (t0 + 14 * Second + 1) "y.a.b.com." "" 0
      (TryEnter env run3 (t0 + 14 * Second + 1) "y.a.b.com." "").2 run3_reach) as (_ & _ & z & Hz & Hs & _).
    + vm_compute. discriminate.
    + vm_compute. reflexivity.
    + exists z. split; [exact Hz|exact Hs].
  - apply H2; [reflexivity|discriminate|discriminate|repeat constructor|discriminate|discriminate].
Defined.

Lemma ticket_roundtrip_witness :
  dom (active (HotZone_Release env run0 (t0 + 9 * Second) 1)) = ∅.
Proof.
  destruct (ticket_roundtrip [] [] t0 (newHotZoneController []) env t0 "x.a.b.com." "" 1 run0)
    as (_ & _ & _ & _ & H).
  - by apply reach_new.
  - lia.
  - intros id Hid. simpl in Hid. rewrite dom_empty_L in Hid. by apply elem_of_empty in Hid.
  - simpl. lia.
  - vm_compute. reflexivity.
  - rewrite H; [apply dom_empty_L|unfold Second, Millisecond; lia].
Defined.

Lemma selectCandidate_spec_witness :
  let s := mkHzSnapshot 0 1 f64_zero 30 {["b.com." := 20; "c.com." := 10]}
             {["b.com." := {["a.b.com." := 19]}]} in
  selectCandidate_over (map_to_list (aggregatedCoarse s))
    (λ z, map_to_list (default ∅ (aggregatedChild s !! z))) = "a.b.com.".
Proof.
  intros s. destruct (selectCandidate_spec s (map_to_list (aggregatedCoarse s))
    (λ z, map_to_list (default ∅ (aggregatedChild s !! z)))) as [H _].
  - split; [reflexivity|]. apply map_Forall_singleton. split; [reflexivity|].
    by apply map_Forall_singleton.
  - reflexivity.
  - reflexivity.
  - rewrite H. vm_compute. reflexivity.
Defined.

(** The zone of the single request is charged for 10 seconds when 6 have passed. *)
Lemma snapshots_recount_witness :
  ∃ w, last (windows (snapshotLocked (snapshotLocked run0 (t0 + 4 * Second)).2 (t0 + 6 * Second)).2) = Some w ∧
    coarse_of "b.com." w = 10 * Second ∧ w_globalOccupancy w = 0.
Proof.
  destruct (snapshots_recount run0 (t0 + 4 * Second) (t0 + 6 * Second)
    (default (newHotZoneWindow 0) (last (windows run0)))) as (_ & w & Hw & Hg & Hc).
  - vm_compute. reflexivity.
  - exists w. split; [exact Hw|]. split; [rewrite Hc; vm_compute; reflexivity|rewrite Hg; vm_compute; reflexivity].
Defined.

End HotZoneWitness.
