(* ===== verification/Limiter.v ===== *)
(** * The expensive-request limiter (server/expensive_request_limiter.go)

    A client may occupy the expensive path (upstream queries) with at most
    [limit] requests at a time.  Clients are spread over shards by a hash of
    their address; each request carries a holder that remembers whether it owns
    a slot and a hot-zone ticket, so that the slot is taken once per request and
    given back when the request ends.

    A nil limiter is [None].  A shard's mutex makes [TryAcquire] and [Release]
    atomic; the holder locks its own mutex twice around them, and the pieces of
    code between the locks are the steps of [lim_step]. *)

From S2P Require Import Prelude GoLib Float64 NetIP Dns RateLog HotZone.

Definition ExpensiveRequestLimitModeDisabled : string := "disabled".
Definition ExpensiveRequestLimitModeEnabled : string := "enabled".
Definition expensiveRequestLogInterval : Z := 30 * Second.

(** [netip.Addr]: the zero [Addr] is invalid; otherwise whether it is an IPv4
    address, its 4 or 16 bytes, and its zone. *)
Definition Addr : Type := option (bool * list Z * string).

Definition Addr_IsValid (a : Addr) : bool := match a with Some _ => true | None => false end.

Definition v4_prefix : list Z := [0; 0; 0; 0; 0; 0; 0; 0; 0; 0; 255; 255].

Definition As16 (a : Addr) : list Z :=
  match a with
  | Some (true, b, _) => v4_prefix ++ b
  | Some (false, b, _) => b
  | None => repeat 0 16
  end.

Definition AddrFromSlice (b : list Z) : Addr :=
  if (length b =? 4)%nat then Some (true, b, "")
  else if (length b =? 16)%nat then Some (false, b, "")
  else None.

Definition Unmap (a : Addr) : Addr :=
  match a with
  | Some (false, b, _) =>
      if bool_decide (take 12 b = v4_prefix) then Some (true, drop 12 b, "") else a
  | _ => a
  end.

(** [net.Addr]: for other network types [OtherAddr a] carries the address its
    text parses to, invalid when it does not parse. *)
Inductive NetAddr :=
| NilAddr
| UDPAddr (IP : list Z)
| TCPAddr (IP : list Z)
| OtherAddr (parsed : Addr).

Definition extractClientIP (addr : NetAddr) : Addr :=
  match addr with
  | NilAddr => None
  | UDPAddr ip => Unmap (AddrFromSlice ip)
  | TCPAddr ip => Unmap (AddrFromSlice ip)
  | OtherAddr a => Unmap a
  end.

Inductive expensivePath := expensivePathForward | expensivePathIterative.

Definition path_metricLabel (p : expensivePath) : string :=
  match p with
  | expensivePathForward => "forward"
  | expensivePathIterative => "iterative"
  end.

Record ExpensiveRequestLimitConfig := mkLimitConfig {
  cfg_Mode : string;
  cfg_Limit : Z;
  cfg_HotZoneBaseSuffixes : list string;
  cfg_ObserveWouldRefuse : bool;
}.

Record clientState := mkClient {
  cs_inflight : Z;
  cs_log : LogState;   (* lastLogAt and suppressedCount *)
}.

Record expensiveRequestLimiter := mkLimiter {
  lim_mode : string;
  lim_limit : Z;
  lim_shards : list (gmap Addr clientState);
  lim_observeWouldRefuse : bool;
  lim_hotZone : hotZoneController;
}.

Record expensiveRequestLimitEvent := mkLimitEvent {
  le_shouldLog : bool;
  le_action : string;
  le_path : expensivePath;
  le_inflight : Z;
  le_limit : Z;
  le_suppressedCount : Z;
  le_clientIP : Addr;
}.

Record expensiveRequestHolder := mkHolder {
  h_clientIP : Addr;
  h_held : bool;
  h_hotZoneHeld : bool;
  h_hotZoneTicket : Z;
}.

Definition newExpensiveRequestHolder (clientIP : Addr) : expensiveRequestHolder :=
  mkHolder clientIP false false 0.

Definition normalizeExpensiveRequestLimitConfig (numCPU : Z) (cfg : ExpensiveRequestLimitConfig)
    : ExpensiveRequestLimitConfig :=
  mkLimitConfig
    (if String.eqb (cfg_Mode cfg) "" then ExpensiveRequestLimitModeDisabled else cfg_Mode cfg)
    (if cfg_Limit cfg <=? 0 then (if numCPU <? 1 then 1 else numCPU) else cfg_Limit cfg)
    (cfg_HotZoneBaseSuffixes cfg) (cfg_ObserveWouldRefuse cfg).

(** FNV-1a over the sixteen bytes of the address. *)
Definition fnv1a (b : list Z) : Z :=
  foldl (λ hash v, u32 (Z.lxor hash v * 16777619)) 2166136261 b.

Definition expensiveRequestShardIndex (clientIP : Addr) (shardCount : Z) : Z :=
  if shardCount <=? 1 then 0 else fnv1a (As16 clientIP) mod u32 shardCount.

Definition buildExpensiveRequestLimitEvent (now : Z) (st : clientState) (clientIP : Addr)
    (path : expensivePath) (action : string) (limit : Z) : expensiveRequestLimitEvent * clientState :=
  let '(shouldLog, suppressed, log') := log_decide expensiveRequestLogInterval now (cs_log st) in
  (mkLimitEvent shouldLog action path (cs_inflight st) limit suppressed clientIP,
   mkClient (cs_inflight st) log').

(** The warning [recordExpensiveRequestLimitEvent] writes, if any. *)
Definition recordExpensiveRequestLimitEvent (e : expensiveRequestLimitEvent)
    : option expensiveRequestLimitEvent :=
  if String.eqb (le_action e) "" then None else if le_shouldLog e then Some e else None.

Definition set_shards (l : expensiveRequestLimiter) (sh : list (gmap Addr clientState))
    : expensiveRequestLimiter :=
  mkLimiter (lim_mode l) (lim_limit l) sh (lim_observeWouldRefuse l) (lim_hotZone l).
Definition set_hotZone (l : expensiveRequestLimiter) (c : hotZoneController) : expensiveRequestLimiter :=
  mkLimiter (lim_mode l) (lim_limit l) (lim_shards l) (lim_observeWouldRefuse l) c.

Definition shard_index (l : expensiveRequestLimiter) (ip : Addr) : nat :=
  Z.to_nat (expensiveRequestShardIndex ip (Z.of_nat (length (lim_shards l)))).

(** [l.shardFor(ip).clients[ip]], and its update; an index out of range would
    panic ([shard_index_lt] shows it never is). *)
Definition shardFor (l : expensiveRequestLimiter) (ip : Addr) : option (gmap Addr clientState) :=
  lim_shards l !! shard_index l ip.
Definition lim_client (l : expensiveRequestLimiter) (ip : Addr) : option clientState :=
  shardFor l ip ≫= lookup ip.
Definition lim_set_client (l : expensiveRequestLimiter) (ip : Addr) (st : option clientState)
    : expensiveRequestLimiter :=
  match shardFor l ip with
  | Some m => set_shards l (<[shard_index l ip := partial_alter (λ _, st) ip m]> (lim_shards l))
  | None => l
  end.

Definition lim_enabled (l : expensiveRequestLimiter) : bool :=
  String.eqb (lim_mode l) ExpensiveRequestLimitModeEnabled.

Definition Limiter_TryAcquire (l : expensiveRequestLimiter) (now : Z) (clientIP : Addr)
    (path : expensivePath) : bool * option expensiveRequestLimitEvent * expensiveRequestLimiter :=
  if negb (lim_enabled l) || negb (Addr_IsValid clientIP) then (true, None, l)
  else
    let st := default (mkClient 0 new_LogState) (lim_client l clientIP) in
    if lim_limit l <=? cs_inflight st then
      let '(action, allowed) :=
        if lim_observeWouldRefuse l then ("would_refuse", true) else ("refused", false) in
      let '(event, st) := buildExpensiveRequestLimitEvent now st clientIP path action (lim_limit l) in
      (allowed, Some event, lim_set_client l clientIP (Some st))
    else
      (true, None, lim_set_client l clientIP (Some (mkClient (cs_inflight st + 1) (cs_log st)))).

Definition Limiter_Release (l : expensiveRequestLimiter) (clientIP : Addr) : expensiveRequestLimiter :=
  if negb (lim_enabled l) || negb (Addr_IsValid clientIP) then l
  else
    match lim_client l clientIP with
    | None => l
    | Some st =>
        let n := if 0 <? cs_inflight st then cs_inflight st - 1 else cs_inflight st in
        lim_set_client l clientIP (if n =? 0 then None else Some (mkClient n (cs_log st)))
    end.

Section limiter.
Context `{DnsLib} `{GoSort}.

Definition newExpensiveRequestLimiter (numCPU : Z) (cfg : ExpensiveRequestLimitConfig)
    : option expensiveRequestLimiter :=
  let cfg := normalizeExpensiveRequestLimitConfig numCPU cfg in
  if negb (String.eqb (cfg_Mode cfg) ExpensiveRequestLimitModeEnabled) then None
  else
    let shardCount := if numCPU <? 1 then 1 else numCPU in
    Some (mkLimiter (cfg_Mode cfg) (cfg_Limit cfg) (repeat ∅ (Z.to_nat shardCount))
            (cfg_ObserveWouldRefuse cfg) (newHotZoneController (cfg_HotZoneBaseSuffixes cfg))).

Definition TryAcquireHotZone (env : hzEnv) (l : expensiveRequestLimiter) (now : Z)
    (qname matchedForwardZone : string) : bool * Z * expensiveRequestLimiter :=
  if negb (lim_enabled l) then (true, 0, l)
  else
    let '(ok, ticket, c) := TryEnter env (lim_hotZone l) now qname matchedForwardZone in
    (ok, ticket, set_hotZone l c).

Definition ReleaseHotZone (env : hzEnv) (l : expensiveRequestLimiter) (now ticket : Z)
    : expensiveRequestLimiter :=
  if negb (lim_enabled l) then l else set_hotZone l (HotZone_Release env (lim_hotZone l) now ticket).

(** [h.TryAcquire], between its locks.  The first locked region returns early
    when the request already holds a slot. *)
Definition holder_skip (h : expensiveRequestHolder) : bool :=
  negb (Addr_IsValid (h_clientIP h)) || h_held h || h_hotZoneHeld h.

(** The second locked region: a slot taken meanwhile by the same request is
    kept, and the one just acquired is given back. *)
Definition holder_commit (env : hzEnv) (now : Z) (h : expensiveRequestHolder)
    (l : expensiveRequestLimiter) (ticket : Z) : expensiveRequestHolder * expensiveRequestLimiter :=
  if h_held h || h_hotZoneHeld h then
    (h, ReleaseHotZone env (Limiter_Release l (h_clientIP h)) now ticket)
  else (mkHolder (h_clientIP h) true true ticket, l).

(** The whole method, when no other goroutine of the request interferes. *)
Definition Holder_TryAcquire (env : hzEnv) (now : Z) (h : expensiveRequestHolder)
    (l : expensiveRequestLimiter) (path : expensivePath) (qname matchedForwardZone : string)
    : bool * expensiveRequestHolder * expensiveRequestLimiter :=
  if holder_skip h then (true, h, l)
  else
    let '(hotZoneAllowed, ticket, l) := TryAcquireHotZone env l now qname matchedForwardZone in
    if negb hotZoneAllowed then (false, h, l)
    else
      let '(allowed, _, l) := Limiter_TryAcquire l now (h_clientIP h) path in
      if negb allowed then (false, h, ReleaseHotZone env l now ticket)
      else let '(h, l) := holder_commit env now h l ticket in (true, h, l).

Definition ReleaseIfHeld (env : hzEnv) (now : Z) (h : expensiveRequestHolder)
    (l : expensiveRequestLimiter) : expensiveRequestHolder * expensiveRequestLimiter :=
  if negb (Addr_IsValid (h_clientIP h)) then (h, l)
  else if negb (h_held h) && negb (h_hotZoneHeld h) then (h, l)
  else
    let h' := mkHolder (h_clientIP h) false false 0 in
    let l := Limiter_Release l (h_clientIP h) in
    (h', if h_hotZoneHeld h then ReleaseHotZone env l now (h_hotZoneTicket h) else l).

(** [tryAcquireExpensiveRequest]: the limiter and the holder come from the
    request's context, and without either every request is admitted. *)
Definition tryAcquireExpensiveRequest (env : hzEnv) (now : Z)
    (limiter : option expensiveRequestLimiter) (holder : option expensiveRequestHolder)
    (path : expensivePath) (qname matchedForwardZone : string)
    : bool * option expensiveRequestHolder * option expensiveRequestLimiter :=
  match limiter, holder with
  | Some l, Some h =>
      let '(ok, h, l) := Holder_TryAcquire env now h l path qname matchedForwardZone in
      (ok, Some h, Some l)
  | _, _ => (true, holder, limiter)
  end.

Definition buildRefusedResponse (request : Msg) : Msg := SetRcode new_Msg request RcodeRefused.

End limiter.

(** ** Client counts *)

Definition inflight_of (l : expensiveRequestLimiter) (ip : Addr) : Z :=
  match lim_client l ip with Some st => cs_inflight st | None => 0 end.

(** A limiter in use: enabled, with shards, and no entry without a request. *)
Record lim_wf (l : expensiveRequestLimiter) : Prop := {
  wf_enabled : lim_enabled l = true;
  wf_shards : 1 ≤ Z.of_nat (length (lim_shards l)) < 2 ^ 32;
  wf_limit : 1 ≤ lim_limit l;
  wf_positive ip st : lim_client l ip = Some st → 1 ≤ cs_inflight st;
}.

Lemma shard_index_lt l ip :
  1 ≤ Z.of_nat (length (lim_shards l)) < 2 ^ 32 → (shard_index l ip < length (lim_shards l))%nat.
Proof.
  intros Hs. unfold shard_index, expensiveRequestShardIndex. case_match; bool_prop; [lia|].
  rewrite u32_small by lia.
  pose proof (Z.mod_pos_bound (fnv1a (As16 ip)) (Z.of_nat (length (lim_shards l))) ltac:(lia)). lia.
Qed.

Lemma lim_client_set l ip st ip' :
  1 ≤ Z.of_nat (length (lim_shards l)) < 2 ^ 32 →
  lim_client (lim_set_client l ip st) ip' = if decide (ip' = ip) then st else lim_client l ip'.
Proof.
  intros Hs. unfold lim_set_client, lim_client, shardFor.
  destruct (lim_shards l !! shard_index l ip) as [m|] eqn:Em.
  2: { apply lookup_ge_None in Em. pose proof (shard_index_lt l ip Hs). lia. }
  unfold set_shards, shard_index. simpl. rewrite length_insert.
  set (n := Z.of_nat (length (lim_shards l))).
  set (j := Z.to_nat (expensiveRequestShardIndex ip n)).
  set (j' := Z.to_nat (expensiveRequestShardIndex ip' n)).
  assert (lim_shards l !! j = Some m) as Hj by exact Em.
  destruct (decide (j' = j)) as [Ej|Ej].
  - rewrite Ej, list_lookup_insert_eq by by eapply lookup_lt_Some. simpl. case_decide as Hd.
    + subst ip'. by rewrite lookup_partial_alter_eq.
    + rewrite lookup_partial_alter_ne by done. by rewrite Hj.
  - rewrite list_lookup_insert_ne by done. case_decide as Hd; [|done]. subst ip'. done.
Qed.

(** What the operations keep besides the client's own entry. *)
Record lim_frame (l l' : expensiveRequestLimiter) : Prop := {
  fr_mode : lim_mode l' = lim_mode l;
  fr_limit : lim_limit l' = lim_limit l;
  fr_observe : lim_observeWouldRefuse l' = lim_observeWouldRefuse l;
  fr_shards : length (lim_shards l') = length (lim_shards l);
}.

Lemma lim_frame_refl l : lim_frame l l.
Proof. done. Qed.

Lemma lim_frame_trans l1 l2 l3 : lim_frame l1 l2 → lim_frame l2 l3 → lim_frame l1 l3.
Proof. intros [A1 A2 A3 A4] [B1 B2 B3 B4]. split; congruence. Qed.

Lemma lim_set_client_frame l ip st : lim_frame l (lim_set_client l ip st).
Proof.
  unfold lim_set_client. case_match; [|done]. split; try done. simpl. by rewrite length_insert.
Qed.

Lemma lim_set_client_hotZone l ip st : lim_hotZone (lim_set_client l ip st) = lim_hotZone l.
Proof. unfold lim_set_client. by destruct (shardFor l ip). Qed.

Lemma lim_set_client_wf l ip st :
  lim_wf l → (∀ s, st = Some s → 1 ≤ cs_inflight s) → lim_wf (lim_set_client l ip st).
Proof.
  intros [W1 W2 W3 W4] Hst. destruct (lim_set_client_frame l ip st) as [F1 F2 _ F4].
  split; [unfold lim_enabled; by rewrite F1|by rewrite F4|by rewrite F2|].
  intros ip' s. rewrite lim_client_set by done. case_decide; [by apply Hst|apply W4].
Qed.

Lemma inflight_set l ip st ip' :
  lim_wf l →
  inflight_of (lim_set_client l ip st) ip' =
    if decide (ip' = ip) then match st with Some s => cs_inflight s | None => 0 end
    else inflight_of l ip'.
Proof. intros Hwf. unfold inflight_of. rewrite lim_client_set by apply Hwf. by case_decide. Qed.

Lemma inflight_default l ip :
  cs_inflight (default (mkClient 0 new_LogState) (lim_client l ip)) = inflight_of l ip.
Proof. unfold inflight_of. by destruct (lim_client l ip). Qed.

(** [TryAcquire], in words: below the limit the client's count goes up by one and
    the request is admitted; at the limit the count stays. *)
Lemma Limiter_TryAcquire_spec l now ip path ok e l' :
  lim_wf l → Addr_IsValid ip = true → Limiter_TryAcquire l now ip path = (ok, e, l') →
  lim_wf l' ∧ lim_frame l l' ∧ lim_hotZone l' = lim_hotZone l ∧
  (∀ ip', inflight_of l' ip' =
     inflight_of l ip' + if decide (ip' = ip ∧ inflight_of l ip < lim_limit l) then 1 else 0) ∧
  ok = bool_decide (inflight_of l ip < lim_limit l) || lim_observeWouldRefuse l.
Proof.
  intros Hwf Hip. unfold Limiter_TryAcquire. rewrite (wf_enabled l Hwf), Hip. simpl.
  rewrite inflight_default. destruct (Z.leb_spec (lim_limit l) (inflight_of l ip)) as [Hfull|Hroom].
  - destruct (if lim_observeWouldRefuse l then _ else _) as [action allowed] eqn:Eo.
    destruct (buildExpensiveRequestLimitEvent _ _ _ _ _ _) as [ev st] eqn:Eb. intros [= <- <- <-].
    assert (cs_inflight st = inflight_of l ip) as Hst.
    { unfold buildExpensiveRequestLimitEvent in Eb. destruct (log_decide _ _ _) as [[??]?].
      injection Eb as _ <-. simpl. apply inflight_default. }
    split_and!.
    + apply lim_set_client_wf; [done|]. intros ? [= <-]. pose proof (wf_limit l Hwf). lia.
    + apply lim_set_client_frame.
    + apply lim_set_client_hotZone.
    + intros ip'. rewrite inflight_set by done. repeat case_decide; subst; try lia; naive_solver lia.
    + rewrite bool_decide_false by lia. destruct (lim_observeWouldRefuse l); by injection Eo.
  - intros [= <- <- <-]. split_and!.
    + apply lim_set_client_wf; [done|]. intros ? [= <-]. simpl.
      unfold inflight_of. destruct (lim_client l ip) eqn:E; [|lia]. pose proof (wf_positive l Hwf _ _ E). lia.
    + apply lim_set_client_frame.
    + apply lim_set_client_hotZone.
    + intros ip'. rewrite inflight_set by done. simpl.
      repeat case_decide; subst; try lia; naive_solver lia.
    + by rewrite bool_decide_true by lia.
Qed.

Lemma Limiter_Release_spec l ip :
  lim_wf l → Addr_IsValid ip = true →
  let l' := Limiter_Release l ip in
  lim_wf l' ∧ lim_frame l l' ∧ lim_hotZone l' = lim_hotZone l ∧
  (∀ ip', inflight_of l' ip' =
     inflight_of l ip' - if decide (ip' = ip ∧ 0 < inflight_of l ip) then 1 else 0).
Proof.
  intros Hwf Hip. unfold Limiter_Release. rewrite (wf_enabled l Hwf), Hip. simpl.
  destruct (lim_client l ip) as [st|] eqn:E.
  2: { split_and!; try done. intros ip'. case_decide as Hd; [|lia]. unfold inflight_of in Hd.
       rewrite E in Hd. lia. }
  pose proof (wf_positive l Hwf _ _ E) as Hpos. rewrite (proj2 (Z.ltb_lt 0 (cs_inflight st))) by lia.
  assert (inflight_of l ip = cs_inflight st) as Hi by (unfold inflight_of; by rewrite E).
  split_and!.
  - apply lim_set_client_wf; [done|]. intros s. case_match; bool_prop; intros [= <-]. simpl. lia.
  - apply lim_set_client_frame.
  - apply lim_set_client_hotZone.
  - intros ip'. rewrite inflight_set by done. repeat case_decide; subst; try naive_solver lia.
    all: destruct (Z.eqb_spec (cs_inflight st - 1) 0); simpl; lia.
Qed.

(** ** Concurrent requests

    A request has a holder and any number of goroutines inside
    [h.TryAcquire], each past the hot-zone test ([PhHot]) or past the client's
    limit ([PhGot]) but not yet in the second locked region. *)

Inductive phase :=
| PhHot (ticket : Z)
| PhGot (ticket : Z).

Record reqState := mkReq { rq_holder : expensiveRequestHolder; rq_phases : list phase }.
Record LimSys := mkSys { sys_lim : expensiveRequestLimiter; sys_reqs : list reqState }.

Section system.
Context `{DnsLib} `{GoSort}.

Inductive lim_step : LimSys → LimSys → Prop :=
| ls_arrive l reqs ip :
    lim_step (mkSys l reqs) (mkSys l (mkReq (newExpensiveRequestHolder ip) [] :: reqs))
| ls_hot l a h ps b env now q z ok tk l' :
    holder_skip h = false → TryAcquireHotZone env l now q z = (ok, tk, l') →
    lim_step (mkSys l (a ++ mkReq h ps :: b))
      (mkSys l' (a ++ mkReq h (if ok then PhHot tk :: ps else ps) :: b))
| ls_acquire l a h p1 tk p2 b env now path ok e l' :
    Limiter_TryAcquire l now (h_clientIP h) path = (ok, e, l') →
    lim_step (mkSys l (a ++ mkReq h (p1 ++ PhHot tk :: p2) :: b))
      (if ok then mkSys l' (a ++ mkReq h (p1 ++ PhGot tk :: p2) :: b)
       else mkSys (ReleaseHotZone env l' now tk) (a ++ mkReq h (p1 ++ p2) :: b))
| ls_commit l a h p1 tk p2 b env now h' l' :
    holder_commit env now h l tk = (h', l') →
    lim_step (mkSys l (a ++ mkReq h (p1 ++ PhGot tk :: p2) :: b))
      (mkSys l' (a ++ mkReq h' (p1 ++ p2) :: b))
| ls_release l a h ps b env now h' l' :
    ReleaseIfHeld env now h l = (h', l') →
    lim_step (mkSys l (a ++ mkReq h ps :: b)) (mkSys l' (a ++ mkReq h' ps :: b)).

(** The slots of client [ip] a request owns: the one its holder keeps, and those
    its goroutines are about to hand to it. *)
Definition got (p : phase) : Z := match p with PhGot _ => 1 | PhHot _ => 0 end.
Definition slots (ip : Addr) (r : reqState) : Z :=
  if decide (h_clientIP (rq_holder r) = ip)
  then Z.b2z (h_held (rq_holder r)) + foldr (λ p n, got p + n) 0 (rq_phases r)
  else 0.
Definition total (ip : Addr) (reqs : list reqState) : Z := foldr (λ r n, slots ip r + n) 0 reqs.

Lemma total_split ip a r b : total ip (a ++ r :: b) = slots ip r + total ip (a ++ b).
Proof. unfold total. induction a as [|x a IH]; simpl; [done|]. rewrite IH. lia. Qed.

Lemma got_split p1 p p2 :
  foldr (λ p n, got p + n) 0 (p1 ++ p :: p2) = got p + foldr (λ p n, got p + n) 0 (p1 ++ p2).
Proof. induction p1 as [|x p1 IH]; simpl; [done|]. rewrite IH. lia. Qed.

Lemma got_nonneg ps : 0 ≤ foldr (λ p n, got p + n) 0 ps.
Proof. induction ps as [|[?|?] ps IH]; simpl; lia. Qed.

Lemma slots_nonneg ip r : 0 ≤ slots ip r.
Proof. unfold slots. case_decide; [|lia]. pose proof (got_nonneg (rq_phases r)). destruct (h_held _); simpl; lia. Qed.

Lemma total_nonneg ip reqs : 0 ≤ total ip reqs.
Proof. induction reqs as [|r l IH]; simpl; [lia|]. pose proof (slots_nonneg ip r). lia. Qed.

(** Holders keep the slot and the ticket together, and only requests with a
    client address take either. *)
Definition req_wf (r : reqState) : Prop :=
  h_hotZoneHeld (rq_holder r) = h_held (rq_holder r) ∧
  (Addr_IsValid (h_clientIP (rq_holder r)) = false →
    h_held (rq_holder r) = false ∧ rq_phases r = []).

Definition sys_inv (limit : Z) (s : LimSys) : Prop :=
  lim_wf (sys_lim s) ∧ lim_limit (sys_lim s) = limit ∧
  lim_observeWouldRefuse (sys_lim s) = false ∧ Forall req_wf (sys_reqs s) ∧
  ∀ ip, Addr_IsValid ip = true →
    inflight_of (sys_lim s) ip = total ip (sys_reqs s) ∧ inflight_of (sys_lim s) ip ≤ limit.

(** The hot zone does not touch the clients. *)
Lemma set_hotZone_frame l c :
  lim_frame l (set_hotZone l c) ∧ (lim_wf l → lim_wf (set_hotZone l c)) ∧
  ∀ ip, inflight_of (set_hotZone l c) ip = inflight_of l ip.
Proof. split_and!; [done| |done]. by intros [W1 W2 W3 W4]. Qed.

Lemma ReleaseHotZone_frame env l now tk :
  lim_frame l (ReleaseHotZone env l now tk) ∧ (lim_wf l → lim_wf (ReleaseHotZone env l now tk)) ∧
  ∀ ip, inflight_of (ReleaseHotZone env l now tk) ip = inflight_of l ip.
Proof. unfold ReleaseHotZone. case_match; [done|]. apply set_hotZone_frame. Qed.

Lemma TryAcquireHotZone_frame env l now q z ok tk l' :
  TryAcquireHotZone env l now q z = (ok, tk, l') →
  lim_frame l l' ∧ (lim_wf l → lim_wf l') ∧ ∀ ip, inflight_of l' ip = inflight_of l ip.
Proof.
  unfold TryAcquireHotZone. case_match; [by intros [= <- <- <-]|].
  destruct (TryEnter _ _ _ _ _) as [[ok' tk'] c]. intros [= <- <- <-]. apply set_hotZone_frame.
Qed.

(** A step that replaces one request's state keeps the invariant when the
    limiter's counts move with the request's slots. *)
Lemma sys_inv_replace limit l l' a r r' b :
  sys_inv limit (mkSys l (a ++ r :: b)) →
  lim_wf l' → lim_frame l l' → req_wf r' →
  (∀ ip, Addr_IsValid ip = true →
    inflight_of l' ip - inflight_of l ip = slots ip r' - slots ip r ∧ inflight_of l' ip ≤ limit) →
  sys_inv limit (mkSys l' (a ++ r' :: b)).
Proof.
  intros (_ & Hl & Ho & HF & Hc) Hwf [F1 F2 F3 F4] Hr Hd. unfold sys_inv. simpl in *.
  split_and!; [done|congruence|congruence| |].
  - rewrite Forall_app, Forall_cons in *. naive_solver.
  - intros ip Hip. destruct (Hc ip Hip) as [H1 H2], (Hd ip Hip) as [H3 H4]. split; [|done].
    rewrite total_split in *. lia.
Qed.

Lemma sys_inv_slots limit l a r b ip :
  sys_inv limit (mkSys l (a ++ r :: b)) → Addr_IsValid ip = true →
  slots ip r ≤ inflight_of l ip ∧ inflight_of l ip ≤ limit.
Proof.
  intros (_ & _ & _ & _ & Hc) Hip. destruct (Hc ip Hip) as [H1 H2]. simpl in *.
  rewrite total_split in H1. pose proof (total_nonneg ip (a ++ b)). lia.
Qed.

Lemma sys_inv_req limit l a r b :
  sys_inv limit (mkSys l (a ++ r :: b)) →
  lim_wf l ∧ lim_limit l = limit ∧ lim_observeWouldRefuse l = false ∧ req_wf r.
Proof.
  intros (Hwf & Hl & Ho & HF & _). simpl in *. rewrite Forall_app, Forall_cons in HF. naive_solver.
Qed.

Lemma slots_self h ps :
  slots (h_clientIP h) (mkReq h ps) = Z.b2z (h_held h) + foldr (λ p n, got p + n) 0 ps.
Proof. unfold slots. simpl. by rewrite decide_True. Qed.

Lemma slots_other ip h ps : h_clientIP h ≠ ip → slots ip (mkReq h ps) = 0.
Proof. intros. unfold slots. simpl. by rewrite decide_False. Qed.

(** Giving back one slot the request owns. *)
Lemma Release_owned limit l a h ps b env now tk h' ps' :
  sys_inv limit (mkSys l (a ++ mkReq h ps :: b)) →
  Addr_IsValid (h_clientIP h) = true → h_clientIP h' = h_clientIP h →
  slots (h_clientIP h) (mkReq h' ps') = slots (h_clientIP h) (mkReq h ps) - 1 →
  req_wf (mkReq h' ps') →
  sys_inv limit (mkSys (ReleaseHotZone env (Limiter_Release l (h_clientIP h)) now tk)
    (a ++ mkReq h' ps' :: b)).
Proof.
  intros Hinv Hip Hh' Hslots Hreq.
  destruct (sys_inv_req _ _ _ _ _ Hinv) as (Hwf & _).
  destruct (Limiter_Release_spec l (h_clientIP h) Hwf Hip) as (R1 & R2 & _ & R4).
  destruct (ReleaseHotZone_frame env (Limiter_Release l (h_clientIP h)) now tk) as (F1 & F2 & F3).
  apply (sys_inv_replace limit l _ a (mkReq h ps)); auto.
  { by eapply lim_frame_trans. }
  intros ip Hv. rewrite F3, R4. destruct (sys_inv_slots _ _ _ _ _ ip Hinv Hv) as [S1 S2].
  destruct (sys_inv_slots _ _ _ _ _ _ Hinv Hip) as [S3 S4].
  pose proof (slots_nonneg (h_clientIP h) (mkReq h' ps')).
  destruct (decide (ip = h_clientIP h)) as [->|Hne].
  - rewrite decide_True by (split; [done|lia]). lia.
  - rewrite decide_False by naive_solver. rewrite !slots_other by congruence. lia.
Qed.

Lemma sys_inv_acquire limit l a h p1 tk p2 b env now path ok e l' :
  sys_inv limit (mkSys l (a ++ mkReq h (p1 ++ PhHot tk :: p2) :: b)) →
  Limiter_TryAcquire l now (h_clientIP h) path = (ok, e, l') →
  sys_inv limit
    (if ok then mkSys l' (a ++ mkReq h (p1 ++ PhGot tk :: p2) :: b)
     else mkSys (ReleaseHotZone env l' now tk) (a ++ mkReq h (p1 ++ p2) :: b)).
Proof.
  intros Hinv Ht.
  destruct (sys_inv_req _ _ _ _ _ Hinv) as (Hwf & Hl & Ho & Hr1 & Hr2). simpl in *.
  assert (Addr_IsValid (h_clientIP h) = true) as Hv.
  { destruct (Addr_IsValid (h_clientIP h)) eqn:E; [done|]. destruct (Hr2 eq_refl) as [_ Hp].
    by destruct p1. }
  destruct (Limiter_TryAcquire_spec l now _ path ok e l' Hwf Hv Ht) as (W & F & _ & Hi & Hok).
  rewrite Ho, orb_false_r in Hok.
  assert (∀ ps, req_wf (mkReq h ps)) as Hreq by (intros ps; split; simpl; congruence).
  destruct ok.
  + symmetry in Hok. apply bool_decide_eq_true in Hok.
    apply (sys_inv_replace limit l l' a (mkReq h (p1 ++ PhHot tk :: p2))); auto.
    intros ip Hv'. destruct (sys_inv_slots _ _ _ _ _ ip Hinv Hv') as [S1 S2]. rewrite Hi.
    destruct (decide (ip = h_clientIP h)) as [->|Hne].
    * rewrite decide_True by done. rewrite !slots_self, !got_split. simpl. lia.
    * rewrite decide_False by naive_solver. rewrite !slots_other by done. lia.
  + symmetry in Hok. apply bool_decide_eq_false in Hok.
    destruct (ReleaseHotZone_frame env l' now tk) as (F1 & F2 & F3).
    apply (sys_inv_replace limit l _ a (mkReq h (p1 ++ PhHot tk :: p2))); auto.
    { by eapply lim_frame_trans. }
    intros ip Hv'. destruct (sys_inv_slots _ _ _ _ _ ip Hinv Hv') as [S1 S2]. rewrite F3, Hi.
    rewrite decide_False by naive_solver lia. split; [|lia].
    unfold slots. simpl. rewrite got_split. cbn [got].
    destruct (decide (h_clientIP h = ip)); lia.
Qed.

Lemma sys_inv_commit limit l a h p1 tk p2 b env now h' l' :
  sys_inv limit (mkSys l (a ++ mkReq h (p1 ++ PhGot tk :: p2) :: b)) →
  holder_commit env now h l tk = (h', l') →
  sys_inv limit (mkSys l' (a ++ mkReq h' (p1 ++ p2) :: b)).
Proof.
  intros Hinv Hcm.
  destruct (sys_inv_req _ _ _ _ _ Hinv) as (Hwf & Hl & Ho & Hr1 & Hr2). simpl in *.
  assert (Addr_IsValid (h_clientIP h) = true) as Hv.
  { destruct (Addr_IsValid (h_clientIP h)) eqn:E; [done|]. destruct (Hr2 eq_refl) as [_ Hp].
    by destruct p1. }
  unfold holder_commit in Hcm. rewrite Hr1, orb_diag in Hcm.
  destruct (h_held h) eqn:Eh; injection Hcm as <- <-.
  + eapply Release_owned; [exact Hinv|done|done| |].
    * rewrite !slots_self, got_split. simpl. lia.
    * split; simpl; congruence.
  + apply (sys_inv_replace limit l l a (mkReq h (p1 ++ PhGot tk :: p2))); auto using lim_frame_refl.
    * split; simpl; congruence.
    * intros ip Hv'. destruct (sys_inv_slots _ _ _ _ _ ip Hinv Hv') as [S1 S2]. split; [|done].
      unfold slots. simpl. rewrite got_split, Eh. cbn [got].
      destruct (decide (h_clientIP h = ip)); simpl; lia.
Qed.

Lemma sys_inv_step limit s s' : sys_inv limit s → lim_step s s' → sys_inv limit s'.
Proof.
  intros Hinv Hs. destruct Hs as
    [l reqs ip|l a h ps b env now q z ok tk l' Hsk Ht|l a h p1 tk p2 b env now path ok e l' Ht
    |l a h p1 tk p2 b env now h' l' Hcm|l a h ps b env now h' l' Hrel].
  - destruct Hinv as (Hwf & Hl & Ho & HF & Hc). split_and!; simpl in *; try done.
    + by constructor.
    + intros ip' Hv. destruct (Hc ip' Hv). split; [|done].
      unfold slots. simpl. case_decide; simpl; lia.
  - destruct (sys_inv_req _ _ _ _ _ Hinv) as (Hwf & _ & _ & Hr1 & Hr2).
    destruct (TryAcquireHotZone_frame _ _ _ _ _ _ _ _ Ht) as (F1 & F2 & F3).
    apply (sys_inv_replace limit l l' a (mkReq h ps)); auto.
    + split; [done|]. simpl. intros Hv. unfold holder_skip in Hsk. by rewrite Hv in Hsk.
    + intros ip Hv. rewrite F3. destruct (sys_inv_slots _ _ _ _ _ ip Hinv Hv) as [S1 S2].
      split; [|done]. unfold slots. simpl. case_decide; destruct ok; simpl; lia.
  - by eapply sys_inv_acquire.
  - by eapply sys_inv_commit.
  - destruct (sys_inv_req _ _ _ _ _ Hinv) as (Hwf & Hl & Ho & Hr1 & Hr2). simpl in *.
    unfold ReleaseIfHeld in Hrel. destruct (Addr_IsValid (h_clientIP h)) eqn:Hv; simpl in Hrel.
    2: { by injection Hrel as <- <-. }
    rewrite Hr1 in Hrel. destruct (h_held h) eqn:Eh; simpl in Hrel; injection Hrel as <- <-; [|done].
    eapply Release_owned; [exact Hinv|done|done| |].
    + unfold slots. simpl. rewrite Eh, !decide_True by done. simpl. lia.
    + split; simpl; congruence.
Qed.

Lemma new_limiter_inv numCPU cfg l :
  numCPU < 2 ^ 32 → newExpensiveRequestLimiter numCPU cfg = Some l →
  cfg_ObserveWouldRefuse cfg = false → sys_inv (lim_limit l) (mkSys l []).
Proof.
  intros Hn Hnew Hobs. unfold newExpensiveRequestLimiter in Hnew.
  destruct (String.eqb _ _) eqn:Em in Hnew; [|done]. simpl in Hnew. injection Hnew as <-.
  assert (∀ ip, lim_client (mkLimiter (cfg_Mode (normalizeExpensiveRequestLimitConfig numCPU cfg))
    (cfg_Limit (normalizeExpensiveRequestLimitConfig numCPU cfg))
    (repeat ∅ (Z.to_nat (if numCPU <? 1 then 1 else numCPU))) (cfg_ObserveWouldRefuse cfg)
    (newHotZoneController (cfg_HotZoneBaseSuffixes cfg))) ip = None) as Hnone.
  { intros ip. unfold lim_client, shardFor. simpl. destruct (repeat _ _ !! _) as [m|] eqn:E; [|done].
    apply list_elem_of_lookup_2, list_elem_of_In, repeat_spec in E as ->. simpl. apply lookup_empty. }
  assert (1 ≤ cfg_Limit (normalizeExpensiveRequestLimitConfig numCPU cfg)) as Hlim.
  { simpl. destruct (Z.leb_spec (cfg_Limit cfg) 0); [|lia]. destruct (Z.ltb_spec numCPU 1); lia. }
  split_and!; try done.
  - split; simpl in *; try done.
    + rewrite repeat_length. destruct (Z.ltb_spec numCPU 1); lia.
    + intros ip st. rewrite Hnone. done.
  - intros ip _. unfold inflight_of. simpl sys_lim. rewrite Hnone. split; [done|]. simpl in *. lia.
Qed.

(** C8: with the limiter enabled (and not in observe mode), under every
    interleaving of arrivals, acquisitions, commits and releases of any number of
    requests and goroutines, a client's counter equals the number of slots its
    requests own, at most [limit] of them; so a client never has more than
    [limit] requests on the expensive path, and a client without slots has no
    entry (the shard maps do not grow). *)
Theorem client_slots_bounded (numCPU : Z) cfg l s :
  numCPU < 2 ^ 32 → newExpensiveRequestLimiter numCPU cfg = Some l →
  cfg_ObserveWouldRefuse cfg = false →
  rtc lim_step (mkSys l []) s →
  ∀ ip, Addr_IsValid ip = true →
    inflight_of (sys_lim s) ip = total ip (sys_reqs s) ∧
    total ip (sys_reqs s) ≤ lim_limit l ∧
    (lim_client (sys_lim s) ip = None ↔ total ip (sys_reqs s) = 0).
Proof.
  intros Hn Hnew Hobs Hr ip Hip.
  assert (sys_inv (lim_limit l) s) as (Hwf & _ & _ & _ & Hc).
  { pose proof (new_limiter_inv _ _ _ Hn Hnew Hobs) as H0'. revert H0'.
    generalize (mkSys l []) as s0, Hr. clear Hr. intros s0 Hr. 
    induction Hr as [|s0 s1 s2 Hs _ IH]; [done|]. intros Hi. apply IH. by eapply sys_inv_step. }
  destruct (Hc ip Hip) as [E Hle]. split_and!; [done|lia|]. rewrite <-E. unfold inflight_of.
  destruct (lim_client (sys_lim s) ip) as [st|] eqn:Est; [|done].
  pose proof (wf_positive _ Hwf _ _ Est). split; [done|lia].
Qed.

(** C38: taking and giving back a slot is neutral for every client, unless the
    limiter is in observe mode: there a request over the limit is admitted without
    being counted, but its release still decrements, so it gives away the slot of
    another request. *)
Theorem acquire_release_balance l now1 now2 env1 env2 h path qname zone h' l' :
  lim_wf l → holder_skip h = false →
  Holder_TryAcquire env1 now1 h l path qname zone = (true, h', l') →
  h_held h' = true ∧
  ∀ ip, inflight_of (ReleaseIfHeld env2 now2 h' l').2 ip =
    inflight_of l ip -
      (if decide (ip = h_clientIP h ∧ lim_observeWouldRefuse l = true ∧
                  lim_limit l ≤ inflight_of l (h_clientIP h)) then 1 else 0).
Proof.
  intros Hwf Hsk. unfold Holder_TryAcquire. rewrite Hsk.
  unfold holder_skip in Hsk. rewrite !orb_false_iff, negb_false_iff in Hsk.
  destruct Hsk as [[Hv Hh1] Hh2].
  destruct (TryAcquireHotZone env1 l now1 qname zone) as [[ok tk] l1] eqn:Et.
  destruct (TryAcquireHotZone_frame _ _ _ _ _ _ _ _ Et) as ([F1 F2 F3 F4] & W1 & I1).
  destruct ok; [|done]. simpl.
  destruct (Limiter_TryAcquire l1 now1 (h_clientIP h) path) as [[ok e] l2] eqn:Ea.
  destruct (Limiter_TryAcquire_spec _ _ _ _ _ _ _ (W1 Hwf) Hv Ea) as (W2 & _ & _ & I2 & Hok).
  destruct ok; [|done]. unfold holder_commit. rewrite Hh1, Hh2. simpl. intros [= <- <-].
  split; [done|]. intros ip. unfold ReleaseIfHeld. simpl. rewrite Hv. simpl.
  destruct (ReleaseHotZone_frame env2 (Limiter_Release l2 (h_clientIP h)) now2 tk) as (_ & _ & ->).
  destruct (Limiter_Release_spec l2 (h_clientIP h) W2 Hv) as (_ & _ & _ & ->).
  rewrite !I2, !I1, F2. rewrite F2, F3, I1 in Hok. pose proof (wf_limit l Hwf).
  assert (0 ≤ inflight_of l (h_clientIP h)) as Hnn.
  { unfold inflight_of. destruct (lim_client l (h_clientIP h)) eqn:E; [|done].
    pose proof (wf_positive l Hwf _ _ E). lia. }
  destruct (decide (ip = h_clientIP h)) as [->|Hne].
  - destruct (bool_decide_reflect (inflight_of l (h_clientIP h) < lim_limit l)) as [Hlt|Hge].
    + rewrite (decide_True (P := _ ∧ _ < _)) by done.
      rewrite decide_True by (split; [done|lia]). rewrite decide_False by lia. lia.
    + rewrite (decide_False (P := _ ∧ _ < _)) by naive_solver.
      simpl in Hok. rewrite !decide_True by (split_and!; done || lia). lia.
  - rewrite !decide_False by naive_solver. lia.
Qed.

End system.

Module LimiterWitness.
Import RefDns RefSort.

Definition env : hzEnv := mkHzEnv (f64_of_Z 10) 4 (λ _, 5000 * Second).
Definition cfg (observe : bool) : ExpensiveRequestLimitConfig := mkLimitConfig "enabled" 1 [] observe.
Definition lim0 (observe : bool) : expensiveRequestLimiter :=
  default (mkLimiter "" 0 [] false (newHotZoneController []))
    (newExpensiveRequestLimiter 4 (cfg observe)).
Definition client : Addr := extractClientIP (UDPAddr [192; 0; 2; 7]).
Definition now : Z := 5000 * Second.
Definition holder : expensiveRequestHolder := newExpensiveRequestHolder client.

(** One goroutine of one request through [TryAcquire], step by step. *)
Definition lim1 : expensiveRequestLimiter := (TryAcquireHotZone env (lim0 false) now "a.b." "").2.
Definition lim2 : expensiveRequestLimiter :=
  (Limiter_TryAcquire lim1 now client expensivePathIterative).2.
Definition state : LimSys := mkSys lim2 ([] ++ mkReq (mkHolder client true true 1) ([] ++ []) :: []).

Lemma state_reachable : rtc lim_step (mkSys (lim0 false) []) state.
Proof.
  eapply rtc_l; [apply (ls_arrive (lim0 false) [] client)|].
  eapply rtc_l.
  { apply (ls_hot (lim0 false) [] holder [] [] env now "a.b." "" true 1 lim1);
      vm_compute; reflexivity. }
  eapply rtc_l.
  { apply (ls_acquire lim1 [] holder [] 1 [] [] env now expensivePathIterative true None lim2).
    vm_compute. reflexivity. }
  eapply rtc_l; [|apply rtc_refl].
  apply (ls_commit lim2 [] holder [] 1 [] [] env now). reflexivity.
Qed.

Lemma client_slots_bounded_witness :
  inflight_of lim2 client = 1 ∧ total client (sys_reqs state) ≤ 1.
Proof.
  destruct (client_slots_bounded 4 (cfg false) (lim0 false) state) with (ip := client) as (H1 & H2 & _).
  - lia.
  - vm_compute. reflexivity.
  - reflexivity.
  - apply state_reachable.
  - reflexivity.
  - split; [etrans; [exact H1|vm_compute; reflexivity]|exact H2].
Defined.

(** In observe mode a second request of a client that is at its limit of one
    leaves the count at zero while the first one still runs. *)
Definition full : expensiveRequestLimiter :=
  (Holder_TryAcquire env now holder (lim0 true) expensivePathIterative "a.b." "").2.

Lemma full_wf : lim_wf full.
Proof.
  split; [vm_compute; reflexivity|vm_compute; split; [discriminate|reflexivity]|vm_compute; discriminate|].
  intros ip st Hst. unfold lim_client, shardFor in Hst.
  assert (Forall (map_Forall (λ _ st, 1 ≤ cs_inflight st)) (lim_shards full)) as HF.
  { apply (bool_decide_unpack _). vm_compute. reflexivity. }
  destruct (lim_shards full !! _) as [m|] eqn:E; [|done].
  by apply (proj1 (Forall_lookup _ _) HF _ _ E ip st).
Qed.

Lemma acquire_release_balance_witness :
  inflight_of full client = 1 ∧
  let r := Holder_TryAcquire env now holder full expensivePathIterative "c.d." "" in
  r.1.1 = true ∧ inflight_of (ReleaseIfHeld env now r.1.2 r.2).2 client = 0.
Proof.
  split; [vm_compute; reflexivity|]. intros r. split; [vm_compute; reflexivity|].
  destruct (acquire_release_balance full now now env env holder expensivePathIterative "c.d." ""
    r.1.2 r.2 full_wf) as [_ H].
  - reflexivity.
  - vm_compute. reflexivity.
  - rewrite H. vm_compute. reflexivity.
Defined.

End LimiterWitness.
