(* ===== verification/World.v ===== *)
(** * The world a resolution runs in

    A resolution is a computation in the panic-state monad over [World]: its own
    request and response messages, the state it shares with every other
    goroutine of the process ([Shared]), and a log of what it did.

    What the resolution cannot decide is the class [Env]: clock readings, random
    message ids, the outcome of exchanges with upstream servers, the order in
    which concurrent goroutines report, and what other goroutines do to the
    shared state.  Every consultation of the environment has its own number, so
    the environment may answer differently each time; [interfere] is applied to
    the shared state at each of them. *)

From S2P Require Import Prelude GoLib Float64 NetIP Dns Zone External Cache RateLog Gate.
From S2P Require Import HostsForward IPQuality IPPool HotZone Limiter.

(** ** Errors *)

(** Why an exchange with an upstream server failed. *)
Inductive XErr := XDeadline | XCanceled | XNetTimeout | XTransport.

Inductive RErr :=
| ErrNilMessage
| ErrWrongState (st : Z)
| ErrContext (e : XErr)
| ErrGateSaturated
| ErrExchange (e : XErr)
| ErrAllUpstreamsFailed (first : option XErr)
| ErrNoIP
| ErrBadRcodeNoAlternate (rcode : Z)
| ErrBadRcodeAlternateFailed (rcode : Z)
| ErrBothBadRcode (rcode : Z)
| ErrRcode (rcode : Z)
| ErrNoQuestion
| ErrQuestionMismatch
| ErrCNAMECycle (target : string)
| ErrMaxIterations
| ErrHandle (st : Z) (e : RErr).

Inductive XResult := XOk (response : Msg) (rtt : Z) | XFail (e : XErr).

(** ** The process *)

Section world.
Context `{DL : DnsLib} `{GC : GoCache Msg} `{EM : EbpfMap BPFKey BPFValue} `{GS : GoSort}.

(** The package variables: [globalDnsCache] and the XDP map, [globalIPPool],
    [globalUpstreamGate], the server's limiter, [globalHostsForward], and the
    override of the root hints. *)
Record Shared := mkShared {
  sh_cache : Cache;
  sh_pool : IPPool;
  sh_gate : upstreamConcurrencyGate;
  sh_lim : option expensiveRequestLimiter;
  sh_hosts : hostsForwardSnapshot;
  sh_rootGlue : option Msg;
}.

(** What a resolution does that others can observe. *)
Inductive action :=
| ASend (target : string) (query : Msg)
| ACacheGet (key : string)
| ACacheSet (key : string) (value : Msg) (ttl : Z)
| AStage (state : string)
| ATransition (from to : string)
| AFailure (reason : string)
| AUpstream (counter label : string).

Record resolutionTraceRecorder := mkRecorder {
  tr_queryName : string;
  tr_queryType : string;
  tr_states : list string;
  tr_terminal : string;
  tr_truncated : bool;
}.

Record World := mkWorld {
  w_shared : Shared;
  w_tick : nat;
  w_req : option Msg;          (* nil is None *)
  w_resp : option Msg;
  w_holder : option expensiveRequestHolder;
  w_trace : option resolutionTraceRecorder;
  w_log : list action;         (* oldest first *)
  w_slots : Z;                 (* gate slots this resolution owns *)
  w_background : Z;            (* goroutines it left running, one slot each *)
}.

Class Env := {
  env_now : nat → Z;
  env_mono : nat → option Z;
  env_id : nat → Z;
  env_ctxErr : nat → option XErr;
  env_exchange : nat → Msg → string → XResult;
  env_primaryFirst : nat → bool;      (* the primary's result arrives first *)
  env_loserDone : nat → bool;         (* the loser has finished before the winner is used *)
  (** The NS goroutines that get to run, in order, as positions in the list of
      names, and whether a goroutine delivers its result before it is cancelled. *)
  env_schedule : nat → list nat;
  env_delivered : nat → nat → bool;
  env_hz : nat → hzEnv;
  interfere : nat → Shared → Shared;
}.

Context `{E : Env}.

Abbreviation MW := (M World).

(** Consult the environment: others may have run, and this is the next number. *)
Definition tick : MW nat := stepM (λ w,
  (w_tick w,
   mkWorld (interfere (w_tick w) (w_shared w)) (S (w_tick w)) (w_req w) (w_resp w) (w_holder w)
     (w_trace w) (w_log w) (w_slots w) (w_background w))).

Definition set_shared (s : Shared) (w : World) : World :=
  mkWorld s (w_tick w) (w_req w) (w_resp w) (w_holder w) (w_trace w) (w_log w) (w_slots w)
    (w_background w).
Definition set_req (m : option Msg) (w : World) : World :=
  mkWorld (w_shared w) (w_tick w) m (w_resp w) (w_holder w) (w_trace w) (w_log w) (w_slots w)
    (w_background w).
Definition set_resp (m : option Msg) (w : World) : World :=
  mkWorld (w_shared w) (w_tick w) (w_req w) m (w_holder w) (w_trace w) (w_log w) (w_slots w)
    (w_background w).
Definition set_holder (h : option expensiveRequestHolder) (w : World) : World :=
  mkWorld (w_shared w) (w_tick w) (w_req w) (w_resp w) h (w_trace w) (w_log w) (w_slots w)
    (w_background w).
Definition set_trace (t : option resolutionTraceRecorder) (w : World) : World :=
  mkWorld (w_shared w) (w_tick w) (w_req w) (w_resp w) (w_holder w) t (w_log w) (w_slots w)
    (w_background w).
Definition set_log (l : list action) (w : World) : World :=
  mkWorld (w_shared w) (w_tick w) (w_req w) (w_resp w) (w_holder w) (w_trace w) l (w_slots w)
    (w_background w).
Definition set_slots (n b : Z) (w : World) : World :=
  mkWorld (w_shared w) (w_tick w) (w_req w) (w_resp w) (w_holder w) (w_trace w) (w_log w) n b.

Definition set_cache (c : Cache) (s : Shared) : Shared :=
  mkShared c (sh_pool s) (sh_gate s) (sh_lim s) (sh_hosts s) (sh_rootGlue s).
Definition set_pool (p : IPPool) (s : Shared) : Shared :=
  mkShared (sh_cache s) p (sh_gate s) (sh_lim s) (sh_hosts s) (sh_rootGlue s).
Definition set_gate (g : upstreamConcurrencyGate) (s : Shared) : Shared :=
  mkShared (sh_cache s) (sh_pool s) g (sh_lim s) (sh_hosts s) (sh_rootGlue s).
Definition set_lim (l : option expensiveRequestLimiter) (s : Shared) : Shared :=
  mkShared (sh_cache s) (sh_pool s) (sh_gate s) l (sh_hosts s) (sh_rootGlue s).
Definition set_hosts (h : hostsForwardSnapshot) (s : Shared) : Shared :=
  mkShared (sh_cache s) (sh_pool s) (sh_gate s) (sh_lim s) h (sh_rootGlue s).

Definition log (a : action) : MW unit := modify (λ w, set_log (w_log w ++ [a]) w).

(** Dereferencing the request or the response: a nil pointer panics. *)
Definition get_req : MW Msg := λ w, match w_req w with Some m => (Ok m, w) | None => (Panic, w) end.
Definition get_resp : MW Msg := λ w, match w_resp w with Some m => (Ok m, w) | None => (Panic, w) end.
Definition put_req (m : Msg) : MW unit := modify (set_req (Some m)).
Definition put_resp (m : Msg) : MW unit := modify (set_resp (Some m)).
Definition get_shared : MW Shared := gets w_shared.
Definition modify_shared (f : Shared → Shared) : MW unit := modify (λ w, set_shared (f (w_shared w)) w).

(** The nil test every handler starts with. *)
Definition nil_messages : MW bool :=
  gets (λ w, match w_req w, w_resp w with Some _, Some _ => false | _, _ => true end).

(** ** The cache *)

Definition cache_getCopy (key : string) : MW (option Msg) :=
  do! log (ACacheGet key) in
  let! t := tick in
  gets (λ w, getCacheCopy (sh_cache (w_shared w)) (env_now t) key).

Definition cache_getCopyByType (name : string) (qtype : Z) : MW (option Msg) :=
  cache_getCopy (getCacheKey name qtype).

Definition cache_setCopy (key : string) (value : Msg) (expire : Z) : MW unit :=
  do! log (ACacheSet key value expire) in
  let! t := tick in
  modify_shared (λ s, set_cache (setCacheCopy (sh_cache s) (env_now t) (env_mono t) key value expire) s).

Definition cache_setCopyByType (name : string) (qtype : Z) (value : Msg) (expire : Z) : MW unit :=
  cache_setCopy (getCacheKey name qtype) value expire.

(** ** The pool *)

(** [iqv2 := globalIPPool.GetIPQualityV2(ip); if iqv2 != nil { iqv2.<method>() }] *)
Definition pool_update (ip : string) (f : IPQualityV2 → Z → IPQualityV2) : MW unit :=
  let! t := tick in
  modify_shared (λ s,
    match GetIPQualityV2 (sh_pool s) ip with
    | Some iq => set_pool (SetIPQualityV2 (sh_pool s) ip (f iq (env_now t))) s
    | None => s
    end).

Definition pool_recordFailure (ip : string) : MW unit := pool_update ip RecordFailure.
Definition pool_recordLatency (ip : string) (rtt : Z) : MW unit :=
  pool_update ip (λ iq now, RecordLatency iq (i32 (Z.quot rtt Millisecond)) now).

Definition pool_getBest (ips : list string) : MW (string * string) :=
  let! t := tick in
  stepM (λ w,
    let '(best, second, p) := GetBestIPsV2 (sh_pool (w_shared w)) (env_now t) ips in
    ((best, second), set_shared (set_pool p (w_shared w)) w)).

(** ** The gate *)

Definition gate_tryAcquire (path : upstreamGatePath) (qname : string) : MW bool :=
  let! t := tick in
  stepM (λ w,
    let '(ok, _, g) := tryAcquire (sh_gate (w_shared w)) (env_now t) path qname in
    (ok, set_shared (set_gate g (w_shared w))
           (set_slots (w_slots w + if ok then 1 else 0) (w_background w) w))).

Definition gate_release : MW unit :=
  do! tick in
  modify (λ w, set_shared (set_gate (release (sh_gate (w_shared w))) (w_shared w))
                 (set_slots (w_slots w - 1) (w_background w) w)).

Definition gate_shouldDegradeFanout : MW bool :=
  do! tick in gets (λ w, shouldDegradeFanout (sh_gate (w_shared w))).

Definition gate_recordDegraded (path : upstreamGatePath) (act qname : string) : MW unit :=
  let! t := tick in
  modify_shared (λ s, set_gate (recordDegraded (sh_gate s) (env_now t) path act qname).2 s).

(** A goroutine left behind keeps its slot until it finishes. *)
Definition leave_running : MW unit := modify (λ w, set_slots (w_slots w) (w_background w + 1) w).

(** ** The limiter *)

Definition limiter_tryAcquire (path : expensivePath) (qname zone : string) : MW bool :=
  let! t := tick in
  stepM (λ w,
    let '(ok, h, l) := tryAcquireExpensiveRequest (env_hz t) (env_now t) (sh_lim (w_shared w))
                         (w_holder w) path qname zone in
    (ok, set_shared (set_lim l (w_shared w)) (set_holder h w))).

(** ** Traces and metrics *)

Definition maxTraceStates : nat := 128.

Definition recordState (state : string) (r : resolutionTraceRecorder) : resolutionTraceRecorder :=
  if String.eqb state "" then r
  else if (maxTraceStates <=? length (tr_states r))%nat then
    mkRecorder (tr_queryName r) (tr_queryType r) (tr_states r) (tr_terminal r) true
  else mkRecorder (tr_queryName r) (tr_queryType r) (tr_states r ++ [state]) (tr_terminal r) (tr_truncated r).

Definition recordTerminal (exit : string) (r : resolutionTraceRecorder) : resolutionTraceRecorder :=
  if String.eqb exit "" then r else mkRecorder (tr_queryName r) (tr_queryType r) (tr_states r) exit (tr_truncated r).

Definition recordTraceState (state : string) : MW unit :=
  modify (λ w, set_trace (recordState state <$> w_trace w) w).
Definition recordTraceTerminal (exit : string) : MW unit :=
  modify (λ w, set_trace (recordTerminal exit <$> w_trace w) w).

End world.
