(* ===== verification/States.v ===== *)
(** * The states of the resolver, except the upstream query

    One handler per state (server/state_*.go), each the whole [handle] method.  A
    handler returns the code of its state's constants (server/state.go) and an
    optional error. *)

From S2P Require Import Prelude GoLib Float64 NetIP Dns Zone External Cache RateLog Gate.
From S2P Require Import HostsForward IPQuality IPPool HotZone Limiter World.

(** ** server/state.go *)

Definition STATE_INIT : Z := 0.
Definition HOSTS_LOOKUP : Z := 1.
Definition FORWARD_LOOKUP : Z := 2.
Definition CACHE_LOOKUP : Z := 3.
Definition CLASSIFY_RESP : Z := 4.
Definition EXTRACT_GLUE : Z := 5.
Definition LOOKUP_NS_CACHE : Z := 6.
Definition QUERY_UPSTREAM : Z := 7.
Definition RETURN_RESP : Z := 8.

Definition STATE_INIT_COMMON_ERROR : Z := -1.
Definition STATE_INIT_NO_ERROR : Z := 0.
Definition STATE_INIT_FORMERR : Z := 1.

Definition HOSTS_LOOKUP_COMMON_ERROR : Z := -1.
Definition HOSTS_LOOKUP_HIT : Z := 0.
Definition HOSTS_LOOKUP_MISS : Z := 1.

Definition FORWARD_LOOKUP_COMMON_ERROR : Z := -1.
Definition FORWARD_LOOKUP_HIT : Z := 0.
Definition FORWARD_LOOKUP_MISS : Z := 1.
Definition FORWARD_LOOKUP_SERVFAIL : Z := 2.
Definition FORWARD_LOOKUP_REFUSED : Z := 3.

Definition CACHE_LOOKUP_COMMON_ERROR : Z := -1.
Definition CACHE_LOOKUP_HIT : Z := 0.
Definition CACHE_LOOKUP_MISS : Z := 1.

Definition CLASSIFY_RESP_COMMON_ERROR : Z := -1.
Definition CLASSIFY_RESP_GET_ANS : Z := 0.
Definition CLASSIFY_RESP_GET_CNAME : Z := 1.
Definition CLASSIFY_RESP_GET_NS : Z := 2.
Definition CLASSIFY_RESP_GET_NEGATIVE : Z := 3.

Definition EXTRACT_GLUE_COMMON_ERROR : Z := -1.
Definition EXTRACT_GLUE_EXIST : Z := 0.
Definition EXTRACT_GLUE_NOT_EXIST : Z := 1.

Definition LOOKUP_NS_CACHE_COMMON_ERROR : Z := -1.
Definition LOOKUP_NS_CACHE_HIT : Z := 0.
Definition LOOKUP_NS_CACHE_MISS : Z := 1.

Definition QUERY_UPSTREAM_COMMON_ERROR : Z := -1.
Definition QUERY_UPSTREAM_NO_ERROR : Z := 0.

Definition RETURN_RESP_COMMON_ERROR : Z := -1.
Definition RETURN_RESP_NO_ERROR : Z := 0.

Section states.
Context `{DL : DnsLib} `{GC : GoCache Msg} `{EM : EbpfMap BPFKey BPFValue} `{GS : GoSort} `{E : !Env}.

Abbreviation MW := (M World).

(** What [handle] returns: a code and an error. *)
Abbreviation HandleResult := (Z * option RErr)%type.

(** ** STATE_INIT *)

Definition stateInit_handle : MW HandleResult :=
  let! isnil := nil_messages in
  if isnil then ret (STATE_INIT_COMMON_ERROR, Some ErrNilMessage)
  else
    let! request := get_req in
    let! response := get_resp in
    if negb (length (Questions request) =? 1)%nat || Response (Hdr request) ||
       negb (Opcode (Hdr request) =? OpcodeQuery) then
      do! put_resp (SetRcode response request RcodeFormatError) in
      ret (STATE_INIT_FORMERR, None)
    else
      do! put_resp (SetReply response request) in
      ret (STATE_INIT_NO_ERROR, None).

(** ** HOSTS_LOOKUP *)

Definition hostsLookup_handle : MW HandleResult :=
  let! isnil := nil_messages in
  if isnil then ret (HOSTS_LOOKUP_COMMON_ERROR, Some ErrNilMessage)
  else
    do! tick in
    let! shared := get_shared in
    let snap := sh_hosts shared in
    if bool_decide (hostsMap snap = ∅) then ret (HOSTS_LOOKUP_MISS, None)
    else
      let! request := get_req in
      let! response := get_resp in
      let! q := index0 (Questions request) in
      match hostsMap snap !! getCacheKey (Q_Name q) (Q_Qtype q) with
      | Some cached =>
          let response := set_Answer response (Answer response ++ (RR_Copy <$> Answer cached)) in
          do! put_resp (set_Rcode (set_Authoritative response true) RcodeSuccess) in
          ret (HOSTS_LOOKUP_HIT, None)
      | None =>
          if bool_decide (Q_Name q ∈ hostsNames snap) then
            do! put_resp (set_Rcode (set_Authoritative response true) RcodeSuccess) in
            ret (HOSTS_LOOKUP_HIT, None)
          else ret (HOSTS_LOOKUP_MISS, None)
      end.

(** ** FORWARD_LOOKUP *)

(** [exchangeWithUpstreamGate] (state_query_upstream.go): the exchange runs with a
    gate slot, released when it returns. *)
Definition exchangeWithUpstreamGate (query : Msg) (target : string) (path : upstreamGatePath)
    : MW (Msg * Z + RErr) :=
  let qname := match Questions query with q :: _ => Q_Name q | [] => "" end in
  let! ok := gate_tryAcquire path qname in
  if negb ok then ret (inr ErrGateSaturated)
  else
    do! log (ASend target query) in
    let! t := tick in
    do! gate_release in
    ret match env_exchange t query target with
        | XOk response rtt => inl (response, rtt)
        | XFail e => inr (ErrExchange e)
        end.

Definition is_gate_error (e : RErr) : bool := match e with ErrGateSaturated => true | _ => false end.

(** The loop over the zone's upstreams; the first answer wins. *)
Fixpoint forward_upstreams (fwdQuery : Msg) (upstreams : list string) : MW Z :=
  match upstreams with
  | [] => ret FORWARD_LOOKUP_SERVFAIL
  | upstream :: rest =>
      let! r := exchangeWithUpstreamGate fwdQuery upstream upstreamGatePathForward in
      match r with
      | inr e => if is_gate_error e then ret FORWARD_LOOKUP_SERVFAIL else forward_upstreams fwdQuery rest
      | inl (resp, _) =>
          let! request := get_req in
          let! response := get_resp in
          let response := set_Hdr response (Hdr resp) in
          let response := set_Response (set_Id response (Id (Hdr request))) true in
          do! put_resp (set_Extra (set_Ns (set_Answer response (Answer resp)) (Ns resp)) (Extra resp)) in
          ret FORWARD_LOOKUP_HIT
      end
  end.

Definition forwardLookup_handle : MW HandleResult :=
  let! isnil := nil_messages in
  if isnil then ret (FORWARD_LOOKUP_COMMON_ERROR, Some ErrNilMessage)
  else
    do! tick in
    let! shared := get_shared in
    let zones := forwardZones (sh_hosts shared) in
    match zones with
    | [] => ret (FORWARD_LOOKUP_MISS, None)
    | _ =>
        let! request := get_req in
        let! q := index0 (Questions request) in
        match matchForwardZone zones (Q_Name q) with
        | None => ret (FORWARD_LOOKUP_MISS, None)
        | Some matched =>
            let! t1 := tick in
            let! t2 := tick in
            let fwdQuery := SetQuestion new_Msg (Q_Name q) (Q_Qtype q) (env_id t1) in
            let fwdQuery := set_Id (set_RecursionDesired fwdQuery true) (env_id t2) in
            let! ok := limiter_tryAcquire expensivePathForward (Q_Name q) (fz_Zone matched) in
            if negb ok then ret (FORWARD_LOOKUP_REFUSED, None)
            else
              let! code := forward_upstreams fwdQuery (fz_Upstreams matched) in
              ret (code, None)
        end
    end.

(** ** CACHE_LOOKUP *)

Definition cacheLookup_handle : MW HandleResult :=
  let! isnil := nil_messages in
  if isnil then ret (CACHE_LOOKUP_COMMON_ERROR, Some ErrNilMessage)
  else
    let! request := get_req in
    let! q := index0 (Questions request) in
    let! found := cache_getCopyByType (Q_Name q) (Q_Qtype q) in
    match found with
    | Some msgInCache =>
        let! response := get_resp in
        if negb (length (Answer msgInCache) =? 0)%nat then
          do! put_resp (set_Answer response (Answer response ++ Answer msgInCache)) in
          ret (CACHE_LOOKUP_HIT, None)
        else if hasSOAInAuthority msgInCache then
          let response := set_Rcode response (Rcode (Hdr msgInCache)) in
          do! put_resp (set_Ns response (Ns response ++ Ns msgInCache)) in
          ret (CACHE_LOOKUP_HIT, None)
        else ret (CACHE_LOOKUP_MISS, None)
    | None => ret (CACHE_LOOKUP_MISS, None)
    end.

(** ** CLASSIFY_RESP *)

(** What the response is, without the caching of negative answers. *)
Definition classify (qtype : Z) (response : Msg) : Z :=
  if (length (Answer response) =? 0)%nat && hasSOAInAuthority response &&
     ((Rcode (Hdr response) =? RcodeNameError) || (Rcode (Hdr response) =? RcodeSuccess))
  then CLASSIFY_RESP_GET_NEGATIVE
  else if (length (Answer response) =? 0)%nat then CLASSIFY_RESP_GET_NS
  else if existsb (λ rr, Hdr_Rrtype (Header rr) =? qtype) (Answer response) then CLASSIFY_RESP_GET_ANS
  else if negb (qtype =? TypeCNAME) && existsb is_CNAME (Answer response) then CLASSIFY_RESP_GET_CNAME
  else CLASSIFY_RESP_GET_NS.

Definition cache_negative (qname : string) (qtype : Z) (response : Msg) : MW unit :=
  match extractSOAFromAuthority response with
  | Some (_, ttl) => cache_setCopyByType qname qtype response ttl
  | None => ret tt
  end.

Definition classifyResp_handle : MW HandleResult :=
  let! isnil := nil_messages in
  if isnil then ret (CLASSIFY_RESP_COMMON_ERROR, Some ErrNilMessage)
  else
    let! request := get_req in
    let! response := get_resp in
    let! q := index0 (Questions request) in
    let code := classify (Q_Qtype q) response in
    if code =? CLASSIFY_RESP_GET_NEGATIVE then
      do! cache_negative (Q_Name q) (Q_Qtype q) response in
      ret (CLASSIFY_RESP_GET_NEGATIVE, None)
    else ret (code, None).

(** ** EXTRACT_GLUE *)

Definition extractGlue_handle : MW HandleResult :=
  let! isnil := nil_messages in
  if isnil then ret (EXTRACT_GLUE_COMMON_ERROR, Some ErrNilMessage)
  else
    let! request := get_req in
    let! response := get_resp in
    match Ns response with
    | [] => ret (EXTRACT_GLUE_NOT_EXIST, None)
    | ns0 :: _ =>
        let stale : MW HandleResult :=
          do! put_resp (set_Extra (set_Ns response []) []) in
          ret (EXTRACT_GLUE_NOT_EXIST, None) in
        if is_NS ns0 then
          let! q := index0 (Questions request) in
          if IsSubDomain (Hdr_Name (Header ns0)) (Q_Name q) then ret (EXTRACT_GLUE_EXIST, None)
          else stale
        else stale
    end.

(** ** LOOKUP_NS_CACHE *)

(** The deepest cached delegation among the zones, if any. *)
Fixpoint lookup_zones (zones : list string) : MW (option Msg) :=
  match zones with
  | [] => ret None
  | zone :: rest =>
      let! found := cache_getCopy zone in
      match found with
      | Some m =>
          match Ns m with
          | ns0 :: _ => if is_NS ns0 then ret (Some m) else lookup_zones rest
          | [] => lookup_zones rest
          end
      | None => lookup_zones rest
      end
  end.

Definition lookupNSCache_handle : MW HandleResult :=
  let! isnil := nil_messages in
  if isnil then ret (LOOKUP_NS_CACHE_COMMON_ERROR, Some ErrNilMessage)
  else
    let! request := get_req in
    let! q := index0 (Questions request) in
    match GetZoneList (Q_Name q) with
    | None => panic
    | Some zoneList =>
        let! found := lookup_zones zoneList in
        match found with
        | Some m =>
            let! response := get_resp in
            do! put_resp (set_Extra (set_Ns response (Ns response ++ Ns m)) (Extra response ++ Extra m)) in
            ret (LOOKUP_NS_CACHE_HIT, None)
        | None =>
            let! t := tick in
            let! shared := get_shared in
            let rootGlue := GetRootGlue (sh_rootGlue shared) (env_id t) in
            let! response := get_resp in
            do! put_resp (set_Extra (set_Ns response (Ns response ++ Ns rootGlue))
                            (Extra response ++ Extra rootGlue)) in
            ret (LOOKUP_NS_CACHE_MISS, None)
        end
    end.

(** ** RETURN_RESP *)

Definition returnResp_handle : MW HandleResult :=
  let! isnil := nil_messages in
  if isnil then ret (RETURN_RESP_COMMON_ERROR, Some ErrNilMessage)
  else ret (RETURN_RESP_NO_ERROR, None).

End states.
