(* ===== verification/Upstream.v ===== *)
(** * Querying upstream servers (server/state_query_upstream.go)

    The QUERY_UPSTREAM state: collect the addresses of the delegation (from the
    glue, from the cache, or by resolving the name servers' names), race the two
    best ones, switch servers on a bad response code, validate and cache the
    answer.

    The two goroutines of a race are modelled by their results and the order in
    which these arrive; the goroutine that loses may still be running when the
    winner is returned, and then keeps its gate slot until it finishes.  The
    goroutines that resolve NS names run one after the other in an order the
    environment chooses; other orders of their effects on shared state are
    covered by interference. *)

From S2P Require Import Prelude GoLib Float64 NetIP Dns Zone External Cache RateLog Gate.
From S2P Require Import HostsForward IPQuality IPPool HotZone Limiter World States.

Definition DEFAULT_UPSTREAM_TIMEOUT : Z := 1500 * Millisecond.

(** [SetUpstreamTimeout], on the package variable. *)
Definition SetUpstreamTimeout (current d : Z) : Z := if d <? 100 * Millisecond then current else d.

(** [getIterPort], of the test override. *)
Definition getIterPort (iterPortOverride : string) : string :=
  if negb (String.eqb iterPortOverride "") then iterPortOverride else "53".

Definition maxConcurrentNSQueries : Z := 5.

Definition classifyUpstreamError (err : option XErr) : string :=
  match err with
  | None => "none"
  | Some XDeadline => "timeout"
  | Some XCanceled => "context_canceled"
  | Some XNetTimeout => "timeout"
  | Some XTransport => "transport_error"
  end.

Record happyEyeballsResult := mkHE {
  he_addr : string;
  he_response : Msg;
  he_rtt : Z;
}.

Record nsResult := mkNsResult {
  nr_nsName : string;
  nr_ips : list string;
}.

(** [getNSNamesFromResponse] *)
Definition getNSNamesFromResponse (response : Msg) : list string :=
  omap (λ rr, match rr with RR_NS _ n => Some n | _ => None end) (Ns response).

(** The addresses of the A records of a list. *)
Definition a_addresses (l : list RR) : list string :=
  omap (λ rr, match rr with RR_A _ ip => Some (IP_String ip) | _ => None end) l.

Section upstream.
Context `{DL : DnsLib} `{GC : GoCache Msg} `{EM : EbpfMap BPFKey BPFValue} `{GS : GoSort} `{E : !Env}.

Abbreviation MW := (M World).
Abbreviation HandleResult := (Z * option RErr)%type.

(** [err] of an exchange, for the metric. *)
Definition xerr_of (e : RErr) : option XErr := match e with ErrExchange x => Some x | _ => None end.

(** [queryHappyEyeballs] without a second address. *)
Definition querySingle (query : Msg) (bestAddr port : string) : MW (happyEyeballsResult + RErr) :=
  let! r := exchangeWithUpstreamGate query (bestAddr +:+ ":" +:+ port) upstreamGatePathIterative in
  match r with
  | inr e =>
      if is_gate_error e then ret (inr e)
      else
        do! log (AUpstream "failure" (classifyUpstreamError (xerr_of e))) in
        do! pool_recordFailure bestAddr in
        ret (inr e)
  | inl (resp, rtt) =>
      do! log (AUpstream "winner" "single") in
      ret (inl (mkHE bestAddr resp rtt))
  end.

(** A result of the race that reports success. *)
Definition race_won (bestAddr : string) (addr : string) (resp : Msg) (rtt : Z)
    : MW (happyEyeballsResult + RErr) :=
  do! log (AUpstream "winner" (if String.eqb addr bestAddr then "primary" else "secondary")) in
  ret (inl (mkHE addr resp rtt)).

Definition race_failed (addr : string) (e : XErr) : MW unit :=
  do! log (AUpstream "failure" (classifyUpstreamError (Some e))) in
  pool_recordFailure addr.

Definition queryHappyEyeballs (query : Msg) (bestAddr secondAddr port : string)
    : MW (happyEyeballsResult + RErr) :=
  let qname := match Questions query with q :: _ => Q_Name q | [] => "" end in
  if String.eqb secondAddr "" then querySingle query bestAddr port
  else
    let! degrade := gate_shouldDegradeFanout in
    if degrade then
      do! gate_recordDegraded upstreamGatePathHappyEyeballs "degraded_single" qname in
      querySingle query bestAddr port
    else
      let! ok := gate_tryAcquire upstreamGatePathIterative qname in
      if negb ok then ret (inr ErrGateSaturated)
      else
        let! ok := gate_tryAcquire upstreamGatePathHappyEyeballs qname in
        if negb ok then
          do! gate_release in
          do! gate_recordDegraded upstreamGatePathHappyEyeballs "degraded_single" qname in
          querySingle query bestAddr port
        else
          do! log (ASend (bestAddr +:+ ":" +:+ port) (Msg_Copy query)) in
          do! log (ASend (secondAddr +:+ ":" +:+ port) (Msg_Copy query)) in
          let! t1 := tick in
          let! t2 := tick in
          let r1 := (bestAddr, env_exchange t1 (Msg_Copy query) (bestAddr +:+ ":" +:+ port)) in
          let r2 := (secondAddr, env_exchange t2 (Msg_Copy query) (secondAddr +:+ ":" +:+ port)) in
          let '((addr1, x1), (addr2, x2)) := if env_primaryFirst t1 then (r1, r2) else (r2, r1) in
          (* the first result *)
          do! gate_release in
          match x1 with
          | XOk resp rtt =>
              (* the loser is cancelled; it may still be running *)
              do! (if env_loserDone t1 then gate_release else leave_running) in
              race_won bestAddr addr1 resp rtt
          | XFail e1 =>
              do! race_failed addr1 e1 in
              (* the second result *)
              do! gate_release in
              match x2 with
              | XOk resp rtt => race_won bestAddr addr2 resp rtt
              | XFail e2 =>
                  do! race_failed addr2 e2 in
                  ret (inr (ErrAllUpstreamsFailed (Some e1)))
              end
          end.

(** [getIPListFromResponse]: the type assertion panics on a record whose header
    says A but which is not one. *)
Fixpoint a_extras (extra : list RR) : MW (list string) :=
  match extra with
  | [] => ret []
  | rr :: rest =>
      if Hdr_Rrtype (Header rr) =? TypeA then
        match rr with
        | RR_A _ ip => let! l := a_extras rest in ret (IP_String ip :: l)
        | _ => panic
        end
      else a_extras rest
  end.

Definition getIPListFromResponse (response : Msg) : MW (list string) := a_extras (Extra response).

(** [resolveNSIPs]: addresses of the name servers that are in the cache. *)
Fixpoint resolveNSIPs (nsNames : list string) : MW (list string) :=
  match nsNames with
  | [] => ret []
  | name :: rest =>
      let! found := cache_getCopyByType name TypeA in
      let! l := resolveNSIPs rest in
      ret (match found with Some m => a_addresses (Answer m) | None => [] end ++ l)
  end.

(** [updateNSIPsCache] *)
Fixpoint updateNSIPsCache (results : list nsResult) : MW unit :=
  match results with
  | [] => ret tt
  | result :: rest =>
      let! t := tick in
      let cacheMsg := set_Response (SetQuestion new_Msg (nr_nsName result) TypeA (env_id t)) true in
      let cacheMsg := set_Answer cacheMsg (Answer cacheMsg ++
        ((λ ip, RR_A (mkHdr (nr_nsName result) TypeA ClassINET 300) (default [] (ParseIP ip)))
           <$> nr_ips result)) in
      do! cache_setCopyByType (nr_nsName result) TypeA cacheMsg 300 in
      updateNSIPsCache rest
  end.

(** One goroutine: resolve the name with its own request and response. *)
Definition resolve_one (change : MW (option Msg * option RErr)) (name : string) : MW (list string) :=
  let! t := tick in
  let req := set_RecursionDesired (SetQuestion new_Msg name TypeA (env_id t)) false in
  let! outer_req := gets w_req in
  let! outer_resp := gets w_resp in
  do! modify (set_req (Some req)) in
  do! modify (set_resp (Some new_Msg)) in
  let! result := change in
  do! modify (set_req outer_req) in
  do! modify (set_resp outer_resp) in
  match result with
  | (Some m, None) => ret (a_addresses (Answer m))
  | (None, None) => panic
  | (_, Some _) => ret []
  end.

Fixpoint run_schedule (change : MW (option Msg * option RErr)) (t : nat) (nsNames : list string)
    (order : list nat) : MW (list nsResult) :=
  match order with
  | [] => ret []
  | i :: rest =>
      match nsNames !! i with
      | None => run_schedule change t nsNames rest
      | Some name =>
          let! ips := resolve_one change name in
          let! results := run_schedule change t nsNames rest in
          ret (if (0 <? length ips)%nat && env_delivered t i
               then mkNsResult name ips :: results else results)
      end
  end.

(** [depth] is the value of [contextKeyNSResolutionDepth] in the context, and
    [change] runs the state machine with that value one higher. *)
Definition resolveNSIPsConcurrently (depth : Z) (change : MW (option Msg * option RErr))
    (nsNames : list string) : MW (list string) :=
  match nsNames with
  | [] => ret []
  | ns0 :: others =>
      if 0 <? depth then ret []
      else
        do! (if (0 <? length others)%nat then
               let! degrade := gate_shouldDegradeFanout in
               if degrade then gate_recordDegraded upstreamGatePathNSResolution "degraded_serial" ns0
               else ret tt
             else ret tt) in
        let! t := tick in
        let! allResults := run_schedule change t nsNames (remove_dups (env_schedule t)) in
        match allResults with
        | [] => ret []
        | first :: additional =>
            do! updateNSIPsCache additional in
            ret (nr_ips first)
        end
  end.

(** [getBestAddressAndPrefetchIPs] *)
Definition getBestAddressAndPrefetchIPs (ipList : list string) : MW (string * string * option RErr) :=
  match ipList with
  | [] => ret ("", "", Some ErrNoIP)
  | _ => let! r := pool_getBest ipList in ret (r.1, r.2, None)
  end.

(** The response codes that make the resolver try another server. *)
Definition bad_rcode (rc : Z) : bool :=
  (rc =? RcodeServerFailure) || (rc =? RcodeRefused) || (rc =? RcodeFormatError) ||
  (rc =? RcodeNotImplemented).

Definition copy_rcode_ns (newResponse : Msg) : MW unit :=
  let! response := get_resp in
  put_resp (set_Ns (set_Rcode response (Rcode (Hdr newResponse))) (Ns newResponse)).

(** The end of the handler: validate, cache, and merge into the response. *)
Definition accept_response (request newResponse : Msg) : MW HandleResult :=
  match Questions newResponse with
  | [] => ret (QUERY_UPSTREAM_COMMON_ERROR, Some ErrNoQuestion)
  | q :: _ =>
      let! rq := index0 (Questions request) in
      if negb (String.eqb (Q_Name q) (Q_Name rq)) then
        ret (QUERY_UPSTREAM_COMMON_ERROR, Some ErrQuestionMismatch)
      else
        do! match Answer newResponse with
            | [] => ret tt
            | a0 :: _ => cache_setCopyByType (Q_Name q) (Q_Qtype q) newResponse (Hdr_Ttl (Header a0))
            end in
        do! match Ns newResponse with
            | [] => ret tt
            | ns0 :: _ =>
                if is_NS ns0 then
                  cache_setCopy (Hdr_Name (Header ns0)) newResponse (Hdr_Ttl (Header ns0))
                else ret tt
            end in
        let! response := get_resp in
        do! put_resp (set_Extra (set_Ns (set_Answer response (Answer response ++ Answer newResponse))
                        (Ns newResponse)) (Extra newResponse)) in
        ret (QUERY_UPSTREAM_NO_ERROR, None)
  end.

(** The retry on a bad response code of [theBestIP]. *)
Definition retry_alternate (request newQuery : Msg) (theBestIP bestAddr secondAddr port : string)
    (badRcode : Z) : MW HandleResult :=
  do! log (AUpstream "failure" "bad_rcode") in
  do! pool_recordFailure theBestIP in
  let altAddr := if String.eqb theBestIP secondAddr then bestAddr else secondAddr in
  if String.eqb altAddr "" || String.eqb altAddr theBestIP then
    do! log (AUpstream "fallback" "unavailable") in
    ret (QUERY_UPSTREAM_COMMON_ERROR, Some (ErrBadRcodeNoAlternate badRcode))
  else
    let! r := exchangeWithUpstreamGate newQuery (altAddr +:+ ":" +:+ port) upstreamGatePathIterativeRetry in
    match r with
    | inr e =>
        do! (if is_gate_error e then ret tt
             else
               do! log (AUpstream "fallback" "failure") in
               do! log (AUpstream "failure" (classifyUpstreamError (xerr_of e))) in
               pool_recordFailure altAddr) in
        ret (QUERY_UPSTREAM_COMMON_ERROR, Some (ErrBadRcodeAlternateFailed badRcode))
    | inl (newResponse, altRtt) =>
        do! log (AUpstream "fallback" "success") in
        do! pool_recordLatency altAddr altRtt in
        do! copy_rcode_ns newResponse in
        let rc := Rcode (Hdr newResponse) in
        if negb (rc =? RcodeSuccess) then
          if rc =? RcodeNameError then ret (QUERY_UPSTREAM_NO_ERROR, None)
          else
            do! log (AUpstream "failure" "bad_rcode") in
            ret (QUERY_UPSTREAM_COMMON_ERROR, Some (ErrBothBadRcode rc))
        else accept_response request newResponse
    end.

(** The addresses of the delegation in the response. *)
Definition delegation_ips (depth : Z) (change : MW (option Msg * option RErr)) (response : Msg)
    : MW (list string) :=
  let! ipList := getIPListFromResponse response in
  if (length ipList =? 0)%nat && (0 <? length (Ns response))%nat then
    let nsNames := getNSNamesFromResponse response in
    let! ipList := resolveNSIPs nsNames in
    if (length ipList =? 0)%nat then resolveNSIPsConcurrently depth change nsNames
    else ret ipList
  else ret ipList.

Definition queryUpstream_handle (port : string) (depth : Z) (change : MW (option Msg * option RErr))
    : MW HandleResult :=
  let! isnil := nil_messages in
  if isnil then ret (QUERY_UPSTREAM_COMMON_ERROR, Some ErrNilMessage)
  else
    let! t := tick in
    let! request := get_req in
    let! q := index0 (Questions request) in
    match env_ctxErr t with
    | Some e => ret (QUERY_UPSTREAM_COMMON_ERROR, Some (ErrContext e))
    | None =>
        let! t1 := tick in
        let! t2 := tick in
        let newQuery := SetQuestion new_Msg (Q_Name q) (Q_Qtype q) (env_id t1) in
        let newQuery := set_Id (set_RecursionDesired newQuery false) (env_id t2) in
        let newQuery := SetEdns0 newQuery 4096 false in
        let! response := get_resp in
        let! ipList := delegation_ips depth change response in
        let! best := getBestAddressAndPrefetchIPs ipList in
        let '(bestAddr, secondAddr, err) := best in
        if String.eqb bestAddr "" || bool_decide (is_Some err) then
          ret (QUERY_UPSTREAM_COMMON_ERROR, err)
        else
          let! winner := queryHappyEyeballs newQuery bestAddr secondAddr port in
          match winner with
          | inr e => ret (QUERY_UPSTREAM_COMMON_ERROR, Some e)
          | inl w =>
              do! pool_recordLatency (he_addr w) (he_rtt w) in
              let newResponse := he_response w in
              let rc := Rcode (Hdr newResponse) in
              if negb (rc =? RcodeSuccess) then
                do! copy_rcode_ns newResponse in
                if rc =? RcodeNameError then ret (QUERY_UPSTREAM_NO_ERROR, None)
                else if bad_rcode rc then
                  retry_alternate request newQuery (he_addr w) bestAddr secondAddr port rc
                else ret (QUERY_UPSTREAM_COMMON_ERROR, Some (ErrRcode rc))
              else accept_response request newResponse
          end
    end.

End upstream.
