(* ===== verification/Logic.v ===== *)
(** * A program logic for resolutions

    [qd V d m]: from any world with a sound shared state, [m] does not panic,
    leaves the request and response alone, keeps the shared state sound, returns a
    value in [V], and changes the balance of gate slots by [d].

    [Hoare P m Q]: the same for computations that work on the two messages, with
    a precondition and a postcondition on them and a balance of zero.

    The shared state is sound when the messages that can be read from it are
    well typed; the environment must only produce such messages ([EnvOk]). *)

From S2P Require Import Prelude GoLib Float64 NetIP Dns Zone External Cache RateLog Gate.
From S2P Require Import HostsForward IPQuality IPPool HotZone Limiter World States Upstream.

(** The records of the additional section are what their headers say: the only
    type assertion of the resolver that can panic is on these. *)
Definition extra_ok (m : Msg) : Prop := Forall rr_typed (Extra m).

Section logic.
Context `{DLL : DnsLibLaws} `{GCL : GoCacheLaws Msg} `{EML : EbpfMapLaws BPFKey BPFValue}.
Context `{GS : GoSort} `{E : !Env}.

Abbreviation MW := (M World).

Definition cache_ok (c : Cache) : Prop :=
  ∀ now key m, getCache c now key = Some m → extra_ok m.

Definition shared_ok (s : Shared) : Prop :=
  cache_ok (sh_cache s) ∧ (∀ m, sh_rootGlue s = Some m → extra_ok m).

Class EnvOk : Prop := {
  exchange_ok t q target m rtt : env_exchange t q target = XOk m rtt → extra_ok m;
  interfere_ok t s : shared_ok s → shared_ok (interfere t s);
}.
Context `{EOK : !EnvOk}.

(** Slots acquired minus slots of goroutines left running. *)
Definition bal (w : World) : Z := w_slots w - w_background w.

Definition quiet (d : Z) (w w' : World) : Prop :=
  shared_ok (w_shared w') ∧ w_req w' = w_req w ∧ w_resp w' = w_resp w ∧ bal w' = bal w + d.

Definition qd {A} (V : A → Prop) (d : A → Z) (m : MW A) : Prop :=
  ∀ w, shared_ok (w_shared w) → wp m (λ a w', quiet (d a) w w' ∧ V a) w.

Abbreviation any := (λ _, True).
Abbreviation zero := (λ _, 0).

Lemma qd_ret {A} (V : A → Prop) d a : V a → d a = 0 → qd V d (ret a).
Proof. intros HV Hd w Hw. apply wp_ret. split; [|done]. rewrite Hd. split_and!; try done. lia. Qed.

Lemma qd_bind {A B} V d (m : MW A) (k : A → MW B) V' d' :
  qd V d m → (∀ a, V a → qd V' (λ b, d' b - d a) (k a)) → qd V' d' (bind m k).
Proof.
  intros Hm Hk w Hw. apply wp_bind. eapply wp_mono; [|by apply Hm].
  intros a w1 [(W1 & W2 & W3 & W4) Ha]. eapply wp_mono; [|by apply Hk].
  intros b w2 [(J1 & J2 & J3 & J4) Hb]. split; [|done].
  split_and!; [done|congruence|congruence|lia].
Qed.

Lemma qd_mono {A} (V V' : A → Prop) d d' (m : MW A) :
  qd V d m → (∀ a, V a → V' a ∧ d' a = d a) → qd V' d' m.
Proof.
  intros Hm Hv w Hw. eapply wp_mono; [|by apply Hm]. intros a w' [Hq Ha].
  destruct (Hv a Ha) as [? ->]. done.
Qed.

Lemma quiet_intro w w' d :
  shared_ok (w_shared w') → w_req w' = w_req w → w_resp w' = w_resp w → bal w' = bal w + d →
  quiet d w w'.
Proof. by unfold quiet. Qed.

Lemma qd_tick : qd any zero tick.
Proof.
  intros w Hw. apply wp_stepM. simpl. split; [|done].
  apply quiet_intro; try done; [by apply interfere_ok|unfold bal; simpl; lia].
Qed.

Lemma qd_log a : qd any zero (log a).
Proof. intros w Hw. apply wp_modify. split; [|done]. apply quiet_intro; try done. unfold bal. simpl. lia. Qed.

Lemma qd_gets {A} (V : A → Prop) (f : World → A) :
  (∀ w, shared_ok (w_shared w) → V (f w)) → qd V zero (gets f).
Proof. intros HV w Hw. apply wp_gets. split; [|by apply HV]. apply quiet_intro; try done. lia. Qed.

Lemma qd_modify_shared f :
  (∀ s, shared_ok s → shared_ok (f s)) → qd any zero (modify_shared f).
Proof.
  intros Hf w Hw. apply wp_modify. split; [|done]. apply quiet_intro; try done; [by apply Hf|].
  unfold bal. simpl. lia.
Qed.

Lemma qd_trace f : qd any zero (modify (λ w, set_trace (f (w_trace w)) w)).
Proof. intros w Hw. apply wp_modify. split; [|done]. apply quiet_intro; try done. unfold bal. simpl. lia. Qed.

(** ** The shared components *)

Lemma cache_getCopy_ok c now key m : cache_ok c → getCacheCopy c now key = Some m → extra_ok m.
Proof.
  intros Hc. unfold getCacheCopy. intros (m0 & Hm0 & ->)%fmap_Some. by apply Hc in Hm0.
Qed.

Lemma stripOPT_ok m : extra_ok m → extra_ok (stripOPT m).
Proof.
  intros Hm. rewrite stripOPT_filter. unfold extra_ok in *. simpl.
  rewrite Forall_forall in *. intros rr [_ Hrr]%list_elem_of_filter. by apply Hm.
Qed.

Lemma cache_ok_set c now mono key v expire :
  cache_ok c → extra_ok v → cache_ok (setCacheCopy c now mono key v expire).
Proof.
  intros Hc Hv now' k m. unfold getCache. rewrite setCacheCopy_dnsCache.
  destruct (decide (key = k)) as [<-|Hne].
  - intros ->%Get_Set_inv. by apply stripOPT_ok.
  - rewrite Get_Set_other by done. apply Hc.
Qed.

Lemma qd_cache_getCopy key : qd (λ r, ∀ m, r = Some m → extra_ok m) zero (cache_getCopy key).
Proof.
  unfold cache_getCopy. eapply qd_bind; [apply qd_log|]. intros ? _.
  eapply qd_bind; [apply qd_tick|]. intros t _. eapply qd_mono; [apply (qd_gets (λ r, ∀ m, r = Some m → extra_ok m))|by split].
  intros w [Hc _] m Hm. by eapply cache_getCopy_ok.
Qed.

Lemma qd_cache_setCopy key v expire : extra_ok v → qd any zero (cache_setCopy key v expire).
Proof.
  intros Hv. unfold cache_setCopy. eapply qd_bind; [apply qd_log|]. intros ? _.
  eapply qd_bind; [apply qd_tick|]. intros t _. eapply qd_mono; [apply qd_modify_shared|by split].
  intros s [Hc Hr]. split; [by apply cache_ok_set|done].
Qed.

Lemma qd_pool_update ip f : qd any zero (pool_update ip f).
Proof.
  unfold pool_update. eapply qd_bind; [apply qd_tick|]. intros t _.
  eapply qd_mono; [apply qd_modify_shared|by split]. intros s Hs. by case_match.
Qed.

Lemma qd_pool_getBest ips : qd any zero (pool_getBest ips).
Proof.
  unfold pool_getBest. eapply qd_bind; [apply qd_tick|]. intros t _ w Hw. apply wp_stepM.
  destruct (GetBestIPsV2 _ _ _) as [[best second] p]. simpl. split; [|done].
  apply quiet_intro; try done. unfold bal. simpl. lia.
Qed.

Lemma qd_gate_tryAcquire path q : qd any (λ ok : bool, if ok then 1 else 0) (gate_tryAcquire path q).
Proof.
  unfold gate_tryAcquire. eapply qd_bind; [apply qd_tick|]. intros t _ w Hw. apply wp_stepM.
  destruct (tryAcquire _ _ _ _) as [[ok ev] g]. simpl. split; [|done].
  apply quiet_intro; try done. unfold bal. simpl. lia.
Qed.

Lemma qd_gate_release : qd any (λ _, -1) gate_release.
Proof.
  unfold gate_release. eapply qd_bind; [apply qd_tick|]. intros t _ w Hw. apply wp_modify.
  split; [|done]. apply quiet_intro; try done. unfold bal. simpl. lia.
Qed.

Lemma qd_leave_running : qd any (λ _, -1) leave_running.
Proof.
  intros w Hw. apply wp_modify. split; [|done]. apply quiet_intro; try done. unfold bal. simpl. lia.
Qed.

Lemma qd_gate_shouldDegradeFanout : qd any zero gate_shouldDegradeFanout.
Proof.
  unfold gate_shouldDegradeFanout. eapply qd_bind; [apply qd_tick|]. intros t _.
  eapply qd_mono; [by apply (qd_gets any)|by split].
Qed.

Lemma qd_gate_recordDegraded path act q : qd any zero (gate_recordDegraded path act q).
Proof.
  unfold gate_recordDegraded. eapply qd_bind; [apply qd_tick|]. intros t _.
  eapply qd_mono; [by apply qd_modify_shared|by split].
Qed.

Lemma qd_limiter_tryAcquire path q z : qd any zero (limiter_tryAcquire path q z).
Proof.
  unfold limiter_tryAcquire. eapply qd_bind; [apply qd_tick|]. intros t _ w Hw. apply wp_stepM.
  destruct (tryAcquireExpensiveRequest _ _ _ _ _ _ _) as [[ok h] l]. simpl. split; [|done].
  apply quiet_intro; try done. unfold bal. simpl. lia.
Qed.

(** ** Computations on the two messages *)

Definition Hoare {A} (P : Msg → Msg → Prop) (m : MW A) (Q : A → Msg → Msg → Prop) : Prop :=
  ∀ w rq rs, shared_ok (w_shared w) → w_req w = Some rq → w_resp w = Some rs → P rq rs →
    wp m (λ a w', shared_ok (w_shared w') ∧ bal w' = bal w ∧
      ∃ rq' rs', w_req w' = Some rq' ∧ w_resp w' = Some rs' ∧ Q a rq' rs') w.

Lemma h_ret {A} (P : Msg → Msg → Prop) (Q : A → Msg → Msg → Prop) a :
  (∀ rq rs, P rq rs → Q a rq rs) → Hoare P (ret a) Q.
Proof. intros HQ w rq rs Hw W1 W2 HP. apply wp_ret. split_and!; eauto 10. Qed.

Lemma h_bind {A B} P (R : A → Msg → Msg → Prop) (Q : B → Msg → Msg → Prop) (m : MW A) k :
  Hoare P m R → (∀ a, Hoare (R a) (k a) Q) → Hoare P (bind m k) Q.
Proof.
  intros Hm Hk w rq rs Hw W1 W2 HP. apply wp_bind. eapply wp_mono; [|by eapply Hm].
  intros a w' (Hw' & Hb & rq' & rs' & W1' & W2' & HR).
  eapply wp_mono; [|by eapply Hk]. intros b w'' (Hw'' & Hb' & Hex).
  split_and!; [done|congruence|done].
Qed.

Lemma h_conseq {A} (P P' : Msg → Msg → Prop) (Q Q' : A → Msg → Msg → Prop) (m : MW A) :
  Hoare P m Q → (∀ rq rs, P' rq rs → P rq rs) → (∀ a rq rs, Q a rq rs → Q' a rq rs) →
  Hoare P' m Q'.
Proof.
  intros Hm HP HQ w rq rs Hw W1 W2 HP'. eapply wp_mono; [|by eapply Hm; [..|apply HP]].
  intros a w' (Hw' & Hb & rq' & rs' & W1' & W2' & HQ'). split_and!; eauto 10.
Qed.

(** A precondition that is a fact or a choice can be taken out. *)
Lemma h_pre {A} (F : Prop) (P : Msg → Msg → Prop) (Q : A → Msg → Msg → Prop) (m : MW A) :
  (∀ rq rs, P rq rs → F) → (F → Hoare P m Q) → Hoare P m Q.
Proof. intros HF Hm w rq rs Hw W1 W2 HP. apply (Hm (HF _ _ HP) w rq rs); done. Qed.

(** What does not touch the messages keeps every precondition. *)
Lemma h_quiet {A} V (P : Msg → Msg → Prop) (m : MW A) :
  qd V zero m → Hoare P m (λ a rq rs, P rq rs ∧ V a).
Proof.
  intros Hm w rq rs Hw W1 W2 HP. eapply wp_mono; [|by apply Hm].
  intros a w' [(Hw' & W1' & W2' & Hb) HV]. rewrite W1' , W2'. split_and!; [done|lia|eauto 10].
Qed.

Lemma h_get_req P : Hoare P get_req (λ m rq rs, P rq rs ∧ m = rq).
Proof. intros w rq rs Hw W1 W2 HP. unfold wp, get_req. rewrite W1. split_and!; eauto 10. Qed.

Lemma h_get_resp P : Hoare P get_resp (λ m rq rs, P rq rs ∧ m = rs).
Proof. intros w rq rs Hw W1 W2 HP. unfold wp, get_resp. rewrite W2. split_and!; eauto 10. Qed.

Lemma h_gets_resp P : Hoare P (gets w_resp) (λ m rq rs, P rq rs ∧ m = Some rs).
Proof. intros w rq rs Hw W1 W2 HP. apply wp_gets. split_and!; eauto 10. Qed.

Lemma h_put_resp P m : Hoare P (put_resp m) (λ _ rq rs, (∃ rs0, P rq rs0) ∧ rs = m).
Proof. intros w rq rs Hw W1 W2 HP. apply wp_modify. split_and!; [done|done|]. exists rq, m. eauto 10. Qed.

Lemma h_put_req P m : Hoare P (put_req m) (λ _ rq rs, (∃ rq0, P rq0 rs) ∧ rq = m).
Proof. intros w rq rs Hw W1 W2 HP. apply wp_modify. split_and!; [done|done|]. exists m, rs. eauto 10. Qed.

Lemma h_nil_messages P : Hoare P nil_messages (λ b rq rs, P rq rs ∧ b = false).
Proof.
  intros w rq rs Hw W1 W2 HP. apply wp_gets. rewrite W1, W2. split_and!; eauto 10.
Qed.

Lemma h_index0 {A} P (l : list A) :
  (∀ rq rs, P rq rs → l ≠ []) → Hoare P (index0 l) (λ x rq rs, P rq rs ∧ head l = Some x).
Proof.
  intros Hl w rq rs Hw W1 W2 HP. destruct l as [|x l]; [by destruct (Hl _ _ HP)|].
  apply wp_ret. split_and!; eauto 10.
Qed.

End logic.

(** ** Automation

    [qd_auto] walks through a computation that leaves the messages alone; the
    continuation's balance is what remains of the whole. *)

#[export] Hint Resolve qd_tick qd_log qd_trace qd_pool_update qd_pool_getBest qd_gate_tryAcquire
  qd_gate_release qd_leave_running qd_gate_shouldDegradeFanout qd_gate_recordDegraded
  qd_limiter_tryAcquire qd_cache_getCopy qd_cache_setCopy : rec53.

(** The last command of a computation, whose balance must be what remains. *)
Ltac qd_last := eapply qd_mono; [solve [eauto with rec53]|intros; split; [tauto|lia]].

Ltac qd_step :=
  cbn beta;
  match goal with
  | |- qd _ _ (bind _ _) => eapply qd_bind; [solve [eauto with rec53]|intros ? ?]
  | |- qd _ _ (ret _) => apply qd_ret; [try done|try lia]
  | |- qd _ _ (if negb ?b then _ else _) => destruct b; cbn [negb]
  | |- qd _ _ (if ?b then _ else _) => destruct b eqn:?
  | |- qd _ _ (match ?x with _ => _ end) => destruct x eqn:?
  | |- qd _ _ _ => qd_last
  end.
Ltac qd_auto := repeat qd_step.

(** [h_step] walks through a computation on the messages; what is left at the
    end are implications between assertions. *)
Ltac h_step :=
  cbn beta;
  match goal with
  | |- Hoare _ (bind get_req _) _ => eapply h_bind; [apply h_get_req|intros ?]
  | |- Hoare _ (bind get_resp _) _ => eapply h_bind; [apply h_get_resp|intros ?]
  | |- Hoare _ (bind (put_resp _) _) _ => eapply h_bind; [apply h_put_resp|intros ?]
  | |- Hoare _ (bind (put_req _) _) _ => eapply h_bind; [apply h_put_req|intros ?]
  | |- Hoare _ (bind nil_messages _) _ => eapply h_bind; [apply h_nil_messages|intros ?]
  | |- Hoare _ (bind (index0 _) _) _ => eapply h_bind; [apply h_index0|intros ?]
  | |- Hoare _ (bind _ _) _ => eapply h_bind; [eapply h_quiet; solve [eauto with rec53]|intros ?]
  | |- Hoare _ (ret _) _ => apply h_ret
  | |- Hoare _ (if ?b then _ else _) _ => destruct b eqn:?
  | |- Hoare _ (match ?x with _ => _ end) _ => destruct x eqn:?
  end.

(** ** A concrete world

    The reference libraries, an environment in which every server answers with
    one address, and a process that has just started. *)
Module RefWorld.
Import RefDns RefSort.
#[export] Existing Instance RefDns.lib.
#[export] Existing Instance RefDns.laws.
#[export] Existing Instance RefSort.lib.
#[export] Existing Instance RefSort.laws.
#[export] Existing Instance RefCache.lib.
#[export] Existing Instance RefCache.laws.
#[export] Existing Instance RefEbpf.lib.
#[export] Existing Instance RefEbpf.laws.

Definition www : RR := RR_A (mkHdr "www.example." TypeA ClassINET 30) [192; 0; 2; 1].
Definition reply (q : Msg) : Msg := set_Extra (set_Answer (set_Response q true) [www]) [].

#[export] Instance env : Env := {
  env_now _ := 5000 * Second; env_mono _ := Some 10; env_id t := Z.of_nat t;
  env_ctxErr _ := None; env_exchange _ q _ := XOk (reply q) (20 * Millisecond);
  env_primaryFirst _ := true; env_loserDone _ := false; env_schedule _ := [];
  env_delivered _ _ := true; env_hz _ := mkHzEnv f64_zero 4 (λ _, 0); interfere _ s := s
}.

#[export] Instance env_ok : EnvOk.
Proof.
  split; [|done]. intros t q target m rtt Hx. injection Hx as <- _. constructor.
Qed.

Definition fresh : Shared :=
  mkShared (mkCache newCache None) NewIPPool (newUpstreamConcurrencyGate 4 4) None empty_hostsForward None.

Lemma fresh_ok : shared_ok fresh.
Proof. split; [|done]. intros now key m Hm. cbv in Hm. discriminate Hm. Qed.

Definition query : Msg := set_Questions new_Msg [mkQ "www.example." TypeA ClassINET].

(** A request about to be served by the process [s]. *)
Definition serving (s : Shared) (request : Msg) : World :=
  mkWorld s 0 (Some request) (Some new_Msg) None (Some (mkRecorder "" "" [] "" false)) [] 0 0.
End RefWorld.
