(* ===== verification/StateMachine.v ===== *)
(** * The resolution state machine (server/state_machine.go)

    [Change] drives the states until one of them ends the resolution, at most
    [MaxIterations] times.  The loop body is [iterate]; the local variables of the
    loop (the current state, the CNAME chain and the set of names visited) are
    the record [Loop]. *)

From S2P Require Import Prelude GoLib Float64 NetIP Dns Zone External Cache RateLog Gate.
From S2P Require Import HostsForward IPQuality IPPool HotZone Limiter World States Upstream.

Definition MaxIterations : nat := 50.

(** monitor/state_machine_transition.go *)
Definition StateMachineStateInit : string := "state_init".
Definition StateMachineHostsLookup : string := "hosts_lookup".
Definition StateMachineForwardLookup : string := "forward_lookup".
Definition StateMachineCacheLookup : string := "cache_lookup".
Definition StateMachineClassifyResp : string := "classify_resp".
Definition StateMachineExtractGlue : string := "extract_glue".
Definition StateMachineLookupNSCache : string := "lookup_ns_cache".
Definition StateMachineQueryUpstream : string := "query_upstream".
Definition StateMachineReturnResp : string := "return_resp".
Definition StateMachineUnknownState : string := "unknown".
Definition StateMachineSuccessExit : string := "success_exit".
Definition StateMachineFormerrExit : string := "formerr_exit".
Definition StateMachineServfailExit : string := "servfail_exit".
Definition StateMachineRefusedExit : string := "refused_exit".
Definition StateMachineErrorExit : string := "error_exit".
Definition StateMachineMaxItersExit : string := "max_iterations_exit".

Definition stateMetricName (state : Z) : string :=
  if state =? STATE_INIT then StateMachineStateInit
  else if state =? HOSTS_LOOKUP then StateMachineHostsLookup
  else if state =? FORWARD_LOOKUP then StateMachineForwardLookup
  else if state =? CACHE_LOOKUP then StateMachineCacheLookup
  else if state =? CLASSIFY_RESP then StateMachineClassifyResp
  else if state =? EXTRACT_GLUE then StateMachineExtractGlue
  else if state =? LOOKUP_NS_CACHE then StateMachineLookupNSCache
  else if state =? QUERY_UPSTREAM then StateMachineQueryUpstream
  else if state =? RETURN_RESP then StateMachineReturnResp
  else StateMachineUnknownState.

(** The locals of [Change]. *)
Record Loop := mkLoop {
  lp_state : Z;
  lp_chain : list RR;          (* cnameChain *)
  lp_visited : gset string;    (* visitedDomains *)
}.

Section machine.
Context `{DL : DnsLib} `{GC : GoCache Msg} `{EM : EbpfMap BPFKey BPFValue} `{GS : GoSort} `{E : !Env}.

Abbreviation MW := (M World).
Abbreviation HandleResult := (Z * option RErr)%type.

(** What [Change] returns: a message (nil is None) and an error. *)
Abbreviation ChangeResult := (option Msg * option RErr)%type.

Definition recordStateTransition (from to : Z) : MW unit :=
  log (ATransition (stateMetricName from) (stateMetricName to)).

Definition recordTerminalExit (from : Z) (exit : string) : MW unit :=
  do! log (ATransition (stateMetricName from) exit) in recordTraceTerminal exit.

(** [isNSRelevantForCNAME] *)
Definition isNSRelevantForCNAME (nsRecords : list RR) (cnameTarget : string) : bool :=
  match nsRecords with
  | [] => false
  | ns0 :: _ => IsSubDomain (Hdr_Name (Header ns0)) cnameTarget
  end.

(** [handleState]: errors are wrapped with the state. *)
Definition handleState (st : Z) (m : MW HandleResult) : MW HandleResult :=
  let! r := m in
  ret (r.1, ErrHandle st <$> r.2).

(** The first CNAME of an answer section. *)
Fixpoint first_cname (l : list RR) : option (RR * string) :=
  match l with
  | [] => None
  | rr :: l' => match rr with RR_CNAME _ target => Some (rr, target) | _ => first_cname l' end
  end.

(** [request.Question[0].Name = target] *)
Definition rename_question (m : Msg) (target : string) : MW Msg :=
  match Questions m with
  | [] => panic
  | q :: qs => ret (set_Questions m (mkQ target (Q_Qtype q) (Q_Qclass q) :: qs))
  end.

(** [followCNAME]: the updated locals, or the cycle error. *)
Definition followCNAME (chain : list RR) (visited : gset string)
    : MW (list RR * gset string + RErr) :=
  let! response := get_resp in
  match first_cname (Answer response) with
  | None => ret (inl (chain, visited))
  | Some (record, cnameTarget) =>
      if String.eqb cnameTarget "" then ret (inl (chain, visited))
      else if bool_decide (cnameTarget ∈ visited) then ret (inr (ErrCNAMECycle cnameTarget))
      else
        let response :=
          if negb (isNSRelevantForCNAME (Ns response) cnameTarget)
          then set_Extra (set_Ns response []) [] else response in
        do! put_resp (set_Answer response []) in
        let! request := get_req in
        let! request := rename_question request cnameTarget in
        do! put_req request in
        ret (inl (chain ++ [RR_Copy record], {[cnameTarget]} ∪ visited))
  end.

(** [buildFinalResponse] *)
Definition buildFinalResponse (origQ : Question) (chain : list RR) : MW Msg :=
  let! resp := get_resp in
  match Questions resp with
  | [] => panic
  | _ :: qs =>
      let resp := set_Questions resp (origQ :: qs) in
      let resp := match chain with
                  | [] => resp
                  | _ => set_Answer resp (chain ++ Answer resp)
                  end in
      do! put_resp resp in
      ret resp
  end.

(** Leaving the loop, or going on with new locals. *)
Abbreviation Next := (Loop + ChangeResult)%type.

Definition goto (lp : Loop) (to : Z) : MW Next :=
  do! recordStateTransition (lp_state lp) to in
  ret (inl (mkLoop to (lp_chain lp) (lp_visited lp))).

Definition exit_error (lp : Loop) (failure : string) (e : RErr) : MW Next :=
  do! log (AFailure failure) in
  do! recordTerminalExit (lp_state lp) StateMachineErrorExit in
  ret (inr (None, Some e)).

Definition exit_wrong_state (lp : Loop) (failure : string) : MW Next :=
  exit_error lp failure (ErrWrongState (lp_state lp)).

Definition exit_response (lp : Loop) (exit : string) : MW Next :=
  do! recordTerminalExit (lp_state lp) exit in
  let! resp := gets w_resp in
  ret (inr (resp, None)).

Definition exit_rcode (lp : Loop) (exit : string) (rcode : Z) : MW Next :=
  do! recordTerminalExit (lp_state lp) exit in
  let! request := get_req in
  ret (inr (Some (SetRcode new_Msg request rcode), None)).

(** ** The cases of the loop: run the state's handler and act on its code *)

Definition case_STATE_INIT (lp : Loop) : MW Next :=
  let! r := handleState (lp_state lp) stateInit_handle in
  match r with
  | (_, Some e) => exit_error lp "state_init_handle_error" e
  | (code, None) =>
      if code =? STATE_INIT_FORMERR then
        do! log (AFailure "formerr") in exit_response lp StateMachineFormerrExit
      else goto lp HOSTS_LOOKUP
  end.

Definition case_HOSTS_LOOKUP (lp : Loop) : MW Next :=
  let! r := handleState (lp_state lp) hostsLookup_handle in
  match r with
  | (_, Some e) => exit_error lp "hosts_lookup_handle_error" e
  | (code, None) =>
      if code =? HOSTS_LOOKUP_HIT then goto lp RETURN_RESP
      else if code =? HOSTS_LOOKUP_MISS then goto lp FORWARD_LOOKUP
      else exit_wrong_state lp "hosts_lookup_wrong_state"
  end.

Definition case_FORWARD_LOOKUP (lp : Loop) : MW Next :=
  let! r := handleState (lp_state lp) forwardLookup_handle in
  match r with
  | (_, Some e) => exit_error lp "forward_lookup_handle_error" e
  | (code, None) =>
      if code =? FORWARD_LOOKUP_HIT then goto lp RETURN_RESP
      else if code =? FORWARD_LOOKUP_MISS then goto lp CACHE_LOOKUP
      else if code =? FORWARD_LOOKUP_SERVFAIL then
        do! log (AFailure "forward_lookup_servfail") in
        exit_rcode lp StateMachineServfailExit RcodeServerFailure
      else if code =? FORWARD_LOOKUP_REFUSED then
        exit_rcode lp StateMachineRefusedExit RcodeRefused
      else exit_wrong_state lp "forward_lookup_wrong_state"
  end.

Definition case_CACHE_LOOKUP (lp : Loop) : MW Next :=
  let! r := handleState (lp_state lp) cacheLookup_handle in
  match r with
  | (_, Some e) => exit_error lp "cache_lookup_handle_error" e
  | (code, None) =>
      if code =? CACHE_LOOKUP_HIT then goto lp CLASSIFY_RESP
      else if code =? CACHE_LOOKUP_MISS then
        let! request := get_req in
        let qname := match Questions request with q :: _ => Q_Name q | [] => "" end in
        let! ok := limiter_tryAcquire expensivePathIterative qname "" in
        if negb ok then exit_rcode lp StateMachineRefusedExit RcodeRefused
        else goto lp EXTRACT_GLUE
      else exit_wrong_state lp "cache_lookup_wrong_state"
  end.

Definition case_CLASSIFY_RESP (lp : Loop) : MW Next :=
  let! r := handleState (lp_state lp) classifyResp_handle in
  match r with
  | (_, Some e) => exit_error lp "classify_resp_handle_error" e
  | (code, None) =>
      if code =? CLASSIFY_RESP_COMMON_ERROR then exit_response lp StateMachineErrorExit
      else if (code =? CLASSIFY_RESP_GET_ANS) || (code =? CLASSIFY_RESP_GET_NEGATIVE) then
        goto lp RETURN_RESP
      else if code =? CLASSIFY_RESP_GET_CNAME then
        let! f := followCNAME (lp_chain lp) (lp_visited lp) in
        match f with
        | inr e => exit_error lp "cname_cycle" e
        | inl (chain, visited) => goto (mkLoop (lp_state lp) chain visited) CACHE_LOOKUP
        end
      else if code =? CLASSIFY_RESP_GET_NS then goto lp EXTRACT_GLUE
      else exit_wrong_state lp "classify_resp_wrong_state"
  end.

Definition case_EXTRACT_GLUE (lp : Loop) : MW Next :=
  let! r := handleState (lp_state lp) extractGlue_handle in
  match r with
  | (_, Some e) => exit_error lp "extract_glue_handle_error" e
  | (code, None) =>
      if code =? EXTRACT_GLUE_EXIST then goto lp QUERY_UPSTREAM
      else if code =? EXTRACT_GLUE_NOT_EXIST then goto lp LOOKUP_NS_CACHE
      else exit_wrong_state lp "extract_glue_wrong_state"
  end.

Definition case_LOOKUP_NS_CACHE (lp : Loop) : MW Next :=
  let! r := handleState (lp_state lp) lookupNSCache_handle in
  match r with
  | (_, Some e) => exit_error lp "lookup_ns_cache_handle_error" e
  | (code, None) =>
      if (code =? LOOKUP_NS_CACHE_HIT) || (code =? LOOKUP_NS_CACHE_MISS) then goto lp QUERY_UPSTREAM
      else exit_wrong_state lp "lookup_ns_cache_wrong_state"
  end.

Definition case_QUERY_UPSTREAM (port : string) (depth : Z) (nested : MW ChangeResult) (lp : Loop) : MW Next :=
  let! r := handleState (lp_state lp) (queryUpstream_handle port depth nested) in
  match r with
  | (_, Some e) => exit_error lp "query_upstream_handle_error" e
  | (code, None) =>
      if code =? QUERY_UPSTREAM_COMMON_ERROR then
        do! log (AFailure "query_upstream_error") in
        exit_rcode lp StateMachineServfailExit RcodeServerFailure
      else if code =? QUERY_UPSTREAM_NO_ERROR then goto lp CLASSIFY_RESP
      else exit_wrong_state lp "query_upstream_wrong_state"
  end.

Definition case_RETURN_RESP (origQ : Question) (lp : Loop) : MW Next :=
  let! r := handleState (lp_state lp) returnResp_handle in
  match r with
  | (_, Some e) => exit_error lp "return_resp_handle_error" e
  | (_, None) =>
      do! recordTerminalExit (lp_state lp) StateMachineSuccessExit in
      let! m := buildFinalResponse origQ (lp_chain lp) in
      ret (inr (Some m, None))
  end.

(** The body of the loop. *)
Definition iterate (port : string) (depth : Z) (nested : MW ChangeResult) (origQ : Question)
    (lp : Loop) : MW Next :=
  let st := lp_state lp in
  do! recordTraceState (stateMetricName st) in
  do! log (AStage (stateMetricName st)) in
  let! _ := get_req in
  if st =? STATE_INIT then case_STATE_INIT lp
  else if st =? HOSTS_LOOKUP then case_HOSTS_LOOKUP lp
  else if st =? FORWARD_LOOKUP then case_FORWARD_LOOKUP lp
  else if st =? CACHE_LOOKUP then case_CACHE_LOOKUP lp
  else if st =? CLASSIFY_RESP then case_CLASSIFY_RESP lp
  else if st =? EXTRACT_GLUE then case_EXTRACT_GLUE lp
  else if st =? LOOKUP_NS_CACHE then case_LOOKUP_NS_CACHE lp
  else if st =? QUERY_UPSTREAM then case_QUERY_UPSTREAM port depth nested lp
  else if st =? RETURN_RESP then case_RETURN_RESP origQ lp
  else exit_wrong_state lp "unknown_state".

Fixpoint change_loop (port : string) (depth : Z) (nested : MW ChangeResult) (origQ : Question)
    (n : nat) (lp : Loop) : MW ChangeResult :=
  match n with
  | O =>
      do! log (AFailure "max_iterations") in
      do! recordTerminalExit (lp_state lp) StateMachineMaxItersExit in
      ret (None, Some ErrMaxIterations)
  | S n' =>
      let! next := iterate port depth nested origQ lp in
      match next with
      | inl lp' => change_loop port depth nested origQ n' lp'
      | inr result => ret result
      end
  end.

(** [originalQuestion]: the zero Question when there is none. *)
Definition original_question (request : Msg) : Question :=
  match Questions request with q :: _ => q | [] => mkQ "" 0 0 end.

Definition Change_at (port : string) (depth : Z) (nested : MW ChangeResult) : MW ChangeResult :=
  let! request := get_req in
  change_loop port depth nested (original_question request) MaxIterations (mkLoop STATE_INIT [] ∅).

(** Inside NS resolution the depth in the context is 1, and a further NS
    resolution returns at once, without running [nested]. *)
Definition Change_nested (port : string) : MW ChangeResult := Change_at port 1 panic.

(** [Change(newStateInitState(request, response, ctx))] *)
Definition Change (port : string) : MW ChangeResult := Change_at port 0 (Change_nested port).

End machine.
