(* ===== verification/Frame.v ===== *)
(** * What every step of a resolution respects

    A relation between worlds that the primitive effects respect is respected by
    the whole resolution: [Change_respects], by walking once through every handler.
    Its instances give, without going through the code again, that the
    transitions a resolution reports are those of the table [edges], and that the
    client's holder stays consistent. *)

From S2P Require Import Prelude GoLib Float64 NetIP Dns Zone External Cache RateLog Gate.
From S2P Require Import HostsForward IPQuality IPPool HotZone Limiter World States Upstream.
From S2P Require Import StateMachine.

(** The transitions between states, those of the cases of [Change] in
    server/state_machine.go.  ([Paths] compares them with docs/architecture.md.) *)
Definition edges : list (Z * Z) :=
  [(STATE_INIT, HOSTS_LOOKUP);
   (HOSTS_LOOKUP, RETURN_RESP); (HOSTS_LOOKUP, FORWARD_LOOKUP);
   (FORWARD_LOOKUP, RETURN_RESP); (FORWARD_LOOKUP, CACHE_LOOKUP);
   (CACHE_LOOKUP, CLASSIFY_RESP); (CACHE_LOOKUP, EXTRACT_GLUE);
   (CLASSIFY_RESP, RETURN_RESP); (CLASSIFY_RESP, CACHE_LOOKUP); (CLASSIFY_RESP, EXTRACT_GLUE);
   (EXTRACT_GLUE, QUERY_UPSTREAM); (EXTRACT_GLUE, LOOKUP_NS_CACHE);
   (LOOKUP_NS_CACHE, QUERY_UPSTREAM); (QUERY_UPSTREAM, CLASSIFY_RESP)].

(** The exits of the cases, by the state they leave from. *)
Definition exits : list (Z * string) :=
  [(STATE_INIT, StateMachineFormerrExit); (FORWARD_LOOKUP, StateMachineServfailExit);
   (FORWARD_LOOKUP, StateMachineRefusedExit); (CACHE_LOOKUP, StateMachineRefusedExit);
   (QUERY_UPSTREAM, StateMachineServfailExit); (RETURN_RESP, StateMachineSuccessExit)].

Section frame.
Context `{DL : DnsLib} `{GC : GoCache Msg} `{EM : EbpfMap BPFKey BPFValue} `{GS : GoSort} `{E : !Env}.

Abbreviation MW := (M World).

(** The transitions the machine may report: an edge, an exit, or an exit with an
    error or at the iteration limit, which any state can take. *)
Definition legal (a : action) : Prop :=
  match a with
  | ATransition f t =>
      (∃ st to, (st, to) ∈ edges ∧ f = stateMetricName st ∧ t = stateMetricName to) ∨
      (∃ st, (st, t) ∈ exits ∧ f = stateMetricName st) ∨
      t ∈ [StateMachineErrorExit; StateMachineMaxItersExit]
  | _ => True
  end.

(** What is reported without a matching entry in the trace: everything but the
    state entered and the exit taken. *)
Definition untraced (a : action) : Prop :=
  match a with
  | AStage _ => False
  | ATransition _ t => ∃ st, t = stateMetricName st
  | _ => True
  end.

Definition exit_of (st : Z) (exit : string) : Prop :=
  (st, exit) ∈ exits ∨ exit ∈ [StateMachineErrorExit; StateMachineMaxItersExit].

Class Respects (R : World → World → Prop) : Prop := {
  rs_preorder :: PreOrder R;
  rs_tick : pres R tick;
  rs_log a : legal a → untraced a → pres R (log a);
  rs_stage st : pres R (do! recordTraceState (stateMetricName st) in log (AStage (stateMetricName st)));
  rs_terminal st exit : exit_of st exit → pres R (recordTerminalExit st exit);
  rs_req w m : R w (set_req m w);
  rs_resp w m : R w (set_resp m w);
  rs_slots w n b : R w (set_slots n b w);
  rs_shared w s : sh_lim s = sh_lim (w_shared w) → sh_hosts s = sh_hosts (w_shared w) →
    R w (set_shared s w);
  rs_limiter p q z : pres R (limiter_tryAcquire p q z);
}.

Section walk.
Context (R : World → World → Prop) `{!Respects R}.

Lemma rs_modify_shared f :
  (∀ s, sh_lim (f s) = sh_lim s ∧ sh_hosts (f s) = sh_hosts s) → pres R (modify_shared f).
Proof. intros Hf w. destruct (Hf (w_shared w)). by apply rs_shared. Qed.

Lemma rs_get_req : pres R get_req.
Proof. intros w. unfold get_req. by case_match. Qed.
Lemma rs_get_resp : pres R get_resp.
Proof. intros w. unfold get_resp. by case_match. Qed.
Lemma rs_put_req m : pres R (put_req m).
Proof. apply pres_modify. intros. apply rs_req. Qed.
Lemma rs_put_resp m : pres R (put_resp m).
Proof. apply pres_modify. intros. apply rs_resp. Qed.
Lemma rs_set_req m : pres R (modify (set_req m)).
Proof. apply pres_modify. intros. apply rs_req. Qed.
Lemma rs_set_resp m : pres R (modify (set_resp m)).
Proof. apply pres_modify. intros. apply rs_resp. Qed.
(** Entering a state is one step: the trace and the stage counter together. *)
Lemma rs_enter {A} st (k : unit → MW A) :
  pres R (k tt) →
  pres R (do! recordTraceState (stateMetricName st) in bind (log (AStage (stateMetricName st))) k).
Proof. intros Hk w. etransitivity; [apply (rs_stage st)|apply Hk]. Qed.
Lemma rs_leave_running : pres R leave_running.
Proof. apply pres_modify. intros. apply rs_slots. Qed.
Lemma rs_nil_messages : pres R nil_messages.
Proof. apply pres_gets, _. Qed.
Lemma rs_get_shared : pres R get_shared.
Proof. apply pres_gets, _. Qed.

Lemma rs_gate_tryAcquire p q : pres R (gate_tryAcquire p q).
Proof.
  unfold gate_tryAcquire. apply pres_bind; [apply _|apply rs_tick|]. intros t. apply pres_stepM. intros w.
  destruct (tryAcquire _ _ _ _) as [[ok ev] g]. simpl.
  transitivity (set_slots (w_slots w + if ok then 1 else 0) (w_background w) w); [apply rs_slots|by apply rs_shared].
Qed.

Lemma rs_gate_release : pres R gate_release.
Proof.
  unfold gate_release. apply pres_bind; [apply _|apply rs_tick|]. intros t. apply pres_modify. intros w.
  transitivity (set_slots (w_slots w - 1) (w_background w) w); [apply rs_slots|by apply rs_shared].
Qed.

Lemma rs_pool_getBest ips : pres R (pool_getBest ips).
Proof.
  unfold pool_getBest. apply pres_bind; [apply _|apply rs_tick|]. intros t. apply pres_stepM. intros w.
  destruct (GetBestIPsV2 _ _ _) as [[best second] p]. by apply rs_shared.
Qed.

Lemma rs_pool_update ip f : pres R (pool_update ip f).
Proof.
  unfold pool_update. apply pres_bind; [apply _|apply rs_tick|]. intros t.
  apply rs_modify_shared. intros s. by case_match.
Qed.

Lemma rs_cache_getCopy k : pres R (cache_getCopy k).
Proof.
  unfold cache_getCopy. apply pres_bind; [apply _|by apply rs_log|]. intros _.
  apply pres_bind; [apply _|apply rs_tick|]. intros t. apply pres_gets, _.
Qed.

Lemma rs_cache_setCopy k v e : pres R (cache_setCopy k v e).
Proof.
  unfold cache_setCopy. apply pres_bind; [apply _|by apply rs_log|]. intros _.
  apply pres_bind; [apply _|apply rs_tick|]. intros t. by apply rs_modify_shared.
Qed.

Lemma rs_gate_recordDegraded p a q : pres R (gate_recordDegraded p a q).
Proof.
  unfold gate_recordDegraded. apply pres_bind; [apply _|apply rs_tick|]. intros t. by apply rs_modify_shared.
Qed.

Lemma rs_gate_shouldDegradeFanout : pres R gate_shouldDegradeFanout.
Proof. unfold gate_shouldDegradeFanout. apply pres_bind; [apply _|apply rs_tick|]. intros t. apply pres_gets, _. Qed.

End walk.

Hint Resolve rs_tick rs_get_req rs_get_resp rs_put_req rs_put_resp rs_set_req rs_set_resp
  rs_leave_running rs_nil_messages rs_get_shared rs_gate_tryAcquire rs_gate_release
  rs_pool_getBest rs_pool_update rs_cache_getCopy rs_cache_setCopy rs_gate_recordDegraded
  rs_gate_shouldDegradeFanout rs_limiter rs_preorder : rec53.

(** Walk through a computation made of respectful parts. *)
Ltac walk_step :=
  lazymatch goal with
  | |- pres _ (bind _ _) => apply pres_bind; [apply _|..|intros ?]
  | |- pres _ (ret _) => apply pres_ret, _
  | |- pres _ panic => apply pres_panic, _
  | |- pres _ (gets _) => apply pres_gets, _
  | |- pres _ (index0 _) => apply pres_index0, _
  | |- pres _ (log _) => apply rs_log; try done
  | |- pres _ (if ?b then _ else _) => destruct b
  | |- pres _ (match ?x with _ => _ end) => destruct x
  | |- _ => solve [eauto with rec53]
  end.
Ltac walk := cbv zeta; repeat walk_step.

Section handlers.
Context (R : World → World → Prop) `{!Respects R}.

Lemma rs_exchange q target path : pres R (exchangeWithUpstreamGate q target path).
Proof. unfold exchangeWithUpstreamGate. walk. Qed.
Hint Resolve rs_exchange : rec53.

Lemma rs_forward_upstreams q ups : pres R (forward_upstreams q ups).
Proof. induction ups as [|u ups IH]; simpl; walk. Qed.
Hint Resolve rs_forward_upstreams : rec53.

Lemma rs_lookup_zones zones : pres R (lookup_zones zones).
Proof. induction zones as [|z zones IH]; simpl; walk. Qed.
Hint Resolve rs_lookup_zones : rec53.

Lemma rs_stateInit : pres R stateInit_handle.
Proof. unfold stateInit_handle. walk. Qed.
Lemma rs_hostsLookup : pres R hostsLookup_handle.
Proof. unfold hostsLookup_handle. walk. Qed.
Lemma rs_forwardLookup : pres R forwardLookup_handle.
Proof. unfold forwardLookup_handle. walk. Qed.
Lemma rs_cacheLookup : pres R cacheLookup_handle.
Proof. unfold cacheLookup_handle, cache_getCopyByType. walk. Qed.
Lemma rs_classifyResp : pres R classifyResp_handle.
Proof. unfold classifyResp_handle, cache_negative, cache_setCopyByType. walk. Qed.
Lemma rs_extractGlue : pres R extractGlue_handle.
Proof. unfold extractGlue_handle. walk. Qed.
Lemma rs_lookupNSCache : pres R lookupNSCache_handle.
Proof. unfold lookupNSCache_handle. walk. Qed.
Lemma rs_returnResp : pres R returnResp_handle.
Proof. unfold returnResp_handle. walk. Qed.

Lemma rs_querySingle q best port : pres R (querySingle q best port).
Proof. unfold querySingle, pool_recordFailure. walk. Qed.
Hint Resolve rs_querySingle : rec53.

Lemma rs_happyEyeballs q best second port : pres R (queryHappyEyeballs q best second port).
Proof. unfold queryHappyEyeballs, race_won, race_failed, pool_recordFailure. walk. Qed.
Hint Resolve rs_happyEyeballs : rec53.

Lemma rs_a_extras l : pres R (a_extras l).
Proof. induction l as [|rr l IH]; simpl; walk. Qed.
Lemma rs_resolveNSIPs names : pres R (resolveNSIPs names).
Proof. unfold resolveNSIPs, cache_getCopyByType. induction names as [|n names IH]; simpl; walk. Qed.
Lemma rs_updateNSIPsCache results : pres R (updateNSIPsCache results).
Proof. unfold updateNSIPsCache, cache_setCopyByType. induction results as [|r results IH]; simpl; walk. Qed.
Hint Resolve rs_a_extras rs_resolveNSIPs rs_updateNSIPsCache : rec53.

Lemma rs_accept_response rq m : pres R (accept_response rq m).
Proof. unfold accept_response, cache_setCopyByType. walk. Qed.
Lemma rs_copy_rcode_ns m : pres R (copy_rcode_ns m).
Proof. unfold copy_rcode_ns. walk. Qed.
Hint Resolve rs_accept_response rs_copy_rcode_ns : rec53.
Lemma rs_retry_alternate rq q ip best second port rc : pres R (retry_alternate rq q ip best second port rc).
Proof. unfold retry_alternate, pool_recordFailure, pool_recordLatency. walk. Qed.
Hint Resolve rs_retry_alternate : rec53.

Section nested.
Context (depth : Z) (change : MW (option Msg * option RErr)) (Hchange : pres R change).

Lemma rs_resolve_one name : pres R (resolve_one change name).
Proof. unfold resolve_one. walk. Qed.
Lemma rs_run_schedule t names order : pres R (run_schedule change t names order).
Proof. pose proof rs_resolve_one. induction order as [|i order IH]; simpl; walk. Qed.
Lemma rs_resolveNSIPsConcurrently names : pres R (resolveNSIPsConcurrently depth change names).
Proof. pose proof rs_run_schedule. unfold resolveNSIPsConcurrently. walk. Qed.
Lemma rs_delegation_ips m : pres R (delegation_ips depth change m).
Proof.
  pose proof rs_resolveNSIPsConcurrently. unfold delegation_ips, getIPListFromResponse. walk.
Qed.
Lemma rs_queryUpstream port : pres R (queryUpstream_handle port depth change).
Proof.
  pose proof rs_delegation_ips. unfold queryUpstream_handle, getBestAddressAndPrefetchIPs, pool_recordLatency.
  walk.
Qed.
End nested.

(** ** The machine *)

Lemma legal_edge st to : (st, to) ∈ edges → legal (ATransition (stateMetricName st) (stateMetricName to)).
Proof. intros He. left. eauto. Qed.
Lemma legal_exit st exit : exit_of st exit → legal (ATransition (stateMetricName st) exit).
Proof. intros [He|He]; right; [left; eauto|by right]. Qed.

Lemma rs_goto lp to : (lp_state lp, to) ∈ edges → pres R (goto lp to).
Proof.
  intros He. unfold goto, recordStateTransition. walk; [by apply legal_edge|by eexists].
Qed.

Lemma rs_exit_error lp f e : pres R (exit_error lp f e).
Proof. unfold exit_error. walk. apply rs_terminal. right. set_solver. Qed.

Lemma rs_exit_response lp exit :
  exit_of (lp_state lp) exit → pres R (exit_response lp exit).
Proof. intros He. unfold exit_response. walk. by apply rs_terminal. Qed.

Lemma rs_exit_rcode lp exit rc : (lp_state lp, exit) ∈ exits → pres R (exit_rcode lp exit rc).
Proof. intros He. unfold exit_rcode. walk. apply rs_terminal; by left. Qed.

Lemma rs_handleState st m : pres R m → pres R (handleState st m).
Proof. intros Hm. unfold handleState. walk. Qed.

Lemma rs_followCNAME chain visited : pres R (followCNAME chain visited).
Proof. unfold followCNAME, rename_question. walk. Qed.

Lemma rs_buildFinalResponse q chain : pres R (buildFinalResponse q chain).
Proof. unfold buildFinalResponse. walk. Qed.

Hint Resolve rs_exit_error rs_handleState rs_followCNAME rs_buildFinalResponse rs_stateInit rs_hostsLookup
  rs_forwardLookup rs_cacheLookup rs_classifyResp rs_extractGlue rs_lookupNSCache rs_returnResp : rec53.

(** The branches of a state: what they report is in the tables. *)
Ltac in_table := cbn [lp_state]; unfold edges, exits; set_solver.
Ltac walk_case :=
  unfold exit_wrong_state;
  repeat first
    [ apply rs_goto; in_table
    | apply rs_exit_rcode; in_table
    | apply rs_exit_response; [left; in_table]
    | apply rs_exit_response; [right; set_solver]
    | apply rs_terminal; left; in_table
    | walk_step ].

Lemma rs_iterate port depth nested q lp : pres R nested → pres R (iterate port depth nested q lp).
Proof.
  intros Hn. unfold iterate. cbv zeta. apply (rs_enter R). apply pres_bind; [apply _|eauto with rec53|]. intros _.
  destruct lp as [st chain visited]. cbn [lp_state].
  repeat (match goal with |- pres _ (if ?a =? ?b then _ else _) => destruct (Z.eqb_spec a b) as [->|_] end).
  - unfold case_STATE_INIT. walk_case.
  - unfold case_HOSTS_LOOKUP. walk_case.
  - unfold case_FORWARD_LOOKUP. walk_case.
  - unfold case_CACHE_LOOKUP. walk_case.
  - unfold case_CLASSIFY_RESP. walk_case.
  - unfold case_EXTRACT_GLUE. walk_case.
  - unfold case_LOOKUP_NS_CACHE. walk_case.
  - pose proof (rs_queryUpstream depth nested Hn port). unfold case_QUERY_UPSTREAM. walk_case.
  - unfold case_RETURN_RESP. walk_case.
  - apply rs_exit_error.
Qed.

Lemma rs_change_loop port depth nested q n lp :
  pres R nested → pres R (change_loop port depth nested q n lp).
Proof.
  intros Hn. revert lp. induction n as [|n IH]; intros lp; simpl.
  - walk. apply rs_terminal. right. set_solver.
  - pose proof (rs_iterate port depth nested q). walk.
Qed.

Lemma Change_respects port : pres R (Change port).
Proof.
  assert (∀ depth nested, pres R nested → pres R (Change_at port depth nested)) as Hat.
  { intros depth nested Hn. pose proof (rs_change_loop port depth nested). unfold Change_at. walk. }
  unfold Change. apply Hat. unfold Change_nested. apply Hat. apply pres_panic, _.
Qed.

End handlers.

(** ** Reported transitions *)

Definition reports_legally (w w' : World) : Prop := ∃ l, w_log w' = w_log w ++ l ∧ Forall legal l.

#[export] Instance reports_legally_respects : Respects reports_legally.
Proof.
  assert (∀ w w', w_log w' = w_log w → reports_legally w w') as Hq.
  { intros w w' Hl. exists []. by rewrite app_nil_r. }
  split.
  - split; [intros w; by apply Hq|].
    intros w1 w2 w3 (l1 & E1 & F1) (l2 & E2 & F2). exists (l1 ++ l2).
    rewrite E2, E1, app_assoc. split; [done|by apply Forall_app].
  - intros w. by apply Hq.
  - intros a Ha _ w. exists [a]. split; [done|by constructor].
  - intros st w. eexists [_]. split; [done|by constructor].
  - intros st exit He w. eexists [_]. split; [done|]. constructor; [by apply legal_exit|done].
  - intros. by apply Hq.
  - intros. by apply Hq.
  - intros. by apply Hq.
  - intros. by apply Hq.
  - intros p q z w. apply Hq. unfold limiter_tryAcquire, bind, tick, stepM. simpl.
    by destruct (tryAcquireExpensiveRequest _ _ _ _ _ _ _) as [[ok h] l].
Qed.

(** ** The client's holder *)

(** The limiter is not replaced while the request is served. *)
Class LimiterStable : Prop :=
  limiter_stable t s : is_Some (sh_lim (interfere t s)) ↔ is_Some (sh_lim s).

(** The limiter and the client's holder are there, and a client without an
    address holds nothing. *)
Definition holder_ok (ip : Addr) (w : World) : Prop :=
  is_Some (sh_lim (w_shared w)) ∧ ∃ h, w_holder w = Some h ∧ h_clientIP h = ip ∧
    (Addr_IsValid ip = false → h_held h = false ∧ h_hotZoneHeld h = false).

Definition keeps_holder (ip : Addr) (w w' : World) : Prop := holder_ok ip w → holder_ok ip w'.

Lemma Holder_TryAcquire_ip env now h l p q z :
  let r := Holder_TryAcquire env now h l p q z in
  h_clientIP r.1.2 = h_clientIP h ∧ (Addr_IsValid (h_clientIP h) = false → r.1.2 = h).
Proof.
  unfold Holder_TryAcquire, holder_skip.
  destruct (negb (Addr_IsValid (h_clientIP h)) || h_held h || h_hotZoneHeld h) eqn:Es; [done|].
  destruct (TryAcquireHotZone _ _ _ _ _) as [[[] ticket] l1]; [|done]. cbn [negb].
  destruct (Limiter_TryAcquire _ _ _ _) as [[[] ev] l2]; [|done]. cbn [negb]. unfold holder_commit.
  destruct (h_held h || h_hotZoneHeld h); simpl; [done|]. split; [done|].
  intros Hv. by rewrite Hv in Es.
Qed.

#[export] Instance keeps_holder_respects `{!LimiterStable} ip : Respects (keeps_holder ip).
Proof.
  split; try (intros; intros [Hl Hh]; by split).
  - split; [intros w Hw; exact Hw|]. intros w1 w2 w3 H12 H23 Hw. by apply H23, H12.
  - intros w [Hl Hh]. split; [by apply limiter_stable|done].
  - intros a _ _ w [Hl Hh]. by split.
  - intros st w [Hl Hh]. by split.
  - intros st exit _ w [Hl Hh]. by split.
  - intros w s Es _ [Hl Hh]. split; [simpl; by rewrite Es|done].
  - intros p q z w (Hl & h & Hh & Hip & Hv). unfold limiter_tryAcquire, bind, tick, stepM. simpl.
    rewrite Hh. apply (limiter_stable (w_tick w)) in Hl. destruct Hl as [l El]. rewrite El. simpl.
    pose proof (Holder_TryAcquire_ip (env_hz (w_tick w)) (env_now (w_tick w)) h l p q z) as [H1' H2'].
    destruct (Holder_TryAcquire _ _ _ _ _ _ _) as [[ok h'] l']. simpl in *.
    split; [by eexists|]. exists h'. split_and!; [done|by rewrite H1'|]. intros Hi.
    rewrite H2'; [by apply Hv|by rewrite Hip].
Qed.

Lemma Change_keeps_holder `{!LimiterStable} port ip w : holder_ok ip w → holder_ok ip (Change port w).2.
Proof. exact (Change_respects (keeps_holder ip) port w). Qed.

End frame.
