(* ===== verification/Resolver.v ===== *)
(** * The resolver is safe

    Every handler and the state machine, in the logic of [Logic]: no panic, gate
    slots balanced, and the messages in the shape the next state expects. *)

From S2P Require Import Prelude GoLib Float64 NetIP Dns Zone External Cache RateLog Gate.
From S2P Require Import HostsForward IPQuality IPPool HotZone Limiter World States Upstream.
From S2P Require Import Logic StateMachine Frame.

Section resolver.
Context `{DLL : DnsLibLaws} `{GCL : GoCacheLaws Msg} `{EML : EbpfMapLaws BPFKey BPFValue}.
Context `{GS : GoSort} `{E : !Env} `{EOK : !EnvOk}.

Abbreviation MW := (M World).
Abbreviation any := (λ _, True).
Abbreviation zero := (λ _, 0).

(** ** Exchanges *)

Definition exchange_val (r : Msg * Z + RErr) : Prop :=
  match r with inl (m, _) => extra_ok m | inr _ => True end.

Lemma qd_exchange q target path :
  qd exchange_val zero (exchangeWithUpstreamGate q target path).
Proof.
  unfold exchangeWithUpstreamGate. qd_auto.
  destruct (env_exchange _ q target) as [m rtt|e] eqn:Ex; [|done]. by eapply exchange_ok.
Qed.

Definition he_val (r : happyEyeballsResult + RErr) : Prop :=
  match r with inl h => extra_ok (he_response h) | inr _ => True end.

Lemma qd_querySingle q best port : qd he_val zero (querySingle q best port).
Proof.
  unfold querySingle. eapply qd_bind; [apply qd_exchange|]. intros r Hr. qd_auto.
Qed.

Lemma qd_race_won best addr m rtt : extra_ok m → qd he_val zero (race_won best addr m rtt).
Proof. intros Hm. unfold race_won. qd_auto. Qed.

Lemma qd_race_failed addr e : qd any zero (race_failed addr e).
Proof. unfold race_failed. qd_auto. Qed.

Lemma qd_loser (b : bool) : qd any (λ _, -1) (if b then gate_release else leave_running).
Proof. destruct b; eauto with rec53. Qed.

Hint Resolve qd_race_failed qd_loser qd_querySingle qd_race_won : rec53.

Lemma qd_happyEyeballs q best second port : qd he_val zero (queryHappyEyeballs q best second port).
Proof.
  unfold queryHappyEyeballs. qd_auto.
  all: eapply qd_mono; [apply qd_race_won|intros; split; [done|lia]].
  all: destruct (env_primaryFirst _) in *; simplify_eq; by eapply exchange_ok.
Qed.

(** ** Name servers' addresses *)

Lemma qd_a_extras l : Forall rr_typed l → qd any zero (a_extras l).
Proof.
  induction 1 as [|rr l Hrr Hl IH]; simpl; [by apply qd_ret|].
  destruct (Z.eqb_spec (Hdr_Rrtype (Header rr)) TypeA) as [Ht|Ht]; [|done].
  apply rr_typed_A in Ht; [|done]. destruct rr; try done.
  eapply qd_bind; [exact IH|]. intros l' _. by apply qd_ret.
Qed.

Lemma qd_resolveNSIPs names : qd any zero (resolveNSIPs names).
Proof.
  induction names as [|n names IH]; simpl; [by apply qd_ret|].
  eapply qd_bind; [apply qd_cache_getCopy|]. intros found _.
  eapply qd_bind; [exact IH|]. intros l _. by apply qd_ret.
Qed.

Lemma qd_updateNSIPsCache results : qd any zero (updateNSIPsCache results).
Proof.
  induction results as [|r results IH]; simpl; [by apply qd_ret|].
  eapply qd_bind; [apply qd_tick|]. intros t _.
  eapply qd_bind; [apply qd_cache_setCopy|].
  - unfold extra_ok. simpl. destruct (SetQuestion_spec new_Msg (nr_nsName r) TypeA (env_id t))
      as (_ & _ & _ & _ & _ & _ & ->). constructor.
  - intros ? _. eapply qd_mono; [exact IH|]. intros. split; [done|lia].
Qed.

(** A nested resolution: from the messages it is given it does not panic, and it
    returns a message or an error. *)
Definition nested_ok (m : MW (option Msg * option RErr)) : Prop :=
  Hoare (λ rq rs, Questions rq ≠ [] ∧ rs = new_Msg) m
    (λ r _ _, is_Some r.1 ∨ is_Some r.2).

Lemma qd_resolve_one change name : nested_ok change → qd any zero (resolve_one change name).
Proof.
  intros Hn. unfold resolve_one. eapply qd_bind; [apply qd_tick|]. intros t _ w Hw.
  unfold wp, bind, gets, modify.
  set (req := set_RecursionDesired (SetQuestion new_Msg name TypeA (env_id t)) false).
  assert (Questions req ≠ []) as Hq.
  { unfold req. simpl. by destruct (SetQuestion_spec new_Msg name TypeA (env_id t)) as (-> & _). }
  specialize (Hn (set_resp (Some new_Msg) (set_req (Some req) w)) req new_Msg Hw eq_refl eq_refl
    (conj Hq eq_refl)). unfold wp in Hn.
  destruct (change (set_resp (Some new_Msg) (set_req (Some req) w))) as [[r|] w']; [|done].
  destruct Hn as (Hw' & Hb & _ & _ & _ & _ & Hr).
  assert (∀ l : list string, quiet 0 w (set_resp (w_resp w) (set_req (w_req w) w')) ∧ any l) as Hquiet.
  { intros l. split; [|done]. apply quiet_intro; try done. unfold bal in *. simpl in *. lia. }
  destruct r as [[m|] [e|]]; simpl in Hr; [exact (Hquiet [])|exact (Hquiet (a_addresses (Answer m)))
    |exact (Hquiet [])|]. exfalso. by destruct Hr as [[]|[]].
Qed.

Lemma qd_run_schedule change t names order :
  nested_ok change → qd any zero (run_schedule change t names order).
Proof.
  intros Hn. induction order as [|i order IH]; simpl; [by apply qd_ret|].
  destruct (names !! i) as [name|]; [|exact IH].
  eapply qd_bind; [by apply qd_resolve_one|]. intros ips _.
  eapply qd_bind; [exact IH|]. intros l _. by apply qd_ret.
Qed.

(** Above depth 0 the nested resolution is not run, so nothing is asked of it. *)
Lemma qd_resolveNSIPsConcurrently depth change names :
  0 < depth ∨ nested_ok change → qd any zero (resolveNSIPsConcurrently depth change names).
Proof.
  intros Hn. unfold resolveNSIPsConcurrently. destruct names as [|ns0 others]; [by apply qd_ret|].
  destruct (Z.ltb_spec 0 depth) as [Hd|Hd]; [by apply qd_ret|]. destruct Hn as [|Hn]; [lia|].
  eapply (qd_bind any zero).
  { destruct (0 <? length others)%nat; [|by apply qd_ret]. qd_auto. }
  intros ? _. eapply qd_bind; [apply qd_tick|]. intros t _.
  eapply qd_bind; [by apply qd_run_schedule|]. intros results _.
  destruct results as [|r results]; [by apply qd_ret|].
  eapply qd_bind; [apply qd_updateNSIPsCache|]. intros ? _. by apply qd_ret.
Qed.

Lemma qd_delegation_ips depth change resp :
  0 < depth ∨ nested_ok change → extra_ok resp → qd any zero (delegation_ips depth change resp).
Proof.
  intros Hn Hr. unfold delegation_ips. eapply qd_bind; [by apply qd_a_extras|]. intros l _.
  case_match; [|by apply qd_ret]. eapply qd_bind; [apply qd_resolveNSIPs|]. intros l' _.
  case_match; [|by apply qd_ret].
  eapply qd_mono; [by apply qd_resolveNSIPsConcurrently|]. intros. split; [done|lia].
Qed.

Lemma qd_getBest ips : qd any zero (getBestAddressAndPrefetchIPs ips).
Proof. unfold getBestAddressAndPrefetchIPs. qd_auto. Qed.

Hint Resolve qd_exchange qd_happyEyeballs qd_getBest : rec53.

Lemma qd_get_shared : qd shared_ok zero get_shared.
Proof. apply qd_gets. done. Qed.
Hint Resolve qd_get_shared : rec53.

(** ** The handlers *)

Section handlers.
(** The id of the client's request and the number of its questions. *)
Context (id0 : Z) (n0 : nat).

Definition req_ok (rq : Msg) : Prop := Id (Hdr rq) = id0 ∧ length (Questions rq) = n0.

(** The response is a reply to the client. *)
Definition replies (m : Msg) : Prop := Id (Hdr m) = id0 ∧ Response (Hdr m) = true.

(** The messages between two states: both have a question, and the response is a
    reply to the client. *)
Definition msgs_ok (rq rs : Msg) : Prop :=
  (Questions rq ≠ [] ∧ req_ok rq) ∧ (Questions rs ≠ [] ∧ replies rs) ∧ extra_ok rs.

(** The response a resolution begins with. *)
Definition empty_resp (rs : Msg) : Prop := extra_ok rs ∧ Answer rs = [] ∧ Questions rs = [].

(** A handler that keeps [msgs_ok] and returns one of [codes], or an error in [errs]. *)
Definition hspec (codes : list Z) (errs : RErr → Prop) (m : MW (Z * option RErr)) : Prop :=
  Hoare msgs_ok m (λ r rq rs, msgs_ok rq rs ∧
    match r.2 with Some e => errs e | None => r.1 ∈ codes end).

Ltac h_done := repeat h_step; try (intros; unfold msgs_ok, extra_ok in *; simpl in *; naive_solver).

Lemma stateInit_spec :
  Hoare (λ rq rs, empty_resp rs ∧ req_ok rq) stateInit_handle
    (λ r rq rs, r.2 = None ∧
      (r.1 = STATE_INIT_FORMERR ∧ Rcode (Hdr rs) = RcodeFormatError ∧ Answer rs = [] ∧ length (Questions rs) = Nat.min 1 n0 ∧
         replies rs ∧ req_ok rq ∨
       r.1 = STATE_INIT_NO_ERROR ∧ msgs_ok rq rs ∧ Answer rs = [] ∧ Questions rs = Questions rq)).
Proof.
  unfold stateInit_handle. repeat h_step.
  - naive_solver.
  - intros rq rs [(rs0 & ((((He & Ha & Hq0) & Hid & Hl) & _) & ->) & ->) ->]. split; [done|left].
    rewrite SetRcode_spec. destruct (SetReply_spec rs0 rq) as (Hq & Hi & Hr & _ & _ & Hans & _).
    unfold replies. simpl. rewrite Hans, Hi, Hr, Hq, Hq0. split_and!; try done. rewrite <-Hl. by destruct (Questions rq) as [|? []].
  - intros rq rs [(rs0 & ((((He & Ha & Hq0) & Hid & Hl) & _) & ->) & ->) ->]. split; [done|right].
    destruct (SetReply_spec rs0 rq) as (Hq & Hi & Hr & _ & _ & Hans & _ & Hex).
    match goal with H : _ || _ || _ = false |- _ => rewrite !orb_false_iff, negb_false_iff, Nat.eqb_eq in H;
      destruct H as [[Hlen _] _] end.
    unfold msgs_ok, req_ok, replies, extra_ok. rewrite Hq, Hans, Hex, Hi, Hr.
    destruct (Questions rq) as [|q [|]]; try done.
Qed.

(** Assertions left over by [h_step]: the messages are still in shape. *)
Ltac h_solve :=
  intros; cbn beta in *; destruct_and?; destruct_or?; subst;
  repeat match goal with H : ∃ _, _ |- _ => destruct H end; destruct_and?; subst;
  unfold msgs_ok, req_ok, replies, extra_ok in *; destruct_and?; simpl in *; split_and?; try done;
  try (by repeat constructor).

Lemma hostsLookup_spec : hspec [HOSTS_LOOKUP_HIT; HOSTS_LOOKUP_MISS] (λ _, False) hostsLookup_handle.
Proof. unfold hspec, hostsLookup_handle. repeat h_step; h_solve. Qed.

Lemma cacheLookup_spec : hspec [CACHE_LOOKUP_HIT; CACHE_LOOKUP_MISS] (λ _, False) cacheLookup_handle.
Proof. unfold hspec, cacheLookup_handle, cache_getCopyByType. repeat h_step; h_solve. Qed.

Lemma extractGlue_spec : hspec [EXTRACT_GLUE_EXIST; EXTRACT_GLUE_NOT_EXIST] (λ _, False) extractGlue_handle.
Proof. unfold hspec, extractGlue_handle. repeat h_step; h_solve. Qed.

Lemma returnResp_spec : hspec [RETURN_RESP_NO_ERROR] (λ _, False) returnResp_handle.
Proof. unfold hspec, returnResp_handle. repeat h_step; h_solve. Qed.

Lemma forward_upstreams_spec q ups :
  Hoare msgs_ok (forward_upstreams q ups)
    (λ code rq rs, msgs_ok rq rs ∧ code ∈ [FORWARD_LOOKUP_SERVFAIL; FORWARD_LOOKUP_HIT]).
Proof.
  induction ups as [|u ups IH]; simpl; [h_step; h_solve|].
  eapply h_bind; [eapply h_quiet; apply qd_exchange|]. intros [[m rtt]|e]; simpl.
  - repeat h_step; h_solve.
  - h_step; [h_step; h_solve|]. eapply h_conseq; [exact IH|by intros ?? [? _]|done].
Qed.

Lemma forwardLookup_spec :
  hspec [FORWARD_LOOKUP_HIT; FORWARD_LOOKUP_MISS; FORWARD_LOOKUP_SERVFAIL; FORWARD_LOOKUP_REFUSED]
    (λ _, False) forwardLookup_handle.
Proof.
  unfold hspec, forwardLookup_handle. repeat h_step; try h_solve.
  eapply h_bind.
  - eapply h_conseq; [apply forward_upstreams_spec|h_solve|done].
  - intros code. h_step. intros rq rs [Hm Hc]. split; [done|]. simpl. set_solver.
Qed.

Lemma classify_codes qtype m :
  classify qtype m ∈ [CLASSIFY_RESP_GET_ANS; CLASSIFY_RESP_GET_CNAME; CLASSIFY_RESP_GET_NS;
                      CLASSIFY_RESP_GET_NEGATIVE].
Proof. unfold classify. repeat case_match; set_solver. Qed.

Lemma qd_cache_negative name qtype m : extra_ok m → qd any zero (cache_negative name qtype m).
Proof. intros Hm. unfold cache_negative, cache_setCopyByType. qd_auto. Qed.

Lemma classifyResp_spec :
  hspec [CLASSIFY_RESP_GET_ANS; CLASSIFY_RESP_GET_CNAME; CLASSIFY_RESP_GET_NS; CLASSIFY_RESP_GET_NEGATIVE]
    (λ _, False) classifyResp_handle.
Proof.
  unfold hspec, classifyResp_handle. h_step. h_step; [h_step; h_solve|].
  do 3 h_step; [h_solve|].
  match goal with |- Hoare _ (if classify ?t ?m =? _ then _ else _) _ =>
    apply (h_pre (extra_ok m)); [h_solve|intros Hm]; pose proof (classify_codes t m) as Hc end.
  h_step.
  - eapply h_bind; [eapply h_quiet; by apply qd_cache_negative|]. intros ?. h_step. h_solve.
  - h_step. h_solve.
Qed.

Lemma qd_lookup_zones zones : qd (λ r, ∀ m, r = Some m → extra_ok m) zero (lookup_zones zones).
Proof.
  induction zones as [|z zones IH]; simpl; [by apply qd_ret|].
  eapply qd_bind; [apply qd_cache_getCopy|]. intros found Hf.
  repeat case_match; subst; try exact IH. apply qd_ret; [|done]. intros m' [= <-]. by apply Hf.
Qed.

(** The built-in root hints, or the override. *)
Lemma GetRootGlue_ok s id : shared_ok s → extra_ok (GetRootGlue (sh_rootGlue s) id).
Proof.
  intros [_ Hr]. unfold GetRootGlue. destruct (sh_rootGlue s) as [m|].
  - rewrite Msg_Copy_spec. by apply Hr.
  - unfold extra_ok. simpl. by repeat constructor.
Qed.

Lemma lookupNSCache_spec : hspec [LOOKUP_NS_CACHE_HIT; LOOKUP_NS_CACHE_MISS] (λ _, False) lookupNSCache_handle.
Proof.
  unfold hspec, lookupNSCache_handle. h_step. h_step; [h_step; h_solve|].
  do 2 h_step; [h_solve|]. rewrite GetZoneList_parents.
  eapply h_bind; [eapply h_quiet; apply qd_lookup_zones|]. intros found. h_step.
  - repeat h_step. h_solve. apply Forall_app. split; [done|]. naive_solver.
  - do 3 h_step. repeat h_step. h_solve. apply Forall_app. split; [done|]. by apply GetRootGlue_ok.
Qed.

Lemma copy_rcode_ns_spec m : Hoare msgs_ok (copy_rcode_ns m) (λ _ rq rs, msgs_ok rq rs).
Proof.
  unfold copy_rcode_ns. h_step. eapply h_conseq; [apply h_put_resp|intros ?? Hp; exact Hp|]. h_solve.
Qed.

Definition query_codes : list Z := [QUERY_UPSTREAM_COMMON_ERROR; QUERY_UPSTREAM_NO_ERROR].

Lemma accept_response_spec rq0 m :
  extra_ok m → Questions rq0 ≠ [] → hspec query_codes (λ _, True) (accept_response rq0 m).
Proof.
  intros Hm Hq. unfold hspec, accept_response, cache_setCopyByType. h_step; [h_step; h_solve|].
  h_step; [done|]. h_step; [h_step; h_solve|].
  eapply h_bind; [eapply (h_quiet any); qd_auto|]. intros ?.
  eapply h_bind; [eapply (h_quiet any); qd_auto|]. intros ?.
  repeat h_step. h_solve.
Qed.

Lemma retry_alternate_spec rq0 q ip best second port rc :
  Questions rq0 ≠ [] →
  hspec query_codes (λ _, True) (retry_alternate rq0 q ip best second port rc).
Proof.
  intros Hq. unfold hspec, retry_alternate, pool_recordFailure, pool_recordLatency. do 2 h_step.
  h_step; [repeat h_step; h_solve|].
  eapply h_bind; [eapply h_quiet; apply qd_exchange|]. intros [[m rtt]|e]; simpl.
  - do 2 h_step. apply (h_pre (extra_ok m)); [naive_solver|intros Hm].
    eapply h_bind; [eapply h_conseq; [apply (copy_rcode_ns_spec m)|naive_solver|done]|]. intros ?.
    h_step; [h_step; [h_step; h_solve|]|by apply accept_response_spec].
    repeat h_step; h_solve.
  - eapply h_bind; [eapply (h_quiet any); qd_auto|]. intros ?. h_step. h_solve.
Qed.

Lemma queryUpstream_spec port depth change :
  0 < depth ∨ nested_ok change →
  hspec query_codes (λ _, True) (queryUpstream_handle port depth change).
Proof.
  intros Hn. unfold hspec, queryUpstream_handle. h_step. h_step; [h_step; h_solve|]. h_step.
  do 2 h_step; [h_solve|]. h_step; [h_step; h_solve|]. do 3 h_step.
  match goal with |- Hoare _ (bind (delegation_ips _ _ ?m) _) _ =>
    apply (h_pre (extra_ok m)); [h_solve|intros Hm] end.
  match goal with |- context [accept_response ?r] =>
    apply (h_pre (Questions r ≠ [])); [h_solve|intros Hq] end.
  eapply h_bind; [eapply h_quiet; by apply qd_delegation_ips|]. intros ips.
  eapply h_bind; [eapply h_quiet; apply qd_getBest|]. intros [[best second] err]. cbv beta iota.
  h_step.
  { h_step. intros rq rs HP. split; [naive_solver|]. simpl. destruct err; [done|]. unfold query_codes. set_solver. }
  eapply h_bind; [eapply h_quiet; apply qd_happyEyeballs|]. intros [h|e]; simpl; [|h_step; h_solve].
  unfold pool_recordLatency. h_step. apply (h_pre (extra_ok (he_response h))); [naive_solver|intros Hh].
  assert (∀ P (m : MW (Z * option RErr)), hspec query_codes (λ _, True) m →
    (∀ rq rs, P rq rs → msgs_ok rq rs) →
    Hoare P m (λ r rq rs, msgs_ok rq rs ∧ match r.2 with Some _ => True | None => r.1 ∈ query_codes end))
    as Hconv by (intros P m Hm' HP; eapply h_conseq; [exact Hm'|exact HP|done]).
  h_step; [|apply Hconv; [by apply accept_response_spec|naive_solver]].
  eapply h_bind; [eapply h_conseq; [apply (copy_rcode_ns_spec (he_response h))|naive_solver|done]|]. intros ?.
  h_step; [h_step; h_solve|]. h_step; [by apply retry_alternate_spec|h_step; h_solve].
Qed.

(** ** The loop *)

Definition inner_states : list Z :=
  [HOSTS_LOOKUP; FORWARD_LOOKUP; CACHE_LOOKUP; CLASSIFY_RESP; EXTRACT_GLUE; LOOKUP_NS_CACHE;
   QUERY_UPSTREAM; RETURN_RESP].

Definition cname_targets (chain : list RR) : list string :=
  omap (λ rr, match rr with RR_CNAME _ target => Some target | _ => None end) chain.

(** The CNAME chain: aliases with pairwise different targets. *)
Definition cname_chain (chain : list RR) : Prop :=
  Forall (λ rr, is_CNAME rr = true) chain ∧ NoDup (cname_targets chain).

Definition loop_inv (lp : Loop) : Prop :=
  cname_chain (lp_chain lp) ∧ lp_visited lp = list_to_set (cname_targets (lp_chain lp)).

Definition loop_ok (lp : Loop) (rq rs : Msg) : Prop :=
  loop_inv lp ∧
  (lp_state lp = STATE_INIT ∧ empty_resp rs ∧ req_ok rq ∨
   lp_state lp ∈ inner_states ∧ msgs_ok rq rs).

(** What a resolution can return: a reply to the client that is an answer to the
    original question behind the aliases followed or an empty answer with an error
    code; or an error. *)
Definition outcome (origQ : Question) (r : option Msg * option RErr) : Prop :=
  match r with
  | (Some m, None) => replies m ∧
      ((∃ chain ans, Answer m = chain ++ ans ∧ cname_chain chain ∧ head (Questions m) = Some origQ) ∨
      (Rcode (Hdr m) ∈ [RcodeFormatError; RcodeServerFailure; RcodeRefused] ∧ Answer m = [] ∧
         length (Questions m) = Nat.min 1 n0))
  | (None, Some e) =>
      (∃ e', e = ErrHandle QUERY_UPSTREAM e') ∨ (∃ t, e = ErrCNAMECycle t) ∨ e = ErrMaxIterations
  | _ => False
  end.

Definition next_ok (origQ : Question) (st : Z) (n : Loop + (option Msg * option RErr))
    (rq rs : Msg) : Prop :=
  match n with
  | inl lp' => (st, lp_state lp') ∈ edges ∧ loop_ok lp' rq rs
  | inr r => outcome origQ r ∧ req_ok rq
  end.

Lemma h_log {A} P a (k : unit → MW A) Q : Hoare P (k tt) Q → Hoare P (bind (log a) k) Q.
Proof.
  intros Hk. eapply h_bind; [eapply h_quiet; apply qd_log|]. intros []. 
  eapply h_conseq; [exact Hk|by intros ?? [? _]|done].
Qed.

Lemma h_terminal {A} P st exit (k : unit → MW A) Q :
  Hoare P (k tt) Q → Hoare P (bind (recordTerminalExit st exit) k) Q.
Proof.
  intros Hk. eapply h_bind.
  - eapply (h_quiet any). unfold recordTerminalExit, recordTraceTerminal.
    eapply qd_bind; [apply qd_log|]. intros ? _. eapply qd_mono; [apply qd_trace|]. intros. split; [done|lia].
  - intros []. eapply h_conseq; [exact Hk|by intros ?? [? _]|done].
Qed.

Lemma h_goto origQ P lp to :
  (lp_state lp, to) ∈ edges → to ∈ inner_states → loop_inv lp →
  (∀ rq rs, P rq rs → msgs_ok rq rs) → Hoare P (goto lp to) (next_ok origQ (lp_state lp)).
Proof.
  intros He Hin Hinv HP. unfold goto, recordStateTransition. apply h_log. apply h_ret.
  intros rq rs Hm. split; [done|]. split; [done|]. right. split; [done|by apply HP].
Qed.

Lemma h_exit_error origQ P lp f e st :
  (∃ e', e = ErrHandle QUERY_UPSTREAM e') ∨ (∃ t, e = ErrCNAMECycle t) ∨ e = ErrMaxIterations →
  (∀ rq rs, P rq rs → req_ok rq) → Hoare P (exit_error lp f e) (next_ok origQ st).
Proof. intros He HP. unfold exit_error. apply h_log, h_terminal, h_ret. intros rq rs Hp. split; [done|by eapply HP]. Qed.

Lemma h_exit_rcode origQ P lp exit rc st :
  rc ∈ [RcodeFormatError; RcodeServerFailure; RcodeRefused] → (∀ rq rs, P rq rs → msgs_ok rq rs) →
  Hoare P (exit_rcode lp exit rc) (next_ok origQ st).
Proof.
  intros Hrc HP. unfold exit_rcode. apply h_terminal. h_step. apply h_ret.
  intros rq rs [Hp ->]. destruct (HP _ _ Hp) as [[_ [Hid Hl]] _].
  rewrite SetRcode_spec. destruct (SetReply_spec new_Msg rq) as (Hq & Hi & Hr & _ & _ & Hans & _).
  unfold next_ok, outcome, replies. simpl. rewrite Hans, Hi, Hr, Hq. split; [|done]. split; [done|right].
  split_and!; [done|done|]. rewrite <-Hl. by destruct (Questions rq) as [|? []].
Qed.

(** Running a state's handler. *)
Lemma h_handle {A} codes (errs : RErr → Prop) st m (k : Z * option RErr → MW A) Q :
  hspec codes errs m →
  (∀ code, code ∈ codes → Hoare msgs_ok (k (code, None)) Q) →
  (∀ code e, errs e → Hoare msgs_ok (k (code, Some (ErrHandle st e))) Q) →
  Hoare msgs_ok (bind (handleState st m) k) Q.
Proof.
  intros Hm Hk He. eapply h_bind.
  - unfold handleState. eapply h_bind; [exact Hm|]. intros r.
    apply (h_ret _ (λ r' rq rs, msgs_ok rq rs ∧ match r'.2 with
      | Some e => ∃ e', e = ErrHandle st e' ∧ errs e' | None => r'.1 ∈ codes end)).
    intros rq rs [H1' H2']. split; [done|]. simpl. destruct (r.2); simpl; eauto.
  - intros [code [e|]]; simpl.
    + apply (h_pre (∃ e', e = ErrHandle st e' ∧ errs e')); [by intros ?? [_ ?]|].
      intros (e' & -> & He'). eapply h_conseq; [by apply He|by intros ?? [? _]|done].
    + apply (h_pre (code ∈ codes)); [by intros ?? [_ ?]|]. intros Hc.
      eapply h_conseq; [by apply Hk|by intros ?? [? _]|done].
Qed.

Lemma first_cname_spec l rr target :
  first_cname l = Some (rr, target) → rr ∈ l ∧ ∃ h, rr = RR_CNAME h target.
Proof.
  induction l as [|x l IH]; simpl; [done|]. destruct x; intros Hx;
    try (destruct (IH Hx) as [? ?]; split; [by right|done]).
  injection Hx as <- <-. split; [by left|eauto].
Qed.

Lemma chain_snoc chain h target :
  cname_chain chain → target ∉ cname_targets chain →
  cname_chain (chain ++ [RR_Copy (RR_CNAME h target)]) ∧
  list_to_set (C := gset string) (cname_targets (chain ++ [RR_Copy (RR_CNAME h target)])) =
    {[target]} ∪ list_to_set (cname_targets chain).
Proof.
  rewrite RR_Copy_spec. intros [Hc Hn] Ht. unfold cname_targets. rewrite omap_app. simpl.
  fold (cname_targets chain). split.
  - split; [apply Forall_app; split; [done|by repeat constructor]|].
    unfold cname_targets. rewrite omap_app. simpl. apply NoDup_app. split_and!; [done| |apply NoDup_singleton].
    intros x Hx ->%list_elem_of_singleton. done.
  - rewrite list_to_set_app_L. simpl. set_solver.
Qed.

Lemma h_followCNAME chain visited :
  cname_chain chain → visited = list_to_set (cname_targets chain) →
  Hoare msgs_ok (followCNAME chain visited) (λ r rq rs, msgs_ok rq rs ∧
    match r with
    | inl (chain', visited') =>
        cname_chain chain' ∧ visited' = list_to_set (cname_targets chain')
    | inr e => ∃ t, e = ErrCNAMECycle t
    end).
Proof.
  intros Hc Hv. unfold followCNAME. h_step.
  destruct (first_cname (Answer a)) as [[rr target]|] eqn:Ef; [|h_step; naive_solver].
  apply first_cname_spec in Ef as (_ & h & ->).
  h_step; [h_step; naive_solver|]. destruct (bool_decide_reflect (target ∈ visited)) as [Hin|Hnin].
  { h_step. naive_solver. }
  h_step. eapply h_bind; [apply h_get_req|]. intros rq0. unfold rename_question.
  destruct (Questions rq0) as [|q qs] eqn:Eq.
  { apply (h_pre False); [|done]. intros rq rs [[(rs0 & [((Hq & _) & _) _]) _] ->]. done. }
  eapply (h_bind _ (λ rq' rq rs, msgs_ok rq' rs)).
  { apply h_ret. intros rq rs [[(rs0 & [((Hq & Hid) & (Hq' & Hr) & Hx) ->]) ->] ->].
    split; [destruct Hid as [? Hl]; rewrite Eq in Hl; done|]. case_match; (split; [done|]); unfold extra_ok; simpl; [constructor|done]. }
  intros rq1. h_step. apply h_ret. intros rq rs [(rq2 & Hm) ->]. split; [done|].
  subst visited. rewrite elem_of_list_to_set in Hnin. by destruct (chain_snoc chain h target) as [? ?].
Qed.

Lemma h_buildFinalResponse origQ chain :
  cname_chain chain →
  Hoare msgs_ok (buildFinalResponse origQ chain) (λ m rq rs, outcome origQ (Some m, None) ∧ req_ok rq).
Proof.
  intros Hc. unfold buildFinalResponse. h_step.
  destruct (Questions a) as [|q qs] eqn:Eq.
  { apply (h_pre False); [|done]. intros rq rs [(_ & [Hq _] & _) ->]. done. }
  h_step. apply h_ret. intros rq rs [(rs0 & ([_ Hrq] & [_ Hr] & _) & ->) _]. split; [|done].
  destruct chain as [|c chain]; (split; [done|]); left; [exists [], (Answer rs0)|exists (c :: chain), (Answer rs0)];
    done.
Qed.

Ltac in_cases H :=
  unfold query_codes in H; rewrite ?elem_of_cons in H;
  repeat match type of H with _ ∨ _ => destruct H as [H|H] end;
  try (by apply not_elem_of_nil in H); subst.

Lemma init_not_inner : STATE_INIT ∉ inner_states.
Proof. apply (bool_decide_unpack _). by vm_compute. Qed.

(** Decide the comparisons of known codes. *)
Ltac eval_ifs :=
  repeat (cbv beta iota;
    lazymatch goal with
    | |- Hoare _ (if ?b then _ else _) _ =>
        let v := eval vm_compute in b in
        lazymatch v with true => change b with true | false => change b with false end
    end); cbv beta iota.

Ltac goto_done := apply h_goto; [cbn [lp_state]; unfold edges; set_solver|unfold inner_states; set_solver|done|done].

(** One lemma per state. *)
Definition case_ok (st : Z) (m : Loop → MW (Loop + (option Msg * option RErr))) : Prop :=
  ∀ origQ lp, lp_state lp = st → loop_inv lp → Hoare msgs_ok (m lp) (next_ok origQ (lp_state lp)).

Ltac case_start spec :=
  intros origQ [st chain visited] Hst Hinv; cbn [lp_state] in Hst; subst st;
  eapply h_handle; [apply spec|intros code Hcode; in_cases Hcode; eval_ifs|intros code e He; try done].

Lemma case_HOSTS_LOOKUP_ok : case_ok HOSTS_LOOKUP case_HOSTS_LOOKUP.
Proof. case_start hostsLookup_spec; goto_done. Qed.

Lemma case_FORWARD_LOOKUP_ok : case_ok FORWARD_LOOKUP case_FORWARD_LOOKUP.
Proof.
  case_start forwardLookup_spec; [goto_done|goto_done|apply h_log|]; apply h_exit_rcode; [set_solver|done|set_solver|done].
Qed.

Lemma case_CACHE_LOOKUP_ok : case_ok CACHE_LOOKUP case_CACHE_LOOKUP.
Proof.
  case_start cacheLookup_spec; [goto_done|]. h_step. cbv zeta.
  eapply h_bind; [eapply h_quiet; apply qd_limiter_tryAcquire|]. intros ok.
  destruct ok; cbn [negb]; [|apply h_exit_rcode; [set_solver|naive_solver]].
  apply h_goto; [cbn [lp_state]; unfold edges; set_solver|unfold inner_states; set_solver|done|naive_solver].
Qed.

Lemma case_CLASSIFY_RESP_ok : case_ok CLASSIFY_RESP case_CLASSIFY_RESP.
Proof.
  case_start classifyResp_spec; [goto_done| |goto_done|goto_done].
  eapply h_bind; [apply h_followCNAME; apply Hinv|]. intros [[chain' visited']|e]; simpl.
  - apply (h_pre (cname_chain chain' ∧ visited' = list_to_set (cname_targets chain'))); [naive_solver|].
    intros Hinv'. apply (h_goto origQ _ (mkLoop CLASSIFY_RESP chain' visited'));
      [cbn [lp_state]; unfold edges; set_solver|unfold inner_states; set_solver|done|naive_solver].
  - apply (h_pre (∃ t, e = ErrCNAMECycle t)); [naive_solver|]. intros He. apply h_exit_error; [auto|]. intros rq rs [[[_ ?] _] _]. done.
Qed.

Lemma case_EXTRACT_GLUE_ok : case_ok EXTRACT_GLUE case_EXTRACT_GLUE.
Proof. case_start extractGlue_spec; goto_done. Qed.

Lemma case_LOOKUP_NS_CACHE_ok : case_ok LOOKUP_NS_CACHE case_LOOKUP_NS_CACHE.
Proof. case_start lookupNSCache_spec; goto_done. Qed.

Lemma case_QUERY_UPSTREAM_ok port depth nested :
  0 < depth ∨ nested_ok nested → case_ok QUERY_UPSTREAM (case_QUERY_UPSTREAM port depth nested).
Proof.
  intros Hn. intros origQ [st chain visited] Hst Hinv. cbn [lp_state] in Hst. subst st.
  eapply h_handle; [by apply queryUpstream_spec|intros code Hcode; in_cases Hcode; eval_ifs|].
  - apply h_log, h_exit_rcode; [set_solver|done].
  - goto_done.
  - intros code e _. apply h_exit_error; [left; by exists e|]. intros rq rs [[_ ?] _]. done.
Qed.

Lemma case_RETURN_RESP_ok origQ0 origQ lp :
  lp_state lp = RETURN_RESP → loop_inv lp → origQ0 = origQ →
  Hoare msgs_ok (case_RETURN_RESP origQ0 lp) (next_ok origQ (lp_state lp)).
Proof.
  intros Hst Hinv ->. eapply h_handle; [apply returnResp_spec| |done].
  intros code _. apply h_terminal. eapply h_bind; [apply h_buildFinalResponse, Hinv|].
  intros m. apply h_ret. done.
Qed.

Lemma case_STATE_INIT_ok origQ lp :
  lp_state lp = STATE_INIT → loop_inv lp →
  Hoare (λ rq rs, empty_resp rs ∧ req_ok rq) (case_STATE_INIT lp) (next_ok origQ (lp_state lp)).
Proof.
  destruct lp as [st chain visited]. cbn [lp_state]. intros -> Hinv. unfold case_STATE_INIT.
  eapply (h_bind _ (λ r rq rs, r.2 = None ∧
    (r.1 = STATE_INIT_FORMERR ∧ Rcode (Hdr rs) = RcodeFormatError ∧ Answer rs = [] ∧ length (Questions rs) = Nat.min 1 n0 ∧
         replies rs ∧ req_ok rq ∨
     r.1 = STATE_INIT_NO_ERROR ∧ msgs_ok rq rs))).
  { unfold handleState. eapply h_bind; [apply stateInit_spec|].
    intros r. apply h_ret. intros rq rs [-> ?]. simpl. naive_solver. }
  intros [code [e|]]; [apply (h_pre False); naive_solver|]. simpl. h_step.
  - apply h_log. unfold exit_response. apply h_terminal.
    eapply h_bind; [apply h_gets_resp|]. intros m. apply h_ret.
    intros rq rs [[_ [(_ & Hrc & Ha & Hl & Hr & Hrq)|[Hc _]]] ->]; bool_prop; [|by subst].
    split; [|done]. split; [done|]. right. rewrite Hrc. split; [set_solver|done].
  - apply (h_goto origQ _ (mkLoop STATE_INIT chain visited)); [unfold edges; set_solver|unfold inner_states; set_solver|done|].
    intros rq rs [_ [(Hc & _)|[_ ?]]]; [|done]. simpl in Hc. by rewrite Hc in *.
Qed.

Lemma iterate_spec port depth nested origQ lp :
  0 < depth ∨ nested_ok nested →
  Hoare (loop_ok lp) (iterate port depth nested origQ lp) (next_ok origQ (lp_state lp)).
Proof.
  intros Hn. unfold iterate, recordTraceState.
  eapply h_bind; [eapply h_quiet; apply qd_trace|]. intros ?. apply h_log. h_step.
  apply (h_pre (loop_inv lp)); [by intros rq rs [[[? _] _] _]|]. intros Hinv.
  eapply (h_conseq (λ rq rs, lp_state lp = STATE_INIT ∧ empty_resp rs ∧ req_ok rq ∨
    lp_state lp ∈ inner_states ∧ msgs_ok rq rs)); [|by intros rq rs [[[_ ?] _] _]|done].
  destruct (Z.eqb_spec (lp_state lp) STATE_INIT) as [Hst|Hne].
  { eapply h_conseq; [by apply case_STATE_INIT_ok| |done].
    intros rq rs [(_ & ?)|[Hin _]]; [done|]. rewrite Hst in Hin. by apply init_not_inner in Hin. }
  apply (h_pre (lp_state lp ∈ inner_states)); [naive_solver|]. intros Hst.
  eapply (h_conseq msgs_ok); [|naive_solver|done].
  unfold inner_states in Hst. rewrite !elem_of_cons in Hst.
  destruct Hst as [Hst|[Hst|[Hst|[Hst|[Hst|[Hst|[Hst|[Hst|Hst]]]]]]]]; rewrite ?Hst.
  all: try (by apply not_elem_of_nil in Hst).
  all: eval_ifs; rewrite <-?Hst.
  - by apply case_HOSTS_LOOKUP_ok.
  - by apply case_FORWARD_LOOKUP_ok.
  - by apply case_CACHE_LOOKUP_ok.
  - by apply case_CLASSIFY_RESP_ok.
  - by apply case_EXTRACT_GLUE_ok.
  - by apply case_LOOKUP_NS_CACHE_ok.
  - by apply case_QUERY_UPSTREAM_ok.
  - by apply case_RETURN_RESP_ok.
Qed.

Lemma change_loop_spec port depth nested origQ n lp :
  0 < depth ∨ nested_ok nested →
  Hoare (loop_ok lp) (change_loop port depth nested origQ n lp) (λ r rq _, outcome origQ r ∧ req_ok rq).
Proof.
  intros Hn. revert lp. induction n as [|n IH]; intros lp; simpl.
  - apply h_log, h_terminal, h_ret. intros rq rs [_ [(_ & _ & ?)|[_ [[_ ?] _]]]]; simpl; auto.
  - eapply h_bind; [by apply iterate_spec|]. intros [lp'|r].
    + eapply h_conseq; [apply IH|by intros ?? [_ ?]|done].
    + apply h_ret. done.
Qed.

Lemma loop_inv_init : loop_inv (mkLoop STATE_INIT [] ∅).
Proof. split; [split; constructor|done]. Qed.

Lemma Change_at_spec port depth nested rq0 :
  0 < depth ∨ nested_ok nested → req_ok rq0 →
  Hoare (λ rq rs, rq = rq0 ∧ empty_resp rs) (Change_at port depth nested)
    (λ r rq _, outcome (original_question rq0) r ∧ req_ok rq).
Proof.
  intros Hn Hid. unfold Change_at. h_step. apply (h_pre (a = rq0)); [naive_solver|]. intros ->.
  eapply h_conseq; [by apply change_loop_spec| |done].
  intros rq rs [(-> & Hx) _]. split; [apply loop_inv_init|]. by left.
Qed.

End handlers.

Lemma Change_nested_ok port : nested_ok (Change_nested port).
Proof.
  intros w rq rs Hw H1' H2' [Hq ->].
  pose proof (Change_at_spec (Id (Hdr rq)) (length (Questions rq)) port 1 panic rq (or_introl eq_refl)
    (conj eq_refl eq_refl) w rq new_Msg Hw H1' H2') as Hc.
  eapply wp_mono; [|by apply Hc; split; [|split_and!; [constructor|..]]].
  intros r w' (Hw' & Hb & rq' & rs' & Hrq & Hrs & Ho). split_and!; [done|done|].
  exists rq', rs'. split_and!; [done|done|]. destruct Ho as [Ho _]. destruct r as [[m|] [e|]]; simpl in *; eauto; done.
Qed.

Lemma Change_ok port w request :
  shared_ok (w_shared w) → w_req w = Some request → w_resp w = Some new_Msg →
  wp (Change port) (λ r w', outcome (Id (Hdr request)) (length (Questions request)) (original_question request) r ∧
    bal w' = bal w ∧ shared_ok (w_shared w') ∧ ∃ rq rs, w_req w' = Some rq ∧ w_resp w' = Some rs ∧
      req_ok (Id (Hdr request)) (length (Questions request)) rq) w.
Proof.
  intros Hw Hrq Hrs.
  pose proof (Change_at_spec (Id (Hdr request)) (length (Questions request)) port 0 (Change_nested port)
    request (or_intror (Change_nested_ok port)) (conj eq_refl eq_refl) w request new_Msg Hw Hrq Hrs) as Hc.
  eapply wp_mono; [|by apply Hc; split; [|split_and!; [constructor|..]]].
  intros r w' (Hw' & Hb & rq & rs & Eq & Es & Ho & Hr). split_and!; eauto 10.
Qed.

(** C1: a resolution is safe: started with any request and a fresh response, it
    never panics (no index out of range, no failed type assertion, no nil
    dereference) and ends within its 50 iterations, whatever the upstream servers
    answer, the clock reads and other goroutines do to the shared state.  It
    returns either a reply with the client's id, which is an answer to the original
    question behind the CNAME records that were followed, whose targets are
    pairwise different, or an empty answer with code FORMERR, SERVFAIL or REFUSED;
    or an error of the upstream query, of
    CNAME cycle detection or of the iteration limit, never a missing message
    without an error and never the "wrong state" error.  The gate slots it took
    are released, except for one per goroutine that is still running. *)
Theorem Change_safe (port : string) (w : World) (request : Msg) :
  shared_ok (w_shared w) → w_req w = Some request → w_resp w = Some new_Msg →
  ∃ r w', Change port w = (Ok r, w') ∧ outcome (Id (Hdr request)) (length (Questions request)) (original_question request) r ∧
    w_slots w' - w_background w' = w_slots w - w_background w ∧ shared_ok (w_shared w').
Proof.
  intros Hw Hrq Hrs. pose proof (Change_ok port w request Hw Hrq Hrs) as Hc. unfold wp in Hc.
  destruct (Change port w) as [[r|] w']; [|done]. exists r, w'. by destruct Hc as (? & ? & ? & _).
Qed.

End resolver.

Module ResolverWitness.
Import RefWorld.

Lemma Change_safe_witness :
  ∃ r w', Change "53" (serving fresh query) = (Ok r, w') ∧ outcome 0 1 (original_question query) r ∧
    w_slots w' - w_background w' = 0 ∧ shared_ok (w_shared w').
Proof.
  exact (Change_safe "53" (serving fresh query) query fresh_ok eq_refl eq_refl).
Defined.

(** What that resolution returns, and the states it went through. *)
Example Change_runs :
  let '(r, w') := Change "53" (serving fresh query) in
  match r with Ok (Some m, None) => Answer m = [www] | _ => False end ∧
  (tr_terminal <$> w_trace w') = Some "success_exit" ∧
  (tr_states <$> w_trace w') = Some ["state_init"; "hosts_lookup"; "forward_lookup"; "cache_lookup";
    "extract_glue"; "lookup_ns_cache"; "query_upstream"; "classify_resp"; "return_resp"].
Proof. vm_compute. done. Qed.
End ResolverWitness.
