(* ===== verification/Policy.v ===== *)
(** * What a resolution touches

    Which actions a resolution takes depends on where its answer comes from:
    static hosts answer without the cache or the network, a forwarding zone's
    upstreams are the only servers asked and the cache is left alone, and a
    cached answer needs no server. *)

From S2P Require Import Prelude GoLib Float64 NetIP Dns Zone External Cache RateLog Gate.
From S2P Require Import HostsForward IPQuality IPPool HotZone Limiter World States Upstream.
From S2P Require Import Logic StateMachine.

Section policy.
Context `{DLL : DnsLibLaws} `{GCL : GoCacheLaws Msg} `{EML : EbpfMapLaws BPFKey BPFValue}.
Context `{GS : GoSort} `{E : !Env}.

Abbreviation MW := (M World).

(** The configuration is not replaced while the request is served. *)
Class HostsStable : Prop := hosts_stable t s : sh_hosts (interfere t s) = sh_hosts s.
Context `{HS : !HostsStable}.

(** From [w] to [w'] only actions in [P] were taken, and the request and the
    configuration are still the same. *)
Definition ext (P : action → Prop) (w w' : World) : Prop :=
  (∃ l, w_log w' = w_log w ++ l ∧ Forall P l) ∧
  sh_hosts (w_shared w') = sh_hosts (w_shared w) ∧ w_req w' = w_req w.

#[export] Instance ext_preorder P : PreOrder (ext P).
Proof.
  split.
  - intros w. split_and!; try done. exists []. by rewrite app_nil_r.
  - intros w1 w2 w3 [(l1 & E1 & F1) [S1 R1]] [(l2 & E2 & F2) [S2 R2]].
    split_and!; [|congruence|congruence]. exists (l1 ++ l2). rewrite E2, E1, app_assoc.
    split; [done|]. by apply Forall_app.
Qed.

Lemma ext_mono (P Q : action → Prop) w w' : (∀ a, P a → Q a) → ext P w w' → ext Q w w'.
Proof.
  intros HPQ [(l & El & Hl) Hr]. split; [|done]. exists l. split; [done|].
  eapply Forall_impl; [exact Hl|exact HPQ].
Qed.

Lemma ext_quiet P w w' :
  w_log w' = w_log w → sh_hosts (w_shared w') = sh_hosts (w_shared w) → w_req w' = w_req w → ext P w w'.
Proof. intros Hl Hh Hr. split_and!; try done. exists []. by rewrite app_nil_r. Qed.

(** Bookkeeping: stages, transitions and metrics. *)
Definition bookkeeping (a : action) : Prop :=
  match a with AStage _ | ATransition _ _ | AFailure _ | AUpstream _ _ => True | _ => False end.

Section frames.
Context (P : action → Prop).

Lemma only_log a : P a → pres (ext P) (log a).
Proof.
  intros Ha w. simpl. split_and!; try done. exists [a]. split; [done|]. by repeat constructor.
Qed.

Lemma only_tick : pres (ext P) tick.
Proof. intros w. apply ext_quiet; try done. apply hosts_stable. Qed.

Lemma only_modify f :
  (∀ w, w_log (f w) = w_log w ∧ sh_hosts (w_shared (f w)) = sh_hosts (w_shared w) ∧ w_req (f w) = w_req w) →
  pres (ext P) (modify f).
Proof. intros Hf w. destruct (Hf w) as (? & ? & ?). by apply ext_quiet. Qed.

Lemma only_stepM {A} (f : World → A * World) :
  (∀ w, w_log (f w).2 = w_log w ∧ sh_hosts (w_shared (f w).2) = sh_hosts (w_shared w) ∧
        w_req (f w).2 = w_req w) →
  pres (ext P) (stepM f).
Proof. intros Hf. apply pres_stepM. intros w. destruct (Hf w) as (? & ? & ?). by apply ext_quiet. Qed.

Lemma only_get_req : pres (ext P) get_req.
Proof. intros w. unfold get_req. by case_match. Qed.

Lemma only_get_resp : pres (ext P) get_resp.
Proof. intros w. unfold get_resp. by case_match. Qed.

Lemma only_put_resp m : pres (ext P) (put_resp m).
Proof. by apply only_modify. Qed.

Lemma only_gate_tryAcquire path q : pres (ext P) (gate_tryAcquire path q).
Proof.
  unfold gate_tryAcquire. apply pres_bind; [apply _|apply only_tick|]. intros t. apply only_stepM.
  intros w. by destruct (tryAcquire _ _ _ _) as [[ok ev] g].
Qed.

Lemma only_gate_release : pres (ext P) gate_release.
Proof. unfold gate_release. apply pres_bind; [apply _|apply only_tick|]. intros t. by apply only_modify. Qed.

Lemma only_limiter_tryAcquire path q z : pres (ext P) (limiter_tryAcquire path q z).
Proof.
  unfold limiter_tryAcquire. apply pres_bind; [apply _|apply only_tick|]. intros t. apply only_stepM.
  intros w. by destruct (tryAcquireExpensiveRequest _ _ _ _ _ _ _) as [[ok h] l].
Qed.

Lemma only_exchange q target path :
  (∀ q, P (ASend target q)) → pres (ext P) (exchangeWithUpstreamGate q target path).
Proof.
  intros HP. unfold exchangeWithUpstreamGate. apply pres_bind; [apply _|apply only_gate_tryAcquire|].
  intros ok. destruct (negb ok); [apply pres_ret, _|].
  apply pres_bind; [apply _|by apply only_log|]. intros _.
  apply pres_bind; [apply _|apply only_tick|]. intros t.
  apply pres_bind; [apply _|apply only_gate_release|]. intros _. apply pres_ret, _.
Qed.

Lemma only_forward_upstreams q ups :
  (∀ u q, u ∈ ups → P (ASend u q)) → pres (ext P) (forward_upstreams q ups).
Proof.
  induction ups as [|u ups IH]; intros HP; simpl; [apply pres_ret, _|].
  apply pres_bind; [apply _|apply only_exchange; intros q'; apply HP; by left|].
  intros [[m rtt]|e].
  - apply pres_bind; [apply _|apply only_get_req|]. intros rq.
    apply pres_bind; [apply _|apply only_get_resp|]. intros rs.
    apply pres_bind; [apply _|apply only_put_resp|]. intros _. apply pres_ret, _.
  - case_match; [apply pres_ret, _|]. apply IH. intros u' q' Hu. apply HP. by right.
Qed.

Lemma only_trace f : pres (ext P) (modify (λ w, set_trace (f (w_trace w)) w)).
Proof. by apply only_modify. Qed.

Lemma only_terminal st exit : (∀ a, bookkeeping a → P a) → pres (ext P) (recordTerminalExit st exit).
Proof.
  intros HP. unfold recordTerminalExit. apply pres_bind; [apply _|by apply only_log, HP|].
  intros _. apply only_trace.
Qed.
End frames.

(** ** Where the answer comes from *)

(** A request the resolver accepts: one question, a query. *)
Definition valid_query (rq : Msg) (q : Question) : Prop :=
  Questions rq = [q] ∧ Response (Hdr rq) = false ∧ Opcode (Hdr rq) = OpcodeQuery.

(** What the steps of a resolution have in common: the request is [rq], the
    actions since [w0] are in [P], and the shared state satisfies [I]. *)
Record at_step (P : action → Prop) (I : Shared → Prop) (w0 : World) (rq rs : Msg) (w : World) : Prop := {
  as_ext : ext P w0 w;
  as_req : w_req w = Some rq;
  as_resp : w_resp w = Some rs;
  as_shared : I (w_shared w);
}.

Section steps.
Context (P : action → Prop) (I : Shared → Prop) (HP : ∀ a, bookkeeping a → P a)
  (HI : ∀ t s, I s → I (interfere t s)) (w0 : World) (rq : Msg).

Abbreviation at_ := (at_step P I w0 rq).

(** *** Rules for the parts of a step *)

Lemma at_log {A} a (k : unit → MW A) Q rs w :
  P a → at_ rs w → (∀ w', at_ rs w' → wp (k tt) Q w') → wp (bind (log a) k) Q w.
Proof.
  intros Ha [Hx Hrq Hrs Hi] Hk. apply wp_bind, wp_modify, Hk.
  constructor; try done. transitivity w; [exact Hx|apply (only_log P a Ha)].
Qed.

Lemma at_trace {A} f (k : unit → MW A) Q rs w :
  at_ rs w → (∀ w', at_ rs w' → wp (k tt) Q w') →
  wp (bind (modify (λ w, set_trace (f (w_trace w)) w)) k) Q w.
Proof.
  intros [Hx Hrq Hrs Hi] Hk. apply wp_bind, wp_modify, Hk.
  by constructor.
Qed.

Lemma at_tick {A} (k : nat → MW A) Q rs w :
  at_ rs w → (∀ t w', at_ rs w' → wp (k t) Q w') → wp (bind tick k) Q w.
Proof.
  intros [Hx Hrq Hrs Hi] Hk. apply wp_bind, wp_stepM, Hk.
  constructor; try done; [|by apply HI]. transitivity w; [exact Hx|apply (only_tick P)].
Qed.

Lemma at_get_req {A} (k : Msg → MW A) Q rs w : at_ rs w → wp (k rq) Q w → wp (bind get_req k) Q w.
Proof. intros [_ Hrq _ _] Hk. apply wp_bind. unfold wp at 1, get_req. by rewrite Hrq. Qed.

Lemma at_get_resp {A} (k : Msg → MW A) Q rs w : at_ rs w → wp (k rs) Q w → wp (bind get_resp k) Q w.
Proof. intros [_ _ Hrs _] Hk. apply wp_bind. unfold wp at 1, get_resp. by rewrite Hrs. Qed.

Lemma at_gets_resp {A} (k : option Msg → MW A) Q rs w :
  at_ rs w → wp (k (Some rs)) Q w → wp (bind (gets w_resp) k) Q w.
Proof. intros [_ _ Hrs _] Hk. apply wp_bind, wp_gets. by rewrite Hrs. Qed.

Lemma at_put_resp {A} m (k : unit → MW A) Q rs w :
  at_ rs w → (∀ w', at_ m w' → wp (k tt) Q w') → wp (bind (put_resp m) k) Q w.
Proof.
  intros [Hx Hrq _ Hi] Hk. apply wp_bind, wp_modify, Hk. by constructor.
Qed.

Lemma at_nil {A} (k : bool → MW A) Q rs w : at_ rs w → wp (k false) Q w → wp (bind nil_messages k) Q w.
Proof. intros [_ Hrq Hrs _] Hk. apply wp_bind, wp_gets. by rewrite Hrq, Hrs. Qed.

Lemma at_get_shared {A} (k : Shared → MW A) Q rs w :
  at_ rs w → (∀ s, I s → sh_hosts s = sh_hosts (w_shared w0) → wp (k s) Q w) → wp (bind get_shared k) Q w.
Proof. intros [(_ & Hh & _) _ _ Hi] Hk. apply wp_bind, wp_gets. by apply Hk. Qed.

Lemma at_terminal {A} st exit (k : unit → MW A) Q rs w :
  at_ rs w → (∀ w', at_ rs w' → wp (k tt) Q w') → wp (bind (recordTerminalExit st exit) k) Q w.
Proof.
  intros Ha Hk. apply wp_bind. unfold recordTerminalExit. eapply at_log; [by apply HP|exact Ha|].
  intros w1 [Hx Hrq Hrs Hi]. apply Hk. by constructor.
Qed.

Lemma at_handle {A} st m (k : Z * option RErr → MW A) Q w (R : Z → World → Prop) :
  wp m (λ r w', r.2 = None ∧ R r.1 w') w →
  (∀ code w', R code w' → wp (k (code, None)) Q w') → wp (bind (handleState st m) k) Q w.
Proof.
  intros Hm Hk. apply wp_bind, wp_bind. eapply wp_mono; [|exact Hm].
  intros [code e] w' [He HR]. simpl in He. subst e. apply wp_ret. by apply Hk.
Qed.

(** *** The states up to the cache *)

Context (q : Question) (Hq : valid_query rq q).

Context (port : string) (depth : Z) (nested : MW (option Msg * option RErr)) (origQ : Question).
Abbreviation iter st := (iterate port depth nested origQ (mkLoop st [] ∅)).
Abbreviation next st := (inl (mkLoop st [] ∅)).

Lemma step_enter (m : Loop → MW (Loop + (option Msg * option RErr))) st Q rs w :
  iter st = (do! recordTraceState (stateMetricName st) in do! log (AStage (stateMetricName st)) in
             let! _ := get_req in m (mkLoop st [] ∅)) →
  at_ rs w → (∀ w', at_ rs w' → wp (m (mkLoop st [] ∅)) Q w') → wp (iter st) Q w.
Proof.
  intros -> Ha Hk. eapply at_trace; [done|]. intros w1 H1'. eapply at_log; [by apply HP|done|].
  intros w2 H2'. eapply at_get_req; [done|]. by apply Hk.
Qed.

Lemma step_goto st to rs w (Q : _ → World → Prop) :
  at_ rs w → (∀ w', at_ rs w' → Q (next to) w') → wp (goto (mkLoop st [] ∅) to) Q w.
Proof.
  intros Ha Hk. unfold goto, recordStateTransition. eapply at_log; [by apply HP|done|].
  intros w1 H1'. apply wp_ret. by apply Hk.
Qed.

Lemma step_init rs w :
  at_ rs w → wp (iter STATE_INIT) (λ n w', n = next HOSTS_LOOKUP ∧ at_ (SetReply rs rq) w') w.
Proof.
  intros Ha. eapply (step_enter case_STATE_INIT); [done|done|]. clear w Ha. intros w Ha.
  unfold case_STATE_INIT.
  eapply (at_handle _ _ _ _ _ (λ c w', c = STATE_INIT_NO_ERROR ∧ at_ (SetReply rs rq) w')).
  - unfold stateInit_handle. eapply at_nil; [done|]. eapply at_get_req; [done|].
    eapply at_get_resp; [done|]. destruct Hq as (-> & -> & ->). simpl.
    eapply at_put_resp; [done|]. intros w1 H1'. by apply wp_ret.
  - intros c w' [-> Ha']. simpl. by eapply step_goto.
Qed.

(** Static hosts, as a reference: the records of the name and type, no records for
    a configured name without this type, and nothing for other names. *)
Definition hosts_view (snap : hostsForwardSnapshot) : option (list RR) :=
  match hostsMap snap !! getCacheKey (Q_Name q) (Q_Qtype q) with
  | Some cached => Some (Answer cached)
  | None => if bool_decide (hostsMap snap ≠ ∅ ∧ Q_Name q ∈ hostsNames snap) then Some [] else None
  end.

Definition hosts_answer (rs : Msg) (rrs : list RR) : Msg :=
  set_Rcode (set_Authoritative (set_Answer rs (Answer rs ++ rrs)) true) RcodeSuccess.

Lemma hosts_handle rs w :
  at_ rs w →
  wp hostsLookup_handle (λ r w', r.2 = None ∧
    match hosts_view (sh_hosts (w_shared w0)) with
    | Some rrs => r.1 = HOSTS_LOOKUP_HIT ∧ at_ (hosts_answer rs rrs) w'
    | None => r.1 = HOSTS_LOOKUP_MISS ∧ at_ rs w'
    end) w.
Proof.
  intros Ha. unfold hostsLookup_handle. eapply at_nil; [done|]. eapply at_tick; [done|].
  clear w Ha. intros t w Ha. eapply at_get_shared; [done|]. intros s _ ->. cbv zeta. unfold hosts_view.
  destruct (bool_decide_reflect (hostsMap (sh_hosts (w_shared w0)) = ∅)) as [Hemp|Hne].
  { apply wp_ret. rewrite Hemp, lookup_empty. rewrite bool_decide_false by naive_solver. done. }
  eapply at_get_req; [done|]. eapply at_get_resp; [done|]. destruct Hq as (-> & _). apply wp_bind, wp_index0.
  destruct (hostsMap (sh_hosts (w_shared w0)) !! _) as [cached|] eqn:El.
  - eapply at_put_resp; [done|]. intros w1 H1'. apply wp_ret. split_and!; try done.
    unfold hosts_answer. rewrite <-(list_fmap_id (Answer cached)).
    rewrite <-(list_fmap_ext RR_Copy id (Answer cached)); [done|]. intros. apply RR_Copy_spec.
  - destruct (bool_decide_reflect (Q_Name q ∈ hostsNames (sh_hosts (w_shared w0)))) as [Hin|Hnin].
    + rewrite bool_decide_true by done. eapply at_put_resp; [done|]. intros w1 H1'. apply wp_ret.
      split_and!; try done. unfold hosts_answer. rewrite app_nil_r. by destruct rs.
    + rewrite bool_decide_false by naive_solver. apply wp_ret. done.
Qed.

Lemma step_hosts_hit rrs rs w :
  hosts_view (sh_hosts (w_shared w0)) = Some rrs → at_ rs w →
  wp (iter HOSTS_LOOKUP) (λ n w', n = next RETURN_RESP ∧ at_ (hosts_answer rs rrs) w') w.
Proof.
  intros Hv Ha. eapply (step_enter case_HOSTS_LOOKUP); [done|done|]. clear w Ha. intros w Ha.
  eapply (at_handle _ _ _ _ _ (λ c w', c = HOSTS_LOOKUP_HIT ∧ at_ (hosts_answer rs rrs) w')).
  - pose proof (hosts_handle rs w Ha) as Hh. by rewrite Hv in Hh.
  - intros c w' [-> Ha']. by eapply step_goto.
Qed.

Lemma step_hosts_miss rs w :
  hosts_view (sh_hosts (w_shared w0)) = None → at_ rs w →
  wp (iter HOSTS_LOOKUP) (λ n w', n = next FORWARD_LOOKUP ∧ at_ rs w') w.
Proof.
  intros Hv Ha. eapply (step_enter case_HOSTS_LOOKUP); [done|done|]. clear w Ha. intros w Ha.
  eapply (at_handle _ _ _ _ _ (λ c w', c = HOSTS_LOOKUP_MISS ∧ at_ rs w')).
  - pose proof (hosts_handle rs w Ha) as Hh. by rewrite Hv in Hh.
  - intros c w' [-> Ha']. by eapply step_goto.
Qed.

Lemma step_forward_miss rs w :
  matchForwardZone (forwardZones (sh_hosts (w_shared w0))) (Q_Name q) = None → at_ rs w →
  wp (iter FORWARD_LOOKUP) (λ n w', n = next CACHE_LOOKUP ∧ at_ rs w') w.
Proof.
  intros Hm Ha. eapply (step_enter case_FORWARD_LOOKUP); [done|done|]. clear w Ha. intros w Ha.
  eapply (at_handle _ _ _ _ _ (λ c w', c = FORWARD_LOOKUP_MISS ∧ at_ rs w')).
  - unfold forwardLookup_handle. eapply at_nil; [done|]. eapply at_tick; [done|]. clear w Ha.
    intros t w Ha. eapply at_get_shared; [done|]. intros s _ ->. cbv zeta.
    destruct (forwardZones (sh_hosts (w_shared w0))) as [|z zs]; [by apply wp_ret|].
    eapply at_get_req; [done|]. destruct Hq as (-> & _). apply wp_bind, wp_index0. rewrite Hm.
    by apply wp_ret.
  - intros c w' [-> Ha']. by eapply step_goto.
Qed.

Lemma step_return q' rs w :
  Questions rs = [q'] → at_ rs w →
  wp (iter RETURN_RESP) (λ n w', n = inr (Some (set_Questions rs [origQ]), None) ∧ ext P w0 w') w.
Proof.
  intros Hrs Ha. eapply (step_enter (case_RETURN_RESP origQ)); [done|done|]. clear w Ha. intros w Ha.
  eapply (at_handle _ _ _ _ _ (λ _ w', at_ rs w')).
  - unfold returnResp_handle. eapply at_nil; [done|]. by apply wp_ret.
  - clear w Ha. intros c w Ha. eapply at_terminal; [done|]. clear w Ha. intros w Ha.
    apply wp_bind. unfold buildFinalResponse. eapply at_get_resp; [done|]. rewrite Hrs.
    eapply at_put_resp; [done|]. intros w1 [H1' _ _ _]. by apply wp_ret, wp_ret.
Qed.

(** The cache has [m] under the question's key. *)
Definition cached_as (m : Msg) (s : Shared) : Prop :=
  ∀ t, getCacheCopy (sh_cache s) (env_now t) (getCacheKey (Q_Name q) (Q_Qtype q)) = Some m.

Definition is_negative (m : Msg) : Prop :=
  Answer m = [] ∧ hasSOAInAuthority m = true ∧ Rcode (Hdr m) ∈ [RcodeNameError; RcodeSuccess].

Definition cache_answer (rs m : Msg) : Msg :=
  match Answer m with
  | [] => set_Ns (set_Rcode rs (Rcode (Hdr m))) (Ns rs ++ Ns m)
  | rrs => set_Answer rs (Answer rs ++ rrs)
  end.

Lemma step_cache_hit m rs w :
  (∀ s, I s → cached_as m s) → P (ACacheGet (getCacheKey (Q_Name q) (Q_Qtype q))) →
  Answer m ≠ [] ∨ is_negative m → at_ rs w →
  wp (iter CACHE_LOOKUP) (λ n w', n = next CLASSIFY_RESP ∧ at_ (cache_answer rs m) w') w.
Proof.
  intros Hc HG Hm Ha. eapply (step_enter case_CACHE_LOOKUP); [done|done|]. clear w Ha. intros w Ha.
  eapply (at_handle _ _ _ _ _ (λ c w', c = CACHE_LOOKUP_HIT ∧ at_ (cache_answer rs m) w')).
  - unfold cacheLookup_handle. eapply at_nil; [done|]. eapply at_get_req; [done|].
    destruct Hq as (-> & _). apply wp_bind, wp_index0. apply wp_bind.
    unfold cache_getCopyByType, cache_getCopy. eapply at_log; [done|done|]. clear w Ha. intros w Ha.
    eapply at_tick; [done|]. clear w Ha. intros t w Ha. apply wp_gets.
    rewrite (Hc _ (as_shared _ _ _ _ _ _ Ha) t). eapply at_get_resp; [done|].
    unfold cache_answer. destruct Hm as [Hm|(Hm & Hsoa & _)].
    + destruct (Answer m) as [|rr rrs]; [done|]. simpl. eapply at_put_resp; [done|].
      intros w1 H1'. by apply wp_ret.
    + rewrite Hm, Hsoa. simpl. eapply at_put_resp; [done|]. intros w1 H1'. by apply wp_ret.
  - intros c w' [-> Ha']. by eapply step_goto.
Qed.

Lemma classify_ans rs :
  existsb (λ rr, Hdr_Rrtype (Header rr) =? Q_Qtype q) (Answer rs) = true →
  classify (Q_Qtype q) rs = CLASSIFY_RESP_GET_ANS.
Proof. intros He. unfold classify. destruct (Answer rs) as [|rr rrs]; [done|]. by rewrite He. Qed.

Lemma classify_negative rs : is_negative rs → classify (Q_Qtype q) rs = CLASSIFY_RESP_GET_NEGATIVE.
Proof.
  intros (Ha & Hs & Hr). unfold classify. rewrite Ha, Hs. rewrite !elem_of_cons in Hr.
  destruct Hr as [->|[->|Hr]]; [done|done|by apply not_elem_of_nil in Hr].
Qed.

Lemma step_classify_ans rs w :
  existsb (λ rr, Hdr_Rrtype (Header rr) =? Q_Qtype q) (Answer rs) = true → at_ rs w →
  wp (iter CLASSIFY_RESP) (λ n w', n = next RETURN_RESP ∧ at_ rs w') w.
Proof.
  intros He Ha. eapply (step_enter case_CLASSIFY_RESP); [done|done|]. clear w Ha. intros w Ha.
  eapply (at_handle _ _ _ _ _ (λ c w', c = CLASSIFY_RESP_GET_ANS ∧ at_ rs w')).
  - unfold classifyResp_handle. eapply at_nil; [done|]. eapply at_get_req; [done|].
    eapply at_get_resp; [done|]. destruct Hq as (-> & _). apply wp_bind, wp_index0.
    cbv zeta. rewrite (classify_ans rs He). by apply wp_ret.
  - intros c w' [-> Ha']. by eapply step_goto.
Qed.

Lemma step_classify_negative soa ttl rs w :
  is_negative rs → extractSOAFromAuthority rs = Some (soa, ttl) → (∀ s, I s) →
  P (ACacheSet (getCacheKey (Q_Name q) (Q_Qtype q)) rs ttl) → at_ rs w →
  wp (iter CLASSIFY_RESP) (λ n w', n = next RETURN_RESP ∧ at_ rs w' ∧
    ACacheSet (getCacheKey (Q_Name q) (Q_Qtype q)) rs ttl ∈ w_log w') w.
Proof.
  intros Hn Hsoa Hi HS' Ha. eapply (step_enter case_CLASSIFY_RESP); [done|done|]. clear w Ha. intros w Ha.
  eapply (at_handle _ _ _ _ _ (λ c w', c = CLASSIFY_RESP_GET_NEGATIVE ∧ at_ rs w' ∧
    ACacheSet (getCacheKey (Q_Name q) (Q_Qtype q)) rs ttl ∈ w_log w')).
  - unfold classifyResp_handle. eapply at_nil; [done|]. eapply at_get_req; [done|].
    eapply at_get_resp; [done|]. destruct Hq as (-> & _). apply wp_bind, wp_index0.
    cbv zeta. rewrite (classify_negative rs Hn). simpl. unfold cache_negative. rewrite Hsoa.
    unfold cache_setCopyByType, cache_setCopy. destruct Ha as [[(l & El & Fl) [Hh Hr]] Hrq Hrs _].
    split_and!; [done|done| |simpl; set_solver]. constructor; try done.
    split_and!; [|simpl; rewrite hosts_stable; done|done].
    exists (l ++ [ACacheSet (getCacheKey (Q_Name q) (Q_Qtype q)) rs ttl]). simpl. rewrite El, app_assoc.
    split; [done|]. apply Forall_app. split; [done|]. by repeat constructor.
  - intros c w' (-> & Ha' & Hin). cbn.
    destruct Ha' as [Hx Hrq Hrs Hi']. split_and!; [done| |set_solver].
    constructor; try done. transitivity w'; [exact Hx|]. apply (only_log P), HP. done.
Qed.

End steps.
(** ** Forwarding *)

Abbreviation anything := (λ _ : Shared, True).

Lemma wp_gate_tryAcquire (P : action → Prop) w0 rq rs path qn w (Q : bool → World → Prop) :
  at_step P anything w0 rq rs w → (∀ ok w', at_step P anything w0 rq rs w' → Q ok w') →
  wp (gate_tryAcquire path qn) Q w.
Proof.
  intros [Hx Hrq Hrs _] Hk. pose proof (only_gate_tryAcquire P path qn w) as Hp.
  unfold gate_tryAcquire in *. unfold wp, bind, tick, stepM in *. cbn in *.
  destruct (tryAcquire _ _ _ _) as [[ok ev] g]. apply Hk. constructor; try done. by transitivity w.
Qed.

Lemma wp_limiter_tryAcquire (P : action → Prop) w0 rq rs path qn z w (Q : bool → World → Prop) :
  at_step P anything w0 rq rs w → (∀ ok w', at_step P anything w0 rq rs w' → Q ok w') →
  wp (limiter_tryAcquire path qn z) Q w.
Proof.
  intros [Hx Hrq Hrs _] Hk. pose proof (only_limiter_tryAcquire P path qn z w) as Hp.
  unfold limiter_tryAcquire in *. unfold wp, bind, tick, stepM in *. cbn in *.
  destruct (tryAcquireExpensiveRequest _ _ _ _ _ _ _) as [[ok h] l]. apply Hk.
  constructor; try done. by transitivity w.
Qed.

Lemma wp_gate_release (P : action → Prop) w0 rq rs w (Q : unit → World → Prop) :
  at_step P anything w0 rq rs w → (∀ w', at_step P anything w0 rq rs w' → Q tt w') → wp gate_release Q w.
Proof.
  intros [Hx Hrq Hrs _] Hk. pose proof (only_gate_release P w) as Hp.
  unfold gate_release in *. unfold wp, bind, tick, stepM, modify in *. cbn in *. apply Hk.
  constructor; try done. by transitivity w.
Qed.

Lemma wp_exchange (P : action → Prop) w0 rq rs qy u path w (Q : _ → World → Prop) :
  P (ASend u qy) → at_step P anything w0 rq rs w →
  (∀ r w', at_step P anything w0 rq rs w' →
     (∀ m rtt, r = inl (m, rtt) → ∃ t, env_exchange t qy u = XOk m rtt) → Q r w') →
  wp (exchangeWithUpstreamGate qy u path) Q w.
Proof.
  intros HS' Ha Hk. unfold exchangeWithUpstreamGate. cbv zeta. apply wp_bind.
  eapply wp_gate_tryAcquire; [done|]. clear w Ha. intros ok w Ha.
  destruct ok; simpl; [|by apply wp_ret, Hk]. eapply at_log; [done|done|]. clear w Ha. intros w Ha.
  eapply (at_tick P anything); [done|done|]. clear w Ha. intros t w Ha. apply wp_bind.
  eapply wp_gate_release; [done|]. clear w Ha. intros w Ha. apply wp_ret, Hk; [done|].
  intros m rtt. destruct (env_exchange t qy u) eqn:Ex; [|done]. intros [= <- <-]. eauto.
Qed.

(** The response a forwarded answer leaves. *)
Definition forward_answer (rq rs resp : Msg) : Msg :=
  set_Extra (set_Ns (set_Answer (set_Response (set_Id (set_Hdr rs (Hdr resp)) (Id (Hdr rq))) true)
    (Answer resp)) (Ns resp)) (Extra resp).

Lemma wp_forward_upstreams (P : action → Prop) w0 rq rs qy ups w :
  (∀ u, u ∈ ups → P (ASend u qy)) → at_step P anything w0 rq rs w →
  wp (forward_upstreams qy ups) (λ code w',
    code = FORWARD_LOOKUP_SERVFAIL ∧ at_step P anything w0 rq rs w' ∨
    code = FORWARD_LOOKUP_HIT ∧ ∃ t u resp rtt, u ∈ ups ∧ env_exchange t qy u = XOk resp rtt ∧
      at_step P anything w0 rq (forward_answer rq rs resp) w') w.
Proof.
  revert w. induction ups as [|u ups IH]; intros w HP Ha; simpl; [apply wp_ret; by left|].
  apply wp_bind. eapply wp_exchange; [apply HP; by left|done|]. clear w Ha. intros r w Ha Hr.
  destruct r as [[resp rtt]|e].
  - eapply at_get_req; [done|]. eapply at_get_resp; [done|]. eapply at_put_resp; [done|].
    intros w1 H1'. apply wp_ret. right. split; [done|]. destruct (Hr _ _ eq_refl) as [t Ht].
    exists t, u, resp, rtt. split_and!; [by left|done|done].
  - destruct (is_gate_error e); [apply wp_ret; by left|]. eapply wp_mono; [|apply IH; [|done]].
    + intros code w' [?|(? & t & u' & resp & rtt & ? & ? & ?)]; [by left|]. right. split; [done|].
      exists t, u', resp, rtt. split_and!; [by right|done|done].
    + intros u' Hu. apply HP. by right.
Qed.

(** The query sent to the upstreams of a forwarding zone asks for the same name
    and type. *)
Definition forwarded (q : Question) (qy : Msg) : Prop :=
  Questions qy = [mkQ (Q_Name q) (Q_Qtype q) ClassINET] ∧ RecursionDesired (Hdr qy) = true.

Definition forward_action (q : Question) (z : ForwardZone) (a : action) : Prop :=
  bookkeeping a ∨ ∃ u qy, a = ASend u qy ∧ u ∈ fz_Upstreams z ∧ forwarded q qy.

Definition forward_post (w0 : World) (rq : Msg) (q : Question) (z : ForwardZone) (rs : Msg) (code : Z)
    (w : World) : Prop :=
  let P := forward_action q z in
  code ∈ [FORWARD_LOOKUP_SERVFAIL; FORWARD_LOOKUP_REFUSED] ∧ at_step P anything w0 rq rs w ∨
  code = FORWARD_LOOKUP_HIT ∧ ∃ t u qy resp rtt, u ∈ fz_Upstreams z ∧ forwarded q qy ∧
    env_exchange t qy u = XOk resp rtt ∧ at_step P anything w0 rq (forward_answer rq rs resp) w.

Lemma forward_handle w0 rq q z rs w (P := forward_action q z) :
  valid_query rq q → matchForwardZone (forwardZones (sh_hosts (w_shared w0))) (Q_Name q) = Some z →
  at_step P anything w0 rq rs w →
  wp forwardLookup_handle (λ r w', r.2 = None ∧ forward_post w0 rq q z rs r.1 w') w.
Proof.
  intros Hq Hz Ha. unfold forwardLookup_handle. eapply at_nil; [done|]. eapply (at_tick P anything); [done|done|].
  clear w Ha. intros t w Ha. eapply at_get_shared; [done|]. intros s _ ->. cbv zeta.
  destruct (forwardZones (sh_hosts (w_shared w0))) as [|z0 zs]; [done|].
  eapply at_get_req; [done|]. destruct Hq as (-> & _). apply wp_bind, wp_index0. rewrite Hz.
  eapply (at_tick P anything); [done|done|]. clear w Ha. intros t1 w Ha.
  eapply (at_tick P anything); [done|done|]. clear w Ha. intros t2 w Ha.
  apply wp_bind. eapply wp_limiter_tryAcquire; [done|]. clear w Ha. intros ok w Ha.
  destruct ok; simpl; [|apply wp_ret; split; [done|]; left; split; [set_solver|done]].
  set (qy := set_Id _ _).
  assert (forwarded q qy) as Hf.
  { destruct (SetQuestion_spec new_Msg (Q_Name q) (Q_Qtype q) (env_id t1)) as (Hq1 & Hq2 & _).
    split; [exact Hq1|done]. }
  apply wp_bind. eapply wp_mono; [|apply (wp_forward_upstreams P); [|done]].
  - intros code w' Hcode. apply wp_ret. split; [done|].
    destruct Hcode as [[-> ?]|(-> & t' & u & resp & rtt & ? & ? & ?)].
    + left. split; [simpl; set_solver|done].
    + right. split; [done|]. exists t', u, qy, resp, rtt. done.
  - intros u Hu. right. exists u, qy. done.
Qed.

Lemma step_forward w0 rq q z rs w port depth nested origQ (P := forward_action q z) :
  valid_query rq q → matchForwardZone (forwardZones (sh_hosts (w_shared w0))) (Q_Name q) = Some z →
  at_step P anything w0 rq rs w →
  wp (iterate port depth nested origQ (mkLoop FORWARD_LOOKUP [] ∅)) (λ n w',
    (∃ rc, n = inr (Some (SetRcode new_Msg rq rc), None) ∧ rc ∈ [RcodeServerFailure; RcodeRefused] ∧
       ext P w0 w') ∨
    n = inl (mkLoop RETURN_RESP [] ∅) ∧ ∃ t u qy resp rtt, u ∈ fz_Upstreams z ∧ forwarded q qy ∧
      env_exchange t qy u = XOk resp rtt ∧ at_step P anything w0 rq (forward_answer rq rs resp) w') w.
Proof.
  intros Hq Hz Ha. assert (∀ a, bookkeeping a → P a) as HP by (by left).
  eapply (step_enter _ _ HP _ _ _ _ _ _ case_FORWARD_LOOKUP); [done|done|]. clear w Ha. intros w Ha.
  eapply (at_handle _ _ _ _ _ (forward_post w0 rq q z rs)); [by apply forward_handle|]. clear w Ha.
  intros code w [[Hcode Ha]|(-> & t & u & qy & resp & rtt & Hu & Hf & Hx & Ha)].
  - rewrite !elem_of_cons in Hcode. destruct Hcode as [->|[->|Hcode]];
      [| |by apply not_elem_of_nil in Hcode].
    + eapply (at_log P); [by apply HP|done|]. clear w Ha. intros w Ha.
      eapply (at_terminal P); [done|done|]. clear w Ha. intros w Ha. eapply at_get_req; [done|].
      apply wp_ret. left. exists RcodeServerFailure. split_and!; [done|set_solver|by destruct Ha].
    + eapply (at_terminal P); [done|done|]. clear w Ha. intros w Ha. eapply at_get_req; [done|].
      apply wp_ret. left. exists RcodeRefused. split_and!; [done|set_solver|by destruct Ha].
  - eapply (step_goto P); [done|done|]. intros w2 H2'. right. split; [done|].
    exists t, u, qy, resp, rtt. done.
Qed.

(** ** The resolution *)

Lemma wp_loop port depth nested origQ n lp w Q :
  wp (iterate port depth nested origQ lp) (λ next w', match next with
    | inl lp' => wp (change_loop port depth nested origQ n lp') Q w'
    | inr r => Q r w'
    end) w →
  wp (change_loop port depth nested origQ (S n) lp) Q w.
Proof.
  intros H'. simpl. apply wp_bind. eapply wp_mono; [|exact H']. intros [lp'|r] w'; done.
Qed.

(** One step of the loop that is known to go on to another state. *)
Lemma wp_loop_next port depth nested origQ n lp lp' w (R : World → Prop) Q :
  wp (iterate port depth nested origQ lp) (λ next w', next = inl lp' ∧ R w') w →
  (∀ w', R w' → wp (change_loop port depth nested origQ n lp') Q w') →
  wp (change_loop port depth nested origQ (S n) lp) Q w.
Proof.
  intros H' Hk. apply wp_loop. eapply wp_mono; [|exact H']. intros next w' [-> HR]. by apply Hk.
Qed.

Lemma wp_elim {A} (m : MW A) Q w : wp m Q w → ∃ a w', m w = (Ok a, w') ∧ Q a w'.
Proof. unfold wp. destruct (m w) as [[a|] w']; [eauto|done]. Qed.

Lemma wp_Change port w request Q :
  w_req w = Some request →
  wp (change_loop port 0 (Change_nested port) (original_question request) 50 (mkLoop STATE_INIT [] ∅)) Q w →
  wp (Change port) Q w.
Proof.
  intros Hrq Hw. unfold Change, Change_at. apply wp_bind. unfold wp at 1, get_req. by rewrite Hrq.
Qed.

(** The last step: the answer goes out under the original question. *)
Lemma wp_loop_return P I port depth nested origQ n w0 w rq rs q' Q :
  at_step P I w0 rq rs w → (∀ a, bookkeeping a → P a) → Questions rs = [q'] →
  (∀ w', ext P w0 w' → Q (Some (set_Questions rs [origQ]), None) w') →
  wp (change_loop port depth nested origQ (S n) (mkLoop RETURN_RESP [] ∅)) Q w.
Proof.
  intros Ha HP Hq Hk. apply wp_loop. eapply wp_mono; [|by eapply step_return].
  intros next w' [-> Hx]. by apply Hk.
Qed.

Ltac run lem H w' H' :=
  eapply wp_loop_next; [eapply lem; [..|exact H]; done|]; intros w' H'.

Section resolution.
Context (port : string) (w : World) (request : Msg) (q : Question).
Context (Hq : valid_query request q) (Hreq : w_req w = Some request) (Hresp : w_resp w = Some new_Msg).

Lemma at_start P I : I (w_shared w) → at_step P I w request new_Msg w.
Proof. intros Hi. by constructor. Qed.

Lemma reply_shape : Questions (SetReply new_Msg request) = [q] ∧ Answer (SetReply new_Msg request) = [] ∧
  Ns (SetReply new_Msg request) = [] ∧ Id (Hdr (SetReply new_Msg request)) = Id (Hdr request).
Proof.
  destruct (SetReply_spec new_Msg request) as (E1 & E2 & _ & _ & _ & E3 & E4 & _).
  destruct Hq as (Eq & _). by rewrite E1, Eq, E2, E3, E4.
Qed.

Lemma original_q : original_question request = q.
Proof. unfold original_question. by destruct Hq as (-> & _). Qed.

Lemma loop_start P I (HP : ∀ a, bookkeeping a → P a) Q :
  I (w_shared w) →
  (∀ w1, at_step P I w request (SetReply new_Msg request) w1 →
     wp (change_loop port 0 (Change_nested port) q 49 (mkLoop HOSTS_LOOKUP [] ∅)) Q w1) →
  wp (Change port) Q w.
Proof.
  intros Hi Hk. eapply wp_Change; [done|]. rewrite original_q.
  eapply wp_loop_next; [|exact Hk]. by eapply step_init, at_start.
Qed.

(** C5: static hosts come first.  When the configuration has the name, the
    resolution answers with exactly the records configured for the name and type
    (none, as NODATA, when the name has only other types), authoritatively and
    under the client's question and id, and does nothing else: no server is
    asked, the cache is neither read nor written. *)
Theorem hosts_answer_is_local (rrs : list RR) :
  hosts_view q (sh_hosts (w_shared w)) = Some rrs →
  ∃ m w', Change port w = (Ok (Some m, None), w') ∧
    Questions m = [q] ∧ Answer m = rrs ∧ Ns m = [] ∧ Rcode (Hdr m) = RcodeSuccess ∧
    Authoritative (Hdr m) = true ∧ Id (Hdr m) = Id (Hdr request) ∧ ext bookkeeping w w'.
Proof.
  intros Hv. destruct reply_shape as (Sq & Sa & Sn & Si).
  cut (wp (Change port) (λ r w', r = (Some (set_Questions (hosts_answer (SetReply new_Msg request) rrs) [q]), None)
    ∧ ext bookkeeping w w') w).
  { intros (r & w' & HC & -> & Hx)%wp_elim. do 2 eexists. split; [exact HC|].
    split_and!; try done. simpl. by rewrite Sa. }
  eapply (loop_start _ anything); [done|done|]. intros w1 H1'.
  run step_hosts_hit H1' w2 H2'.
  eapply wp_loop_return; [exact H2'|done|exact Sq|]. done.
Qed.

(** C4: a forwarding zone is exclusive.  When static hosts do not have the name
    and the longest matching forwarding zone is [z], the only servers asked are
    [z]'s upstreams, with the same question; the cache is neither read nor written
    and the resolver never falls back to iteration.  The client receives either
    an upstream's answer, under its own question and id, or an empty SERVFAIL or
    REFUSED. *)
Theorem forward_zone_is_exclusive (z : ForwardZone) :
  hosts_view q (sh_hosts (w_shared w)) = None →
  matchForwardZone (forwardZones (sh_hosts (w_shared w))) (Q_Name q) = Some z →
  ∃ m w', Change port w = (Ok (Some m, None), w') ∧ ext (forward_action q z) w w' ∧
    Questions m = [q] ∧ Id (Hdr m) = Id (Hdr request) ∧
    ((Rcode (Hdr m) ∈ [RcodeServerFailure; RcodeRefused] ∧ Answer m = []) ∨
     ∃ t u qy resp rtt, u ∈ fz_Upstreams z ∧ forwarded q qy ∧ env_exchange t qy u = XOk resp rtt ∧
       Rcode (Hdr m) = Rcode (Hdr resp) ∧ Answer m = Answer resp ∧ Ns m = Ns resp ∧ Extra m = Extra resp).
Proof.
  intros Hv Hz. destruct reply_shape as (Sq & Sa & Sn & Si).
  cut (wp (Change port) (λ r w', ∃ m, r = (Some m, None) ∧ ext (forward_action q z) w w' ∧
    (m = SetRcode new_Msg request RcodeServerFailure ∨ m = SetRcode new_Msg request RcodeRefused ∨
     ∃ t u qy resp rtt, u ∈ fz_Upstreams z ∧ forwarded q qy ∧ env_exchange t qy u = XOk resp rtt ∧
       m = set_Questions (forward_answer request (SetReply new_Msg request) resp) [q])) w).
  { intros (r & w' & HC & m & -> & Hx & Hm)%wp_elim. exists m, w'. rewrite !SetRcode_spec in Hm.
    split_and!; [done|done|..]; destruct Hm as [->|[->|(t & u & qy & resp & rtt & ? & ? & ? & ->)]];
      try done; [left; simpl; split; [set_solver|done]..|].
    right. exists t, u, qy, resp, rtt. done. }
  assert (∀ a, bookkeeping a → forward_action q z a) as HP by (by left).
  eapply (loop_start _ anything); [done|done|]. intros w1 H1'.
  run step_hosts_miss H1' w2 H2'.
  apply wp_loop. eapply wp_mono; [|eapply step_forward; [..|exact H2']; done].
  intros n w3 [(rc & -> & Hrc & Hx)|(-> & t & u & qy & resp & rtt & Hu & Hf & Hx & H3')].
  - eexists. split_and!; [done|done|]. rewrite !elem_of_cons in Hrc.
    destruct Hrc as [->|[->|Hrc]]; [auto|auto|by apply not_elem_of_nil in Hrc].
  - eapply wp_loop_return; [exact H3'|done|exact Sq|]. intros w4 Hx4.
    eexists. split_and!; [done|done|]. right. right. exists t, u, qy, resp, rtt. done.
Qed.

(** ** Cached answers *)

Section cached.
Context (m : Msg) (Hhosts : hosts_view q (sh_hosts (w_shared w)) = None)
  (Hfwd : matchForwardZone (forwardZones (sh_hosts (w_shared w))) (Q_Name q) = None)
  (Hcached : cached_as q m (w_shared w))
  (Hkeep : ∀ t s, cached_as q m s → cached_as q m (interfere t s)).

Abbreviation key := (getCacheKey (Q_Name q) (Q_Qtype q)).

Lemma loop_cached P Q (HP : ∀ a, bookkeeping a → P a) :
  P (ACacheGet key) → Answer m ≠ [] ∨ is_negative m →
  (∀ w1, at_step P (cached_as q m) w request (cache_answer (SetReply new_Msg request) m) w1 →
     wp (change_loop port 0 (Change_nested port) q 46 (mkLoop CLASSIFY_RESP [] ∅)) Q w1) →
  wp (Change port) Q w.
Proof.
  intros HG Hm Hk. eapply (loop_start P (cached_as q m)); [done|done|]. intros w1 H1'.
  run step_hosts_miss H1' w2 H2'. run step_forward_miss H2' w3 H3'.
  eapply wp_loop_next; [eapply step_cache_hit; [..|exact H3']; done|]. done.
Qed.

(** C6: a cached answer is enough: when neither static hosts nor forwarding apply
    and the cache has a fresh message with a record of the requested type, the
    client receives that message's records under its own question and id, and
    the resolution reads that one cache entry and does nothing else. *)
Theorem cached_answer_is_local :
  existsb (λ rr, Hdr_Rrtype (Header rr) =? Q_Qtype q) (Answer m) = true →
  ∃ r w', Change port w = (Ok (Some r, None), w') ∧
    Questions r = [q] ∧ Answer r = Answer m ∧ Ns r = [] ∧ Rcode (Hdr r) = RcodeSuccess ∧
    Id (Hdr r) = Id (Hdr request) ∧ ext (λ a, bookkeeping a ∨ a = ACacheGet key) w w'.
Proof.
  intros He. destruct reply_shape as (Sq & Sa & Sn & Si).
  destruct (SetReply_spec new_Msg request) as (_ & _ & _ & _ & Sr & _).
  set (P := λ a, bookkeeping a ∨ a = ACacheGet key).
  assert (Answer m ≠ []) as Hne by (by destruct (Answer m)).
  assert (cache_answer (SetReply new_Msg request) m = set_Answer (SetReply new_Msg request) (Answer m)) as Ec.
  { unfold cache_answer. rewrite Sa. by destruct (Answer m). }
  cut (wp (Change port) (λ r w', r = (Some (set_Questions (set_Answer (SetReply new_Msg request) (Answer m)) [q]), None)
    ∧ ext P w w') w).
  { intros (r & w' & HC & -> & Hx)%wp_elim. do 2 eexists. split; [exact HC|]. by split_and!. }
  eapply (loop_cached P); [by left|by right|by left|]. rewrite Ec. intros w1 H1'.
  eapply wp_loop_next; [eapply step_classify_ans; [..|exact H1']; [by left|done..]|]. intros w2 H2'.
  eapply wp_loop_return; [exact H2'|by left|exact Sq|]. done.
Qed.

(** C35: a cached negative answer (NXDOMAIN or NODATA with its SOA) is returned
    without asking a server; but every such hit stores the message again with the
    full TTL derived from the SOA, so the entry's lifetime restarts each time it
    is asked for, and does not end while the question keeps coming. *)
Theorem negative_hit_is_stored_again (soa : RR) (ttl : Z) :
  is_negative m → extractSOAFromAuthority m = Some (soa, ttl) →
  let stored := set_Ns (set_Rcode (SetReply new_Msg request) (Rcode (Hdr m))) (Ns m) in
  ∃ r w', Change port w = (Ok (Some r, None), w') ∧
    Questions r = [q] ∧ Answer r = [] ∧ Ns r = Ns m ∧ Rcode (Hdr r) = Rcode (Hdr m) ∧
    ext (λ a, bookkeeping a ∨ a = ACacheGet key ∨ a = ACacheSet key stored ttl) w w' ∧
    ACacheSet key stored ttl ∈ w_log w'.
Proof.
  intros Hn Hsoa stored. destruct reply_shape as (Sq & Sa & Sn & Si).
  set (P := λ a, bookkeeping a ∨ a = ACacheGet key ∨ a = ACacheSet key stored ttl).
  assert (cache_answer (SetReply new_Msg request) m = stored) as Ec.
  { unfold cache_answer. destruct Hn as [-> _]. by rewrite Sn. }
  assert (is_negative stored ∧ extractSOAFromAuthority stored = Some (soa, ttl)) as [Hn' Hsoa'].
  { split; [|done]. split_and!; [done|apply Hn|apply Hn]. }
  cut (wp (Change port) (λ r w', r = (Some (set_Questions stored [q]), None) ∧ ext P w w' ∧
    ACacheSet key stored ttl ∈ w_log w') w).
  { intros (r & w' & HC & -> & Hx)%wp_elim. do 2 eexists. split; [exact HC|].
    split_and!; try done; apply Hx. }
  eapply (loop_cached P); [by left|by right; left|by right|]. rewrite Ec. intros w1 [Hx1 Hq1 Hs1 _].
  assert (at_step P anything w request stored w1) as H1' by done.
  eapply wp_loop_next.
  { eapply (step_classify_negative P anything); [by left|done|done|done|exact Hsoa'|done|by right; right|exact H1']. }
  intros w2 [[Hx2 Hq2 Hs2 _] Hin].
  assert (at_step P anything w2 request stored w2) as H2' by done.
  eapply wp_loop_return; [exact H2'|by left|exact Sq|]. intros w3 Hx3. split_and!; [done|by transitivity w2|].
  destruct Hx3 as [(l & -> & _) _]. set_solver.
Qed.
End cached.

End resolution.

End policy.

Module PolicyWitness.
Import RefWorld.

#[export] Instance hosts_stable_env : HostsStable.
Proof. done. Qed.

Definition q : Question := mkQ "www.example." TypeA ClassINET.

Lemma query_valid : valid_query query q.
Proof. done. Qed.

Definition with_hosts (snap : hostsForwardSnapshot) : Shared := set_hosts snap fresh.

Definition local_hosts : hostsForwardSnapshot :=
  SetHostsAndForward [mkHostEntry "www.example" "a" "10.0.0.1" 0] [].
Definition local_rr : RR := RR_A (mkHdr "www.example." TypeA ClassINET 60) [10; 0; 0; 1].

Lemma hosts_answer_is_local_witness :
  hosts_view q (sh_hosts (with_hosts local_hosts)) = Some [local_rr] ∧
  ∃ m w', Change "53" (serving (with_hosts local_hosts) query) = (Ok (Some m, None), w') ∧
    Answer m = [local_rr] ∧ ext bookkeeping (serving (with_hosts local_hosts) query) w'.
Proof.
  assert (hosts_view q (sh_hosts (with_hosts local_hosts)) = Some [local_rr]) as Hv by (vm_compute; reflexivity).
  split; [exact Hv|].
  destruct (hosts_answer_is_local "53" (serving (with_hosts local_hosts) query) query q query_valid
    eq_refl eq_refl _ Hv) as (m & w' & HC & _ & Ha & _ & _ & _ & _ & Hx).
  exists m, w'. split; [exact HC|]. split; [exact Ha|exact Hx].
Defined.

Definition zone : ForwardZone := mkForwardZone "example." ["10.0.0.1:53"; "10.0.0.2:53"].
Definition forwarding : hostsForwardSnapshot :=
  SetHostsAndForward [] [mkForwardZone "example" ["10.0.0.1:53"; "10.0.0.2:53"]].

Lemma forward_zone_is_exclusive_witness :
  matchForwardZone (forwardZones (sh_hosts (with_hosts forwarding))) (Q_Name q) = Some zone ∧
  ∃ m w', Change "53" (serving (with_hosts forwarding) query) = (Ok (Some m, None), w') ∧
    ext (forward_action q zone) (serving (with_hosts forwarding) query) w'.
Proof.
  assert (hosts_view q (sh_hosts (with_hosts forwarding)) = None) as Hv by (vm_compute; reflexivity).
  assert (matchForwardZone (forwardZones (sh_hosts (with_hosts forwarding))) (Q_Name q) = Some zone) as Hz
    by (vm_compute; reflexivity).
  split; [exact Hz|].
  destruct (forward_zone_is_exclusive "53" (serving (with_hosts forwarding) query) query q query_valid
    eq_refl eq_refl zone Hv Hz) as (m & w' & HC & Hx & _).
  exists m, w'. split; [exact HC|exact Hx].
Defined.

Definition with_cached (m : Msg) : Shared :=
  set_cache (setCacheCopy (sh_cache fresh) (5000 * Second) (Some 10)
    (getCacheKey "www.example." TypeA) m 300) fresh.

Lemma no_hosts : hosts_view q empty_hostsForward = None.
Proof. vm_compute. reflexivity. Qed.

Lemma cached_answer_is_local_witness :
  ∃ r w', Change "53" (serving (with_cached (reply query)) query) = (Ok (Some r, None), w') ∧
    Answer r = [www] ∧
    ext (λ a, bookkeeping a ∨ a = ACacheGet "www.example.:1") (serving (with_cached (reply query)) query) w'.
Proof.
  destruct (cached_answer_is_local "53" (serving (with_cached (reply query)) query) query q query_valid
    eq_refl eq_refl (set_Questions (reply query) []) no_hosts eq_refl) as (r & w' & HC & _ & Ha & _ & _ & _ & Hx).
  - intros t. vm_compute. reflexivity.
  - intros t s Hs. exact Hs.
  - vm_compute. reflexivity.
  - exists r, w'. split; [exact HC|]. split; [exact Ha|exact Hx].
Defined.

Definition example_soa : RR := RR_SOA (mkHdr "example." TypeSOA ClassINET 900) 60.
Definition nxdomain : Msg := set_Ns (set_Rcode (set_Response query true) RcodeNameError) [example_soa].

Lemma negative_hit_is_stored_again_witness :
  let stored := set_Ns (set_Rcode (SetReply new_Msg query) RcodeNameError) [example_soa] in
  ∃ r w', Change "53" (serving (with_cached nxdomain) query) = (Ok (Some r, None), w') ∧
    Rcode (Hdr r) = RcodeNameError ∧ ACacheSet "www.example.:1" stored 60 ∈ w_log w'.
Proof.
  intros stored.
  destruct (negative_hit_is_stored_again "53" (serving (with_cached nxdomain) query) query q query_valid
    eq_refl eq_refl (set_Questions nxdomain []) no_hosts eq_refl) with (soa := example_soa) (ttl := 60)
    as (r & w' & HC & _ & _ & _ & Hr & _ & Hin).
  - intros t. vm_compute. reflexivity.
  - intros t s Hs. exact Hs.
  - split; [reflexivity|]. split; [vm_compute; reflexivity|]. apply list_elem_of_here.
  - vm_compute. reflexivity.
  - exists r, w'. split; [exact HC|]. split; [exact Hr|exact Hin].
Defined.
End PolicyWitness.
