(* ===== verification/Iteration.v ===== *)
(** * Resolution from the root

    What iterative resolution achieves when servers tell the truth.  The truth is
    given as data: for the name asked, and for every name its aliases lead to, a
    hierarchy of delegations from the root down and what its servers hold for the
    name (records, an alias, or nothing).  Servers do not reply, are lame, or speak
    for the hierarchy, and the cache holds nothing that contradicts it.  Then a
    resolution delivers the aliases and the records, or that there are none, or an
    error that says what kept it from doing so, and asks nobody else. *)

From Stdlib Require Import Ascii.
From S2P Require Import Prelude GoLib Float64 NetIP Dns Zone External Cache RateLog Gate.
From S2P Require Import HostsForward IPQuality IPPool HotZone Limiter World States Upstream.
From S2P Require Import Logic StateMachine Policy.

(** ** The best addresses are candidates *)

Lemma GetBestIPsV2_members `{GoSort} `{!GoSortLaws} p now ips :
  let '(best, second, _) := GetBestIPsV2 p now ips in
  (ips ≠ [] → best ∈ ips) ∧ (second = "" ∨ second ∈ ips).
Proof.
  unfold GetBestIPsV2. pose proof (collect_scores_spec now ips p) as Hc.
  destruct (collect_scores p now ips) as [scores p']. destruct Hc as (-> & _).
  set (f := λ ip, (ip, score_of p now ip)).
  assert ((sort_Slice score_less (f <$> ips)).*1 ≡ₚ ips) as Hips.
  { rewrite sort_Slice_perm. apply Permutation_refl'. clear. induction ips as [|ip ips IH]; [done|].
    simpl. by f_equal. }
  destruct (sort_Slice score_less (f <$> ips)) as [|[b sb] [|[s ss] rest]]; simpl in *.
  - split; [|by left]. intros Hne. by apply Permutation_nil_l in Hips.
  - split; [|by left]. intros _. rewrite <-Hips. by left.
  - split; [intros _; rewrite <-Hips; by left|]. right. rewrite <-Hips. by right; left.
Qed.

(** ** Facts about names *)

Lemma parents_end s z : z ∈ parents s → z = "" ∨ last_char z = last_char s.
Proof.
  induction s as [|c s IH]; simpl; [by intros ?%elem_of_nil|].
  assert (∀ r, r = s → r = "" ∨ last_char r = last_char (String c s)) as Hs
    by (intros r ->; destruct s; [by left|by right]).
  destruct (Ascii.eqb c "."%char); [intros [->|Hz]%elem_of_cons; [by apply Hs|]|intros Hz];
    (destruct (IH Hz) as [->|Hl]; [by left|]); (destruct s as [|d s]; [by apply elem_of_nil in Hz|by right]).
Qed.

(** ** The truth *)

(** A delegation: the NS records of the zone and the addresses of its servers. *)
Record Level := mkLevel {
  lv_ns : list RR;
  lv_ips : list string;
}.

(** What there is for a name and type: records; an alias, the first CNAME of the
    records leading to [target]; or nothing, said with the code [rcode]. *)
Inductive Content :=
| Records (rrs : list RR)
| Alias (rrs : list RR) (target : string)
| Nothing (rcode : Z).

(** A name, the delegations from the root to its servers, and what they hold. *)
Record Link := mkLink {
  ln_name : string;
  ln_levels : list Level;
  ln_content : Content;
}.

Definition zone_of (L : Level) : string :=
  match lv_ns L with ns0 :: _ => Hdr_Name (Header ns0) | [] => "" end.

Definition content_rcode (c : Content) : Z :=
  match c with Nothing rcode => rcode | _ => RcodeSuccess end.

(** The links lead from alias to alias, up to one that is none. *)
Fixpoint chained (ls : list Link) : Prop :=
  match ls with
  | [] => False
  | l :: rest =>
      match ln_content l, rest with
      | Alias _ target, l' :: _ => target = ln_name l' ∧ chained rest
      | Alias _ _, [] => False
      | _, [] => True
      | _, _ :: _ => False
      end
  end.

(** The answer section: the aliases in order, then the records. *)
Fixpoint answers_of (ls : list Link) : list RR :=
  match ls with
  | [] => []
  | l :: rest =>
      match ln_content l with
      | Records rrs => rrs
      | Alias rrs _ => option_list (fst <$> first_cname rrs) ++ answers_of rest
      | Nothing _ => []
      end
  end.

Fixpoint rcode_of (ls : list Link) : Z :=
  match ls with
  | [] => RcodeSuccess
  | l :: rest => match ln_content l with Alias _ _ => rcode_of rest | c => content_rcode c end
  end.

(** Iterations needed: three per level, and three to reach the first server. *)
Definition cost (ls : list Link) : nat := sum_list_with (λ l, 3 * length (ln_levels l) + 3)%nat ls.

Section iteration.
Context `{DLL : DnsLibLaws} `{GCL : GoCacheLaws Msg} `{EML : EbpfMapLaws BPFKey BPFValue}.
Context `{GS : GoSort} `{GSL : !GoSortLaws} `{E : !Env} `{HS : !HostsStable}.

Abbreviation MW := (M World).

(** The type and class asked for, the links from the name asked on, and the port
    of the servers. *)
Context (qtype qclass : Z) (links : list Link) (port : string).

Definition link_question (l : Link) : Question := mkQ (ln_name l) qtype qclass.
Definition link_key (l : Link) : string := getCacheKey (ln_name l) qtype.
Definition link_zones (l : Link) : list string := ln_name l :: parents (ln_name l).

(** The message hands over to the servers of [L]. *)
Definition delegates (L : Level) (m : Msg) : Prop :=
  Ns m = lv_ns L ∧ extra_ok m ∧ a_addresses (Extra m) = lv_ips L.

(** A delegation of a zone the name is in, to servers with addresses. *)
Definition level_ok (l : Link) (L : Level) : Prop :=
  (∃ ns0 rest, lv_ns L = ns0 :: rest ∧ is_NS ns0 = true ∧
     IsSubDomain (Hdr_Name (Header ns0)) (ln_name l) = true ∧
     last_char (Hdr_Name (Header ns0)) = Some "."%char) ∧
  existsb is_SOA (lv_ns L) = false ∧ lv_ips L ≠ [] ∧ "" ∉ lv_ips L.

Definition content_ok (c : Content) : Prop :=
  match c with
  | Records rrs => existsb (λ rr, Hdr_Rrtype (Header rr) =? qtype) rrs = true
  | Alias rrs target =>
      qtype ≠ TypeCNAME ∧ existsb (λ rr, Hdr_Rrtype (Header rr) =? qtype) rrs = false ∧
      target ≠ "" ∧ ∃ rr, first_cname rrs = Some (rr, target)
  | Nothing rcode => rcode ∈ [RcodeNameError; RcodeSuccess]
  end.

(** Names are fully qualified, and a delegation of one link whose zone encloses
    the name of another is a delegation of that link too. *)
Record truth_ok : Prop := {
  to_type : 0 ≤ qtype < 2 ^ 16;
  to_names : NoDup (ln_name <$> links);
  to_fqdn l : l ∈ links → last_char (ln_name l) = Some "."%char;
  to_levels l L : l ∈ links → L ∈ ln_levels l → level_ok l L;
  to_content l : l ∈ links → content_ok (ln_content l);
  to_shared l l' L : l ∈ links → l' ∈ links → L ∈ ln_levels l →
    zone_of L ∈ link_zones l' ∨ IsSubDomain (zone_of L) (ln_name l') = true → L ∈ ln_levels l';
}.

(** NS records in the authority section of [m] are a delegation of the link. *)
Definition ns_known (l : Link) (m : Msg) : Prop :=
  ∀ ns0 rest, Ns m = ns0 :: rest → is_NS ns0 = true → ∃ L, L ∈ ln_levels l ∧ delegates L m.

Definition asks (l : Link) (qy : Msg) : Prop := Questions qy = [mkQ (ln_name l) qtype ClassINET].

Definition echoes (l : Link) (m : Msg) : Prop :=
  ∃ q' rest, Questions m = q' :: rest ∧ Q_Name q' = ln_name l ∧ Q_Qtype q' = qtype.

(** The message has what there is for the link. *)
Definition carries (l : Link) (m : Msg) : Prop :=
  match ln_content l with
  | Records rrs | Alias rrs _ => Answer m = rrs
  | Nothing rcode => Answer m = [] ∧ hasSOAInAuthority m = true ∧ Rcode (Hdr m) = rcode
  end.

(** What a server of the [i]-th level may say: what there is, or a delegation to
    a level further down. *)
Definition speaks (l : Link) (i : nat) (m : Msg) : Prop :=
  echoes l m ∧
  (carries l m ∧ Rcode (Hdr m) = content_rcode (ln_content l) ∧ ns_known l m ∨
   Rcode (Hdr m) = RcodeSuccess ∧ Answer m = [] ∧
   ∃ j L, (i < j)%nat ∧ ln_levels l !! j = Some L ∧ delegates L m).

Definition lame (m : Msg) : Prop := bad_rcode (Rcode (Hdr m)) = true.

(** An exchange with a server of a link. *)
Definition exchanged (l : Link) (i : nat) (x : XResult) : Prop :=
  ∃ t qy ip L, asks l qy ∧ ln_levels l !! i = Some L ∧ ip ∈ lv_ips L ∧
    env_exchange t qy (ip +:+ ":" +:+ port) = x.

(** The servers of the links do not reply, are lame, or tell the truth. *)
Definition truthful : Prop :=
  ∀ l i m rtt, l ∈ links → exchanged l i (XOk m rtt) → speaks l i m ∨ lame m.

(** The process knows nothing that contradicts the truth: what is cached for a
    name is what there is, and cached delegations of its zones and the root hints
    are its delegations. *)
Definition consistent (s : Shared) : Prop :=
  ∀ l, l ∈ links →
    (∀ now m, getCacheCopy (sh_cache s) now (link_key l) = Some m → carries l m) ∧
    (∀ now key m, key ∈ link_zones l → getCacheCopy (sh_cache s) now key = Some m → ns_known l m) ∧
    (∀ id, ∃ L, L ∈ ln_levels l ∧ delegates L (GetRootGlue (sh_rootGlue s) id)).

Definition said (m : Msg) : Prop := ∃ l i rtt, l ∈ links ∧ exchanged l i (XOk m rtt).

(** The actions of a resolution by iteration: it asks for the names of the links,
    at their servers, and caches what they say, or that there is nothing. *)
Definition iteration_action (a : action) : Prop :=
  bookkeeping a ∨ (∃ k, a = ACacheGet k) ∨
  (∃ k v ttl, a = ACacheSet k v ttl ∧ (said v ∨ ∃ l, l ∈ links ∧ k = link_key l ∧ carries l v)) ∨
  (∃ l ip qy L, a = ASend (ip +:+ ":" +:+ port) qy ∧ l ∈ links ∧ L ∈ ln_levels l ∧ ip ∈ lv_ips L ∧ asks l qy).

(** A server of the links did not reply, or was lame. *)
Definition unserved : Prop :=
  ∃ l i x, l ∈ links ∧ exchanged l i x ∧ match x with XFail _ => True | XOk m _ => lame m end.

(** Why the answer could not be had. *)
Definition excuse (e : RErr) : Prop :=
  match e with
  | ErrGateSaturated => True
  | ErrContext x => ∃ t, env_ctxErr t = Some x
  | ErrExchange _ | ErrAllUpstreamsFailed _ | ErrBadRcodeNoAlternate _ | ErrBadRcodeAlternateFailed _
  | ErrBothBadRcode _ => unserved
  | _ => False
  end.

Context (Htruth : truth_ok) (Hservers : truthful)
  (Hinterfere : ∀ t s, consistent s → consistent (interfere t s)).

(** ** Keys *)

Lemma zone_end l key : l ∈ links → key ∈ link_zones l → key = "" ∨ last_char key = Some "."%char.
Proof.
  intros Hl [->|Hk%parents_end]%elem_of_cons; [right; by apply Htruth|].
  rewrite (to_fqdn Htruth l Hl) in Hk. done.
Qed.

Lemma key_not_zone l key : key = "" ∨ last_char key = Some "."%char → link_key l ≠ key.
Proof. apply (getCacheKey_inj (ln_name l) "" qtype 0 key). Qed.

Lemma key_inj l l' : l ∈ links → l' ∈ links → link_key l = link_key l' → l = l'.
Proof.
  intros Hl Hl' [En _]%cacheKey_inj; [|apply Htruth..].
  apply list_elem_of_lookup in Hl as [i Hi], Hl' as [j Hj].
  pose proof (to_names Htruth) as Hnd. rewrite NoDup_alt in Hnd.
  assert (i = j) as <-; [|congruence].
  apply (Hnd i j (ln_name l)); rewrite list_lookup_fmap; [by rewrite Hi|rewrite Hj; simpl; by f_equal].
Qed.

(** ** Storing what was said keeps the cache consistent *)

Lemma a_addresses_filter rrs : a_addresses (filter (λ rr, is_OPT rr = false) rrs) = a_addresses rrs.
Proof.
  induction rrs as [|rr rrs IH]; [done|]. rewrite filter_cons. unfold a_addresses in *.
  destruct rr; case_decide; try done; cbn [omap list_omap]; by rewrite IH.
Qed.

Lemma delegates_cached L m : delegates L m → delegates L (cached_form m).
Proof.
  intros (H1' & H2' & H3'). split_and!; simpl; [done| |by rewrite a_addresses_filter].
  apply Forall_forall. intros rr [_ Hrr]%list_elem_of_filter. unfold extra_ok in H2'.
  rewrite Forall_forall in H2'. by apply H2'.
Qed.

Lemma ns_known_cached l m : ns_known l m → ns_known l (cached_form m).
Proof. intros Hm ns0 rest Hns His. destruct (Hm ns0 rest Hns His) as (L & ? & ?). eauto using delegates_cached. Qed.

Lemma getCacheCopy_set_same c now mono key v expire now' m :
  getCacheCopy (setCacheCopy c now mono key v expire) now' key = Some m → m = cached_form v.
Proof.
  unfold getCacheCopy, getCache. rewrite setCacheCopy_dnsCache.
  intros (v' & Hv & ->)%fmap_Some. apply Get_Set_inv in Hv as ->. apply shallowCopy_stripOPT.
Qed.

(** A message fit to be stored under a key. *)
Definition storable (key : string) (v : Msg) : Prop :=
  ∀ l, l ∈ links → (key = link_key l → carries l v) ∧ (key ∈ link_zones l → ns_known l v).

Lemma storable_answer l v : l ∈ links → carries l v → storable (link_key l) v.
Proof.
  intros Hl Hv l' Hl'. split; [intros Ek; by rewrite <-(key_inj l l' Hl Hl' Ek)|].
  intros Hz. exfalso. by eapply (key_not_zone l), eq_refl; eapply (zone_end l').
Qed.

Lemma storable_delegation l L v : l ∈ links → L ∈ ln_levels l → delegates L v → storable (zone_of L) v.
Proof.
  intros Hl HL Hd l' Hl'. destruct (to_levels Htruth l L Hl HL) as [(ns0 & rest & En & _ & _ & Hdot) _].
  split; [intros Ek|intros Hz ns1 rest1 _ _].
  - exfalso. eapply (key_not_zone l'); [right|symmetry; exact Ek]. unfold zone_of. by rewrite En.
  - exists L. split; [|done]. eapply (to_shared Htruth l l'); auto.
Qed.

Lemma consistent_set s now mono key v expire :
  consistent s → storable key v → consistent (set_cache (setCacheCopy (sh_cache s) now mono key v expire) s).
Proof.
  intros Hc Hv l Hl. destruct (Hc l Hl) as (Hc1 & Hc2 & Hc3). destruct (Hv l Hl) as [Hv1 Hv2].
  split_and!; [intros now' m Hm|intros now' key' m Hz Hm|exact Hc3]; simpl in Hm.
  - destruct (decide (key = link_key l)) as [->|Hne].
    + apply getCacheCopy_set_same in Hm as ->. by apply Hv1.
    + rewrite getCacheCopy_set_other in Hm by done. by eapply Hc1.
  - destruct (decide (key = key')) as [<-|Hne].
    + apply getCacheCopy_set_same in Hm as ->. by apply ns_known_cached, Hv2.
    + rewrite getCacheCopy_set_other in Hm by done. by eapply Hc2.
Qed.

(** ** Rules for the parts of a step *)

Lemma act_book a : bookkeeping a → iteration_action a.
Proof. by left. Qed.

Section rules.
Context (w0 : World) (rq : Msg).
Abbreviation at_ := (at_step iteration_action consistent w0 rq).

(** Steps on the pool, the gate, the limiter and the counters. *)
Definition aside (w w' : World) : Prop :=
  w_log w' = w_log w ∧ w_req w' = w_req w ∧ w_resp w' = w_resp w ∧
  sh_hosts (w_shared w') = sh_hosts (w_shared w) ∧ sh_cache (w_shared w') = sh_cache (w_shared w) ∧
  sh_rootGlue (w_shared w') = sh_rootGlue (w_shared w).

Lemma at_aside rs w w' : aside w w' → at_ rs w → at_ rs w'.
Proof.
  intros (H1' & H2' & H3' & H4' & H5' & H6') [Hx Hrq Hrs Hi]. constructor; [|congruence..|].
  - transitivity w; [exact Hx|]. by apply ext_quiet.
  - intros l Hl. rewrite H5', H6'. by apply Hi.
Qed.

Lemma wp_aside_step {A} (f : World → A * World) (Q : A → World → Prop) rs w :
  (∀ w, aside w (f w).2) → at_ rs w → (∀ v w', at_ rs w' → Q (f v).1 w') → wp (stepM f) Q w.
Proof. intros Hf Ha Hk. apply wp_stepM. apply Hk. by eapply at_aside. Qed.

Lemma wp_aside_modify f (Q : unit → World → Prop) rs w :
  (∀ w, aside w (f w)) → at_ rs w → (∀ w', at_ rs w' → Q tt w') → wp (modify f) Q w.
Proof. intros Hf Ha Hk. apply wp_modify. apply Hk. by eapply at_aside. Qed.

Lemma wp_ticked {A} (k : nat → MW A) Q rs w :
  at_ rs w → (∀ t w', at_ rs w' → wp (k t) Q w') → wp (bind tick k) Q w.
Proof. intros Ha Hk. by eapply at_tick. Qed.

Lemma wp_acquire path qn (Q : bool → World → Prop) rs w :
  at_ rs w → (∀ ok w', at_ rs w' → Q ok w') → wp (gate_tryAcquire path qn) Q w.
Proof.
  intros Ha Hk. unfold gate_tryAcquire. eapply wp_ticked; [done|]. intros t w1 H1'.
  eapply wp_aside_step; [|done|intros v w2; apply Hk].
  intros v. by destruct (tryAcquire _ _ _ _) as [[ok ev] g].
Qed.

Lemma wp_release (Q : unit → World → Prop) rs w :
  at_ rs w → (∀ w', at_ rs w' → Q tt w') → wp gate_release Q w.
Proof.
  intros Ha Hk. unfold gate_release. eapply wp_ticked; [done|]. intros t w1 H1'.
  by eapply wp_aside_modify.
Qed.

Lemma wp_limiter path qn z (Q : bool → World → Prop) rs w :
  at_ rs w → (∀ ok w', at_ rs w' → Q ok w') → wp (limiter_tryAcquire path qn z) Q w.
Proof.
  intros Ha Hk. unfold limiter_tryAcquire. eapply wp_ticked; [done|]. intros t w1 H1'.
  eapply wp_aside_step; [|done|intros v w2; apply Hk].
  intros v. by destruct (tryAcquireExpensiveRequest _ _ _ _ _ _ _) as [[ok h] l].
Qed.

Lemma wp_pool ip f (Q : unit → World → Prop) rs w :
  at_ rs w → (∀ w', at_ rs w' → Q tt w') → wp (pool_update ip f) Q w.
Proof.
  intros Ha Hk. unfold pool_update, modify_shared. eapply wp_ticked; [done|]. intros t w1 H1'.
  eapply wp_aside_modify; [|done|done]. intros v. simpl. by destruct (GetIPQualityV2 _ _).
Qed.

Lemma wp_degrade (Q : bool → World → Prop) rs w :
  at_ rs w → (∀ b w', at_ rs w' → Q b w') → wp gate_shouldDegradeFanout Q w.
Proof.
  intros Ha Hk. unfold gate_shouldDegradeFanout. eapply wp_ticked; [done|]. intros t w1 H1'.
  apply wp_gets. by apply Hk.
Qed.

Lemma wp_degraded path act qn (Q : unit → World → Prop) rs w :
  at_ rs w → (∀ w', at_ rs w' → Q tt w') → wp (gate_recordDegraded path act qn) Q w.
Proof.
  intros Ha Hk. unfold gate_recordDegraded, modify_shared. eapply wp_ticked; [done|]. intros t w1 H1'.
  by eapply wp_aside_modify.
Qed.

Lemma wp_leave (Q : unit → World → Prop) rs w :
  at_ rs w → (∀ w', at_ rs w' → Q tt w') → wp leave_running Q w.
Proof. intros Ha Hk. by eapply wp_aside_modify. Qed.

Lemma wp_best ips (Q : string * string * option RErr → World → Prop) rs w :
  ips ≠ [] → "" ∉ ips → at_ rs w →
  (∀ best second w', best ∈ ips → second = "" ∨ second ∈ ips → at_ rs w' → Q (best, second, None) w') →
  wp (getBestAddressAndPrefetchIPs ips) Q w.
Proof.
  intros Hne Hz Ha Hk. unfold getBestAddressAndPrefetchIPs. destruct ips as [|ip ips']; [done|].
  apply wp_bind. unfold pool_getBest. eapply wp_ticked; [done|]. intros t w1 H1'.
  eapply wp_aside_step; [|exact H1'|].
  - intros v. by destruct (GetBestIPsV2 _ _ _) as [[b s'] p].
  - intros v w2 H2'. apply wp_ret. simpl.
    pose proof (GetBestIPsV2_members (sh_pool (w_shared v)) (env_now t) (ip :: ips')) as Hm.
    destruct (GetBestIPsV2 (sh_pool (w_shared v)) (env_now t) (ip :: ips')) as [[b s'] p].
    destruct Hm as [Hb Hs]. apply Hk; [by apply Hb|done|done].
Qed.

(** Reading the cache, and storing. *)
Lemma wp_cache_get key (Q : option Msg → World → Prop) rs w :
  at_ rs w →
  (∀ found w', at_ rs w' → (∀ m, found = Some m → ∃ s now, consistent s ∧ getCacheCopy (sh_cache s) now key = Some m) →
     Q found w') →
  wp (cache_getCopy key) Q w.
Proof.
  intros Ha Hk. unfold cache_getCopy. eapply (at_log iteration_action); [right; left; by eexists|done|].
  clear w Ha. intros w Ha. eapply wp_ticked; [done|]. clear w Ha. intros t w Ha. apply wp_gets, Hk; [done|].
  intros m Hm. exists (w_shared w), (env_now t). split; [apply Ha|done].
Qed.

Lemma wp_cache_set key v ttl (Q : unit → World → Prop) rs w :
  (said v ∨ ∃ l, l ∈ links ∧ key = link_key l ∧ carries l v) → storable key v → at_ rs w →
  (∀ w', at_ rs w' → Q tt w') → wp (cache_setCopy key v ttl) Q w.
Proof.
  intros Hsaid Hv Ha Hk. unfold cache_setCopy. eapply (at_log iteration_action); [|done|].
  { right; right; left. by exists key, v, ttl. }
  clear w Ha. intros w Ha. eapply wp_ticked; [done|]. clear w Ha. intros t w [Hx Hrq Hrs Hi].
  unfold modify_shared. apply wp_modify, Hk. constructor; [|done|done|]; [transitivity w; [exact Hx|by apply ext_quiet]|].
  by apply consistent_set.
Qed.

(** ** Asking the servers of a level *)

Context (l : Link) (Hl : l ∈ links).

Section level.
Context (i : nat) (L : Level) (Hi : ln_levels l !! i = Some L).

Lemma level_in : L ∈ ln_levels l.
Proof. by eapply list_elem_of_lookup_2. Qed.

(** What comes back: a message of a server of this level, or an excuse. *)
Definition reply_of (r : Msg + RErr) : Prop :=
  match r with inl m => ∃ rtt, exchanged l i (XOk m rtt) | inr e => excuse e end.

Lemma exchange_of t qy ip :
  asks l qy → ip ∈ lv_ips L → exchanged l i (env_exchange t qy (ip +:+ ":" +:+ port)).
Proof. intros Hq Hip. by exists t, qy, ip, L. Qed.

Lemma silent x : exchanged l i (XFail x) → unserved.
Proof. intros Hx. by exists l, i, (XFail x). Qed.

Lemma send_action qy ip : asks l qy → ip ∈ lv_ips L → iteration_action (ASend (ip +:+ ":" +:+ port) qy).
Proof. intros Hq Hip. right; right; right. exists l, ip, qy, L. split_and!; try done. apply level_in. Qed.

Lemma wp_ask qy ip path (Q : Msg * Z + RErr → World → Prop) rs w :
  asks l qy → ip ∈ lv_ips L → at_ rs w →
  (∀ r w', at_ rs w' →
     match r with inl (m, _) => reply_of (inl m) | inr e => reply_of (inr e) end → Q r w') →
  wp (exchangeWithUpstreamGate qy (ip +:+ ":" +:+ port) path) Q w.
Proof.
  intros Hq Hip Ha Hk. unfold exchangeWithUpstreamGate. cbv zeta. apply wp_bind.
  eapply wp_acquire; [done|]. clear w Ha. intros ok w Ha.
  destruct ok; simpl; [|by apply wp_ret, Hk].
  eapply (at_log iteration_action); [by apply send_action|done|]. clear w Ha. intros w Ha.
  eapply wp_ticked; [done|]. clear w Ha. intros t w Ha. apply wp_bind.
  eapply wp_release; [done|]. clear w Ha. intros w Ha. apply wp_ret, Hk; [done|].
  pose proof (exchange_of t qy ip Hq Hip) as Hx.
  destruct (env_exchange t qy _) as [m rtt|x]; [by exists rtt|by eapply silent].
Qed.

Lemma wp_querySingle qy ip (Q : happyEyeballsResult + RErr → World → Prop) rs w :
  asks l qy → ip ∈ lv_ips L → at_ rs w →
  (∀ r w', at_ rs w' →
     match r with inl h => he_addr h ∈ lv_ips L ∧ reply_of (inl (he_response h)) | inr e => reply_of (inr e) end →
     Q r w') →
  wp (querySingle qy ip port) Q w.
Proof.
  intros Hq Hip Ha Hk. unfold querySingle. apply wp_bind. eapply wp_ask; [done..|]. clear w Ha.
  intros [[m rtt]|e] w Ha Hr.
  - eapply (at_log iteration_action); [by left|done|]. intros w1 H1'. by apply wp_ret, Hk.
  - destruct (is_gate_error e); [by apply wp_ret, Hk|].
    eapply (at_log iteration_action); [by left|done|]. intros w1 H1'. apply wp_bind.
    eapply wp_pool; [done|]. intros w2 H2'. by apply wp_ret, Hk.
Qed.

Lemma wp_race_failed addr e (Q : unit → World → Prop) rs w :
  at_ rs w → (∀ w', at_ rs w' → Q tt w') → wp (race_failed addr e) Q w.
Proof.
  intros Ha Hk. unfold race_failed. eapply (at_log iteration_action); [by left|done|]. intros w1 H1'.
  by eapply wp_pool.
Qed.

Lemma wp_happy qy best second (Q : happyEyeballsResult + RErr → World → Prop) rs w :
  asks l qy → best ∈ lv_ips L → second = "" ∨ second ∈ lv_ips L → at_ rs w →
  (∀ r w', at_ rs w' →
     match r with inl h => he_addr h ∈ lv_ips L ∧ reply_of (inl (he_response h)) | inr e => reply_of (inr e) end →
     Q r w') →
  wp (queryHappyEyeballs qy best second port) Q w.
Proof.
  intros Hq Hb Hs Ha Hk. unfold queryHappyEyeballs. cbv zeta.
  destruct (String.eqb_spec second "") as [->|Hne]; [by eapply wp_querySingle|].
  destruct Hs as [?|Hs]; [done|].
  apply wp_bind. eapply wp_degrade; [done|]. clear w Ha. intros [] w Ha.
  { apply wp_bind. eapply wp_degraded; [done|]. intros w1 H1'. by eapply wp_querySingle. }
  apply wp_bind. eapply wp_acquire; [done|]. clear w Ha. intros [] w Ha; simpl; [|by apply wp_ret, Hk].
  apply wp_bind. eapply wp_acquire; [done|]. clear w Ha. intros [] w Ha; simpl.
  2:{ apply wp_bind. eapply wp_release; [done|]. intros w1 H1'. apply wp_bind.
      eapply wp_degraded; [done|]. intros w2 H2'. by eapply wp_querySingle. }
  rewrite Msg_Copy_spec.
  eapply (at_log iteration_action); [by apply send_action|done|]. clear w Ha. intros w Ha.
  eapply (at_log iteration_action); [by apply send_action|done|]. clear w Ha. intros w Ha.
  eapply wp_ticked; [done|]. clear w Ha. intros t1 w Ha. eapply wp_ticked; [done|]. clear w Ha. intros t2 w Ha.
  assert (∃ a1 a2 x1 x2, (if env_primaryFirst t1
      then (best, env_exchange t1 qy (best +:+ ":" +:+ port), (second, env_exchange t2 qy (second +:+ ":" +:+ port)))
      else (second, env_exchange t2 qy (second +:+ ":" +:+ port), (best, env_exchange t1 qy (best +:+ ":" +:+ port))))
    = (a1, x1, (a2, x2)) ∧ a1 ∈ lv_ips L ∧ a2 ∈ lv_ips L ∧ exchanged l i x1 ∧ exchanged l i x2)
    as (a1 & a2 & x1 & x2 & -> & Ha1 & Ha2 & Hx1 & Hx2)
    by (destruct (env_primaryFirst t1); do 4 eexists; split_and!; first [done|by apply exchange_of]).
  apply wp_bind. eapply wp_release; [done|]. clear w Ha. intros w Ha. destruct x1 as [m rtt|e1].
  - apply wp_bind. assert (∀ (Q' : unit → World → Prop), (∀ w', at_ rs w' → Q' tt w') →
      wp (if env_loserDone t1 then gate_release else leave_running) Q' w) as Hloser.
    { intros Q' HQ. destruct (env_loserDone t1); [by eapply wp_release|by eapply wp_leave]. }
    apply Hloser. clear w Ha Hloser. intros w Ha. unfold race_won.
    eapply (at_log iteration_action); [by left|done|]. intros w1 H1'. apply wp_ret, Hk; [done|].
    split; [done|]. by exists rtt.
  - apply wp_bind. eapply wp_race_failed; [done|]. clear w Ha. intros w Ha.
    apply wp_bind. eapply wp_release; [done|]. clear w Ha. intros w Ha. destruct x2 as [m rtt|e2].
    + unfold race_won. eapply (at_log iteration_action); [by left|done|]. intros w1 H1'. apply wp_ret, Hk; [done|].
      split; [done|]. by exists rtt.
    + apply wp_bind. eapply wp_race_failed; [done|]. clear w Ha. intros w Ha. apply wp_ret, Hk; [done|].
      by eapply silent.
Qed.
End level.

(** ** The query state *)

Context (Hrq : valid_query rq (link_question l)) (q0 : Question) (id0 : Z).

(** The response is a reply to the client. *)
Definition framed (rs : Msg) : Prop := Questions rs = [q0] ∧ Id (Hdr rs) = id0.

(** Nothing found yet. *)
Definition blank (rs : Msg) : Prop := framed rs ∧ Answer rs = [] ∧ Rcode (Hdr rs) = RcodeSuccess.

(** The response has what there is for the link. *)
Definition found (rs : Msg) : Prop :=
  framed rs ∧ carries l rs ∧ Rcode (Hdr rs) = content_rcode (ln_content l) ∧
  (∀ rrs target, ln_content l = Alias rrs target → ns_known l rs).

(** The response has a delegation to a level below the [i]-th. *)
Definition referred (i : nat) (rs : Msg) : Prop :=
  blank rs ∧ ∃ j L, (i < j)%nat ∧ ln_levels l !! j = Some L ∧ delegates L rs.

Definition query_done (i : nat) (r : Z * option RErr) (w : World) : Prop :=
  (∃ e, r = (QUERY_UPSTREAM_COMMON_ERROR, Some e) ∧ excuse e ∧ ∃ rs, at_ rs w ∧ Answer rs = []) ∨
  (r = (QUERY_UPSTREAM_NO_ERROR, None) ∧ ∃ rs, at_ rs w ∧ (found rs ∨ referred i rs)).

Lemma query_failed i e rs w : excuse e → at_ rs w → Answer rs = [] → query_done i (QUERY_UPSTREAM_COMMON_ERROR, Some e) w.
Proof. intros He Ha HA. left. eauto 6. Qed.

Lemma speaks_ns_known i m : speaks l i m → ns_known l m.
Proof.
  intros (_ & [(_ & _ & ?)|(_ & _ & j & L & _ & HL & Hd)]); [done|]. intros ns0 rest _ _. exists L.
  split; [by eapply level_in|done].
Qed.

Lemma speaks_rcode i m :
  speaks l i m → Rcode (Hdr m) = RcodeSuccess ∨
    (Rcode (Hdr m) = RcodeNameError ∧ ln_content l = Nothing RcodeNameError ∧ carries l m).
Proof.
  intros (_ & [(Hc & Hr & _)|(Hr & _)]); [|by left]. pose proof (to_content Htruth l Hl) as Hok.
  destruct (ln_content l) as [rrs|rrs t|rc] eqn:El; [by left|by left|]. simpl in Hr, Hok.
  rewrite !elem_of_cons in Hok. destruct Hok as [->|[->|Hok%not_elem_of_nil]]; [right|left|done]; done.
Qed.

Definition merged (rs m : Msg) : Msg :=
  set_Extra (set_Ns (set_Answer rs (Answer rs ++ Answer m)) (Ns m)) (Extra m).

Lemma merged_done i m rs :
  speaks l i m → Rcode (Hdr m) = RcodeSuccess → blank rs → found (merged rs m) ∨ referred i (merged rs m).
Proof.
  intros (_ & Hs) Hrc (Hf & HA & Hr).
  destruct Hs as [(Hc & Hcr & Hns)|(_ & HA' & j & L & Hj & HL & Hd)].
  - left. split; [exact Hf|]. split.
    + unfold carries in *. destruct (ln_content l); simpl; rewrite ?HA; [done|done|].
      destruct Hc as (-> & Hsoa & <-). split_and!; [done|exact Hsoa|congruence].
    + split; [simpl; congruence|]. intros _ _ _. exact Hns.
  - right. split; [|by exists j, L]. split_and!; [exact Hf|simpl; by rewrite HA, HA'|exact Hr].
Qed.

Lemma wp_accept i m rtt rs w :
  exchanged l i (XOk m rtt) → speaks l i m → Rcode (Hdr m) = RcodeSuccess → blank rs → at_ rs w →
  wp (accept_response rq m) (query_done i) w.
Proof.
  intros Hx Hs Hrc He Ha. pose proof (speaks_ns_known i m Hs) as Hk.
  pose proof (merged_done i m rs Hs Hrc He) as Hdone.
  assert (said m) as Hsaid by (by exists l, i, rtt).
  destruct Hs as ((q' & rest & Eq & En & Et) & Hs). unfold accept_response. rewrite Eq.
  destruct Hrq as (-> & _). apply wp_bind, wp_index0. rewrite En, Et, String.eqb_refl. simpl.
  assert (∀ (Q : unit → World → Prop), (∀ w', at_ rs w' → Q tt w') →
    wp (match Answer m with [] => ret tt | a0 :: _ => cache_setCopyByType (ln_name l) qtype m (Hdr_Ttl (Header a0)) end) Q w)
    as H1'.
  { intros Q HQ. destruct (Answer m) as [|a0 rrs] eqn:EA; [by apply wp_ret, HQ|].
    eapply wp_cache_set; [by left| |done|done]. apply storable_answer; [done|].
    destruct Hs as [[? _]|(_ & ? & _)]; [done|congruence]. }
  apply wp_bind, H1'. clear w Ha H1'. intros w Ha.
  assert (∀ (Q : unit → World → Prop), (∀ w', at_ rs w' → Q tt w') →
    wp (match Ns m with [] => ret tt | ns0 :: _ =>
      if is_NS ns0 then cache_setCopy (Hdr_Name (Header ns0)) m (Hdr_Ttl (Header ns0)) else ret tt end) Q w) as H2'.
  { intros Q HQ. destruct (Ns m) as [|ns0 rrs] eqn:EN; [by apply wp_ret, HQ|].
    destruct (is_NS ns0) eqn:EI; [|by apply wp_ret, HQ].
    destruct (Hk ns0 rrs EN EI) as (L & HL & Hd). pose proof Hd as (ENs & _).
    eapply wp_cache_set; [by left| |done|done].
    assert (Hdr_Name (Header ns0) = zone_of L) as -> by (unfold zone_of; by rewrite <-ENs, EN).
    by apply (storable_delegation l). }
  apply wp_bind, H2'. clear w Ha H2'. intros w Ha. eapply at_get_resp; [done|].
  eapply at_put_resp; [done|]. intros w1 H1'. apply wp_ret. right. split; [done|]. by exists (merged rs m).
Qed.

(** The code and authority section of [m], copied into the response. *)
Definition recoded (rs m : Msg) : Msg := set_Ns (set_Rcode rs (Rcode (Hdr m))) (Ns m).

Lemma wp_copy {A} m (k : unit → MW A) Q rs w :
  at_ rs w → (∀ w', at_ (recoded rs m) w' → wp (k tt) Q w') → wp (bind (copy_rcode_ns m) k) Q w.
Proof.
  intros Ha Hk. apply wp_bind. unfold copy_rcode_ns. eapply at_get_resp; [done|].
  unfold put_resp. apply wp_modify, Hk. destruct Ha as [Hx Hq' Hrs Hc]. by constructor.
Qed.

Lemma recoded_nxdomain m rs :
  ln_content l = Nothing RcodeNameError → Rcode (Hdr m) = RcodeNameError → carries l m →
  framed rs → Answer rs = [] → found (recoded rs m).
Proof.
  intros El Hrc Hc Hf HA. split; [exact Hf|]. unfold carries in *. rewrite El in *.
  destruct Hc as (_ & Hsoa & _). split_and!; [exact HA|exact Hsoa|exact Hrc|exact Hrc|done].
Qed.

Lemma lame_rcode m : lame m → (Rcode (Hdr m) =? RcodeSuccess) = false ∧ (Rcode (Hdr m) =? RcodeNameError) = false.
Proof.
  unfold lame, bad_rcode. intros Hb.
  destruct (Z.eqb_spec (Rcode (Hdr m)) RcodeSuccess) as [E1|E1]; [by rewrite E1 in Hb|].
  destruct (Z.eqb_spec (Rcode (Hdr m)) RcodeNameError) as [E2|E2]; [by rewrite E2 in Hb|done].
Qed.

Lemma lame_unserved i m rtt : exchanged l i (XOk m rtt) → lame m → unserved.
Proof. intros Hx Hm. by exists l, i, (XOk m rtt). Qed.

(** The retry after a lame server. *)
Lemma wp_retry i L qy ip best second rc rs w :
  ln_levels l !! i = Some L → unserved → asks l qy → ip ∈ lv_ips L → best ∈ lv_ips L →
  second = "" ∨ second ∈ lv_ips L → framed rs → Answer rs = [] → at_ rs w →
  wp (retry_alternate rq qy ip best second port rc) (query_done i) w.
Proof.
  intros HL Hun Hqy Hip Hb Hs Hf HA Ha. unfold retry_alternate.
  eapply (at_log iteration_action); [by left|done|]. clear w Ha. intros w Ha. apply wp_bind.
  eapply wp_pool; [done|]. clear w Ha. intros w Ha. cbv zeta.
  set (alt := if String.eqb ip second then best else second).
  destruct (String.eqb alt "" || String.eqb alt ip) eqn:Ealt.
  { eapply (at_log iteration_action); [by left|done|]. intros w1 H1'. apply wp_ret. by eapply query_failed. }
  apply orb_false_iff in Ealt as [Ez%String.eqb_neq _].
  assert (alt ∈ lv_ips L) as Halt by (unfold alt in *; destruct (String.eqb ip second); [done|by destruct Hs]).
  apply wp_bind. eapply (wp_ask i L); [done..|]. clear w Ha. intros [[m rtt]|e] w Ha Hr.
  2:{ apply wp_bind. assert (∀ (Q : unit → World → Prop), (∀ w', at_ rs w' → Q tt w') →
        wp (if is_gate_error e then ret tt
            else do! log (AUpstream "fallback" "failure") in
                 do! log (AUpstream "failure" (classifyUpstreamError (xerr_of e))) in pool_recordFailure alt) Q w) as Hl'.
      { intros Q HQ. destruct (is_gate_error e); [by apply wp_ret, HQ|].
        eapply (at_log iteration_action); [by left|done|]. intros w1 H1'.
        eapply (at_log iteration_action); [by left|done|]. intros w2 H2'. by eapply wp_pool. }
      apply Hl'. intros w1 H1'. apply wp_ret. by eapply query_failed. }
  destruct Hr as [rtt' Hx].
  eapply (at_log iteration_action); [by left|done|]. clear w Ha. intros w Ha. apply wp_bind.
  eapply wp_pool; [done|]. clear w Ha. intros w Ha. eapply wp_copy; [done|]. clear w Ha. intros w Ha. cbv zeta.
  destruct (Hservers l i m rtt' Hl Hx) as [Hsp|Hlame].
  - destruct (speaks_rcode i m Hsp) as [Hrc|(Hrc & El & Hc)]; rewrite Hrc; simpl.
    + eapply wp_accept; [done|done|done| |exact Ha]. by split_and!.
    + apply wp_ret. right. split; [done|]. exists (recoded rs m). split; [done|]. left. by apply recoded_nxdomain.
  - destruct (lame_rcode m Hlame) as [-> ->]. simpl.
    eapply (at_log iteration_action); [by left|done|]. intros w1 H1'. apply wp_ret. by eapply query_failed.
Qed.

Lemma wp_a_extras rrs (Q : list string → World → Prop) w :
  Forall rr_typed rrs → Q (a_addresses rrs) w → wp (a_extras rrs) Q w.
Proof.
  revert Q. induction rrs as [|rr rrs IH]; intros Q Ht HQ; [by apply wp_ret|].
  apply Forall_cons in Ht as [Hrr Ht]. cbn [a_extras].
  destruct (Z.eqb_spec (Hdr_Rrtype (Header rr)) TypeA) as [Et|Et].
  - apply rr_typed_A in Et; [|done]. destruct rr; try done. apply wp_bind, IH; [done|]. by apply wp_ret.
  - apply IH; [done|]. destruct rr; done.
Qed.

Lemma wp_query i L depth nested rs w :
  ln_levels l !! i = Some L → delegates L rs → blank rs → at_ rs w →
  wp (queryUpstream_handle port depth nested) (query_done i) w.
Proof.
  intros HL (Hns & Hex & Hips) (Hf & HA & Hrc0) Ha.
  destruct (to_levels Htruth l L Hl (level_in i L HL)) as (_ & _ & Hne & Hz).
  unfold queryUpstream_handle. eapply at_nil; [done|].
  eapply wp_ticked; [done|]. clear w Ha. intros t w Ha. eapply at_get_req; [done|].
  pose proof Hrq as (Erq & _). rewrite Erq. apply wp_bind, wp_index0.
  destruct (env_ctxErr t) as [x|] eqn:Ex; [apply wp_ret; eapply query_failed; [by exists t|done..]|].
  eapply wp_ticked; [done|]. clear w Ha. intros t1 w Ha. eapply wp_ticked; [done|]. clear w Ha. intros t2 w Ha.
  set (qy := SetEdns0 _ _ _). assert (asks l qy) as Hqy.
  { unfold asks, qy. rewrite SetEdns0_Questions. apply (SetQuestion_spec new_Msg (ln_name l) qtype (env_id t1)). }
  eapply at_get_resp; [done|]. apply wp_bind. unfold delegation_ips, getIPListFromResponse.
  apply wp_bind, wp_a_extras; [done|]. rewrite Hips.
  assert ((length (lv_ips L) =? 0)%nat = false) as -> by (by destruct (lv_ips L)). cbn [andb]. apply wp_ret.
  apply wp_bind. eapply wp_best; [done..|]. clear w Ha. intros best second w Hb Hs Ha.
  destruct (String.eqb_spec best "") as [->|Hbest]; [done|].
  rewrite bool_decide_false by (by intros [? ?]). cbn [orb].
  apply wp_bind. eapply (wp_happy i L); [done..|]. clear w Ha. intros [h|e] w Ha Hr.
  2:{ apply wp_ret. by eapply query_failed. }
  destruct Hr as [Hwin [rtt Hx]]. apply wp_bind. eapply wp_pool; [done|]. clear w Ha. intros w Ha. cbv zeta.
  destruct (Hservers l i _ rtt Hl Hx) as [Hsp|Hlame].
  - destruct (speaks_rcode i _ Hsp) as [Hrc|(Hrc & El & Hc)]; rewrite Hrc; simpl.
    + eapply wp_accept; [done|done|done| |exact Ha]. by split_and!.
    + eapply wp_copy; [done|]. intros w1 H1'. apply wp_ret. right. split; [done|].
      exists (recoded rs (he_response h)). split; [done|]. left. by apply recoded_nxdomain.
  - destruct (lame_rcode _ Hlame) as [-> ->]. simpl. eapply wp_copy; [done|]. clear w Ha. intros w Ha.
    pose proof Hlame as Hbad. unfold lame in Hbad. rewrite Hbad.
    eapply (wp_retry i L); [done|by eapply lame_unserved|done|done|done|done| | |exact Ha]; done.
Qed.

(** ** The states of the iteration *)

Context (depth : Z) (nested : MW (option Msg * option RErr)) (chain : list RR) (visited : gset string).
Abbreviation iter st := (iterate port depth nested q0 (mkLoop st chain visited)).
Abbreviation next st := (inl (mkLoop st chain visited)).

Lemma enter (m : Loop → MW (Loop + (option Msg * option RErr))) st Q rs w :
  iter st = (do! recordTraceState (stateMetricName st) in do! log (AStage (stateMetricName st)) in
             let! _ := get_req in m (mkLoop st chain visited)) →
  at_ rs w → (∀ w', at_ rs w' → wp (m (mkLoop st chain visited)) Q w') → wp (iter st) Q w.
Proof.
  intros -> Ha Hk. eapply at_trace; [done|]. intros w1 H1'. eapply (at_log iteration_action); [by left|done|].
  intros w2 H2'. eapply at_get_req; [done|]. by apply Hk.
Qed.

Lemma go st to rs w (Q : _ → World → Prop) :
  at_ rs w → (∀ w', at_ rs w' → Q (next to) w') → wp (goto (mkLoop st chain visited) to) Q w.
Proof.
  intros Ha Hk. unfold goto, recordStateTransition. eapply (at_log iteration_action); [by left|done|].
  intros w1 H1'. apply wp_ret. by apply Hk.
Qed.

Lemma terminal {A} st exit (k : unit → MW A) Q rs w :
  at_ rs w → (∀ w', at_ rs w' → wp (k tt) Q w') → wp (bind (recordTerminalExit st exit) k) Q w.
Proof. intros. eapply (at_terminal iteration_action); [exact act_book|done..]. Qed.

Lemma step_query i L rs w :
  ln_levels l !! i = Some L → delegates L rs → blank rs → at_ rs w →
  wp (iter QUERY_UPSTREAM) (λ n w',
    (∃ e rs', n = inr (None, Some (ErrHandle QUERY_UPSTREAM e)) ∧ excuse e ∧ at_ rs' w' ∧ Answer rs' = []) ∨
    (n = next CLASSIFY_RESP ∧ ∃ rs', at_ rs' w' ∧ (found rs' ∨ referred i rs'))) w.
Proof.
  intros HL Hd Hb Ha. eapply (enter (case_QUERY_UPSTREAM port depth nested)); [done|done|]. clear w Ha. intros w Ha.
  unfold case_QUERY_UPSTREAM, handleState. apply wp_bind, wp_bind.
  eapply wp_mono; [|by eapply wp_query]. clear w Ha.
  intros r w [(e & -> & He & rs1 & Ha & HA)|(-> & rs' & Ha & Hd')]; apply wp_ret; simpl.
  - unfold exit_error. eapply (at_log iteration_action); [by left|done|]. clear w Ha. intros w Ha.
    eapply terminal; [done|]. intros w1 H1'. apply wp_ret. left. eauto 6.
  - eapply go; [done|]. intros w1 H1'. right. eauto.
Qed.

Lemma step_referral L rs w :
  level_ok l L → Ns rs = lv_ns L → Answer rs = [] → at_ rs w →
  wp (iter CLASSIFY_RESP) (λ n w', n = next EXTRACT_GLUE ∧ at_ rs w') w.
Proof.
  intros (_ & Hsoa & _) Hns HA Ha. eapply (enter case_CLASSIFY_RESP); [done|done|]. clear w Ha. intros w Ha.
  eapply (at_handle _ _ _ _ _ (λ c w', c = CLASSIFY_RESP_GET_NS ∧ at_ rs w')).
  - unfold classifyResp_handle. eapply at_nil; [done|]. eapply at_get_req; [done|].
    eapply at_get_resp; [done|]. destruct Hrq as (-> & _). apply wp_bind, wp_index0. cbv zeta.
    assert (classify (Q_Qtype (link_question l)) rs = CLASSIFY_RESP_GET_NS) as ->
      by (unfold classify, hasSOAInAuthority; by rewrite HA, Hns, Hsoa). by apply wp_ret.
  - intros c w' [-> Ha']. by eapply go.
Qed.

(** What an earlier link has left in the response: nothing, or a delegation that
    serves this link as well. *)
Definition leftover (rs : Msg) : Prop := (Ns rs = [] → Extra rs = []) ∧ ns_known l rs.

Lemma step_extract rs w :
  blank rs → leftover rs → at_ rs w →
  wp (iter EXTRACT_GLUE) (λ n w',
    (n = next QUERY_UPSTREAM ∧ (∃ L, L ∈ ln_levels l ∧ delegates L rs) ∧ at_ rs w') ∨
    (n = next LOOKUP_NS_CACHE ∧ ∃ rs', blank rs' ∧ Ns rs' = [] ∧ Extra rs' = [] ∧ at_ rs' w')) w.
Proof.
  intros Hb [Hempty Hknown] Ha. eapply (enter case_EXTRACT_GLUE); [done|done|]. clear w Ha. intros w Ha.
  eapply (at_handle _ _ _ _ _ (λ c w',
    (c = EXTRACT_GLUE_EXIST ∧ (∃ L, L ∈ ln_levels l ∧ delegates L rs) ∧ at_ rs w') ∨
    (c = EXTRACT_GLUE_NOT_EXIST ∧ ∃ rs', blank rs' ∧ Ns rs' = [] ∧ Extra rs' = [] ∧ at_ rs' w'))).
  - unfold extractGlue_handle. eapply at_nil; [done|]. eapply at_get_req; [done|]. eapply at_get_resp; [done|].
    destruct (Ns rs) as [|ns0 rest] eqn:En.
    { apply wp_ret. split; [done|]. right. split; [done|]. exists rs. split_and!; auto. }
    cbv zeta. assert (∀ w, at_ rs w → wp (do! put_resp (set_Extra (set_Ns rs []) []) in ret (EXTRACT_GLUE_NOT_EXIST, @None RErr))
      (λ r w', r.2 = None ∧
        ((r.1 = EXTRACT_GLUE_EXIST ∧ (∃ L, L ∈ ln_levels l ∧ delegates L rs) ∧ at_ rs w') ∨
         (r.1 = EXTRACT_GLUE_NOT_EXIST ∧ ∃ rs', blank rs' ∧ Ns rs' = [] ∧ Extra rs' = [] ∧ at_ rs' w'))) w) as Hstale.
    { intros w1 H1'. eapply at_put_resp; [done|]. intros w2 H2'. apply wp_ret. split; [done|]. right.
      split; [done|]. by exists (set_Extra (set_Ns rs []) []). }
    destruct (is_NS ns0) eqn:His; [|by apply Hstale].
    destruct Hrq as (-> & _). apply wp_bind, wp_index0. destruct (IsSubDomain _ _); [|by apply Hstale].
    apply wp_ret. split; [done|]. left. split_and!; [done|by eapply Hknown|done].
  - clear w Ha. intros c w [(-> & HL & Ha)|(-> & rs' & Hb' & Hn' & He' & Ha)]; eapply go; try done.
    + intros w1 H1'. left. done.
    + intros w1 H1'. right. split; [done|]. by exists rs'.
Qed.

Lemma step_glue L rs w :
  level_ok l L → Ns rs = lv_ns L → at_ rs w →
  wp (iter EXTRACT_GLUE) (λ n w', n = next QUERY_UPSTREAM ∧ at_ rs w') w.
Proof.
  intros ((ns0 & rest & En & His & Hsub & _) & _) Hns Ha. eapply (enter case_EXTRACT_GLUE); [done|done|].
  clear w Ha. intros w Ha.
  eapply (at_handle _ _ _ _ _ (λ c w', c = EXTRACT_GLUE_EXIST ∧ at_ rs w')).
  - unfold extractGlue_handle. eapply at_nil; [done|]. eapply at_get_req; [done|]. eapply at_get_resp; [done|].
    rewrite Hns, En, His. destruct Hrq as (-> & _). apply wp_bind, wp_index0. cbn [link_question Q_Name].
    rewrite Hsub. by apply wp_ret.
  - intros c w' [-> Ha']. by eapply go.
Qed.

(** The response with what the cache has for the link. *)
Definition from_cache (rs m : Msg) : Msg :=
  match Answer m with
  | [] => set_Ns (set_Rcode rs (Rcode (Hdr m))) (Ns rs ++ Ns m)
  | rrs => set_Answer rs (Answer rs ++ rrs)
  end.

Lemma from_cache_found rs m : blank rs → leftover rs → carries l m → found (from_cache rs m).
Proof.
  intros (Hf & HA & Hr) [_ Hknown] Hm. pose proof (to_content Htruth l Hl) as Hok.
  unfold found, from_cache, carries in *.
  destruct (ln_content l) as [rrs|rrs t|rc] eqn:El; simpl in Hok.
  - rewrite Hm. destruct rrs as [|rr rrs]; [done|]. split_and!; simpl; [done|by rewrite HA|done|done].
  - rewrite Hm. destruct Hok as (_ & _ & _ & rr & Hrr). destruct rrs as [|rr0 rrs]; [done|].
    split_and!; simpl; [done|by rewrite HA|done|]. intros _ _ _. exact Hknown.
  - destruct Hm as (-> & Hsoa & <-). split_and!; simpl; [done|done| |done|done|done].
    unfold hasSOAInAuthority in *. simpl. by rewrite existsb_app, Hsoa, orb_true_r.
Qed.

Lemma step_cache rs w :
  blank rs → leftover rs → at_ rs w →
  wp (iter CACHE_LOOKUP) (λ n w',
    (n = next CLASSIFY_RESP ∧ ∃ rs', found rs' ∧ at_ rs' w') ∨
    (n = next EXTRACT_GLUE ∧ at_ rs w') ∨
    (n = inr (Some (SetRcode new_Msg rq RcodeRefused), None) ∧ at_ rs w')) w.
Proof.
  intros Hb Hleft Ha. eapply (enter case_CACHE_LOOKUP); [done|done|]. clear w Ha. intros w Ha.
  eapply (at_handle _ _ _ _ _ (λ c w', (c = CACHE_LOOKUP_HIT ∧ ∃ rs', found rs' ∧ at_ rs' w') ∨
    (c = CACHE_LOOKUP_MISS ∧ at_ rs w'))).
  - unfold cacheLookup_handle. eapply at_nil; [done|]. eapply at_get_req; [done|].
    destruct Hrq as (-> & _). apply wp_bind, wp_index0, wp_bind. unfold cache_getCopyByType.
    eapply wp_cache_get; [done|]. clear w Ha. intros [m|] w Ha Hm; [|apply wp_ret; by auto].
    destruct (Hm m eq_refl) as (s' & now & Hc & Hg). destruct (Hc l Hl) as [Hc1 _].
    pose proof (Hc1 now m Hg) as Hcar. pose proof (from_cache_found rs m Hb Hleft Hcar) as Hfound.
    eapply at_get_resp; [done|]. unfold from_cache in Hfound. destruct (Answer m) as [|rr rrs] eqn:EA; simpl.
    + assert (hasSOAInAuthority m = true) as ->.
      { unfold carries in Hcar. pose proof (to_content Htruth l Hl) as Hok.
        destruct (ln_content l); [rewrite <-Hcar, EA in Hok; done| |apply Hcar].
        rewrite <-Hcar, EA in Hok. by destruct Hok as (_ & _ & _ & rr & ?). }
      eapply at_put_resp; [done|]. intros w1 H1'. apply wp_ret. split; [done|]. left. eauto.
    + eapply at_put_resp; [done|]. intros w1 H1'. apply wp_ret. split; [done|]. left. eauto.
  - clear w Ha. intros c w [(-> & rs' & Hf & Ha)|[-> Ha]]; simpl.
    + eapply go; [done|]. eauto.
    + eapply at_get_req; [done|]. destruct Hrq as (Erq & _). rewrite Erq. cbv zeta. apply wp_bind.
      eapply wp_limiter; [done|]. clear w Ha. intros [] w Ha; simpl.
      * eapply go; [done|]. auto.
      * unfold exit_rcode. eapply terminal; [done|]. clear w Ha. intros w Ha.
        eapply at_get_req; [done|]. apply wp_ret. by right; right.
Qed.

Lemma wp_lookup_zones zones rs w :
  zones ⊆ link_zones l → at_ rs w →
  wp (lookup_zones zones) (λ r w', at_ rs w' ∧ ∀ m, r = Some m → ∃ L, L ∈ ln_levels l ∧ delegates L m) w.
Proof.
  revert w. induction zones as [|z zones IH]; intros w Hz Ha; [by apply wp_ret|]. cbn [lookup_zones].
  apply wp_bind. eapply wp_cache_get; [done|]. clear w Ha. intros [m|] w Ha Hm; [|apply IH; [set_solver|done]].
  destruct (Hm m eq_refl) as (s' & now & Hc & Hg). destruct (Hc l Hl) as (_ & Hc2 & _).
  destruct (Ns m) as [|ns0 rest] eqn:En; [apply IH; [set_solver|done]|].
  destruct (is_NS ns0) eqn:Ei; [|apply IH; [set_solver|done]].
  apply wp_ret. split; [done|]. intros m' [= <-]. eapply Hc2; [|exact Hg|exact En|exact Ei]. set_solver.
Qed.

Lemma step_lookup rs w :
  blank rs → Ns rs = [] → Extra rs = [] → at_ rs w →
  wp (iter LOOKUP_NS_CACHE) (λ n w', n = next QUERY_UPSTREAM ∧
    ∃ L rs', L ∈ ln_levels l ∧ delegates L rs' ∧ blank rs' ∧ at_ rs' w') w.
Proof.
  intros Hb Hns Hex Ha. eapply (enter case_LOOKUP_NS_CACHE); [done|done|]. clear w Ha. intros w Ha.
  assert (∀ m L, delegates L m →
    delegates L (set_Extra (set_Ns rs (Ns rs ++ Ns m)) (Extra rs ++ Extra m))) as Hdel
    by (intros m L Hd; rewrite Hns, Hex; exact Hd).
  eapply (at_handle _ _ _ _ _ (λ c w', c ∈ [LOOKUP_NS_CACHE_HIT; LOOKUP_NS_CACHE_MISS] ∧
    ∃ L rs', L ∈ ln_levels l ∧ delegates L rs' ∧ blank rs' ∧ at_ rs' w')).
  - unfold lookupNSCache_handle. eapply at_nil; [done|]. eapply at_get_req; [done|].
    destruct Hrq as (-> & _). apply wp_bind, wp_index0. rewrite GetZoneList_parents. apply wp_bind.
    eapply wp_mono; [|by eapply wp_lookup_zones]. clear w Ha. intros [m|] w [Ha Hm].
    + destruct (Hm m eq_refl) as (L & HL & Hd).
      eapply at_get_resp; [done|]. eapply at_put_resp; [done|]. intros w1 H1'. apply wp_ret.
      split; [done|]. split; [set_solver|]. exists L. eexists. split_and!; [done|by apply Hdel| |done]. exact Hb.
    + eapply wp_ticked; [done|]. clear w Ha. intros t w Ha. eapply at_get_shared; [done|].
      intros s' Hc _. cbv zeta. destruct (Hc l Hl) as (_ & _ & Hroot). destruct (Hroot (env_id t)) as (L & HL & Hd).
      eapply at_get_resp; [done|]. eapply at_put_resp; [done|]. intros w1 H1'. apply wp_ret.
      split; [done|]. split; [set_solver|]. exists L. eexists. split_and!; [done|by apply Hdel| |done]. exact Hb.
  - clear w Ha. intros c w (Hc & L & rs' & HL & Hd & Hb' & Ha).
    assert ((c =? LOOKUP_NS_CACHE_HIT) || (c =? LOOKUP_NS_CACHE_MISS) = true) as ->.
    { rewrite !elem_of_cons in Hc. destruct Hc as [->|[->|Hc%not_elem_of_nil]]; done. }
    eapply go; [done|]. intros w1 H1'. split; [done|]. by exists L, rs'.
Qed.

(** ** Through a link

    From the cache lookup to the classification of what there is, unless the
    limiter refuses the client or a server lets it down. *)
Section through.
Context (Q : option Msg * option RErr → World → Prop).
Context (Hexcuse : ∀ e rs w, excuse e → at_ rs w → Answer rs = [] → Q (None, Some (ErrHandle QUERY_UPSTREAM e)) w).
Context (Hrefused : ∀ rs w, at_ rs w → Q (Some (SetRcode new_Msg rq RcodeRefused), None) w).
Abbreviation loop n st := (change_loop port depth nested q0 n (mkLoop st chain visited)).

(** With at least [b] iterations left, the loop may be left at what was found. *)
Definition arrives (b : nat) : Prop :=
  ∀ k rs w, (b ≤ k)%nat → found rs → at_ rs w → wp (loop k CLASSIFY_RESP) Q w.

Lemma through_level d i L n b rs w :
  arrives b → ln_levels l !! i = Some L → (length (ln_levels l) - i ≤ d)%nat → (b + 3 * d ≤ n + 2)%nat →
  delegates L rs → blank rs → at_ rs w → wp (loop n QUERY_UPSTREAM) Q w.
Proof.
  intros Hb. revert i L n rs w. induction d as [|d IH]; intros i L n rs w HL Hd Hn Hdel Hbl Ha.
  { apply lookup_lt_Some in HL. lia. }
  destruct n as [|n]; [lia|]. apply wp_loop. eapply wp_mono; [|by eapply step_query].
  clear w Ha. intros nx w [(e & rs' & -> & He & Ha & HA)|(-> & rs' & Ha & [Hf|(Hbl' & j & L' & Hj & HL' & Hd')])].
  - by eapply Hexcuse.
  - eapply Hb; [|exact Hf|exact Ha]. lia.
  - pose proof (lookup_lt_Some _ _ _ HL') as Hlen. destruct n as [|[|n]]; [lia..|].
    pose proof (to_levels Htruth l L' Hl (level_in j L' HL')) as Hok.
    eapply wp_loop_next; [eapply (step_referral L' rs'); [exact Hok|apply Hd'|apply Hbl'|exact Ha]|].
    clear w Ha. intros w Ha.
    eapply wp_loop_next; [eapply (step_glue L' rs'); [exact Hok|apply Hd'|exact Ha]|].
    clear w Ha. intros w Ha. apply (IH j L' n rs' w); try done; lia.
Qed.

Lemma levels_nonempty s : consistent s → (1 ≤ length (ln_levels l))%nat.
Proof.
  intros Hc. destruct (Hc l Hl) as (_ & _ & Hroot). destruct (Hroot 0) as (L & HL & _).
  destruct (ln_levels l); [by apply elem_of_nil in HL|simpl; lia].
Qed.

Lemma through_link n b rs w :
  arrives b → (b + 3 * length (ln_levels l) + 1 ≤ n)%nat → blank rs → leftover rs → at_ rs w →
  wp (loop n CACHE_LOOKUP) Q w.
Proof.
  intros Hb Hn Hbl Hleft Ha. destruct n as [|n]; [lia|].
  apply wp_loop. eapply wp_mono; [|by eapply step_cache]. clear w Ha.
  intros nx w [(-> & rs' & Hf & Ha)|[[-> Ha]|[-> Hx]]].
  - eapply Hb; [|exact Hf|exact Ha]. lia.
  - assert (∀ n L rs w, (b + 3 * length (ln_levels l) ≤ n + 2)%nat → L ∈ ln_levels l → delegates L rs → blank rs →
      at_ rs w → wp (loop n QUERY_UPSTREAM) Q w) as Hquery.
    { intros n' L rs1 w1 Hn' [i HL]%list_elem_of_lookup Hd Hbl1 H1'.
      eapply (through_level (length (ln_levels l)) i L n' b rs1 w1); try done; lia. }
    assert (1 ≤ length (ln_levels l))%nat as Hlen by (destruct Ha as [_ _ _ Hc]; exact (levels_nonempty _ Hc)).
    destruct n as [|[|n]]; [lia..|].
    apply wp_loop. eapply wp_mono; [|by eapply step_extract]. clear w Ha.
    intros nx w [(-> & (L & HL & Hd) & Ha)|(-> & rs' & Hbl' & Hns & Hex & Ha)].
    + eapply (Hquery (S n) L rs); [lia|done..].
    + apply wp_loop. eapply wp_mono; [|by eapply step_lookup]. clear w Ha.
      intros nx w (-> & L & rs2 & HL & Hd & Hb2 & Ha). eapply (Hquery n L rs2); [lia|done..].
  - by eapply Hrefused.
Qed.
End through.

(** ** Leaving a link *)

(** The end of the resolution. *)
Lemma step_done rs w :
  framed rs → at_ rs w →
  wp (iter RETURN_RESP) (λ n w', ∃ m, n = inr (Some m, None) ∧ Questions m = [q0] ∧ Hdr m = Hdr rs ∧
    Answer m = chain ++ Answer rs ∧ Ns m = Ns rs ∧ at_ m w') w.
Proof.
  intros [Hq0 _] Ha. eapply (enter (case_RETURN_RESP q0)); [done|done|]. clear w Ha. intros w Ha.
  eapply (at_handle _ _ _ _ _ (λ _ w', at_ rs w')).
  - unfold returnResp_handle. eapply at_nil; [done|]. by apply wp_ret.
  - clear w Ha. intros c w Ha. eapply terminal; [done|]. clear w Ha. intros w Ha.
    apply wp_bind. unfold buildFinalResponse. eapply at_get_resp; [done|]. rewrite Hq0. cbv zeta.
    eapply at_put_resp; [done|]. intros w1 H1'. apply wp_ret, wp_ret.
    eexists. split; [done|]. split_and!; [by destruct chain..|exact H1'].
Qed.

Lemma step_records rrs rs w :
  ln_content l = Records rrs → found rs → at_ rs w →
  wp (iter CLASSIFY_RESP) (λ n w', n = next RETURN_RESP ∧ at_ rs w') w.
Proof.
  intros El (_ & Hc & _) Ha. pose proof (to_content Htruth l Hl) as Hok. unfold carries in Hc. rewrite El in *.
  simpl in Hok. eapply (enter case_CLASSIFY_RESP); [done|done|]. clear w Ha. intros w Ha.
  eapply (at_handle _ _ _ _ _ (λ c w', c = CLASSIFY_RESP_GET_ANS ∧ at_ rs w')).
  - unfold classifyResp_handle. eapply at_nil; [done|]. eapply at_get_req; [done|].
    eapply at_get_resp; [done|]. destruct Hrq as (-> & _). apply wp_bind, wp_index0. cbv zeta.
    rewrite (classify_ans (link_question l) rs) by (by rewrite Hc). by apply wp_ret.
  - intros c w' [-> Ha']. by eapply go.
Qed.

Lemma step_nothing rc rs w :
  ln_content l = Nothing rc → found rs → at_ rs w →
  wp (iter CLASSIFY_RESP) (λ n w', n = next RETURN_RESP ∧ at_ rs w') w.
Proof.
  intros El (_ & Hc & Hrc & _) Ha. pose proof (to_content Htruth l Hl) as Hok. pose proof Hc as Hcar.
  unfold carries in Hc. rewrite El in *. simpl in Hok. destruct Hc as (HA & Hsoa & Hr).
  eapply (enter case_CLASSIFY_RESP); [done|done|]. clear w Ha. intros w Ha.
  eapply (at_handle _ _ _ _ _ (λ c w', c = CLASSIFY_RESP_GET_NEGATIVE ∧ at_ rs w')).
  - unfold classifyResp_handle. eapply at_nil; [done|]. eapply at_get_req; [done|].
    eapply at_get_resp; [done|]. destruct Hrq as (-> & _). apply wp_bind, wp_index0. cbv zeta.
    rewrite (classify_negative (link_question l) rs) by (split_and!; [done|done|by rewrite Hr]). simpl.
    apply wp_bind. unfold cache_negative. destruct (extractSOAFromAuthority rs) as [[soa ttl]|].
    + eapply wp_cache_set; [right; exists l; done|by apply storable_answer|done|]. intros w1 H1'. by apply wp_ret.
    + by do 2 apply wp_ret.
  - intros c w' [-> Ha']. by eapply go.
Qed.

Lemma first_cname_exists rrs x : first_cname rrs = Some x → existsb is_CNAME rrs = true.
Proof. induction rrs as [|[] rrs IH]; simpl; try done; apply IH. Qed.

Lemma classify_alias rs rrs target :
  ln_content l = Alias rrs target → Answer rs = rrs → classify qtype rs = CLASSIFY_RESP_GET_CNAME.
Proof.
  intros El HA. pose proof (to_content Htruth l Hl) as Hok. rewrite El in Hok.
  destruct Hok as (Hqt & Hno & _ & rr & Hrr). unfold classify. rewrite HA, Hno, (first_cname_exists _ _ Hrr).
  apply Z.eqb_neq in Hqt as ->. by destruct rrs.
Qed.

(** The response once the alias has been noted: what may serve the target stays. *)
Definition cleared (rs : Msg) (target : string) : Msg :=
  set_Answer (if negb (isNSRelevantForCNAME (Ns rs) target) then set_Extra (set_Ns rs []) [] else rs) [].

Lemma cleared_blank rs target : framed rs → Rcode (Hdr rs) = RcodeSuccess → blank (cleared rs target).
Proof. intros [Hf1 Hf2] Hr. unfold cleared. by destruct (negb _). Qed.

End rules.

(** From [w] to [w'] only actions of the iteration were taken. *)
Definition trail (w w' : World) : Prop :=
  (∃ lg, w_log w' = w_log w ++ lg ∧ Forall iteration_action lg) ∧ sh_hosts (w_shared w') = sh_hosts (w_shared w).

#[local] Instance trail_preorder : PreOrder trail.
Proof.
  split.
  - intros w. split; [|done]. exists []. by rewrite app_nil_r.
  - intros w w1 w2 [(l1 & E1 & F1) S1] [(l2 & E2 & F2) S2]. split; [|congruence].
    exists (l1 ++ l2). rewrite E2, E1, app_assoc. split; [done|]. by apply Forall_app.
Qed.

Lemma ext_trail w w' : ext iteration_action w w' → trail w w'.
Proof. by intros [Hl [Hh _]]. Qed.

Lemma trail_ext w w1 w2 : trail w w1 → ext iteration_action w1 w2 → trail w w2.
Proof. intros Ht Hx%ext_trail. by etransitivity. Qed.

(** ** From link to link *)

Lemma cleared_leftover l l' rs :
  l ∈ links → l' ∈ links → ns_known l rs → leftover l' (cleared rs (ln_name l')).
Proof.
  intros Hl Hl' Hk. unfold cleared. destruct (isNSRelevantForCNAME (Ns rs) (ln_name l')) eqn:Er; simpl; [|done].
  destruct (Ns rs) as [|ns0 rest] eqn:En; [done|]. simpl in Er.
  split; simpl; [by rewrite En|]. intros ns1 rest1 En1 His. simpl in En1. rewrite En in En1. injection En1 as <- <-.
  destruct (Hk ns0 rest En His) as (L & HL & Hd). exists L. split; [|exact Hd].
  apply (to_shared Htruth l l'); [done..|]. right. destruct Hd as (Hns & _). unfold zone_of. by rewrite <-Hns, En.
Qed.

(** The request for the next link. *)
Definition renamed (rq : Msg) (l : Link) : Msg := set_Questions rq [link_question l].

Lemma renamed_valid rq l l' : valid_query rq (link_question l) → valid_query (renamed rq l') (link_question l').
Proof. by intros (_ & Hr & Ho). Qed.

Lemma step_alias w0 rq l l' rrs q0 id0 depth nested chain visited rs w :
  l ∈ links → l' ∈ links → ln_content l = Alias rrs (ln_name l') → ln_name l' ∉ visited →
  valid_query rq (link_question l) → found l q0 id0 rs → at_step iteration_action consistent w0 rq rs w →
  wp (iterate port depth nested q0 (mkLoop CLASSIFY_RESP chain visited)) (λ n w',
    n = inl (mkLoop CACHE_LOOKUP (chain ++ option_list (fst <$> first_cname rrs)) ({[ln_name l']} ∪ visited)) ∧
    ∃ w1, trail w0 w1 ∧ at_step iteration_action consistent w1 (renamed rq l') (cleared rs (ln_name l')) w') w.
Proof.
  intros Hl Hl' El Hnew Hrq (Hf & Hc & _) Ha. pose proof (to_content Htruth l Hl) as Hok.
  unfold carries in Hc. rewrite El in Hc, Hok. destruct Hok as (_ & _ & Hz & rr & Hrr).
  eapply (enter w0 rq q0 depth nested chain visited case_CLASSIFY_RESP); [done|done|]. clear w Ha. intros w Ha.
  eapply (at_handle _ _ _ _ _ (λ c w', c = CLASSIFY_RESP_GET_CNAME ∧ at_step iteration_action consistent w0 rq rs w')).
  - unfold classifyResp_handle. eapply at_nil; [done|]. eapply at_get_req; [done|].
    eapply at_get_resp; [done|]. destruct Hrq as (-> & _). apply wp_bind, wp_index0. cbv zeta.
    change (Q_Qtype (link_question l)) with qtype. rewrite (classify_alias l Hl rs rrs _ El Hc). by apply wp_ret.
  - clear w Ha. intros c w [-> Ha]. simpl. apply wp_bind. unfold followCNAME. eapply at_get_resp; [done|].
    rewrite Hc, Hrr. apply String.eqb_neq in Hz as ->. rewrite bool_decide_eq_false_2 by done. cbv zeta.
    eapply at_put_resp; [done|]. clear w Ha. intros w Ha. eapply at_get_req; [done|].
    destruct Hrq as (Erq & _). unfold rename_question. rewrite Erq. apply wp_bind, wp_ret.
    apply wp_bind, wp_modify, wp_ret. cbn [lp_chain lp_visited]. rewrite RR_Copy_spec.
    destruct Ha as [Hx _ Hrs Hcons].
    eapply (go (set_req (Some (renamed rq l')) w) (renamed rq l')); [by constructor|].
    intros w1 H1'. split; [done|]. eexists. split; [|exact H1'].
    by apply ext_trail in Hx.
Qed.

(** ** Through all links *)

(** The message answers the question with the aliases noted so far, in [chain],
    and what there is from the links [ls] on. *)
Record answers (q0 : Question) (id0 : Z) (chain : list RR) (ls : list Link) (m : Msg) : Prop := {
  an_question : Questions m = [q0];
  an_id : Id (Hdr m) = id0;
  an_rcode : Rcode (Hdr m) = rcode_of ls;
  an_answer : Answer m = chain ++ answers_of ls;
  an_negative l rcode : last ls = Some l → ln_content l = Nothing rcode → hasSOAInAuthority m = true;
}.

(** How a resolution that began with [request] ends, the request being that for
    some link by then: with the answer; with REFUSED, from the limiter; or with an
    error that has its excuse, and a response without answers. *)
Definition delivery (request : Msg) (q0 : Question) (chain : list RR) (ls : list Link)
    (r : option Msg * option RErr) (w : World) : Prop :=
  ∃ l, l ∈ links ∧ w_req w = Some (renamed request l) ∧
    ((∃ m, r = (Some m, None) ∧ answers q0 (Id (Hdr request)) chain ls m) ∨
     r = (Some (SetRcode new_Msg (renamed request l) RcodeRefused), None) ∨
     (∃ e rs, r = (None, Some (ErrHandle QUERY_UPSTREAM e)) ∧ excuse e ∧ w_resp w = Some rs ∧ Answer rs = [])).

Lemma delivery_alias request q0 chain l rrs target ls r w :
  ln_content l = Alias rrs target → ls ≠ [] →
  delivery request q0 (chain ++ option_list (fst <$> first_cname rrs)) ls r w → delivery request q0 chain (l :: ls) r w.
Proof.
  intros El Hne (l1 & Hl1 & Hrq & [(m & -> & [Hq Hid Hrc Ha Hn])|Hr]); exists l1; (split_and!; [done..|]); [left|by right].
  exists m. split; [done|]. constructor; [done|done|simpl; by rewrite El| |].
  - simpl. by rewrite El, Ha, app_assoc.
  - by destruct ls.
Qed.

Section ending.
Context (request : Msg) (q0 : Question) (depth : Z) (nested : MW (option Msg * option RErr)).
Abbreviation id0 := (Id (Hdr request)).
Abbreviation loop n lp := (change_loop port depth nested q0 n lp).

Lemma loop_end w0 l n chain visited rs w :
  l ∈ links → (∀ rrs target, ln_content l ≠ Alias rrs target) → valid_query (renamed request l) (link_question l) →
  found l q0 id0 rs → at_step iteration_action consistent w0 (renamed request l) rs w →
  wp (loop (S (S n)) (mkLoop CLASSIFY_RESP chain visited))
    (λ r w', delivery request q0 chain [l] r w' ∧ ext iteration_action w0 w') w.
Proof.
  intros Hl Hno Hrq Hf Ha. pose proof Hf as (Hfr & Hc & Hrc & _).
  eapply (wp_loop_next _ _ _ _ _ _ (mkLoop RETURN_RESP chain visited)).
  { destruct (ln_content l) as [rrs|rrs t|rc] eqn:El; [|by edestruct Hno|].
    - by eapply (step_records w0 (renamed request l) l).
    - by eapply (step_nothing w0 (renamed request l) l). }
  clear w Ha. intros w Ha. apply wp_loop.
  eapply wp_mono; [|by eapply (step_done w0 (renamed request l) q0 id0)].
  intros nx w1 (m & -> & Hqm & Hh & HA & Hns & [Hx Hrq1 _ _]). split; [|done].
  exists l. split_and!; [done..|]. left. exists m. split; [done|].
  unfold carries in Hc. constructor; [done|rewrite Hh; apply Hfr| | |].
  - rewrite Hh, Hrc. simpl. destruct (ln_content l) eqn:El; [done|by edestruct Hno|done].
  - rewrite HA. f_equal. simpl. destruct (ln_content l) eqn:El; [done|by edestruct Hno|apply Hc].
  - intros l1 rc [= <-] El. rewrite El in Hc. unfold hasSOAInAuthority. rewrite Hns. apply Hc.
Qed.
Lemma fresh_target pre l l' rest (visited : gset string) :
  links = pre ++ l :: l' :: rest → (∀ x, x ∈ visited → x ∈ ln_name <$> (pre ++ [l])) → ln_name l' ∉ visited.
Proof.
  intros El Hv Hin. pose proof (to_names Htruth) as Hnd. apply Hv in Hin.
  rewrite El, (app_assoc pre [l] (l' :: rest) : pre ++ l :: l' :: rest = _), fmap_app in Hnd.
  apply NoDup_app in Hnd as (_ & Hdis & _). apply (Hdis (ln_name l') Hin). by left.
Qed.

Lemma through_links start ls : ∀ pre l rest chain visited n rs w0 w,
  ls = l :: rest → links = pre ++ ls → chained ls → (cost ls ≤ n)%nat →
  (∀ x, x ∈ visited → x ∈ ln_name <$> (pre ++ [l])) → valid_query (renamed request l) (link_question l) →
  trail start w0 → blank q0 id0 rs → leftover l rs →
  at_step iteration_action consistent w0 (renamed request l) rs w →
  wp (loop n (mkLoop CACHE_LOOKUP chain visited)) (λ r w', delivery request q0 chain ls r w' ∧ trail start w') w.
Proof.
  induction ls as [|l0 ls IH]; intros pre l rest chain visited n rs w0 w; [done|].
  intros [= -> ->] Els Hch Hn Hv Hrq Ht Hbl Hleft Ha.
  assert (l ∈ links) as Hl by (rewrite Els; set_solver).
  assert (cost (l :: rest) = 3 * length (ln_levels l) + 3 + cost rest)%nat as Ecost by done.
  eapply (through_link w0 (renamed request l) l Hl Hrq q0 id0 depth nested chain visited); [..|done|done|exact Ha].
  { intros e rs1 w1 He [Hx Hrq1 Hrs1 _] HA. split; [|by eapply trail_ext]. exists l. split_and!; [done..|].
    right; right. by exists e, rs1. }
  { intros rs1 w1 [Hx Hrq1 _ _]. split; [|by eapply trail_ext]. exists l. split_and!; [done..|]. by right; left. }
  2:{ instantiate (1 := (2 + cost rest)%nat). lia. }
  clear n w rs Hn Hbl Hleft Ha. intros n rs w Hn Hf Ha. destruct n as [|[|n]]; [lia..|].
  destruct rest as [|l' rest].
  - eapply wp_mono; [|eapply (loop_end w0 l); [done| |done|done|exact Ha]].
    + intros r w1 [Ho Hx]. split; [done|by eapply trail_ext].
    + intros rrs t El. simpl in Hch. by rewrite El in Hch.
  - simpl in Hch. destruct (ln_content l) as [|rrs t|] eqn:El; [done| |done]. destruct Hch as [-> Hch].
    assert (l' ∈ links) as Hl' by (rewrite Els; set_solver).
    pose proof Hf as (Hfr & _ & Hrc & Hns). rewrite El in Hrc.
    eapply wp_loop_next; [eapply (step_alias w0 (renamed request l) l l' rrs); try done; by eapply fresh_target|].
    clear w Ha. intros w (w1 & Ht1 & Ha).
    eapply wp_mono; cycle 1.
    1: eapply (IH (pre ++ [l]) l' rest);
      [done|rewrite Els; apply (app_assoc pre [l])|done|lia| |exact (renamed_valid (renamed request l) l l' Hrq)| | | |exact Ha].
    + intros x. rewrite elem_of_union, elem_of_singleton, fmap_app. intros [->|Hx]; [set_solver|]. apply Hv in Hx. set_solver.
    + by etransitivity.
    + by apply cleared_blank.
    + apply (cleared_leftover l l'); [done..|]. by eapply Hns.
    + intros r w2 [Ho Ht2]. split; [by eapply delivery_alias|exact Ht2].
Qed.

End ending.

(** What a resolution delivers, when the truth fits in its fifty iterations. *)
Lemma Change_delivers (w : World) (request : Msg) (l : Link) (rest : list Link) :
  links = l :: rest → chained links → (cost links ≤ 47)%nat →
  valid_query request (link_question l) → w_req w = Some request → w_resp w = Some new_Msg →
  consistent (w_shared w) →
  hosts_view (link_question l) (sh_hosts (w_shared w)) = None →
  matchForwardZone (forwardZones (sh_hosts (w_shared w))) (ln_name l) = None →
  wp (Change port) (λ r w', delivery request (link_question l) [] links r w' ∧ trail w w') w.
Proof.
  intros Els Hch Hcost Hq Hreq Hresp Hc Hhosts Hfwd.
  eapply (loop_start port w request (link_question l) Hq Hreq Hresp iteration_action consistent act_book); [done|].
  intros w1 H1'. destruct (reply_shape request (link_question l) Hq) as (Sq & Sa & Sn & Si).
  destruct (SetReply_spec new_Msg request) as (_ & _ & _ & _ & Sr & _ & _ & Se).
  eapply wp_loop_next.
  { eapply (step_hosts_miss iteration_action consistent); [exact act_book|exact Hinterfere|exact Hq|exact Hhosts|exact H1']. }
  clear w1 H1'. intros w1 H1'.
  eapply wp_loop_next.
  { eapply (step_forward_miss iteration_action consistent); [exact act_book|exact Hinterfere|exact Hq|exact Hfwd|exact H1']. }
  clear w1 H1'. intros w1 H1'.
  assert (renamed request l = request) as Erq by (destruct request, Hq as (Eq & _); simpl in Eq; by subst).
  eapply (through_links request (link_question l) 0 (Change_nested port) w links [] l rest);
    [done|done|done|done|by intros ? ?%elem_of_empty|by rewrite Erq|reflexivity| | |rewrite Erq; exact H1'].
  - split_and!; [by split|done|done].
  - split; [done|]. intros ns0 rs' En. congruence.
Qed.

End iteration.

(** ** An alias in a zone with a lame server *)
Module RefTree.
Import RefDns RefSort.
#[export] Existing Instance RefDns.lib.
#[export] Existing Instance RefDns.laws.
#[export] Existing Instance RefSort.lib.
#[export] Existing Instance RefSort.laws.
#[export] Existing Instance RefCache.lib.
#[export] Existing Instance RefCache.laws.
#[export] Existing Instance RefEbpf.lib.
#[export] Existing Instance RefEbpf.laws.

Definition www_rr : RR := RR_CNAME (mkHdr "www.example." TypeCNAME ClassINET 30) "web.example.".
Definition web_rr : RR := RR_A (mkHdr "web.example." TypeA ClassINET 30) [192; 0; 2; 1].
Definition example_ns : RR := RR_NS (mkHdr "example." TypeNS ClassINET 3600) "ns.example.".
Definition example_glue (n : Z) : RR := RR_A (mkHdr "ns.example." TypeA ClassINET 3600) [192; 0; 2; n].

(** The root hints, and the zone "example." with two servers, one of them lame. *)
Definition tree : list Level :=
  [mkLevel (Ns (GetRootGlue None 0)) (a_addresses (Extra (GetRootGlue None 0)));
   mkLevel [example_ns] ["192.0.2.53"; "192.0.2.54"]].
Definition www : Link := mkLink "www.example." tree (Alias [www_rr] "web.example.").
Definition web : Link := mkLink "web.example." tree (Records [web_rr]).

Definition reply (qy : Msg) : Msg := set_Questions (set_Response new_Msg true) (Questions qy).
Definition referral (qy : Msg) : Msg := set_Extra (set_Ns (reply qy) [example_ns]) [example_glue 53; example_glue 54].
Definition answer (qy : Msg) : Msg :=
  set_Answer (reply qy)
    match Questions qy with
    | q :: _ => if String.eqb (Q_Name q) "www.example." then [www_rr] else [web_rr]
    | [] => []
    end.

#[export] Instance tree_env : Env := {
  env_now _ := 5000 * Second; env_mono _ := Some 10; env_id t := Z.of_nat t;
  env_ctxErr _ := None;
  env_exchange _ qy target :=
    XOk (if String.eqb target "192.0.2.53:53" then answer qy
         else if String.eqb target "192.0.2.54:53" then set_Rcode (reply qy) RcodeServerFailure
         else referral qy) (20 * Millisecond);
  env_primaryFirst _ := false; env_loserDone _ := true; env_schedule _ := [];
  env_delivered _ _ := true; env_hz _ := mkHzEnv f64_zero 4 (λ _, 0); interfere _ s := s
}.

#[export] Instance tree_stable : HostsStable.
Proof. done. Qed.

Definition fresh : Shared :=
  mkShared (mkCache newCache None) NewIPPool (newUpstreamConcurrencyGate 4 4) None empty_hostsForward None.
Definition query : Msg := set_Questions new_Msg [link_question TypeA ClassINET www].
Definition start : World := mkWorld fresh 0 (Some query) (Some new_Msg) None None [] 0 0.

(** The servers asked, in order. *)
Definition asked (lg : list action) : list string := omap (λ a, match a with ASend to _ => Some to | _ => None end) lg.

(** The resolution of this world gives the alias and the record.  Two root servers
    race and refer; for either name both servers of the zone race, the lame one is
    first, and the other one answers on the retry. *)
Example tree_resolved :
  (match (Change "53" start).1 with Ok (Some m, None) => Answer m | _ => [] end,
   asked (w_log (Change "53" start).2)) =
  ([www_rr; web_rr],
   ["198.41.0.4:53"; "199.9.14.201:53"; "192.0.2.53:53"; "192.0.2.54:53"; "192.0.2.53:53";
    "192.0.2.53:53"; "192.0.2.54:53"; "192.0.2.53:53"]).
Proof. vm_compute. reflexivity. Qed.

Lemma tree_levels l L : IsSubDomain "example." (ln_name l) = true → IsSubDomain "." (ln_name l) = true →
  L ∈ tree → level_ok l L.
Proof.
  intros He Hr [->|[->|HL%not_elem_of_nil]%elem_of_cons]%elem_of_cons; [| |done].
  - split_and!; [do 2 eexists; split_and!; [reflexivity|reflexivity|exact Hr|reflexivity]|reflexivity|done|].
    vm_compute. set_solver.
  - split_and!; [do 2 eexists; split_and!; [reflexivity|reflexivity|exact He|reflexivity]|reflexivity|done|].
    vm_compute. set_solver.
Qed.

Lemma two_links (P : Link → Prop) : P www → P web → ∀ l, l ∈ [www; web] → P l.
Proof. intros H1 H2 l [->|[->|Hl%not_elem_of_nil]%elem_of_cons]%elem_of_cons; done. Qed.

Lemma tree_of l : l ∈ [www; web] → ln_levels l = tree.
Proof. revert l. by apply (two_links (λ l, ln_levels l = tree)). Qed.

Lemma tree_ok : truth_ok TypeA [www; web].
Proof.
  constructor.
  - done.
  - vm_compute. repeat constructor; set_solver.
  - by apply (two_links (λ l, last_char (ln_name l) = Some "."%char)).
  - intros l L Hl. revert L. revert l Hl. apply (two_links (λ l, ∀ L, L ∈ ln_levels l → level_ok l L));
      intros L HL; by apply tree_levels.
  - apply (two_links (λ l, content_ok TypeA (ln_content l))); [|done].
    split_and!; [done|done|done|]. eexists. reflexivity.
  - intros l l' L Hl Hl' HL _. rewrite (tree_of l Hl) in HL. by rewrite (tree_of l' Hl').
Qed.

Lemma reply_echoes l qy m : asks TypeA l qy → Questions m = Questions qy → echoes TypeA l m.
Proof. intros Hq Hm. exists (mkQ (ln_name l) TypeA ClassINET), []. by rewrite Hm, Hq. Qed.

Lemma no_ns l m : Ns m = [] → ns_known l m.
Proof. intros Hm ns0 rest E. congruence. Qed.

Lemma tree_truthful : truthful TypeA [www; web] "53".
Proof.
  intros l i m rtt Hl (t & qy & ip & L & Hq & HL & Hip & Hx). rewrite (tree_of l Hl) in HL.
  injection Hx as <- _. destruct i as [|[|i]]; [| |done]; injection HL as <-.
  - left. assert (String.eqb (ip +:+ ":" +:+ "53") "192.0.2.53:53" = false ∧
      String.eqb (ip +:+ ":" +:+ "53") "192.0.2.54:53" = false) as [-> ->].
    { revert ip Hip. apply Forall_forall. vm_compute. repeat constructor. }
    split; [by eapply reply_echoes|]. right. split_and!; [done|done|]. exists 1%nat.
    eexists. rewrite (tree_of l Hl). split_and!; [lia|reflexivity|]. split_and!; [done|repeat constructor|done].
  - apply elem_of_cons in Hip as [->|Hip]; [|apply list_elem_of_singleton in Hip as ->].
    + left. change (String.eqb ("192.0.2.53" +:+ ":" +:+ "53") "192.0.2.53:53") with true. cbv iota.
      split; [by eapply reply_echoes|]. left. unfold asks in Hq. unfold carries, answer. rewrite Hq.
      clear Hq. apply elem_of_cons in Hl as [->|Hl]; [|apply list_elem_of_singleton in Hl as ->];
        (split_and!; [done|done|by apply no_ns]).
    + by right.
Qed.

Lemma tree_consistent : consistent TypeA [www; web] fresh.
Proof.
  intros l Hl. rewrite (tree_of l Hl). split_and!.
  - intros now m Hm. exfalso. cbv in Hm. discriminate Hm.
  - intros now key m _ Hm. exfalso. cbv in Hm. discriminate Hm.
  - intros id. eexists. split; [by left|]. split_and!; [done|repeat constructor|done].
Qed.
End RefTree.
