(* ===== verification/Paths.v ===== *)
(** * The transitions of the state machine, exactly

    [Frame] bounds the transitions a resolution reports by the table [edges]; here
    every entry of the table is taken by a resolution of a small concrete world, and
    the table is compared with the pipeline drawn in docs/architecture.md. *)

From S2P Require Import Prelude GoLib Float64 NetIP Dns Zone External Cache RateLog Gate.
From S2P Require Import HostsForward IPQuality IPPool HotZone Limiter World States Upstream.
From S2P Require Import Logic StateMachine Frame Resolver Iteration.

(** The order of the states in docs/architecture.md, "Resolution Pipeline". *)
Definition pipeline : list Z :=
  [STATE_INIT; HOSTS_LOOKUP; FORWARD_LOOKUP; CACHE_LOOKUP; CLASSIFY_RESP; EXTRACT_GLUE; LOOKUP_NS_CACHE;
   QUERY_UPSTREAM; RETURN_RESP].

(** The first state comes before the second one in the pipeline. *)
Definition forward (st to : Z) : Prop :=
  ∃ i j, pipeline !! i = Some st ∧ pipeline !! j = Some to ∧ (i < j)%nat.

(** The transitions of a log. *)
Definition transitions_of (l : list action) : list (string * string) :=
  omap (λ a, match a with ATransition f t => Some (f, t) | _ => None end) l.

Lemma elem_of_mjoin_map {A B} (f : A → list B) l x : x ∈ mjoin (f <$> l) → ∃ a, x ∈ f a.
Proof. intros (k & Hx & (a & -> & _)%list_elem_of_fmap)%list_elem_of_join. by exists a. Qed.

(** ** Small worlds *)
Module PathWorlds.
Import RefTree.

(** Every exchange fails. *)
Definition unreachable : Env := {|
  env_now := env_now; env_mono := env_mono; env_id := env_id; env_ctxErr := env_ctxErr;
  env_exchange _ _ _ := XFail XNetTimeout; env_primaryFirst := env_primaryFirst; env_loserDone := env_loserDone;
  env_schedule := env_schedule; env_delivered := env_delivered; env_hz := env_hz; interfere := interfere
|}.

(** A request for the name of [RefTree] in a process with this shared state. *)
Definition ask (s : Shared) : World := set_shared s start.

Definition local : Shared :=
  set_hosts (SetHostsAndForward [mkHostEntry "www.example" "A" "10.0.0.1" 0] []) fresh.
Definition forwarded : Shared :=
  set_hosts (SetHostsAndForward [] [mkForwardZone "example" ["192.0.2.53:53"]]) fresh.
Definition warm : Shared :=
  set_cache (setCacheCopy (sh_cache fresh) (5000 * Second) (Some 10) (getCacheKey "www.example." TypeA)
    (set_Answer new_Msg [web_rr]) 60) fresh.

(** The client's only slot is taken. *)
Definition client : Addr := extractClientIP (UDPAddr [192; 0; 2; 7]).
Definition busy (s : Shared) : World :=
  set_holder (Some (newExpensiveRequestHolder client))
    (ask (set_lim ((λ l, (Limiter_TryAcquire l 0 client expensivePathIterative).2) <$>
       newExpensiveRequestLimiter 4 (mkLimitConfig "enabled" 1 [] false)) s)).

(** Resolutions: the environment and the world they start in. *)
Definition runs : list (Env * World) :=
  [(tree_env, start); (tree_env, ask local); (tree_env, ask forwarded); (tree_env, ask warm);
   (tree_env, set_req (Some new_Msg) start); (unreachable, ask forwarded);
   (tree_env, busy fresh); (tree_env, busy forwarded)].

(** The transitions a resolution reports. *)
Definition taken (run : Env * World) : list (string * string) :=
  transitions_of (w_log (Change (E := run.1) "53" run.2).2).

Definition all_taken : list (string * string) := Eval vm_compute in mjoin (taken <$> runs).

Lemma all_taken_eq : mjoin (taken <$> runs) = all_taken.
Proof. vm_compute. reflexivity. Qed.

Lemma taken_by_some p : p ∈ all_taken → ∃ E w, p ∈ taken (E, w).
Proof.
  intros Hp. rewrite <-all_taken_eq in Hp. destruct (elem_of_mjoin_map _ _ _ Hp) as [[E w] Hw].
  exists E, w. exact Hw.
Qed.

Definition state_pair (e : Z * Z) : string * string := (stateMetricName e.1, stateMetricName e.2).

Lemma edges_are_taken : Forall (λ e, state_pair e ∈ all_taken) edges.
Proof. refine (bool_decide_unpack _ _). vm_compute. exact I. Qed.

Lemma exits_are_taken : Forall (λ e, e.1 ≠ QUERY_UPSTREAM → (stateMetricName e.1, e.2) ∈ all_taken) exits.
Proof. refine (bool_decide_unpack _ _). vm_compute. exact I. Qed.

End PathWorlds.

(** ** Exactness *)

Lemma names_injective : Forall (λ x, Forall (λ y, stateMetricName x = stateMetricName y → x = y) pipeline) pipeline.
Proof. refine (bool_decide_unpack _ _). vm_compute. exact I. Qed.

Lemma edges_states : Forall (λ e, e.1 ∈ pipeline ∧ e.2 ∈ pipeline) edges.
Proof. refine (bool_decide_unpack _ _). vm_compute. exact I. Qed.

Lemma exits_not_states :
  Forall (λ to, stateMetricName to ∉ exits.*2 ++ [StateMachineErrorExit; StateMachineMaxItersExit]) pipeline.
Proof. refine (bool_decide_unpack _ _). vm_compute. exact I. Qed.

Lemma edges_of_names st to st' to' :
  st ∈ pipeline → to ∈ pipeline → (st', to') ∈ edges →
  stateMetricName st = stateMetricName st' → stateMetricName to = stateMetricName to' → (st, to) ∈ edges.
Proof.
  intros Hs Ht He Es Et. pose proof names_injective as Hinj. rewrite Forall_forall in Hinj. setoid_rewrite Forall_forall in Hinj.
  destruct (proj1 (Forall_forall _ _) edges_states _ He) as [Hs' Ht'].
  by rewrite (Hinj st Hs st' Hs' Es), (Hinj to Ht to' Ht' Et).
Qed.

(** No exit has the name of a state. *)
Lemma exit_not_state st to exit : to ∈ pipeline → exit_of st exit → exit ≠ stateMetricName to.
Proof.
  intros Ht He E. apply (proj1 (Forall_forall _ _) exits_not_states _ Ht). rewrite <-E, elem_of_app.
  destruct He as [He|He]; [left|by right]. apply list_elem_of_fmap. by exists (st, exit).
Qed.

Lemma edges_forward st to :
  (st, to) ∈ edges → forward st to ∨ (st, to) ∈ [(CLASSIFY_RESP, CACHE_LOOKUP); (QUERY_UPSTREAM, CLASSIFY_RESP)].
Proof.
  assert (∀ i j, pipeline !! i = Some st → pipeline !! j = Some to → (i < j)%nat → forward st to) as Hf
    by (unfold forward; eauto).
  unfold edges. rewrite !elem_of_cons, elem_of_nil.
  intros He; repeat (destruct He as [[= -> ->]|He]); try done;
    first [right; set_solver|left].
  1: apply (Hf 0%nat 1%nat); [done|done|lia]. 1: apply (Hf 1%nat 8%nat); [done|done|lia].
  1: apply (Hf 1%nat 2%nat); [done|done|lia]. 1: apply (Hf 2%nat 8%nat); [done|done|lia].
  1: apply (Hf 2%nat 3%nat); [done|done|lia]. 1: apply (Hf 3%nat 4%nat); [done|done|lia].
  1: apply (Hf 3%nat 5%nat); [done|done|lia]. 1: apply (Hf 4%nat 8%nat); [done|done|lia].
  1: apply (Hf 4%nat 5%nat); [done|done|lia]. 1: apply (Hf 5%nat 7%nat); [done|done|lia].
  1: apply (Hf 5%nat 6%nat); [done|done|lia]. 1: apply (Hf 6%nat 7%nat); [done|done|lia].
Qed.

(** A legal transition between two states is an edge. *)
Lemma legal_edges st to :
  st ∈ pipeline → to ∈ pipeline → legal (ATransition (stateMetricName st) (stateMetricName to)) → (st, to) ∈ edges.
Proof.
  intros Hs Ht [(st' & to' & He & Es & Et)|Hx]; [by eapply edges_of_names|exfalso].
  destruct Hx as [(st' & Hx & _)|Hx]; [by eapply (exit_not_state st'); [exact Ht|left; exact Hx|]|].
  by eapply (exit_not_state st); [exact Ht|right; exact Hx|].
Qed.

Lemma no_direct_return : ¬ legal (ATransition (stateMetricName QUERY_UPSTREAM) (stateMetricName RETURN_RESP)).
Proof.
  intros He%legal_edges; [|unfold pipeline; set_solver..].
  revert He. refine (bool_decide_unpack (_ ∉ edges) _). vm_compute. exact I.
Qed.

Section paths.
Context `{DL : DnsLib} `{GC : GoCache Msg} `{EM : EbpfMap BPFKey BPFValue} `{GS : GoSort} `{E : !Env}.

(** C7: the transitions of the state machine, exactly.  Whatever happens in a
    resolution (NS resolutions nested in it included, and even if it panicked),
    every transition it reports is one of the table: an edge between two states, an
    exit of its state, or the error or iteration-limit exit.  Every edge, and every
    exit but the SERVFAIL of [QUERY_UPSTREAM], is taken by some resolution.
    Compared with the pipeline of docs/architecture.md: all arrows drawn there but
    the last are edges, and every edge goes forward in it, skipping states perhaps,
    or back from [CLASSIFY_RESP] to [CACHE_LOOKUP] (an alias) or from
    [QUERY_UPSTREAM] to [CLASSIFY_RESP] (an answer to classify); the arrow drawn
    from [QUERY_UPSTREAM] to [RETURN_RESP] is never taken. *)
Theorem state_machine_transitions :
  (∀ port w, ∃ l, w_log (Change port w).2 = w_log w ++ l ∧ Forall legal l ∧
     ((stateMetricName QUERY_UPSTREAM, stateMetricName RETURN_RESP) ∉ transitions_of l) ∧
     (∀ st to, st ∈ pipeline → to ∈ pipeline →
        (stateMetricName st, stateMetricName to) ∈ transitions_of l →
        forward st to ∨ (st, to) ∈ [(CLASSIFY_RESP, CACHE_LOOKUP); (QUERY_UPSTREAM, CLASSIFY_RESP)])) ∧
  (∀ st to, (st, to) ∈ edges →
     ∃ E w, (stateMetricName st, stateMetricName to) ∈ PathWorlds.taken (E, w)) ∧
  (∀ st exit, (st, exit) ∈ exits → st ≠ QUERY_UPSTREAM →
     ∃ E w, (stateMetricName st, exit) ∈ PathWorlds.taken (E, w)) ∧
  (∀ i st to, (i < 7)%nat → pipeline !! i = Some st → pipeline !! S i = Some to → (st, to) ∈ edges).
Proof.
  split_and!.
  - intros port w. destruct (Change_respects reports_legally port w) as (l & Hl & Hleg). exists l.
    assert (∀ f t, (f, t) ∈ transitions_of l → legal (ATransition f t)) as He.
    { intros f t (a & Ha & Ea)%list_elem_of_omap. rewrite Forall_forall in Hleg. specialize (Hleg a Ha).
      by destruct a; simplify_eq. }
    split_and!; [done|done|intros Hin; by apply no_direct_return, He|].
    intros st to Hs Ht Hin. by apply edges_forward, legal_edges, He.
  - intros st to He. apply PathWorlds.taken_by_some.
    exact (proj1 (Forall_forall _ _) PathWorlds.edges_are_taken (st, to) He).
  - intros st exit He Hq. apply PathWorlds.taken_by_some.
    exact ((proj1 (Forall_forall _ _) PathWorlds.exits_are_taken (st, exit) He) Hq).
  - intros i st to Hi Hst Hto.
    do 7 (destruct i as [|i]; [injection Hst as <-; injection Hto as <-; unfold edges; set_solver|]). lia.
Qed.

End paths.
