(* ===== verification/Server.v ===== *)
(** * Serving a request (server/server.go)

    [ServeDNS] is the handler the DNS library calls for every request: it runs
    the state machine, turns errors into SERVFAIL, restores the client's question
    and truncates for UDP. *)

From S2P Require Import Prelude GoLib Float64 NetIP Dns Zone External Cache RateLog Gate.
From S2P Require Import HostsForward IPQuality IPPool HotZone Limiter World States Upstream.
From S2P Require Import Logic StateMachine Frame Resolver.

Section server.
Context `{DL : DnsLib} `{GC : GoCache Msg} `{EM : EbpfMap BPFKey BPFValue} `{GS : GoSort} `{E : !Env}.

Abbreviation MW := (M World).

Definition isUDP (addr : NetAddr) : bool := match addr with UDPAddr _ => true | _ => false end.

Definition defaultUDPSize : Z := 512.

Definition getMaxUDPSize (r : Msg) : Z :=
  match IsEdns0_UDPSize r with
  | Some size => if 0 <? size then size else defaultUDPSize
  | None => defaultUDPSize
  end.

(** [for len(reply.Answer) > 0 && reply.Len() > maxSize], on the number of
    answers left. *)
Fixpoint drop_answers (reply : Msg) (answers : list RR) (n : nat) (maxSize : Z) : Msg :=
  let m := set_Answer reply (take n answers) in
  match n with
  | O => m
  | S n' => if maxSize <? Len m then drop_answers reply answers n' maxSize else m
  end.

Definition truncateResponse (reply : Msg) (maxSize : Z) : Msg :=
  if Len reply <=? maxSize then reply
  else
    let reply := set_Truncated reply true in
    let reply := drop_answers reply (Answer reply) (length (Answer reply)) maxSize in
    let reply := if maxSize <? Len reply then set_Extra reply [] else reply in
    let reply := if maxSize <? Len reply then set_Answer reply [] else reply in
    set_Ns reply [].

(** The holder and limiter of the request's context. *)
Definition limiter_releaseIfHeld : MW unit :=
  let! t := tick in
  modify (λ w,
    match w_holder w, sh_lim (w_shared w) with
    | Some h, Some l =>
        let '(h, l) := ReleaseIfHeld (env_hz t) (env_now t) h l in
        set_shared (set_lim (Some l) (w_shared w)) (set_holder (Some h) w)
    | _, _ => w
    end).

(** [reply.Question[0] = originalQuestion] *)
Definition restoreQuestion (originalQuestion : Question) (reply : Msg) : Msg :=
  if String.eqb (Q_Name originalQuestion) "" then reply
  else set_Questions reply (originalQuestion :: tail (Questions reply)).

(** The context and the response a request starts with. *)
Definition new_request (addr : NetAddr) (w : World) : World :=
  set_holder (Some (newExpensiveRequestHolder (extractClientIP addr)))
    (set_trace None (set_resp (Some new_Msg) w)).

(** The body of [ServeDNS]; the value is the message written to the client. *)
Definition serve_body (port : string) (addr : NetAddr) : MW Msg :=
  let! r := get_req in
  match Questions r with
  | [] => ret (SetRcode new_Msg r RcodeFormatError)
  | originalQuestion :: _ =>
      let! result := Change port in
      do! limiter_releaseIfHeld in
      let! reply := match result with
        | (_, Some _) =>
            let! r := get_req in
            let! reply := get_resp in
            ret (SetRcode reply r RcodeServerFailure)
        | (Some m, None) => ret m
        | (None, None) => panic
        end in
      let reply := restoreQuestion originalQuestion reply in
      let! r := get_req in
      let reply := if isUDP addr then truncateResponse reply (getMaxUDPSize r) else reply in
      (* the metrics' labels read [reply.Question[0]] *)
      let! _ := index0 (Questions reply) in
      ret reply
  end.

(** [ServeDNS]: the release of the client's slot is deferred, and so runs a second
    time after the body. *)
Definition ServeDNS (port : string) (addr : NetAddr) : MW Msg :=
  do! modify (new_request addr) in
  let! reply := serve_body port addr in
  do! limiter_releaseIfHeld in
  ret reply.

(** ** Truncation *)

Lemma drop_answers_spec reply answers n maxSize :
  ∃ k, (k ≤ n)%nat ∧ drop_answers reply answers n maxSize = set_Answer reply (take k answers) ∧
    (k = 0%nat ∨ Len (set_Answer reply (take k answers)) ≤ maxSize) ∧
    (∀ j, (k < j ≤ n)%nat → maxSize < Len (set_Answer reply (take j answers))).
Proof.
  induction n as [|n IH]; simpl.
  - exists 0%nat. split_and!; [lia|done|by left|lia].
  - destruct (Z.ltb_spec maxSize (Len (set_Answer reply (take (S n) answers)))) as [Hl|Hl].
    + destruct IH as (k & Hk & -> & Hf & Hm). exists k. split_and!; [lia|done|done|].
      intros j Hj. destruct (decide (j = S n)) as [->|]; [done|]. apply Hm. lia.
    + exists (S n). split_and!; [lia|done|by right|lia].
Qed.

(** C28: truncation.  A response that fits the client's size is sent as it is.
    Otherwise the truncation flag is set and the answers are cut to the longest
    prefix with which the message fits, the authority and additional sections
    included; when not even the empty prefix fits, the additional section goes as
    well.  Then the authority section is emptied, and nothing else is changed.  So
    the size is measured before the authority section is taken out: answers that
    would fit in what is sent are dropped when that section is large. *)
Theorem truncateResponse_spec (reply : Msg) (maxSize : Z) :
  let m := truncateResponse reply maxSize in
  let kept k := set_Answer (set_Truncated reply true) (take k (Answer reply)) in
  (Len reply ≤ maxSize → m = reply) ∧
  (maxSize < Len reply →
    ∃ k, (k ≤ length (Answer reply))%nat ∧
      (∀ j, (k < j ≤ length (Answer reply))%nat → maxSize < Len (kept j)) ∧
      (Len (kept k) ≤ maxSize ∧ m = set_Ns (kept k) [] ∨
       k = 0%nat ∧ maxSize < Len (kept 0%nat) ∧ m = set_Ns (set_Extra (kept 0%nat) []) [])).
Proof.
  intros m kept. unfold m, truncateResponse. destruct (Z.leb_spec (Len reply) maxSize) as [Hfit|Hbig]; [split; [done|lia]|].
  split; [lia|]. intros _. change (Answer (set_Truncated reply true)) with (Answer reply).
  destruct (drop_answers_spec (set_Truncated reply true) (Answer reply) (length (Answer reply)) maxSize)
    as (k & Hk & -> & Hf & Hm). fold (kept k). exists k. split_and!; [done|exact Hm|].
  destruct (Z.ltb_spec maxSize (Len (kept k))) as [H1'|H1'].
  - destruct Hf as [->|?]; [|unfold kept in H1'; lia]. right. split_and!; [done|done|]. by case_match.
  - left. split; [done|]. destruct (Z.ltb_spec maxSize (Len (kept k))); [lia|done].
Qed.

End server.

Section serving.
Context `{DLL : DnsLibLaws} `{GCL : GoCacheLaws Msg} `{EML : EbpfMapLaws BPFKey BPFValue}.
Context `{GS : GoSort} `{E : !Env} `{EOK : !EnvOk}.

Abbreviation MW := (M World).

(** The parts of a reply that truncation leaves alone. *)
Lemma truncateResponse_keeps reply maxSize :
  let m := truncateResponse reply maxSize in
  Questions m = Questions reply ∧ Id (Hdr m) = Id (Hdr reply) ∧ Response (Hdr m) = Response (Hdr reply) ∧
  Rcode (Hdr m) = Rcode (Hdr reply) ∧ Answer m `prefix_of` Answer reply.
Proof.
  unfold truncateResponse. destruct (_ <=? _); [by split_and!|].
  destruct (drop_answers_spec (set_Truncated reply true) (Answer reply) (length (Answer reply)) maxSize)
    as (k & _ & Ek & _). change (Answer (set_Truncated reply true)) with (Answer reply). rewrite Ek.
  split_and!; try (by repeat case_match).
  assert (take k (Answer reply) `prefix_of` Answer reply) as Hp
    by (exists (drop k (Answer reply)); by rewrite take_drop).
  repeat case_match; simpl; try done; apply prefix_nil.
Qed.

Lemma restoreQuestion_spec q m :
  Questions m ≠ [] → Questions (restoreQuestion q m) ≠ [] ∧
    (Q_Name q ≠ "" → head (Questions (restoreQuestion q m)) = Some q) ∧
    Hdr (restoreQuestion q m) = Hdr m ∧ Answer (restoreQuestion q m) = Answer m.
Proof.
  intros Hm. unfold restoreQuestion. destruct (String.eqb_spec (Q_Name q) "") as [->|Hne]; [done|].
  by split_and!.
Qed.

Lemma qd_releaseIfHeld : qd (λ _, True) (λ _, 0) limiter_releaseIfHeld.
Proof.
  unfold limiter_releaseIfHeld. eapply qd_bind; [apply qd_tick|]. intros t _ w Hw. apply wp_modify.
  split; [|done]. destruct (w_holder w) as [h|]; [destruct (sh_lim (w_shared w)) as [l|]|].
  1: destruct (ReleaseIfHeld _ _ _ _) as [h' l'].
  all: apply quiet_intro; try done; unfold bal; simpl; lia.
Qed.

(** The reply to a request that has a question, before the question is restored. *)
Definition reply_ok (request : Msg) (m : Msg) : Prop :=
  Questions m ≠ [] ∧ replies (Id (Hdr request)) m.

(** What the resolver needs at its end to build a reply. *)
Definition serving_ok (w0 : World) (request : Msg) (w : World) : Prop :=
  shared_ok (w_shared w) ∧ bal w = bal w0 ∧ ∃ rq rs, w_req w = Some rq ∧ w_resp w = Some rs ∧
    req_ok (Id (Hdr request)) (length (Questions request)) rq.

Lemma serving_release w0 request w :
  serving_ok w0 request w → wp limiter_releaseIfHeld (λ _ w', serving_ok w0 request w') w.
Proof.
  intros (Hw & Hb & rq & rs & Hrq & Hrs & Hr). eapply wp_mono; [|by apply qd_releaseIfHeld].
  intros _ w' [(Hw' & Hq' & Hs' & Hb') _]. split_and!; [done|lia|]. exists rq, rs. by rewrite Hq', Hs'.
Qed.

Lemma outcome_reply request q qs m :
  Questions request = q :: qs →
  outcome (Id (Hdr request)) (length (Questions request)) (original_question request) (Some m, None) →
  reply_ok request m.
Proof.
  intros Eq [Hr Ho]. split; [|done]. rewrite Eq in Ho. simpl in Ho.
  destruct Ho as [(? & ? & _ & _ & Hh)|(_ & _ & Hl)]; by destruct (Questions m).
Qed.

(** The reply chosen from the resolver's result. *)
Lemma choose_reply w0 request q qs result w :
  Questions request = q :: qs → serving_ok w0 request w →
  outcome (Id (Hdr request)) (length (Questions request)) (original_question request) result →
  wp (match result with
      | (_, Some _) => let! r := get_req in let! reply := get_resp in ret (SetRcode reply r RcodeServerFailure)
      | (Some m, None) => ret m
      | (None, None) => panic
      end)
     (λ m w', w' = w ∧ reply_ok request m ∧ (is_Some result.2 → Rcode (Hdr m) = RcodeServerFailure)) w.
Proof.
  intros Eq (_ & _ & rq & rs & Hrq & Hrs & Hid & Hlen) Ho.
  destruct result as [[m|] [e|]]; simpl in Ho; try done.
  - apply wp_ret. split_and!; [done|by eapply outcome_reply|by intros []].
  - unfold wp, bind, get_req, get_resp. rewrite Hrq, Hrs. simpl. split; [done|].
    rewrite SetRcode_spec. split; [|done]. destruct (SetReply_spec rs rq) as (Sq & Si & Sr & _).
    split; [|by split; simpl; [rewrite Si|]]. simpl. rewrite Sq. rewrite Eq in Hlen. by destruct (Questions rq).
Qed.

Lemma serve_body_wp port addr w request :
  shared_ok (w_shared w) → w_req w = Some request → w_resp w = Some new_Msg →
  wp (serve_body port addr) (λ m w', serving_ok w request w' ∧ replies (Id (Hdr request)) m ∧
    (Questions request = [] → Rcode (Hdr m) = RcodeFormatError ∧ Answer m = []) ∧
    (∀ q qs, Questions request = q :: qs → Q_Name q ≠ "" → head (Questions m) = Some q)) w.
Proof.
  intros Hw Hrq Hrs. unfold serve_body. apply wp_bind. unfold wp at 1, get_req. rewrite Hrq.
  assert (serving_ok w request w) as Hstart.
  { split_and!; [done|done|]. exists request, new_Msg. done. }
  destruct (Questions request) as [|q qs] eqn:Eq.
  { apply wp_ret. rewrite SetRcode_spec.
    destruct (SetReply_spec new_Msg request) as (_ & Si & Sr & _ & _ & Sa & _).
    unfold replies. simpl. by rewrite Si, Sr, Sa. }
  apply wp_bind. eapply wp_mono; [|by apply (Change_ok port w request)].
  intros result w1 (Ho & Hb1 & Hw1 & Hm1). apply wp_bind.
  assert (serving_ok w request w1) as Hs1 by done.
  eapply wp_mono; [|by apply serving_release]. clear w1 Hb1 Hw1 Hm1 Hs1. intros [] w1 Hs1. apply wp_bind.
  eapply wp_mono; [|by eapply choose_reply]. intros m ? (-> & [Hq Hr] & _).
  destruct (restoreQuestion_spec q m Hq) as (Rq & Rn & Rh & _). apply wp_bind.
  pose proof Hs1 as (_ & _ & rq & rs & Hrq1 & _). unfold wp at 1, get_req. rewrite Hrq1.
  set (reply := if isUDP addr then _ else _).
  assert (Questions reply = Questions (restoreQuestion q m) ∧ replies (Id (Hdr request)) reply) as [Fq Fr].
  { unfold reply, replies. destruct (isUDP addr); [|by rewrite Rh].
    destruct (truncateResponse_keeps (restoreQuestion q m) (getMaxUDPSize rq)) as (-> & -> & -> & _).
    by rewrite Rh. }
  apply wp_bind. destruct (Questions reply) as [|q0 qs0] eqn:Er; [by rewrite <-Fq in Rq|]. apply wp_index0.
  apply wp_ret. split_and!; try done. intros ? ? [= <- <-] Hn. rewrite Er, Fq. by apply Rn.
Qed.

Lemma ServeDNS_ok port addr w request :
  shared_ok (w_shared w) → w_req w = Some request →
  ∃ m w', ServeDNS port addr w = (Ok m, w') ∧ Id (Hdr m) = Id (Hdr request) ∧ Response (Hdr m) = true ∧
    (Questions request = [] → Rcode (Hdr m) = RcodeFormatError ∧ Answer m = []) ∧
    (∀ q qs, Questions request = q :: qs → Q_Name q ≠ "" → head (Questions m) = Some q) ∧
    w_slots w' - w_background w' = w_slots w - w_background w ∧ shared_ok (w_shared w').
Proof.
  intros Hw Hrq. pose proof (serve_body_wp port addr (new_request addr w) request Hw Hrq eq_refl) as Hc.
  unfold ServeDNS, bind, modify. unfold wp in Hc. destruct (serve_body port addr _) as [[m|] w1]; [|done].
  destruct Hc as (Hs & [Hi Hr] & Hf & Hq). pose proof (serving_release _ _ _ Hs) as Hs'. unfold wp in Hs'.
  destruct (limiter_releaseIfHeld w1) as [[u|] w2]; [|done]. destruct Hs' as (Hw2 & Hb2 & _).
  exists m, w2. by split_and!.
Qed.

(** C3: serving a request is safe.  For every request, [ServeDNS] finishes
    without a panic and writes exactly one message; it is a response with the
    client's id, it repeats the client's question, whatever aliases were followed
    and whichever path was taken (error and truncation included), and it is an
    empty FORMERR when the request has no question.  The gate slots taken are
    given back up to those of goroutines still running, and the shared state
    stays sound. *)
Theorem ServeDNS_safe (port : string) (addr : NetAddr) (w : World) (request : Msg) :
  shared_ok (w_shared w) → w_req w = Some request →
  ∃ m w', ServeDNS port addr w = (Ok m, w') ∧ Id (Hdr m) = Id (Hdr request) ∧ Response (Hdr m) = true ∧
    (Questions request = [] → Rcode (Hdr m) = RcodeFormatError ∧ Answer m = []) ∧
    (∀ q qs, Questions request = q :: qs → Q_Name q ≠ "" → head (Questions m) = Some q) ∧
    w_slots w' - w_background w' = w_slots w - w_background w ∧ shared_ok (w_shared w').
Proof. apply ServeDNS_ok. Qed.

(** ** The client's slot *)

Lemma releaseIfHeld_free `{!LimiterStable} ip w :
  holder_ok ip w →
  ∃ h, w_holder (limiter_releaseIfHeld w).2 = Some h ∧ h_held h = false ∧ h_hotZoneHeld h = false.
Proof.
  intros (Hl & h & Hh & Hip & Hv). apply (limiter_stable (w_tick w)) in Hl as [l El].
  unfold limiter_releaseIfHeld, bind, tick, stepM, modify. simpl. rewrite Hh, El. unfold ReleaseIfHeld.
  destruct (Addr_IsValid (h_clientIP h)) eqn:Ev; simpl.
  - destruct (h_held h) eqn:E1, (h_hotZoneHeld h) eqn:E2; simpl; eexists; split_and!; done.
  - exists h. split; [done|]. apply Hv. by rewrite <-Hip.
Qed.

Lemma releaseIfHeld_keeps `{!LimiterStable} ip : pres (keeps_holder ip) limiter_releaseIfHeld.
Proof.
  unfold limiter_releaseIfHeld. apply pres_bind; [apply _|apply rs_tick|].
  intros t. apply pres_modify. intros w (Hl & h & Hh & Hip & Hv). rewrite Hh. destruct Hl as [l El].
  rewrite El. unfold ReleaseIfHeld.
  destruct (negb (Addr_IsValid (h_clientIP h))); [|destruct (negb (h_held h) && negb (h_hotZoneHeld h))];
    (split; [by eexists|]); eexists; by split_and!.
Qed.

Lemma serve_body_keeps `{!LimiterStable} port addr ip : pres (keeps_holder ip) (serve_body port addr).
Proof.
  unfold serve_body. apply pres_bind; [apply _|apply rs_get_req, _|]. intros r.
  destruct (Questions r) as [|q qs]; [apply pres_ret, _|].
  apply pres_bind; [apply _|apply Change_respects, _|]. intros result.
  apply pres_bind; [apply _|apply releaseIfHeld_keeps|]. intros _.
  apply pres_bind; [apply _| |intros m].
  { destruct result as [[m|] [e|]]; try apply pres_ret, _; [..|apply pres_panic, _];
      (apply pres_bind; [apply _|apply rs_get_req, _|intros ?]);
      (apply pres_bind; [apply _|apply rs_get_resp, _|intros ?]); apply pres_ret, _. }
  apply pres_bind; [apply _|apply rs_get_req, _|intros ?].
  apply pres_bind; [apply _|apply pres_index0, _|intros ?]. apply pres_ret, _.
Qed.

(** C10: no request keeps its client's slot.  When the server has a limiter and
    [ServeDNS] has returned, the request's holder owns neither a slot of the
    expensive path nor a hot-zone ticket, whichever path the request took. *)
Theorem ServeDNS_frees_slot `{!LimiterStable} (port : string) (addr : NetAddr) (w w' : World) (m : Msg) :
  is_Some (sh_lim (w_shared w)) → ServeDNS port addr w = (Ok m, w') →
  ∃ h, w_holder w' = Some h ∧ h_held h = false ∧ h_hotZoneHeld h = false.
Proof.
  intros Hl. set (ip := extractClientIP addr).
  assert (holder_ok ip (new_request addr w)) as Hstart by (split; [done|]; by eexists).
  pose proof (serve_body_keeps port addr ip _ Hstart) as Hb. unfold ServeDNS, bind, modify.
  destruct (serve_body port addr (new_request addr w)) as [[b|] w1]; [|done].
  pose proof (releaseIfHeld_free ip w1 Hb) as Hf.
  destruct (limiter_releaseIfHeld w1) as [[u|] w2]; [|done]. intros [= <- <-]. exact Hf.
Qed.
End serving.

Module ServerWitness.
Import RefWorld.

Definition client : NetAddr := UDPAddr [192; 0; 2; 7].

Lemma ServeDNS_safe_witness :
  ∃ m w', ServeDNS "53" client (serving fresh query) = (Ok m, w') ∧ Id (Hdr m) = 0 ∧
    Response (Hdr m) = true ∧ head (Questions m) = Some (mkQ "www.example." TypeA ClassINET).
Proof.
  destruct (ServeDNS_safe "53" client (serving fresh query) query fresh_ok eq_refl)
    as (m & w' & HC & Hi & Hr & _ & Hq & _).
  exists m, w'. split; [exact HC|]. split; [exact Hi|]. split; [exact Hr|].
  apply (Hq _ _ eq_refl). discriminate.
Defined.

#[export] Instance limiter_stable_env : LimiterStable.
Proof. done. Qed.

Definition limited : Shared :=
  set_lim (newExpensiveRequestLimiter 4 (mkLimitConfig "enabled" 1 [] false)) fresh.

Lemma ServeDNS_frees_slot_witness :
  match ServeDNS "53" client (serving limited query) with
  | (Ok m, w') => Answer m = [www] ∧ (h_held <$> w_holder w') = Some false
  | _ => False
  end.
Proof.
  destruct (ServeDNS "53" client (serving limited query)) as [[m|] w'] eqn:HC.
  - split.
    + assert (match (ServeDNS "53" client (serving limited query)).1 with
        | Ok m => bool_decide (Answer m = [www]) | Panic => false end = true) as Ha by (vm_compute; reflexivity).
      rewrite HC in Ha. exact (bool_decide_eq_true_1 _ Ha).
    + destruct (ServeDNS_frees_slot "53" client (serving limited query) w' m) as (h & Hh & Hf & _).
      * vm_compute. eexists. reflexivity.
      * exact HC.
      * rewrite Hh. simpl. by rewrite Hf.
  - assert (match (ServeDNS "53" client (serving limited query)).1 with Ok _ => true | Panic => false end = true)
      as Ha by (vm_compute; reflexivity).
    rewrite HC in Ha. discriminate Ha.
Defined.

(** Twenty authority records push the only answer out of 512 bytes, although the
    message that is sent, which has none of them, would have had room for it. *)
Example answers_dropped_for_authority :
  let reply := set_Ns (set_Answer (set_Questions new_Msg [mkQ "www.example." TypeA ClassINET]) [www])
    (repeat (RR_NS (mkHdr "example." TypeNS ClassINET 60) "ns.example.") 20) in
  let m := truncateResponse reply 512 in
  Answer m = [] ∧ Ns m = [] ∧ Len (set_Answer m [www]) ≤ 512.
Proof. vm_compute. repeat split; discriminate. Qed.

(** The steps of that request: it took its client's only slot on the way. *)
Example limited_request_holds_slot :
  (h_held <$> w_holder (Change "53" (new_request client (serving limited query))).2) = Some true.
Proof. vm_compute. reflexivity. Qed.
End ServerWitness.
