(* ===== verification/Service.v ===== *)
(** * What the client gets (server/server.go over server/state_machine.go)

    [Iteration] says what a resolution delivers when servers tell the truth.  Here
    [ServeDNS] is put on top: the question is restored after aliases, errors become
    SERVFAIL, and the reply is truncated for UDP.  The result is the end-to-end
    statement: what the client receives is the truth. *)

From Stdlib Require Import Ascii.
From S2P Require Import Prelude GoLib Float64 NetIP Dns Zone External Cache RateLog Gate.
From S2P Require Import HostsForward IPQuality IPPool HotZone Limiter World States Upstream.
From S2P Require Import Logic StateMachine Policy Iteration Server.

Section service.
Context `{DLL : DnsLibLaws} `{GCL : GoCacheLaws Msg} `{EML : EbpfMapLaws BPFKey BPFValue}.
Context `{GS : GoSort} `{GSL : !GoSortLaws} `{E : !Env} `{HS : !HostsStable}.

Context (qtype qclass : Z) (links : list Link) (port : string).
Context (Htruth : truth_ok qtype links) (Hservers : truthful qtype links port)
  (Hinterfere : ∀ t s, consistent qtype links s → consistent qtype links (interfere t s)).

(** What the client gets for [request] when the resolution ended with [r]: the
    answer, truncated to the size the client takes when it came by UDP; or no
    answers, and REFUSED or, for an error of the resolution, SERVFAIL. *)
Definition served (addr : NetAddr) (request : Msg) (q : Question) (r : option Msg * option RErr) (m : Msg) : Prop :=
  Questions m = [q] ∧ Id (Hdr m) = Id (Hdr request) ∧
  ((∃ full, answers q (Id (Hdr request)) [] links full ∧
      m = if isUDP addr then truncateResponse full (getMaxUDPSize request) else full) ∨
   (Answer m = [] ∧ Rcode (Hdr m) = RcodeRefused) ∨
   (Answer m = [] ∧ Rcode (Hdr m) = RcodeServerFailure ∧
    ∃ e, r = (None, Some (ErrHandle QUERY_UPSTREAM e)) ∧ excuse qtype links port e)).

(** The release of the client's slot leaves request, response and log alone. *)
Lemma wp_releaseIfHeld (Q : unit → World → Prop) w :
  (∀ w', w_req w' = w_req w → w_resp w' = w_resp w → w_log w' = w_log w →
     sh_hosts (w_shared w') = sh_hosts (w_shared w) → Q tt w') →
  wp limiter_releaseIfHeld Q w.
Proof.
  intros Hk. unfold limiter_releaseIfHeld. apply wp_bind. unfold wp at 1, tick, stepM. simpl.
  apply wp_modify. pose proof (hosts_stable (w_tick w) (w_shared w)) as Hh. simpl.
  destruct (w_holder w) as [h|]; [destruct (sh_lim _) as [lm|]|]; try (by apply Hk).
  destruct (ReleaseIfHeld _ _ _ _) as [h' lm']. by apply Hk.
Qed.

(** A reply without answers stays one. *)
Lemma served_empty (addr : NetAddr) q reply (size : Z) :
  Questions reply ≠ [] → Q_Name q ≠ "" → tail (Questions reply) = [] → Answer reply = [] →
  let m := if isUDP addr then truncateResponse (restoreQuestion q reply) size else restoreQuestion q reply in
  Questions m = [q] ∧ Id (Hdr m) = Id (Hdr reply) ∧ Answer m = [] ∧ Rcode (Hdr m) = Rcode (Hdr reply).
Proof.
  intros Hne Hq Ht HA. unfold restoreQuestion. apply String.eqb_neq in Hq as ->. rewrite Ht.
  destruct (isUDP addr); [|by split_and!].
  destruct (truncateResponse_keeps (set_Questions reply [q]) size) as (-> & -> & _ & -> & Hp).
  split_and!; try done. simpl in Hp. rewrite HA in Hp. by apply prefix_nil_inv in Hp.
Qed.

Lemma restore_same q m : Questions m = [q] → restoreQuestion q m = m.
Proof. unfold restoreQuestion. intros Hq. destruct (String.eqb _ _); [done|]. destruct m. simpl in *. by subst. Qed.

Lemma size_renamed request l : getMaxUDPSize (renamed qtype qclass request l) = getMaxUDPSize request.
Proof. unfold getMaxUDPSize. by rewrite (IsEdns0_UDPSize_extra (renamed qtype qclass request l) request). Qed.

(** What follows the resolution, up to the reply. *)
Lemma wp_reply addr request q r w (Q : Msg → World → Prop) :
  Q_Name q ≠ "" → delivery qtype qclass links port request q [] links r w →
  (∀ m, served addr request q r m → Q m w) →
  wp (let! reply := match r with
        | (_, Some _) =>
            let! r := get_req in let! reply := get_resp in ret (SetRcode reply r RcodeServerFailure)
        | (Some m, None) => ret m
        | (None, None) => panic
        end in
      let reply := restoreQuestion q reply in
      let! r := get_req in
      let reply := if isUDP addr then truncateResponse reply (getMaxUDPSize r) else reply in
      let! _ := index0 (Questions reply) in
      ret reply) Q w.
Proof.
  intros Hname (l & _ & Hrq & Hr) HQ.
  assert (∀ reply, served addr request q r (if isUDP addr then truncateResponse (restoreQuestion q reply)
      (getMaxUDPSize request) else restoreQuestion q reply) →
    wp (let reply := restoreQuestion q reply in
        let! r := get_req in
        let reply := if isUDP addr then truncateResponse reply (getMaxUDPSize r) else reply in
        let! _ := index0 (Questions reply) in ret reply) Q w) as Hend.
  { intros reply Hs. cbv zeta. apply wp_bind. unfold wp at 1, get_req. rewrite Hrq, size_renamed.
    apply wp_bind. destruct Hs as [Eq Hs]. rewrite Eq. apply wp_index0, wp_ret, HQ. by split. }
  assert (∀ base rc, Answer base = [] →
    let reply := SetRcode base (renamed qtype qclass request l) rc in
    let m := if isUDP addr then truncateResponse (restoreQuestion q reply) (getMaxUDPSize request)
             else restoreQuestion q reply in
    Questions m = [q] ∧ Id (Hdr m) = Id (Hdr request) ∧ Answer m = [] ∧ Rcode (Hdr m) = rc) as Hempty.
  { intros base rc HA reply. unfold reply. rewrite SetRcode_spec.
    destruct (SetReply_spec base (renamed qtype qclass request l)) as (Sq & Si & _ & _ & _ & Sa & _).
    destruct (served_empty addr q (set_Rcode (SetReply base (renamed qtype qclass request l)) rc) (getMaxUDPSize request))
      as (E1 & E2 & E3 & E4); [by simpl; rewrite Sq|done|by simpl; rewrite Sq|by simpl; rewrite Sa|].
    split_and!; [exact E1|rewrite E2; exact Si|exact E3|exact E4]. }
  apply wp_bind. destruct Hr as [(m & Er & Hm)|[Er|(e & rs & Er & He & Hrs & HA)]]; rewrite Er in *.
  - apply wp_ret, Hend. rewrite (restore_same q m) by apply Hm. pose proof Hm as [Hqm Hid _ _ _].
    destruct (truncateResponse_keeps m (getMaxUDPSize request)) as (Tq & Ti & _).
    unfold served. split_and!; [by destruct (isUDP addr); congruence..|left; by exists m].
  - apply wp_ret, Hend. destruct (Hempty new_Msg RcodeRefused eq_refl) as (E1 & E2 & E3 & E4).
    split_and!; [exact E1|exact E2|]. right; left. by split.
  - apply wp_bind. unfold wp at 1, get_req. rewrite Hrq. apply wp_bind. unfold wp at 1, get_resp. rewrite Hrs.
    apply wp_ret, Hend. destruct (Hempty rs RcodeServerFailure HA) as (E1 & E2 & E3 & E4).
    split_and!; [exact E1|exact E2|]. right; right. split_and!; [exact E3|exact E4|by exists e].
Qed.

(** C2: the client gets the truth.  Take a question that neither static hosts nor
    a forwarding zone answers, the aliases it leads through, and for each name on
    the way the delegations from the root to the servers that hold the alias, the
    records, or the fact that there are none.  Let these servers not reply, be lame
    (SERVFAIL, REFUSED and the like), or tell the truth: what there is, or a
    delegation further down, with addresses.  Let nothing in the process contradict
    that, whatever other goroutines do, and let three iterations per delegation and
    name fit in the fifty.  Then [ServeDNS] writes, under the client's question and
    id, exactly the aliases in order and the records, or NXDOMAIN or NODATA with an
    SOA record, truncated by [truncateResponse] to the client's size for UDP; or an
    empty REFUSED, from the limiter; or an empty SERVFAIL, and then the upstream
    gate was full, the context was over, or a server on the way did not reply or
    was lame, as the error of the resolution says.  It asks only these servers, only for these names, and caches only
    what they said. *)
Theorem client_gets_the_truth (w : World) (addr : NetAddr) (request : Msg) (l : Link) (rest : list Link) :
  links = l :: rest → chained links → (cost links ≤ 47)%nat →
  valid_query request (link_question qtype qclass l) → w_req w = Some request →
  consistent qtype links (w_shared w) →
  hosts_view (link_question qtype qclass l) (sh_hosts (w_shared w)) = None →
  matchForwardZone (forwardZones (sh_hosts (w_shared w))) (ln_name l) = None →
  ∃ r m w', (Change port (new_request addr w)).1 = Ok r ∧ ServeDNS port addr w = (Ok m, w') ∧
    served addr request (link_question qtype qclass l) r m ∧ trail qtype links port w w'.
Proof.
  intros Els Hch Hcost Hq Hreq Hc Hhosts Hfwd. set (q := link_question qtype qclass l) in *.
  assert (l ∈ links) as Hl by (rewrite Els; by left).
  assert (Q_Name q ≠ "") as Hname.
  { pose proof (to_fqdn _ _ Htruth l Hl) as Hf. intros Hz. change (ln_name l = "") in Hz. by rewrite Hz in Hf. }
  destruct (wp_elim (Change port) _ (new_request addr w)
    (Change_delivers qtype qclass links port Htruth Hservers Hinterfere (new_request addr w) request l rest
       Els Hch Hcost Hq Hreq eq_refl Hc Hhosts Hfwd)) as (r & w1 & HC & Hd & [Hlog Hh]).
  cut (wp (ServeDNS port addr) (λ m w', served addr request q r m ∧ trail qtype links port w w') w).
  { intros (m & w' & HS' & Hr)%wp_elim. exists r, m, w'. by rewrite HC. }
  unfold ServeDNS, serve_body. apply wp_bind, wp_modify. apply wp_bind, wp_bind. unfold wp at 1, get_req.
  change (w_req (new_request addr w)) with (w_req w). rewrite Hreq.
  pose proof Hq as (Erq & _). rewrite Erq. apply wp_bind. unfold wp at 1. rewrite HC.
  apply wp_bind, wp_releaseIfHeld. intros w2 Eq2 Er2 El2 Eh2.
  eapply wp_reply; [done| |].
  { destruct Hd as (l1 & Hl1 & Hd). exists l1. rewrite Eq2, Er2. by split. }
  intros m Hm. apply wp_bind, wp_releaseIfHeld. intros w3 Eq3 Er3 El3 Eh3. apply wp_ret. split; [exact Hm|].
  split; [rewrite El3, El2; exact Hlog|]. rewrite Eh3, Eh2. exact Hh.
Qed.
End service.

Module ServiceWitness.
Import RefTree.

(** A client that asks by UDP. *)
Definition stub : NetAddr := UDPAddr [192; 0; 2; 7].

Lemma client_gets_the_truth_witness :
  ∃ r m w', ServeDNS "53" stub start = (Ok m, w') ∧
    served TypeA [www; web] "53" stub query (link_question TypeA ClassINET www) r m.
Proof.
  destruct (client_gets_the_truth TypeA ClassINET [www; web] "53" tree_ok tree_truthful (λ t s H, H) start stub query www [web])
    as (r & m & w' & _ & HC & Hm & _).
  - reflexivity.
  - split; [reflexivity|exact I].
  - vm_compute. lia.
  - split; [reflexivity|]. split; reflexivity.
  - reflexivity.
  - exact tree_consistent.
  - vm_compute. reflexivity.
  - reflexivity.
  - exists r, m, w'. split; [exact HC|exact Hm].
Defined.

(** There, the client gets the alias and the record. *)
Example client_gets_alias_and_record :
  match (ServeDNS "53" stub start).1 with Ok m => (Rcode (Hdr m), Answer m) | Panic => (RcodeServerFailure, []) end =
  (RcodeSuccess, [www_rr; web_rr]).
Proof. vm_compute. reflexivity. Qed.
End ServiceWitness.
