(* ===== verification/Warmup.v ===== *)
(** * Warming up the name-server cache (server/warmup.go)

    At start-up the server resolves the NS records of the root and of a list of
    top-level domains.  [WarmupNSRecords] starts one goroutine per domain behind a
    semaphore; its workers are the steps of [warm_step], in any interleaving with
    the deadline.  [queryNSRecords] is what a worker runs. *)

From S2P Require Import Prelude GoLib Float64 NetIP Dns Zone External Cache RateLog Gate.
From S2P Require Import HostsForward IPQuality IPPool HotZone Limiter World States Upstream.
From S2P Require Import Logic StateMachine Frame Resolver.

Record WarmupConfig := mkWarmupConfig {
  wc_Enabled : bool;
  wc_Timeout : Z;
  wc_Duration : Z;
  wc_Concurrency : Z;
  wc_TLDs : list string;
}.

(** [numCPU] is [runtime.NumCPU()]. *)
Definition calcOptimalConcurrency (numCPU : Z) : Z :=
  let concurrency := numCPU * 2 in
  if 8 <? concurrency then 8 else concurrency.

Definition DefaultTLDs : list string := DefaultCuratedTLDs.

Definition DefaultWarmupConfig (numCPU : Z) : WarmupConfig :=
  mkWarmupConfig true (5 * Second) (5 * Second) (calcOptimalConcurrency numCPU) DefaultTLDs.

Record WarmupStats := mkWarmupStats {
  ws_Total : Z;
  ws_Succeeded : Z;
  ws_Failed : Z;
}.

Section warmup.
Context `{DL : DnsLib} `{GC : GoCache Msg} `{EM : EbpfMap BPFKey BPFValue} `{GS : GoSort} `{E : !Env}.

Abbreviation MW := (M World).

Definition warmup_domains (cfg : WarmupConfig) : list string := "." :: (Fqdn <$> wc_TLDs cfg).

(** The query of one domain; its context carries neither holder nor trace. *)
Definition queryNSRecords (port domain : string) : MW bool :=
  let! t := tick in
  let queryMsg := set_RecursionDesired (SetQuestion new_Msg domain TypeNS (env_id t)) true in
  do! modify (λ w, set_holder None (set_trace None (set_resp (Some new_Msg) (set_req (Some queryMsg) w)))) in
  let! result := Change port in
  match result with
  | (_, Some _) => ret false
  | (Some m, None) =>
      if (0 <? length (Answer m))%nat then ret true
      else if (0 <? length (Ns m))%nat then ret true
      else ret true
  | (None, None) => ret true
  end.

(** ** The workers *)

(** Where each domain is: [todo], the loop has not reached it; [running], its
    goroutine holds a slot of the semaphore and asks; [counted], the outcome is
    counted and the slot still held; [freed], the slot is free and [wg.Done()]
    still to come.  The two counters are kept as the domains counted. *)
Record WState := mkWState {
  todo : list string;
  running : list string;
  counted : list string;
  freed : list string;
  succeeded : list string;
  failed : list string;
  ctxDone : bool;
}.

(** How a goroutine's query ends. *)
Inductive query_result := QTrue | QFalse | QPanic.

(** [make(chan struct{}, n)] panics for a negative [n]. *)
Definition warm_start (cfg : WarmupConfig) : option WState :=
  if wc_Concurrency cfg <? 0 then None
  else Some (mkWState (warmup_domains cfg) [] [] [] [] [] false).

(** The goroutine of [d] counts the outcome of its query; a panic is recovered
    and counted as a failure. *)
Definition count_outcome (o : query_result) (d : string) (pre post : list string) (s : WState) : WState :=
  match o with
  | QTrue =>
      mkWState (todo s) (pre ++ post) (counted s ++ [d]) (freed s) (succeeded s ++ [d]) (failed s) (ctxDone s)
  | QFalse | QPanic =>
      mkWState (todo s) (pre ++ post) (counted s ++ [d]) (freed s) (succeeded s) (failed s ++ [d]) (ctxDone s)
  end.

(** The steps of the loop (taking a slot of the semaphore, or seeing the context
    done) and of the goroutines (counting, freeing the slot, [wg.Done()]). *)
Inductive warm_work (cfg : WarmupConfig) : WState → WState → Prop :=
| work_acquire d ds s :
    todo s = d :: ds →
    Z.of_nat (length (running s) + length (counted s)) < wc_Concurrency cfg →
    warm_work cfg s
      (mkWState ds (running s ++ [d]) (counted s) (freed s) (succeeded s) (failed s) (ctxDone s))
| work_skip d ds s :
    todo s = d :: ds → ctxDone s = true →
    warm_work cfg s
      (mkWState ds (running s) (counted s) (freed s) (succeeded s) (failed s ++ [d]) true)
| work_count d pre post o s :
    running s = pre ++ d :: post → warm_work cfg s (count_outcome o d pre post s)
| work_free d pre post s :
    counted s = pre ++ d :: post →
    warm_work cfg s
      (mkWState (todo s) (running s) (pre ++ post) (freed s ++ [d]) (succeeded s) (failed s) (ctxDone s))
| work_done d pre post s :
    freed s = pre ++ d :: post →
    warm_work cfg s
      (mkWState (todo s) (running s) (counted s) (pre ++ post) (succeeded s) (failed s) (ctxDone s)).

(** The context is done at most once, at any time. *)
Inductive warm_step (cfg : WarmupConfig) : WState → WState → Prop :=
| step_work s s' : warm_work cfg s s' → warm_step cfg s s'
| step_deadline s :
    ctxDone s = false →
    warm_step cfg s
      (mkWState (todo s) (running s) (counted s) (freed s) (succeeded s) (failed s) true).

(** The loop has ended and [wg.Wait()] returns. *)
Definition finished (s : WState) : Prop :=
  todo s = [] ∧ running s = [] ∧ counted s = [] ∧ freed s = [].

#[global] Instance finished_dec s : Decision (finished s).
Proof. unfold finished. apply _. Defined.

(** What [WarmupNSRecords] returns then. *)
Definition warm_stats (cfg : WarmupConfig) (s : WState) : WarmupStats :=
  mkWarmupStats (Z.of_nat (length (warmup_domains cfg)))
    (Z.of_nat (length (succeeded s))) (Z.of_nat (length (failed s))).

Definition warm_inv (cfg : WarmupConfig) (s : WState) : Prop :=
  todo s ++ running s ++ succeeded s ++ failed s ≡ₚ warmup_domains cfg ∧
  Z.of_nat (length (running s) + length (counted s)) ≤ wc_Concurrency cfg.

Lemma warm_inv_work cfg s s' : warm_inv cfg s → warm_work cfg s s' → warm_inv cfg s'.
Proof.
  intros [Hp Hr] Hw.
  destruct Hw as [d ds s Ht Hl|d ds s Ht Hd|d pre post o s Hrun|d pre post s Hc|d pre post s Hf].
  - rewrite Ht in Hp. split; simpl; [|rewrite length_app; simpl; lia]. rewrite <-Hp. simpl.
    rewrite <-!(assoc_L (++)). simpl. rewrite <-(Permutation_middle (running s)).
    by rewrite <-Permutation_middle.
  - rewrite Ht in Hp. split; [|done]. simpl. rewrite <-Hp. simpl.
    rewrite (Permutation_app_comm (failed s)). simpl. rewrite <-(Permutation_middle (succeeded s)).
    rewrite <-(Permutation_middle (running s)). by rewrite <-Permutation_middle.
  - rewrite Hrun in Hp, Hr. rewrite length_app in Hr. simpl in Hr.
    split; [|destruct o; simpl; rewrite !length_app; simpl; lia]. rewrite <-Hp.
    destruct o; simpl; apply Permutation_app_head; rewrite <-!(assoc_L (++)); simpl;
      apply Permutation_app_head.
    + rewrite <-(Permutation_middle (succeeded s)). by rewrite <-Permutation_middle.
    + rewrite (Permutation_app_comm (failed s)). simpl. rewrite <-(Permutation_middle (succeeded s)).
      by rewrite <-Permutation_middle.
    + by rewrite (Permutation_app_comm (failed s)); simpl; rewrite <-!Permutation_middle.
  - rewrite Hc, length_app in Hr. simpl in Hr. split; [done|]. simpl. rewrite length_app. lia.
  - by split.
Qed.

Lemma warm_inv_reachable cfg s0 s :
  warm_start cfg = Some s0 → rtc (warm_step cfg) s0 s → warm_inv cfg s.
Proof.
  unfold warm_start. destruct (Z.ltb_spec (wc_Concurrency cfg) 0); [done|]. intros [= <-] Hr.
  assert (warm_inv cfg (mkWState (warmup_domains cfg) [] [] [] [] [] false)) as Hi.
  { split; [|simpl; lia]. simpl. by rewrite app_nil_r. }
  induction Hr as [|s0 s1 s2 [s s' Hw|s _] _ IH]; [done|..]; apply IH; [by eapply warm_inv_work|done].
Qed.

(** What is left to do: the four steps of a domain (acquire, count, free, done)
    and the deadline. *)
Definition work_left (s : WState) : nat :=
  4 * length (todo s) + 3 * length (running s) + 2 * length (counted s) + length (freed s) +
  if ctxDone s then 0 else 1.

Lemma warm_work_decreases cfg s s' : warm_work cfg s s' → (work_left s' < work_left s)%nat.
Proof.
  unfold work_left.
  destruct 1 as [d ds s Ht Hl|d ds s Ht Hd|d pre post o s Hrun|d pre post s Hc|d pre post s Hf]; simpl.
  - rewrite Ht, length_app. simpl. lia.
  - rewrite Ht, Hd. simpl. lia.
  - rewrite Hrun. destruct o; simpl; rewrite !length_app; simpl; lia.
  - rewrite Hc, !length_app. simpl. lia.
  - rewrite Hf, !length_app. simpl. lia.
Qed.

Lemma warm_step_decreases cfg s s' : warm_step cfg s s' → (work_left s' < work_left s)%nat.
Proof.
  destruct 1 as [s s' Hw|s Hd]; [by eapply warm_work_decreases|]. unfold work_left. simpl.
  rewrite Hd. lia.
Qed.

Lemma warm_steps_bounded cfg n s s' :
  nsteps (warm_step cfg) n s s' → (n + work_left s' ≤ work_left s)%nat.
Proof. induction 1 as [|n x y z Hs _ IH]; [lia|]. apply warm_step_decreases in Hs. lia. Qed.

(** The workers never wait for each other: a slot is free or its holder can go
    on; without slots the loop waits for the deadline. *)
Lemma warm_work_progress cfg s :
  0 < wc_Concurrency cfg ∨ ctxDone s = true → ¬ finished s → ∃ s', warm_work cfg s s'.
Proof.
  intros Hc Hf. destruct (freed s) as [|d ds] eqn:Ef; [|eexists; by apply (work_done cfg d [] ds)].
  destruct (counted s) as [|d ds] eqn:Ec; [|eexists; by apply (work_free cfg d [] ds)].
  destruct (running s) as [|d ds] eqn:Er; [|eexists; by apply (work_count cfg d [] ds QTrue)].
  destruct (todo s) as [|d ds] eqn:Et; [by destruct Hf|]. destruct Hc as [Hc|Hc].
  - eexists. eapply work_acquire; [done|]. rewrite Er, Ec. simpl. lia.
  - eexists. by eapply work_skip.
Qed.

(** C20: the warm-up accounts for every domain and ends.  In every run of the
    loop, its goroutines and the deadline, however they interleave: at most
    [Concurrency] goroutines hold a slot of the semaphore; every domain is
    queued, being asked, counted as a success or counted as a failure, exactly
    once.  Every run is finite, of at most four steps per domain and the
    deadline; a run that has not finished can go on without waiting for the
    deadline when there is a slot at all, and after the deadline in any case; so
    a run that cannot go on has finished, and then every domain is counted and
    [Total = Succeeded + Failed]. *)
Theorem warmup_accounts (cfg : WarmupConfig) (s0 s : WState) (n : nat) :
  warm_start cfg = Some s0 → nsteps (warm_step cfg) n s0 s →
  Z.of_nat (length (running s) + length (counted s)) ≤ wc_Concurrency cfg ∧
  todo s ++ running s ++ succeeded s ++ failed s ≡ₚ warmup_domains cfg ∧
  (n ≤ 4 * length (warmup_domains cfg) + 1)%nat ∧
  (0 < wc_Concurrency cfg ∨ ctxDone s = true → ¬ finished s → ∃ s', warm_work cfg s s') ∧
  ((∀ s', ¬ warm_step cfg s s') → finished s) ∧
  (finished s →
     succeeded s ++ failed s ≡ₚ warmup_domains cfg ∧
     ws_Total (warm_stats cfg s) = ws_Succeeded (warm_stats cfg s) + ws_Failed (warm_stats cfg s)).
Proof.
  intros H0 Hr. pose proof (rtc_nsteps_2 _ _ _ Hr) as Hrtc.
  destruct (warm_inv_reachable cfg s0 s H0 Hrtc) as [Hp Hl].
  split_and!; [done|done| |apply warm_work_progress| |].
  - apply warm_steps_bounded in Hr. unfold warm_start in H0. case_match; simplify_eq.
    unfold work_left at 2 in Hr. simpl in Hr |- *. lia.
  - intros Hstuck. apply dec_stable. intros Hf.
    destruct (ctxDone s) eqn:Ed; [|by eapply Hstuck, step_deadline].
    destruct (warm_work_progress cfg s) as [s' Hs]; [auto|done|]. by eapply Hstuck, step_work.
  - intros (Et & Er & _). rewrite Et, Er in Hp. simpl in Hp. split; [done|].
    apply Permutation_length in Hp. rewrite length_app in Hp. unfold warm_stats. simpl in *. lia.
Qed.

End warmup.

(** ** A worker's query *)
Section query.
Context `{DLL : DnsLibLaws} `{GCL : GoCacheLaws Msg} `{EML : EbpfMapLaws BPFKey BPFValue}.
Context `{GS : GoSort} `{E : !Env} `{EOK : !EnvOk}.

(** A worker's query never panics, keeps the shared state sound and counts as a
    success whatever was found, unless the resolution itself failed. *)
Lemma queryNSRecords_safe port domain w :
  shared_ok (w_shared w) →
  wp (queryNSRecords port domain) (λ b w', shared_ok (w_shared w')) w.
Proof.
  intros Hw. unfold queryNSRecords. apply wp_bind.
  eapply wp_mono; [|by apply (qd_tick w)]. intros t w1 [(Hw1 & _) _].
  apply wp_bind, wp_modify, wp_bind. set (w2 := set_holder _ _).
  eapply wp_mono; [|by apply (Change_ok port w2 _ Hw1 eq_refl eq_refl)].
  intros [[m|] [e|]] w3 (_ & _ & Hw3 & _); try by apply wp_ret.
  repeat case_match; by apply wp_ret.
Qed.

End query.

Module WarmupWitness.
Import RefWorld.

Definition cfg : WarmupConfig := mkWarmupConfig true Second Second 1 ["com"].

(** One slot, two domains: the root is asked, the deadline passes, the loop gives
    [com.] up, and the root's goroutine ends; six steps of the nine allowed. *)
Lemma warmup_accounts_witness :
  let s := mkWState [] [] [] [] ["."] ["com."] true in
  nsteps (warm_step cfg) 6 (mkWState ["."; "com."] [] [] [] [] [] false) s ∧
  (6 ≤ 4 * length (warmup_domains cfg) + 1)%nat ∧ finished s ∧
  warm_stats cfg s = mkWarmupStats 2 1 1 ∧ 2 = ws_Succeeded (warm_stats cfg s) + ws_Failed (warm_stats cfg s).
Proof.
  intros s. assert (nsteps (warm_step cfg) 6 (mkWState ["."; "com."] [] [] [] [] [] false) s) as Hr.
  { eapply nsteps_l; [apply step_work, (work_acquire _ "." ["com."]); [reflexivity|simpl; lia]|].
    eapply nsteps_l; [apply step_deadline; reflexivity|].
    eapply nsteps_l; [apply step_work, (work_skip _ "com." []); reflexivity|].
    eapply nsteps_l; [apply step_work, (work_count _ "." [] [] QTrue); reflexivity|].
    eapply nsteps_l; [apply step_work, (work_free _ "." [] []); reflexivity|].
    eapply nsteps_l; [apply step_work, (work_done _ "." [] []); reflexivity|]. apply nsteps_O. }
  destruct (warmup_accounts (DL := RefDns.lib) cfg (mkWState ["."; "com."] [] [] [] [] [] false) s 6 eq_refl Hr)
    as (_ & _ & Hn & _ & _ & Ht).
  assert (finished s) as Hf by (split_and!; reflexivity).
  split; [exact Hr|]. split; [exact Hn|]. split; [exact Hf|]. split; [reflexivity|].
  exact (proj2 (Ht Hf)).
Defined.

(** A negative concurrency panics when the semaphore is made. *)
Example negative_concurrency : warm_start (mkWarmupConfig true Second Second (-1) ["com"]) = None.
Proof. reflexivity. Qed.

End WarmupWitness.
