(* ===== verification/Trace.v ===== *)
(** * Traced resolutions (server/resolution_trace.go)

    [rec53 --trace-domain] resolves one name with a recorder in the context and
    prints the states it went through.  The recorder itself ([recordState],
    [recordTerminal]) is part of [World]; this file adds its creation, the
    snapshot, the printed form and [TraceDomain], and shows that a trace is
    faithful to what the resolution reported. *)

From S2P Require Import Prelude GoLib GoText Float64 NetIP Dns Zone External Cache RateLog Gate.
From S2P Require Import HostsForward IPQuality IPPool HotZone Limiter World States Upstream.
From S2P Require Import Logic StateMachine Frame Resolver.

(** monitor/state_machine_transition.go *)
Definition StateMachineCanonicalTerminals : list string :=
  [StateMachineSuccessExit; StateMachineFormerrExit; StateMachineServfailExit;
   StateMachineRefusedExit; StateMachineErrorExit; StateMachineMaxItersExit].

Definition StateMachineCanonicalStates : list string :=
  [StateMachineStateInit; StateMachineHostsLookup; StateMachineForwardLookup; StateMachineCacheLookup;
   StateMachineClassifyResp; StateMachineExtractGlue; StateMachineLookupNSCache; StateMachineQueryUpstream;
   StateMachineReturnResp; StateMachineUnknownState].

Record ResolutionTrace := mkTrace {
  QueryName : string;
  QueryType : string;
  Tr_States : list string;
  Terminal : string;
  Tr_Rcode : string;
  Tr_Error : string;
  Tr_Truncated : bool;
}.

Definition fallbackTraceText (value : string) : string :=
  if String.eqb value "" then "UNKNOWN" else value.

(** The numbered lines of the states. *)
Definition state_lines (states : list string) : list string :=
  imap (λ i state, "  " +:+ Itoa (Z.of_nat i + 1) +:+ ". " +:+ state) states.

Definition format_lines (t : ResolutionTrace) : list string :=
  ["query: " +:+ QueryName t +:+ " " +:+ QueryType t] ++
  (if (length (Tr_States t) =? 0)%nat then ["states: (none)"]
   else "states:" :: state_lines (Tr_States t)) ++
  ["terminal: " +:+ fallbackTraceText (Terminal t)] ++
  ["rcode: " +:+ fallbackTraceText (Tr_Rcode t)] ++
  (if Tr_Truncated t then ["note: state list truncated"] else []) ++
  (if String.eqb (Tr_Error t) "" then [] else ["error: " +:+ Tr_Error t]).

Definition Format (t : option ResolutionTrace) : string :=
  match t with
  | None => ""
  | Some t => Join newline (format_lines t)
  end.

Section trace.
Context `{DL : DnsLib} `{GC : GoCache Msg} `{EM : EbpfMap BPFKey BPFValue} `{GS : GoSort} `{E : !Env}.

Abbreviation MW := (M World).

Section recorder.
Context `{DN : DnsNames} (err_text : RErr → string).

Definition newResolutionTraceRecorder (queryName : string) (qtype : Z) : resolutionTraceRecorder :=
  let queryType := TypeToString qtype in
  let queryType := if String.eqb queryType "" then "UNKNOWN" else queryType in
  mkRecorder queryName queryType [] "" false.

(** [recorder.snapshot(result, err)]; a nil recorder gives a nil trace. *)
Definition recorder_snapshot (r : option resolutionTraceRecorder) (response : option Msg)
    (err : option RErr) : option ResolutionTrace :=
  r ← r;
  Some (mkTrace (tr_queryName r) (tr_queryType r) (tr_states r) (tr_terminal r)
    (match response with
     | Some m => let s := RcodeToString (Rcode (Hdr m)) in if String.eqb s "" then "UNKNOWN" else s
     | None => ""
     end)
    (match err with Some e => err_text e | None => "" end)
    (tr_truncated r)).

(** The request's holder has no client address, so the limiter admits it. *)
Definition TraceDomain (port domain : string) (qtype : Z)
    : MW (option Msg * option ResolutionTrace * option RErr) :=
  let fqdn := Fqdn domain in
  let! t := tick in
  let req := SetQuestion new_Msg fqdn qtype (env_id t) in
  do! modify (λ w, set_holder (Some (newExpensiveRequestHolder None))
    (set_trace (Some (newResolutionTraceRecorder fqdn qtype))
       (set_resp (Some new_Msg) (set_req (Some req) w)))) in
  let! r := Change port in
  let! recorder := gets w_trace in
  ret (r.1, recorder_snapshot recorder r.1 r.2, r.2).

End recorder.

(** ** A trace is a function of what was reported *)

(** The states entered and the exits taken, in the order reported. *)
Definition stages (l : list action) : list string :=
  omap (λ a, match a with AStage s => Some s | _ => None end) l.
Definition exits_taken (l : list action) : list string :=
  omap (λ a, match a with
             | ATransition _ t => if bool_decide (t ∈ StateMachineCanonicalTerminals) then Some t else None
             | _ => None
             end) l.

Definition record_action (r : resolutionTraceRecorder) (a : action) : resolutionTraceRecorder :=
  match a with
  | AStage s => recordState s r
  | ATransition _ t => if bool_decide (t ∈ StateMachineCanonicalTerminals) then recordTerminal t r else r
  | _ => r
  end.

Definition traces_log (w w' : World) : Prop :=
  ∃ l, w_log w' = w_log w ++ l ∧ w_trace w' = (λ r, foldl record_action r l) <$> w_trace w ∧
    Forall (λ s, s ∈ StateMachineCanonicalStates) (stages l).

Lemma state_not_exit st : stateMetricName st ∉ StateMachineCanonicalTerminals.
Proof.
  unfold stateMetricName, StateMachineCanonicalTerminals.
  repeat case_match; apply (bool_decide_unpack _); vm_compute; done.
Qed.

Lemma state_canonical st : stateMetricName st ∈ StateMachineCanonicalStates.
Proof. unfold stateMetricName, StateMachineCanonicalStates. repeat case_match; set_solver. Qed.

Lemma stages_app l1 l2 : stages (l1 ++ l2) = stages l1 ++ stages l2.
Proof. apply omap_app. Qed.

Lemma exits_taken_app l1 l2 : exits_taken (l1 ++ l2) = exits_taken l1 ++ exits_taken l2.
Proof. apply omap_app. Qed.

Lemma exit_is_terminal st exit : exit_of st exit → exit ∈ StateMachineCanonicalTerminals.
Proof. unfold exit_of, exits, StateMachineCanonicalTerminals. set_solver. Qed.

#[export] Instance traces_log_respects : Respects traces_log.
Proof.
  assert (∀ w w', w_log w' = w_log w → w_trace w' = w_trace w → traces_log w w') as Hq.
  { intros w w' Hl Ht. exists []. rewrite app_nil_r. split_and!; [done| |done].
    rewrite Ht. by destruct (w_trace w). }
  split.
  - split; [intros w; by apply Hq|].
    intros w1 w2 w3 (l1 & E1 & T1 & F1) (l2 & E2 & T2 & F2). exists (l1 ++ l2).
    rewrite E2, E1, app_assoc, T2, T1, stages_app. split_and!; [done| |by apply Forall_app].
    destruct (w_trace w1) as [r|]; [|done]. simpl. by rewrite foldl_app.
  - intros w. by apply Hq.
  - intros a _ Ha w. exists [a]. split_and!; [done| |by destruct a]. simpl.
    destruct (w_trace w) as [r|]; [|done]. simpl. destruct a; try done. destruct Ha as [st ->]. simpl.
    by rewrite bool_decide_eq_false_2 by apply state_not_exit.
  - intros st w. exists [AStage (stateMetricName st)]. split_and!; [done|by simpl; destruct (w_trace w)|].
    constructor; [apply state_canonical|done].
  - intros st exit He w. exists [ATransition (stateMetricName st) exit]. split_and!; [done| |done]. simpl.
    destruct (w_trace w); simpl; [|done].
    by rewrite bool_decide_eq_true_2 by (by eapply exit_is_terminal).
  - intros. by apply Hq.
  - intros. by apply Hq.
  - intros. by apply Hq.
  - intros. by apply Hq.
  - intros p q z w. unfold limiter_tryAcquire, bind, tick, stepM. simpl.
    destruct (tryAcquireExpensiveRequest _ _ _ _ _ _ _) as [[ok h] l]. by apply Hq.
Qed.

#[local] Opaque maxTraceStates.

(** Recording a list of actions keeps the first 128 states, the last exit, and
    whether there were more. *)
Lemma record_actions_spec r l :
  Forall (λ s, s ≠ "") (stages l) → (length (tr_states r) ≤ maxTraceStates)%nat →
  let r' := foldl record_action r l in
  tr_queryName r' = tr_queryName r ∧ tr_queryType r' = tr_queryType r ∧
  tr_states r' = take maxTraceStates (tr_states r ++ stages l) ∧
  tr_terminal r' = default (tr_terminal r) (last (exits_taken l)) ∧
  tr_truncated r' = tr_truncated r || bool_decide (maxTraceStates < length (tr_states r ++ stages l))%nat.
Proof.
  revert r. induction l as [|a l IH]; intros r Hs Hr; simpl.
  { rewrite app_nil_r. rewrite take_ge by done.
    rewrite bool_decide_eq_false_2 by lia. by rewrite orb_false_r. }
  assert (∀ a, stages (a :: l) = stages [a] ++ stages l) as Hcons by (intros b; by destruct b).
  rewrite (Hcons a) in Hs. apply Forall_app in Hs as [Ha Hs].
  assert (length (tr_states (record_action r a)) ≤ maxTraceStates)%nat as Hr'.
  { destruct a; simpl; try done.
    - unfold recordState. case_match; [done|]. destruct (Nat.leb_spec maxTraceStates (length (tr_states r)));
        simpl; [done|]. rewrite length_app. simpl. lia.
    - case_match; [|done]. unfold recordTerminal. by case_match. }
  destruct (IH (record_action r a) Hs Hr') as (-> & -> & -> & -> & ->). clear IH Hr'.
  destruct a; simpl; try done.
  - (* a state *)
    inversion_clear Ha as [|? ? Hne _]. unfold recordState.
    destruct (String.eqb_spec state ""); [done|]. simpl.
    change (default ?a (last (exits_taken (AStage state :: l)))) with (default a (last (exits_taken l))).
    destruct (Nat.leb_spec maxTraceStates (length (tr_states r))) as [Hfull|Hroom]; simpl; split_and!; try done.
    + rewrite !take_app_le by lia. done.
    + rewrite bool_decide_eq_true_2 by (rewrite length_app; simpl; lia). by rewrite orb_true_r.
    + by rewrite <-app_assoc.
    + by rewrite <-app_assoc.
  - (* a transition *)
    unfold exits_taken. simpl. fold (exits_taken l).
    destruct (bool_decide (to ∈ StateMachineCanonicalTerminals)) eqn:Et; [|done].
    apply bool_decide_eq_true in Et.
    assert (String.eqb to "" = false) as Hto.
    { apply String.eqb_neq. intros ->. unfold StateMachineCanonicalTerminals in Et. set_solver. }
    unfold recordTerminal. rewrite Hto. simpl. split_and!; try done.
    destruct (last (exits_taken l)) as [e|] eqn:El.
    + rewrite last_cons, El. done.
    + rewrite last_cons, El. done.
Qed.

(** ** Every resolution ends in an exit *)

(** [m] only adds to the log, and if its value is final it has reported an exit. *)
Definition ends {A} (final : A → Prop) (m : MW A) : Prop := ∀ w,
  match m w with
  | (Ok a, w') => ∃ l, w_log w' = w_log w ++ l ∧ (final a → exits_taken l ≠ [])
  | (Panic, _) => True
  end.

Lemma ends_bind {A B} (final : B → Prop) (m : MW A) (k : A → MW B) :
  pres reports_legally m → (∀ a, ends final (k a)) → ends final (bind m k).
Proof.
  intros Hm Hk w. specialize (Hm w). unfold bind. destruct (m w) as [[a|] w1]; [|done].
  destruct Hm as (l1 & E1 & _). specialize (Hk a w1). destruct (k a w1) as [[b|] w2]; [|done].
  destruct Hk as (l2 & E2 & F2). exists (l1 ++ l2). simpl in E1. rewrite E2, E1, app_assoc.
  split; [done|]. intros Hb. rewrite exits_taken_app. intros [_ ?]%app_eq_nil. by apply F2.
Qed.

Lemma ends_terminal {A} (final : A → Prop) st exit (k : unit → MW A) :
  exit ∈ StateMachineCanonicalTerminals → pres reports_legally (k tt) →
  ends final (bind (recordTerminalExit st exit) k).
Proof.
  intros He Hk w. set (w1 := (recordTerminalExit st exit w).2).
  assert (bind (recordTerminalExit st exit) k w = k tt w1) as -> by done. specialize (Hk w1).
  destruct (k tt w1) as [[b|] w2]; [|done]. destruct Hk as (l2 & E2 & _). simpl in E2.
  exists (ATransition (stateMetricName st) exit :: l2). split; [by rewrite E2, <-app_assoc|].
  intros _. unfold exits_taken. simpl. by rewrite bool_decide_eq_true_2.
Qed.

Definition leaves (n : Loop + (option Msg * option RErr)) : Prop :=
  match n with inr _ => True | inl _ => False end.

Lemma ends_goto lp to : ends leaves (goto lp to).
Proof. intros w. eexists [_]. split; [done|]. by intros []. Qed.

Lemma ends_exit_error lp f e : ends leaves (exit_error lp f e).
Proof.
  unfold exit_error. apply ends_bind; [by apply rs_log|]. intros _.
  apply ends_terminal; [unfold StateMachineCanonicalTerminals; set_solver|apply pres_ret, _].
Qed.

Lemma ends_exit_response lp exit :
  exit ∈ StateMachineCanonicalTerminals → ends leaves (exit_response lp exit).
Proof.
  intros He. unfold exit_response. apply ends_terminal; [done|].
  apply pres_bind; [apply _|apply pres_gets, _|]. intros. apply pres_ret, _.
Qed.

Lemma ends_exit_rcode lp exit rc :
  exit ∈ StateMachineCanonicalTerminals → ends leaves (exit_rcode lp exit rc).
Proof.
  intros He. unfold exit_rcode. apply ends_terminal; [done|].
  apply pres_bind; [apply _|apply rs_get_req, _|]. intros. apply pres_ret, _.
Qed.

Lemma ends_handle st h k :
  pres reports_legally h → (∀ r, ends leaves (k r)) → ends leaves (bind (handleState st h) k).
Proof. intros Hh Hk. apply ends_bind; [apply rs_handleState; [apply _|done]|done]. Qed.

Ltac canonical := unfold StateMachineCanonicalTerminals; set_solver.

Ltac ends_walk :=
  repeat first
    [ apply ends_goto
    | apply ends_exit_error
    | apply ends_exit_response; canonical
    | apply ends_exit_rcode; canonical
    | apply ends_bind; [by apply rs_log|intros ?]
    | apply ends_bind; [apply rs_get_req, _|intros ?]
    | apply ends_bind; [apply rs_limiter|intros ?]
    | apply ends_bind; [apply rs_followCNAME, _|intros ?]
    | match goal with
      | |- ends _ (if ?b then _ else _) => destruct b
      | |- ends _ (match ?x with _ => _ end) => destruct x
      end ].

Lemma ends_iterate port depth nested q lp :
  pres reports_legally nested → ends leaves (iterate port depth nested q lp).
Proof.
  intros Hn. unfold iterate. cbv zeta. apply ends_bind; [intros w; by exists []; rewrite app_nil_r|]. intros _.
  apply ends_bind; [intros w; exists [AStage (stateMetricName (lp_state lp))]; split; [done|by constructor]|].
  intros _. apply ends_bind; [apply rs_get_req, _|]. intros _.
  repeat (match goal with |- ends _ (if ?b then _ else _) => destruct b end);
    unfold case_STATE_INIT, case_HOSTS_LOOKUP, case_FORWARD_LOOKUP, case_CACHE_LOOKUP, case_CLASSIFY_RESP,
      case_EXTRACT_GLUE, case_LOOKUP_NS_CACHE, case_QUERY_UPSTREAM, case_RETURN_RESP, exit_wrong_state;
    (apply ends_exit_error || (apply ends_handle; [|intros ?; ends_walk])).
  - apply rs_stateInit, _.
  - apply rs_hostsLookup, _.
  - apply rs_forwardLookup, _.
  - apply rs_cacheLookup, _.
  - apply rs_classifyResp, _.
  - apply rs_extractGlue, _.
  - apply rs_lookupNSCache, _.
  - by apply rs_queryUpstream; [apply _|].
  - apply rs_returnResp, _.
  - apply ends_terminal; [canonical|].
    apply pres_bind; [apply _|apply rs_buildFinalResponse, _|]. intros. apply pres_ret, _.
Qed.

Lemma ends_change_loop port depth nested q n lp :
  pres reports_legally nested → ends (λ _, True) (change_loop port depth nested q n lp).
Proof.
  intros Hn. revert lp. induction n as [|n IH]; intros lp; simpl.
  - apply ends_bind; [by apply rs_log|]. intros _. apply ends_terminal; [canonical|apply pres_ret, _].
  - intros w. unfold bind. pose proof (ends_iterate port depth nested q lp Hn w) as Hi.
    destruct (iterate _ _ _ _ _ w) as [[[lp'|r]|] w1]; [|by destruct Hi as (l & ? & ?); exists l; eauto|done].
    destruct Hi as (l1 & E1 & _). specialize (IH lp' w1).
    destruct (change_loop _ _ _ _ _ _ w1) as [[r|] w2]; [|done]. destruct IH as (l2 & E2 & F2).
    exists (l1 ++ l2). rewrite E2, E1, app_assoc. split; [done|]. intros _. rewrite exits_taken_app.
    intros [_ ?]%app_eq_nil. by apply F2.
Qed.

Lemma ends_Change port : ends (λ _, True) (Change port).
Proof.
  unfold Change, Change_at. apply ends_bind; [apply rs_get_req, _|]. intros rq.
  apply ends_change_loop. unfold Change_nested, Change_at.
  apply pres_bind; [apply _|apply rs_get_req, _|]. intros ?.
  apply rs_change_loop; [apply _|]. apply pres_panic, _.
Qed.

End trace.

Section faithful.
Context `{DLL : DnsLibLaws} `{GCL : GoCacheLaws Msg} `{EML : EbpfMapLaws BPFKey BPFValue}.
Context `{GS : GoSort} `{E : !Env} `{EOK : !EnvOk} `{DN : DnsNames} (err_text : RErr → string).

Lemma last_nonempty {A} (l : list A) (d : A) : l ≠ [] → default d (last l) ∈ l.
Proof.
  intros Hl. destruct (last l) as [x|] eqn:El; [|by apply last_None in El].
  simpl. apply last_Some in El as [l' ->]. set_solver.
Qed.

Lemma exits_taken_canonical l x : x ∈ exits_taken l → x ∈ StateMachineCanonicalTerminals.
Proof.
  unfold exits_taken. intros (a & _ & Ha)%list_elem_of_omap. destruct a; try done.
  destruct (bool_decide _) eqn:Et; [|done]. injection Ha as <-. by apply bool_decide_eq_true in Et.
Qed.

(** C18: a printed trace is faithful.  Tracing a name always completes, with a
    message or an error and a trace.  The trace's states are the states the
    resolution reported, in order, each one of the canonical names, cut after
    128, and marked truncated exactly if there were more; every transition
    reported is one of the table [legal]; and the trace's terminal is the last exit taken,
    one of the six canonical exits. *)
Theorem trace_is_faithful (port domain : string) (qtype : Z) (w : World) :
  shared_ok (w_shared w) →
  ∃ m tr err w' l, TraceDomain err_text port domain qtype w = (Ok (m, Some tr, err), w') ∧
    (is_Some m ↔ err = None) ∧ w_log w' = w_log w ++ l ∧ Forall legal l ∧
    QueryName tr = Fqdn domain ∧ Tr_States tr = take maxTraceStates (stages l) ∧
    Forall (λ s, s ∈ StateMachineCanonicalStates) (Tr_States tr) ∧
    (Tr_Truncated tr = true ↔ (maxTraceStates < length (stages l))%nat) ∧
    last (exits_taken l) = Some (Terminal tr) ∧ Terminal tr ∈ StateMachineCanonicalTerminals.
Proof.
  intros Hw. unfold TraceDomain. unfold bind at 1. cbn [tick stepM].
  pose proof (qd_tick w Hw) as Ht. unfold wp in Ht. cbn [tick stepM] in Ht. destruct Ht as [[Hw1 _] _].
  set (w1 := mkWorld _ _ _ _ _ _ _ _ _) in *. unfold bind at 1, modify.
  set (req := SetQuestion _ _ _ _). set (w2 := set_holder _ _).
  pose proof (Change_ok port w2 req Hw1 eq_refl eq_refl) as Hc. unfold wp in Hc.
  pose proof (Change_respects traces_log port w2) as Hl.
  pose proof (Change_respects reports_legally port w2) as Hg.
  pose proof (ends_Change port w2) as Hx. unfold bind at 1.
  destruct (Change port w2) as [[r|] w3]; [|done]. destruct Hc as (Ho & _). simpl in Hl, Hg.
  destruct Hl as (l & El & Tl & Sl), Hg as (l' & El' & Fl), Hx as (l'' & El'' & Xl).
  assert (l' = l) as -> by (rewrite El in El'; by apply app_inv_head in El').
  assert (l'' = l) as -> by (rewrite El in El''; by apply app_inv_head in El'').
  change (w_trace w2) with (Some (newResolutionTraceRecorder (Fqdn domain) qtype)) in Tl. simpl in Tl.
  destruct (record_actions_spec (newResolutionTraceRecorder (Fqdn domain) qtype) l) as (Q & _ & S & T & U).
  { eapply Forall_impl; [exact Sl|]. intros s Hs ->. unfold StateMachineCanonicalStates in Hs. set_solver. }
  { apply Nat.le_0_l. }
  set (rec := foldl _ _ _) in *. eexists r.1, _, r.2, w3, l. unfold bind, gets, ret, recorder_snapshot.
  rewrite Tl. split; [reflexivity|]. cbn [QueryName Tr_States Tr_Truncated Terminal]. split_and!; try done.
  - destruct r as [[m|] [e|]]; simpl in *; try done; split; by try intros [].
  - rewrite S. cbn. by apply Forall_take.
  - rewrite U. cbn. by rewrite bool_decide_eq_true.
  - rewrite T. destruct (last (exits_taken l)) as [x|] eqn:Ex; [done|]. apply last_None in Ex. by apply Xl in Ex.
  - rewrite T. eapply exits_taken_canonical, last_nonempty. by apply Xl.
Qed.

End faithful.

(** ** The printed form *)

(** Printing loses nothing: if no part contains a line break, the lines of the
    output are the query, one numbered line per state in order, the terminal, the
    code and, if they apply, the truncation note and the error. *)
Lemma Format_lines t :
  Forall (λ s, has_char newline_char s = false) (format_lines t) →
  split_char newline_char (Format (Some t)) = format_lines t.
Proof. intros Hl. apply split_Join; [|done]. done. Qed.

Module TraceWitness.
Import RefWorld.

#[export] Instance names : DnsNames := {
  TypeToString t := if t =? TypeA then "A" else "";
  RcodeToString r := if r =? RcodeSuccess then "NOERROR" else "";
  TypeOfString s := if String.eqb s "A" then Some TypeA else None;
}.

Definition err_text (_ : RErr) : string := "resolution failed".

Lemma trace_is_faithful_witness :
  ∃ m tr err w', TraceDomain err_text "53" "www.example" TypeA (serving fresh query) = (Ok (m, Some tr, err), w') ∧
    QueryName tr = "www.example." ∧ Terminal tr ∈ StateMachineCanonicalTerminals.
Proof.
  destruct (trace_is_faithful err_text "53" "www.example" TypeA (serving fresh query) fresh_ok)
    as (m & tr & err & w' & l & HT & _ & _ & _ & Hq & _ & _ & _ & _ & Ht).
  exists m, tr, err, w'. split; [exact HT|]. split; [rewrite Hq; reflexivity|exact Ht].
Defined.

(** What that command prints. *)
Example trace_prints :
  match (TraceDomain err_text "53" "www.example" TypeA (serving fresh query)).1 with
  | Ok (_, tr, _) => split_char newline_char (Format tr) =
      ["query: www.example. A"; "states:"; "  1. state_init"; "  2. hosts_lookup"; "  3. forward_lookup";
       "  4. cache_lookup"; "  5. extract_glue"; "  6. lookup_ns_cache"; "  7. query_upstream";
       "  8. classify_resp"; "  9. return_resp"; "terminal: success_exit"; "rcode: NOERROR"]
  | Panic => False
  end.
Proof. vm_compute. reflexivity. Qed.

End TraceWitness.
