(* ===== verification/Config.v ===== *)
(** * Configuration (cmd/rec53.go, cmd/loglevel.go)

    Loading the YAML configuration with its defaults, the command-line flags that
    override it, and the validation that runs before anything is started.  The
    YAML decoder and the file system are parameters, and so is
    [net.ResolveTCPAddr], which may ask the host's resolver. *)

From S2P Require Import Prelude GoLib GoText NetIP Dns External Cache HostsForward HotZone.
From S2P Require Import Float64 Limiter Snapshot Gate World Trace Warmup.

(** ** The configuration *)

Record XDPConfig := mkXDPConfig {
  xdp_Enabled : bool;
  xdp_Interface : string;
}.

Record DebugConfig := mkDebugConfig {
  PprofEnabled : bool;
  PprofListen : string;
  ExpensiveRequestLimitObserveWouldRefuse : bool;
}.

Record DNSConfig := mkDNSConfig {
  Listen : string;
  Metric : string;
  LogLevel : string;
  UpstreamTimeout : Z;
  UpstreamConcurrencyLimit : Z;
  ExpensiveRequestLimitMode : string;
  ExpensiveRequestLimit : Z;
  HotZoneBaseSuffixes : list string;
  Listeners : Z;
}.

Record Config := mkConfig {
  cfg_DNS : DNSConfig;
  cfg_Warmup : WarmupConfig;
  cfg_Snapshot : SnapshotConfig;
  cfg_Hosts : list HostEntry;
  cfg_Forwarding : list ForwardZone;
  cfg_XDP : XDPConfig;
  cfg_Debug : DebugConfig;
}.

(** Every error message of the package, with what it mentions. *)
Inductive ConfigErr :=
| EConfigRequired
| EConfigNotFound (path : string)
| EConfigRead (path err : string)
| EConfigParse (err : string)
| ENilConfig
| EListenEmpty
| EMetricEmpty
| EAddress (field addr err : string)
| EMetricPort (addr : string)
| EMetricPortRange (port : Z)
| ELogLevel
| EWarmupTimeout (d : Z)
| EUpstreamTimeout (d : Z)
| EUpstreamLimit (n : Z)
| ELimitMode
| ELimit (n : Z)
| EListeners (n : Z)
| EHostName (i : nat)
| EHostValue (i : nat) (name : string)
| EHostIPv4 (i : nat) (name value : string)
| EHostIPv6 (i : nat) (name value : string)
| EHostType (i : nat) (name type : string)
| EZoneName (i : nat)
| EZoneUpstreams (i : nat) (zone : string)
| EUpstreamAddr (i : nat) (zone : string) (j : nat) (addr : string) (e : AddrErr)
| EXDPInterface
| EPprofListen.

(** [if cond { return err }; rest] *)
Definition fail_if (cond : bool) (e : ConfigErr) (rest : option ConfigErr) : option ConfigErr :=
  if cond then Some e else rest.

(** [if err := check; err != nil { return err }; rest] *)
Definition and_then (check rest : option ConfigErr) : option ConfigErr :=
  match check with Some e => Some e | None => rest end.

Definition is_blank (s : string) : bool := String.eqb (TrimSpace s) "".

(** ** Loading *)

Inductive FileRead := ReadOk (data : string) | ReadNotExist | ReadError (err : string).

Definition set_Warmup (c : Config) (w : WarmupConfig) : Config :=
  mkConfig (cfg_DNS c) w (cfg_Snapshot c) (cfg_Hosts c) (cfg_Forwarding c) (cfg_XDP c) (cfg_Debug c).
Definition set_DNS (c : Config) (d : DNSConfig) : Config :=
  mkConfig d (cfg_Warmup c) (cfg_Snapshot c) (cfg_Hosts c) (cfg_Forwarding c) (cfg_XDP c) (cfg_Debug c).
Definition set_Debug (c : Config) (d : DebugConfig) : Config :=
  mkConfig (cfg_DNS c) (cfg_Warmup c) (cfg_Snapshot c) (cfg_Hosts c) (cfg_Forwarding c) (cfg_XDP c) d.

(** The defaults [loadConfig] fills in. *)
Definition apply_defaults (numCPU : Z) (cfg : Config) : Config :=
  let w := cfg_Warmup cfg in
  let concurrency :=
    if wc_Concurrency w =? 0 then wc_Concurrency (DefaultWarmupConfig numCPU) else wc_Concurrency w in
  let d := cfg_Debug cfg in
  let cfg := set_Warmup cfg
    (mkWarmupConfig (wc_Enabled w) (wc_Timeout w) (wc_Duration w) concurrency (LoadTLDList (wc_TLDs w))) in
  if String.eqb (PprofListen d) "" then
    set_Debug cfg (mkDebugConfig (PprofEnabled d) "127.0.0.1:6060" (ExpensiveRequestLimitObserveWouldRefuse d))
  else cfg.

Definition loadConfig (ReadFile : string → FileRead) (Unmarshal : string → Config + string)
    (numCPU : Z) (configPath : string) : Config + ConfigErr :=
  if String.eqb configPath "" then inr EConfigRequired
  else
    match ReadFile configPath with
    | ReadNotExist => inr (EConfigNotFound configPath)
    | ReadError e => inr (EConfigRead configPath e)
    | ReadOk data =>
        match Unmarshal data with
        | inr e => inr (EConfigParse e)
        | inl cfg => inl (apply_defaults numCPU cfg)
        end
    end.

(** The flags of [main] that change the configuration. *)
Record Flags := mkFlags {
  noWarmup : bool;
  listenAddr : string;
  metricAddr : string;
  logLevel : string;
}.

Definition default_flags : Flags := mkFlags false "127.0.0.1:5533" ":9999" "info".

Definition override (value default old : string) : string :=
  if negb (String.eqb value "") && negb (String.eqb value default) then value else old.

Definition apply_flags (f : Flags) (cfg : Config) : Config :=
  let d := cfg_DNS cfg in
  let cfg := set_DNS cfg (mkDNSConfig
    (override (listenAddr f) "127.0.0.1:5533" (Listen d))
    (override (metricAddr f) ":9999" (Metric d))
    (override (logLevel f) "info" (LogLevel d))
    (UpstreamTimeout d) (UpstreamConcurrencyLimit d) (ExpensiveRequestLimitMode d)
    (ExpensiveRequestLimit d) (HotZoneBaseSuffixes d) (Listeners d)) in
  if noWarmup f then
    let w := cfg_Warmup cfg in
    set_Warmup cfg (mkWarmupConfig false (wc_Timeout w) (wc_Duration w) (wc_Concurrency w) (wc_TLDs w))
  else cfg.

(** ** Log levels *)

Inductive Level := DebugLevel | InfoLevel | WarnLevel | ErrorLevel.

Definition parseLogLevel (level : string) : Level :=
  let l := ToLower level in
  if String.eqb l "debug" then DebugLevel
  else if String.eqb l "info" then InfoLevel
  else if String.eqb l "warn" then WarnLevel
  else if String.eqb l "error" then ErrorLevel
  else InfoLevel.

Definition isValidLogLevel (level : string) : bool :=
  let l := ToLower (TrimSpace level) in
  String.eqb l "debug" || String.eqb l "info" || String.eqb l "warn" || String.eqb l "error" ||
  String.eqb l "".

(** ** Validation *)

Fixpoint validateHosts_from (i : nat) (hosts : list HostEntry) : option ConfigErr :=
  match hosts with
  | [] => None
  | h :: hosts' =>
      fail_if (is_blank (he_Name h)) (EHostName i)
        (fail_if (is_blank (he_Value h)) (EHostValue i (he_Name h))
           (and_then
              (let t := ToUpper (he_Type h) in
               if String.eqb t "A" then
                 match ParseIP (he_Value h) ≫= To4 with
                 | None => Some (EHostIPv4 i (he_Name h) (he_Value h))
                 | Some _ => None
                 end
               else if String.eqb t "AAAA" then
                 match ParseIP (he_Value h) with
                 | None => Some (EHostIPv6 i (he_Name h) (he_Value h))
                 | Some ip =>
                     match To4 ip with
                     | Some _ => Some (EHostIPv6 i (he_Name h) (he_Value h))
                     | None => None
                     end
                 end
               else if String.eqb t "CNAME" then None
               else Some (EHostType i (he_Name h) (he_Type h)))
              (validateHosts_from (S i) hosts')))
  end.
Definition validateHostsConfig (hosts : list HostEntry) : option ConfigErr := validateHosts_from 0 hosts.

Fixpoint validateUpstreams_from (i : nat) (zone : string) (j : nat) (ups : list string) : option ConfigErr :=
  match ups with
  | [] => None
  | up :: ups' =>
      match SplitHostPort up with
      | inr e => Some (EUpstreamAddr i zone j up e)
      | inl _ => validateUpstreams_from i zone (S j) ups'
      end
  end.

Fixpoint validateForwarding_from (i : nat) (zones : list ForwardZone) : option ConfigErr :=
  match zones with
  | [] => None
  | z :: zones' =>
      fail_if (is_blank (fz_Zone z)) (EZoneName i)
        (fail_if (length (fz_Upstreams z) =? 0)%nat (EZoneUpstreams i (fz_Zone z))
           (and_then (validateUpstreams_from i (fz_Zone z) 0 (fz_Upstreams z))
              (validateForwarding_from (S i) zones')))
  end.
Definition validateForwardingConfig (zones : list ForwardZone) : option ConfigErr :=
  validateForwarding_from 0 zones.

Section validate.
(** [net.ResolveTCPAddr("tcp", addr)]: the error, if any. *)
Context (ResolveTCPAddr : string → option string).

Definition validateTCPAddress (fieldName addr : string) : option ConfigErr :=
  EAddress fieldName addr <$> ResolveTCPAddr addr.

Definition validateMetricAddress (addr : string) : option ConfigErr :=
  let metricStr := TrimSpace addr in
  if HasPrefix metricStr ":" then
    match Atoi (str_drop 1 metricStr) with
    | None => Some (EMetricPort addr)
    | Some port => fail_if ((port <? 1) || (65535 <? port)) (EMetricPortRange port) None
    end
  else validateTCPAddress "dns.metric" addr.

Definition validateConfig (cfg : option Config) : option ConfigErr :=
  match cfg with
  | None => Some ENilConfig
  | Some cfg =>
      let d := cfg_DNS cfg in
      fail_if (is_blank (Listen d)) EListenEmpty
      (fail_if (is_blank (Metric d)) EMetricEmpty
      (and_then (validateTCPAddress "dns.listen" (Listen d))
      (and_then (validateMetricAddress (Metric d))
      (fail_if (negb (isValidLogLevel (LogLevel d))) ELogLevel
      (fail_if ((0 <? wc_Timeout (cfg_Warmup cfg)) && (wc_Timeout (cfg_Warmup cfg) <? 100 * Millisecond))
         (EWarmupTimeout (wc_Timeout (cfg_Warmup cfg)))
      (fail_if ((0 <? UpstreamTimeout d) && (UpstreamTimeout d <? 100 * Millisecond))
         (EUpstreamTimeout (UpstreamTimeout d))
      (fail_if (UpstreamConcurrencyLimit d <? 0) (EUpstreamLimit (UpstreamConcurrencyLimit d))
      (fail_if (negb (String.eqb (ExpensiveRequestLimitMode d) "") &&
                negb (String.eqb (ExpensiveRequestLimitMode d) ExpensiveRequestLimitModeDisabled) &&
                negb (String.eqb (ExpensiveRequestLimitMode d) ExpensiveRequestLimitModeEnabled)) ELimitMode
      (fail_if (ExpensiveRequestLimit d <? 0) (ELimit (ExpensiveRequestLimit d))
      (fail_if (Listeners d <? 0) (EListeners (Listeners d))
      (and_then (validateHostsConfig (cfg_Hosts cfg))
      (and_then (validateForwardingConfig (cfg_Forwarding cfg))
      (fail_if (xdp_Enabled (cfg_XDP cfg) && is_blank (xdp_Interface (cfg_XDP cfg))) EXDPInterface
      (if PprofEnabled (cfg_Debug cfg) then
         fail_if (is_blank (PprofListen (cfg_Debug cfg))) EPprofListen
           (validateTCPAddress "debug.pprof_listen" (PprofListen (cfg_Debug cfg)))
       else None))))))))))))))
  end.
End validate.

(** [parseTraceQType] *)
Definition parseTraceQType `{DnsNames} (value : string) : option Z :=
  let qtype := ToUpper (TrimSpace value) in
  let qtype := if String.eqb qtype "" then "A" else qtype in
  TypeOfString qtype.

(** The limiter's configuration [main] builds from a configuration. *)
Definition limit_config (cfg : Config) : ExpensiveRequestLimitConfig :=
  let d := cfg_DNS cfg in
  mkLimitConfig (ExpensiveRequestLimitMode d) (ExpensiveRequestLimit d) (HotZoneBaseSuffixes d)
    (ExpensiveRequestLimitObserveWouldRefuse (cfg_Debug cfg)).

(** ** What validation guarantees *)

Lemma fail_if_None b e r : fail_if b e r = None ↔ b = false ∧ r = None.
Proof. unfold fail_if. destruct b; naive_solver. Qed.

Lemma and_then_None c r : and_then c r = None ↔ c = None ∧ r = None.
Proof. unfold and_then. destruct c; naive_solver. Qed.

(** A host entry that can be served: its record has a proper address. *)
Definition host_ok (h : HostEntry) : Prop :=
  is_blank (he_Name h) = false ∧
  (ToUpper (he_Type h) = "A" ∧ is_Some (ParseIP (he_Value h) ≫= To4) ∨
   ToUpper (he_Type h) = "AAAA" ∧ (∃ ip, ParseIP (he_Value h) = Some ip ∧ To4 ip = None) ∨
   ToUpper (he_Type h) = "CNAME" ∧ is_blank (he_Value h) = false).

Lemma validateHosts_sound i hosts : validateHosts_from i hosts = None → Forall host_ok hosts.
Proof.
  revert i. induction hosts as [|h hosts IH]; intros i Hv; [constructor|]. simpl in Hv.
  apply fail_if_None in Hv as [Hn [Hb [Ht Hr]%and_then_None]%fail_if_None].
  constructor; [|by eapply IH]. split; [done|]. cbv zeta in Ht.
  destruct (String.eqb_spec (ToUpper (he_Type h)) "A") as [EA|_].
  { left. split; [done|]. destruct (ParseIP (he_Value h) ≫= To4); [by eexists|done]. }
  destruct (String.eqb_spec (ToUpper (he_Type h)) "AAAA") as [EA|_].
  { right. left. split; [done|]. destruct (ParseIP (he_Value h)) as [ip|]; [|done].
    exists ip. by destruct (To4 ip). }
  destruct (String.eqb_spec (ToUpper (he_Type h)) "CNAME") as [EA|_]; [|done]. right. by right.
Qed.

Lemma validateUpstreams_sound i zone j ups :
  validateUpstreams_from i zone j ups = None → Forall (λ up, ∃ hp, SplitHostPort up = inl hp) ups.
Proof.
  revert j. induction ups as [|up ups IH]; intros j Hv; [constructor|]. simpl in Hv.
  destruct (SplitHostPort up) as [hp|e] eqn:Es; [|done]. constructor; [by exists hp|by eapply IH].
Qed.

Definition zone_ok (z : ForwardZone) : Prop :=
  is_blank (fz_Zone z) = false ∧ fz_Upstreams z ≠ [] ∧
  Forall (λ up, ∃ hp, SplitHostPort up = inl hp) (fz_Upstreams z).

Lemma validateForwarding_sound i zones : validateForwarding_from i zones = None → Forall zone_ok zones.
Proof.
  revert i. induction zones as [|z zones IH]; intros i Hv; [constructor|]. simpl in Hv.
  apply fail_if_None in Hv as [Hn [Hb [Ht Hr]%and_then_None]%fail_if_None].
  constructor; [|by eapply IH]. split_and!; [done| |by eapply validateUpstreams_sound].
  intros Ez. by rewrite Ez in Hb.
Qed.

(** ** From a valid configuration to the components *)
Section usable.
Context `{DL : DnsLib} `{GS : GoSort} `{GSL : !GoSortLaws}.

(** The address of a record is one a client can use. *)
Definition address_ok (rr : RR) : Prop :=
  match rr with
  | RR_A _ ip => length ip = 4%nat
  | RR_AAAA _ ip => length ip = 16%nat ∧ To4 ip = None
  | _ => True
  end.

Lemma host_ok_builds fqdn h :
  host_ok h → ∃ rr, buildHostRR fqdn (he_Type h) (he_Value h) (host_ttl h) = Some rr ∧ address_ok rr.
Proof.
  intros [_ Ht]. unfold buildHostRR. destruct Ht as [[-> [v4 Hv]]|[[-> (ip & Hip & H4)]|[-> _]]]; simpl.
  - eexists. split; [done|]. simpl. rewrite Hv. simpl. destruct (ParseIP (he_Value h)) as [ip|]; [|done].
    by apply To4_length in Hv.
  - eexists. split; [done|]. simpl. rewrite Hip. simpl. by apply ParseIP_length in Hip.
  - by eexists.
Qed.

(** The entry's record is among the compiled answers. *)
Lemma host_served hosts h :
  h ∈ hosts → host_ok h →
  ∃ rr m, buildHostRR (Fqdn (he_Name h)) (he_Type h) (he_Value h) (host_ttl h) = Some rr ∧ address_ok rr ∧
    (compileHostsEntries hosts).1 !! getCacheKey (Fqdn (he_Name h)) (Hdr_Rrtype (Header rr)) = Some m ∧
    rr ∈ Answer m ∧ Authoritative (Hdr m) = true.
Proof.
  intros Hin Hok. destruct (host_ok_builds (Fqdn (he_Name h)) h Hok) as (rr & Hb & Ha).
  destruct (buildHostRR_type _ _ _ _ _ Hb) as (Hr & Ht & _).
  assert (rr ∈ host_records hosts (Fqdn (he_Name h)) (Hdr_Rrtype (Header rr))) as Hrr.
  { apply list_elem_of_omap. exists h. split; [done|]. unfold host_record.
    by rewrite String.eqb_refl, Ht, Z.eqb_refl. }
  destruct (compiled_hosts hosts (Fqdn (he_Name h)) (Hdr_Rrtype (Header rr))) as [Hc _]; [by rewrite Ht|].
  destruct (host_records hosts _ _) as [|r0 rs] eqn:Er; [by apply not_elem_of_nil in Hrr|].
  eexists rr, _. split_and!; [done|done|by rewrite Hc|done|done].
Qed.

Lemma sorted_zones_ok zones z :
  Forall zone_ok zones → z ∈ sortForwardZones zones →
  fz_Upstreams z ≠ [] ∧ Forall (λ up, ∃ hp, SplitHostPort up = inl hp) (fz_Upstreams z).
Proof.
  intros Hz Hin. assert (z ∈ (λ z, mkForwardZone (Fqdn (fz_Zone z)) (fz_Upstreams z)) <$> zones) as Hm.
  { unfold sortForwardZones in Hin. destruct zones as [|z0 zs]; [done|]. by rewrite sort_Slice_perm in Hin. }
  apply list_elem_of_fmap in Hm as (z0 & -> & H0). rewrite Forall_forall in Hz.
  by destruct (Hz z0 H0) as (_ & ? & ?).
Qed.

Lemma limiter_config_ok numCPU cfg :
  (ExpensiveRequestLimitMode (cfg_DNS cfg) = "" ∨
   ExpensiveRequestLimitMode (cfg_DNS cfg) = ExpensiveRequestLimitModeDisabled ∨
   ExpensiveRequestLimitMode (cfg_DNS cfg) = ExpensiveRequestLimitModeEnabled) →
  match newExpensiveRequestLimiter numCPU (limit_config cfg) with
  | Some l => ExpensiveRequestLimitMode (cfg_DNS cfg) = ExpensiveRequestLimitModeEnabled ∧ 1 ≤ lim_limit l ∧
      (0 < ExpensiveRequestLimit (cfg_DNS cfg) → lim_limit l = ExpensiveRequestLimit (cfg_DNS cfg))
  | None => ExpensiveRequestLimitMode (cfg_DNS cfg) ≠ ExpensiveRequestLimitModeEnabled
  end.
Proof.
  intros Hm. unfold newExpensiveRequestLimiter, normalizeExpensiveRequestLimitConfig, limit_config. simpl.
  destruct Hm as [->|[->| ->]]; simpl; [done|done|]. split_and!; [done|..].
  - destruct (Z.leb_spec (ExpensiveRequestLimit (cfg_DNS cfg)) 0); [|lia]. destruct (Z.ltb_spec numCPU 1); lia.
  - destruct (Z.leb_spec (ExpensiveRequestLimit (cfg_DNS cfg)) 0); lia.
Qed.

(** C22: a configuration that passes validation can be served.  Every host entry
    compiles to a record with a usable address (four bytes for A, a genuine IPv6
    address for AAAA), which is among the authoritative answers for its name and
    type; every forwarding zone has upstreams, all with a host and a port; the
    upstream gate admits at least one query, as many as configured if a limit is
    set; the per-client limiter exists exactly when the mode is "enabled", with
    a positive limit; no timeout is positive and below 100ms. *)
Theorem validated_config_usable (ResolveTCPAddr : string → option string) (numCPU : Z) (cfg : Config) :
  validateConfig ResolveTCPAddr (Some cfg) = None →
  (∀ h, h ∈ cfg_Hosts cfg → ∃ rr m,
     buildHostRR (Fqdn (he_Name h)) (he_Type h) (he_Value h) (host_ttl h) = Some rr ∧ address_ok rr ∧
     (compileHostsEntries (cfg_Hosts cfg)).1 !! getCacheKey (Fqdn (he_Name h)) (Hdr_Rrtype (Header rr)) = Some m ∧
     rr ∈ Answer m ∧ Authoritative (Hdr m) = true) ∧
  (∀ z, z ∈ sortForwardZones (cfg_Forwarding cfg) →
     fz_Upstreams z ≠ [] ∧ Forall (λ up, ∃ hp, SplitHostPort up = inl hp) (fz_Upstreams z)) ∧
  (let g := newUpstreamConcurrencyGate numCPU (UpstreamConcurrencyLimit (cfg_DNS cfg)) in
   1 ≤ getLimit g ∧
   (0 < UpstreamConcurrencyLimit (cfg_DNS cfg) → getLimit g = UpstreamConcurrencyLimit (cfg_DNS cfg))) ∧
  match newExpensiveRequestLimiter numCPU (limit_config cfg) with
  | Some l => ExpensiveRequestLimitMode (cfg_DNS cfg) = ExpensiveRequestLimitModeEnabled ∧ 1 ≤ lim_limit l ∧
      (0 < ExpensiveRequestLimit (cfg_DNS cfg) → lim_limit l = ExpensiveRequestLimit (cfg_DNS cfg))
  | None => ExpensiveRequestLimitMode (cfg_DNS cfg) ≠ ExpensiveRequestLimitModeEnabled
  end ∧
  (UpstreamTimeout (cfg_DNS cfg) ≤ 0 ∨ 100 * Millisecond ≤ UpstreamTimeout (cfg_DNS cfg)).
Proof.
  unfold validateConfig. cbv zeta. rewrite !fail_if_None, !and_then_None, !fail_if_None, !and_then_None, !fail_if_None.
  intros (_ & _ & _ & _ & _ & _ & Hut & Hul & Hmode & _ & _ & Hh & Hf & _).
  apply validateHosts_sound in Hh. apply validateForwarding_sound in Hf. rewrite Forall_forall in Hh.
  split_and!.
  - intros h Hin. by apply host_served, Hh.
  - intros z. by apply sorted_zones_ok.
  - unfold getLimit, newUpstreamConcurrencyGate, setLimit, normalizeUpstreamConcurrencyLimit. simpl.
    case_match; bool_prop; lia.
  - unfold getLimit, newUpstreamConcurrencyGate, setLimit, normalizeUpstreamConcurrencyLimit. simpl.
    intros. destruct (Z.leb_spec (UpstreamConcurrencyLimit (cfg_DNS cfg)) 0); [lia|]. case_match; bool_prop; lia.
  - apply limiter_config_ok. destruct (String.eqb_spec (ExpensiveRequestLimitMode (cfg_DNS cfg)) ""); [by left|].
    destruct (String.eqb_spec (ExpensiveRequestLimitMode (cfg_DNS cfg)) ExpensiveRequestLimitModeDisabled); [by right; left|].
    destruct (String.eqb_spec (ExpensiveRequestLimitMode (cfg_DNS cfg)) ExpensiveRequestLimitModeEnabled); [by right; right|done].
  - destruct (Z.ltb_spec 0 (UpstreamTimeout (cfg_DNS cfg))); [|by left]. simpl in Hut. bool_prop. by right.
Qed.

End usable.

(** ** Where validation and use disagree *)

Definition with_concurrency (n : Z) (cfg : Config) : Config :=
  let w := cfg_Warmup cfg in
  set_Warmup cfg (mkWarmupConfig (wc_Enabled w) (wc_Timeout w) (wc_Duration w) n (wc_TLDs w)).

Definition level_name (l : Level) : string :=
  match l with DebugLevel => "debug" | InfoLevel => "info" | WarnLevel => "warn" | ErrorLevel => "error" end.

(** Without surrounding white space an accepted level is the one that is set. *)
Lemma log_level_respected level :
  isValidLogLevel level = true → TrimSpace level = level → level ≠ "" →
  ToLower level = level_name (parseLogLevel level).
Proof.
  unfold isValidLogLevel, parseLogLevel. intros Hv Ht Hne. rewrite Ht in Hv.
  destruct (String.eqb_spec (ToLower level) "debug"); [done|].
  destruct (String.eqb_spec (ToLower level) "info"); [done|].
  destruct (String.eqb_spec (ToLower level) "warn"); [done|].
  destruct (String.eqb_spec (ToLower level) "error"); [done|].
  destruct (String.eqb_spec (ToLower level) "") as [E|]; [|done]. by destruct level.
Qed.

(** C39: what validation lets through.  The warm-up's concurrency is not looked at,
    and a negative one, even with every other field valid, panics when the
    warm-up makes its semaphore.  A log level padded with white space is accepted
    but not recognised, so " debug" logs at "info"; every accepted level without
    padding is the level set.  A flag given explicitly with its default value
    does not override the configuration file. *)
Theorem validation_gaps `{DnsLib} (ResolveTCPAddr : string → option string) (cfg : Config) :
  (∀ n, validateConfig ResolveTCPAddr (Some (with_concurrency n cfg)) = validateConfig ResolveTCPAddr (Some cfg)) ∧
  (∀ n, (n <? 0) = true ↔ warm_start (cfg_Warmup (with_concurrency n cfg)) = None) ∧
  (isValidLogLevel " debug" = true ∧ parseLogLevel " debug" = InfoLevel) ∧
  (∀ level, isValidLogLevel level = true → TrimSpace level = level → level ≠ "" →
     ToLower level = level_name (parseLogLevel level)) ∧
  Listen (cfg_DNS (apply_flags default_flags cfg)) = Listen (cfg_DNS cfg) ∧
  listenAddr default_flags = "127.0.0.1:5533".
Proof.
  split_and!; try done.
  - intros n. unfold warm_start. simpl. by destruct (n <? 0).
  - apply log_level_respected.
Qed.

Module ConfigWitness.
Import RefDns RefSort.
#[export] Existing Instance RefDns.lib.
#[export] Existing Instance RefSort.lib.
#[export] Existing Instance RefSort.laws.

Definition no_resolver (_ : string) : option string := None.

Definition sample : Config := mkConfig
  (mkDNSConfig "127.0.0.1:5533" ":9999" "info" 0 8 "enabled" 4 [] 2)
  (mkWarmupConfig true (5 * Second) (5 * Second) 0 [])
  (mkSnapshotConfig false "")
  [mkHostEntry "db.lan" "a" "10.0.0.1" 0; mkHostEntry "v6.lan" "AAAA" "2001:db8::1" 5]
  [mkForwardZone "corp.example" ["10.0.0.2:53"; "[2001:db8::2]:53"]]
  (mkXDPConfig false "") (mkDebugConfig false "" false).

Lemma validated_config_usable_witness :
  getLimit (newUpstreamConcurrencyGate 4 (UpstreamConcurrencyLimit (cfg_DNS sample))) = 8 ∧
  ∃ rr m, buildHostRR "db.lan." "a" "10.0.0.1" 60 = Some rr ∧
    (compileHostsEntries (cfg_Hosts sample)).1 !! getCacheKey "db.lan." (Hdr_Rrtype (Header rr)) = Some m ∧
    rr ∈ Answer m.
Proof.
  destruct (validated_config_usable no_resolver 4 sample) as (Hh & _ & [_ Hg] & _); [vm_compute; reflexivity|].
  split; [apply Hg; vm_compute; reflexivity|].
  destruct (Hh (mkHostEntry "db.lan" "a" "10.0.0.1" 0)) as (rr & m & Hb & _ & Hm & Hr & _); [left|].
  exists rr, m. split; [exact Hb|]. split; [exact Hm|exact Hr].
Defined.

(** The errors of a few broken configurations. *)
Example validation_errors :
  validateHostsConfig [mkHostEntry "a" "A" "2001:db8::1" 0] = Some (EHostIPv4 0 "a" "2001:db8::1") ∧
  validateHostsConfig [mkHostEntry "a" "A" "1.2.3.4" 0; mkHostEntry "b" "MX" "x" 0] = Some (EHostType 1 "b" "MX") ∧
  validateForwardingConfig [mkForwardZone "z" ["10.0.0.1"]] = Some (EUpstreamAddr 0 "z" 0 "10.0.0.1" MissingPort) ∧
  validateMetricAddress no_resolver ":70000" = Some (EMetricPortRange 70000) ∧
  validateConfig no_resolver (Some (set_DNS sample (mkDNSConfig " " ":9999" "" 0 0 "" 0 [] 0))) = Some EListenEmpty.
Proof. vm_compute. split_and!; reflexivity. Qed.

End ConfigWitness.
