(* ===== verification/Boot.v ===== *)
(** * Starting and stopping the server (server/server.go, server/xdp_loader.go)

    The constructors of [server], [Run] and [Shutdown], and the loader of the XDP
    program they drive.  What the kernel, the listeners and the file system do is
    an input ([XdpEnv], [BootEnv]); the kernel's open handles, the runtime state,
    the published hosts, the snapshot file and the order of the steps are state. *)

From S2P Require Import Prelude GoLib GoText Runtime Float64 NetIP Dns External Cache Snapshot.
From S2P Require Import RateLog HostsForward IPQuality IPPool HotZone Limiter Warmup.

(** ** server/xdp_loader.go *)
Module Xdp.

(** Handles the process holds in the kernel: eBPF objects and XDP links. *)
Record Kernel := mkKernel {
  open_objs : Z;
  open_links : Z;
}.

(** Errors of the calls of the eBPF library, in the order they are made. *)
Record XdpEnv := mkXdpEnv {
  load_err : option string;
  iface_err : option string;
  native_err : option string;
  generic_err : option string;
  link_close_err : option string;
  objs_close_err : option string;
  attach_perm : bool;   (* the attach error is EPERM or EACCES *)
}.

(** [%q] of a name without special characters. *)
Definition quoted (s : string) : string :=
  let q := String (Ascii.ascii_of_N 34) "" in q +:+ s +:+ q.


Record XDPLoader := mkLoader {
  xl_iface : string;
  xl_objs : bool;   (* non-nil *)
  xl_link : bool;
}.

Definition NewXDPLoader (iface : string) : XDPLoader := mkLoader iface false false.

Definition LoadAndAttach (env : XdpEnv) (l : XDPLoader) (k : Kernel) : option string * XDPLoader * Kernel :=
  match load_err env with
  | Some e => (Some ("[XDP] failed to load eBPF objects: " +:+ e), l, k)
  | None =>
      let k := mkKernel (open_objs k + 1) (open_links k) in
      (* the deferred Close of the objects *)
      let cleanup := mkKernel (open_objs k - 1) (open_links k) in
      match iface_err env with
      | Some e => (Some ("[XDP] interface " +:+ quoted (xl_iface l) +:+ " not found: " +:+ e), l, cleanup)
      | None =>
          match native_err env with
          | None => (None, mkLoader (xl_iface l) true true, mkKernel (open_objs k) (open_links k + 1))
          | Some nativeErr =>
              match generic_err env with
              | Some e => (Some ("[XDP] failed to attach to " +:+ xl_iface l +:+ " (native: " +:+ nativeErr
                            +:+ ", generic: " +:+ e +:+ ")"), l, cleanup)
              | None => (None, mkLoader (xl_iface l) true true, mkKernel (open_objs k) (open_links k + 1))
              end
          end
      end
  end.

(** [CacheMap]: whether there is a map to hand out. *)
Definition CacheMap (l : XDPLoader) : bool := xl_objs l.

Definition Close (env : XdpEnv) (l : XDPLoader) (k : Kernel) : list string * XDPLoader * Kernel :=
  let '(errs, l, k) :=
    if xl_link l then
      (option_list ((λ e, "detach XDP link: " +:+ e) <$> link_close_err env),
       mkLoader (xl_iface l) (xl_objs l) false, mkKernel (open_objs k) (open_links k - 1))
    else ([], l, k) in
  if xl_objs l then
    (errs ++ option_list ((λ e, "close eBPF objects: " +:+ e) <$> objs_close_err env),
     mkLoader (xl_iface l) false (xl_link l), mkKernel (open_objs k - 1) (open_links k))
  else (errs, l, k).

(** [classifyXDPError]; [perm] is [errors.Is(err, EPERM) || errors.Is(err, EACCES)]. *)
Definition classifyXDPError (err : option string) (perm : bool) : string :=
  match err with
  | None => ""
  | Some s =>
      if perm || Contains s "permission denied" || Contains s "operation not permitted" then
        "hint: run as root or grant CAP_BPF+CAP_NET_ADMIN capabilities"
      else if Contains s "interface" && Contains s "not found" then
        "hint: verify xdp.interface in config matches an existing network interface (ip link show)"
      else if Contains s "failed to load eBPF objects" then
        "hint: requires Linux kernel >= 5.15 with CONFIG_BPF=y and CONFIG_XDP_SOCKETS=y"
      else if Contains s "failed to attach" then
        "hint: the network interface driver may not support XDP; check dmesg for details"
      else "hint: see error details above; check kernel version, capabilities, and interface name"
  end.

(** What a loader has open. *)
Definition owns (l : XDPLoader) (k0 k : Kernel) : Prop :=
  open_objs k = open_objs k0 + Z.b2z (xl_objs l) ∧ open_links k = open_links k0 + Z.b2z (xl_link l).

Lemma LoadAndAttach_owns env iface k :
  let '(err, l, k') := LoadAndAttach env (NewXDPLoader iface) k in
  owns l k k' ∧ CacheMap l = match err with None => true | Some _ => false end ∧
  (is_Some err → k' = k ∧ l = NewXDPLoader iface).
Proof.
  destruct k as [o n]. unfold LoadAndAttach, owns.
  repeat case_match; simplify_eq/=; split_and!; try done; try lia; try (by intros []);
    intros _; split; try done; f_equal; lia.
Qed.

Lemma Close_owns env l k0 k :
  owns l k0 k →
  let '(errs, l', k') := Close env l k in
  owns l' k0 k' ∧ xl_objs l' = false ∧ xl_link l' = false ∧ k' = k0 ∧ Close env l' k' = ([], l', k').
Proof.
  destruct l as [i [] []], k0 as [o n], k as [o' n']. all: unfold owns, Close; simpl; intros [-> ->];
    split_and!; try done; try lia; f_equal; lia.
Qed.

End Xdp.

(** ** server/server.go *)
Import Xdp.

Section boot.
Context `{DL : DnsLib} `{GC : GoCache Msg} `{EM : EbpfMap BPFKey BPFValue} `{GS : GoSort}.

(** One [dns.Server]. *)
Record listener := mkListener {
  ln_addr : string;
  ln_net : string;
  ln_reusePort : bool;
}.

Record server := mkServer {
  s_listen : string;
  s_listeners : Z;
  s_warmupCfg : WarmupConfig;
  s_snapshotCfg : SnapshotConfig;
  s_hosts : hostsForwardSnapshot;
  s_expLimiter : option expensiveRequestLimiter;
  s_xdpLoader : option XDPLoader;
  s_xdpCancel : bool;
  s_warmupCancel : bool;
  s_udpSrvs : list listener;
  s_tcpSrvs : list listener;
  s_udpAddr : string;
  s_tcpAddr : string;
}.

Definition new_server (listen : string) (w : WarmupConfig) : server :=
  mkServer listen 1 w (mkSnapshotConfig false "") empty_hostsForward None None false false [] [] "" "".

Definition NewServer (numCPU : Z) (listen : string) : server :=
  let w := DefaultWarmupConfig numCPU in
  new_server listen (mkWarmupConfig false (wc_Timeout w) (wc_Duration w) (wc_Concurrency w) (wc_TLDs w)).

Definition NewServerWithConfig (listen : string) (w : WarmupConfig) : server := new_server listen w.

(** The server, and the hosts and zones it publishes. *)
Definition NewServerWithFullConfig (numCPU : Z) (listen : string) (listeners : Z) (w : WarmupConfig)
    (sc : SnapshotConfig) (hosts : list HostEntry) (forwarding : list ForwardZone) (xdpInterface : string)
    (limitCfg : ExpensiveRequestLimitConfig) : server * hostsForwardSnapshot :=
  let snap := SetHostsAndForward hosts forwarding in
  let listeners := if listeners <? 1 then 1 else listeners in
  (mkServer listen listeners w sc snap (newExpensiveRequestLimiter numCPU limitCfg)
     (if String.eqb xdpInterface "" then None else Some (NewXDPLoader xdpInterface))
     false false [] [] "" "", snap).

(** What [select] observes, in order: a listener's start, or its error. *)
Inductive ListenEvent :=
| UdpStarted (addr : string)
| TcpStarted (addr : string)
| ListenFailed (err : string).

(** What a listener does when [ShutdownContext] is called on it: it is serving, so
    that it is closed and its [ListenAndServe] returns, and the call may still fail
    waiting for its connections; its [ListenAndServe] has failed before; or it has
    not started, so that the call only fails, and the listener may start after it,
    with nothing left to stop it. *)
Inductive at_stop :=
| StopServing (err : option string)
| StopOver (err : string)
| StopEarly (err : string) (starts : bool).

Definition stop_error (a : at_stop) : option string :=
  match a with StopServing err => err | StopOver err | StopEarly err _ => Some err end.

(** Whether the goroutine of the listener comes to its [wg.Done()]. *)
Definition goroutine_ends (a : at_stop) : bool :=
  match a with StopEarly _ starts => negb starts | _ => true end.

Record BootEnv := mkBootEnv {
  be_xdp : XdpEnv;
  be_events : list ListenEvent;
  be_stop_udp : nat → at_stop;
  be_stop_tcp : nat → at_stop;
  be_pool_err : option string;
  be_now : Z;
  be_write : option FileContent;   (* what a failed write leaves behind *)
}.

Inductive bootStep :=
| SProbeLoop
| SXdpAttached
| SXdpDegraded (hint : string)
| SWarmupStarted
| SListening (n : nat)
| SMarkedDown
| SWarmupCancelled
| SXdpCancelled
| SStopped (net : string) (i : nat)
| SWaited
| SPoolStopped
| SXdpDetached
| SSnapshotSaved (failed : bool).

Record Boot := mkBoot {
  b_rt : runtimeState;
  b_kernel : Kernel;
  b_xdpMap : bool;         (* globalXDPCacheMap is set *)
  b_xdpStatus : Z;
  b_cache : Cache;
  b_file : FileContent;
  b_steps : list bootStep;
}.

Definition add_steps (l : list bootStep) (b : Boot) : Boot :=
  mkBoot (b_rt b) (b_kernel b) (b_xdpMap b) (b_xdpStatus b) (b_cache b) (b_file b) (b_steps b ++ l).
Definition set_rt (r : runtimeState) (b : Boot) : Boot :=
  mkBoot r (b_kernel b) (b_xdpMap b) (b_xdpStatus b) (b_cache b) (b_file b) (b_steps b).

(** *** Run *)

Definition make_listeners (s : server) : server :=
  let n := if s_listeners s <? 1 then 1 else s_listeners s in
  let reusePort := 1 <? n in
  mkServer (s_listen s) (s_listeners s) (s_warmupCfg s) (s_snapshotCfg s) (s_hosts s) (s_expLimiter s)
    (s_xdpLoader s) (s_xdpCancel s) (s_warmupCancel s)
    (replicate (Z.to_nat n) (mkListener (s_listen s) "udp" reusePort))
    (replicate (Z.to_nat n) (mkListener (s_listen s) "tcp" reusePort))
    (s_udpAddr s) (s_tcpAddr s).

Definition set_xdp (l : option XDPLoader) (cancel : bool) (s : server) : server :=
  mkServer (s_listen s) (s_listeners s) (s_warmupCfg s) (s_snapshotCfg s) (s_hosts s) (s_expLimiter s)
    l cancel (s_warmupCancel s) (s_udpSrvs s) (s_tcpSrvs s) (s_udpAddr s) (s_tcpAddr s).

(** The XDP part of [Run]: attach, or go on without. *)
Definition run_xdp (env : BootEnv) (s : server) (b : Boot) : server * Boot :=
  match s_xdpLoader s with
  | None =>
      (s, mkBoot (b_rt b) (b_kernel b) (b_xdpMap b) 0 (b_cache b) (b_file b) (b_steps b))
  | Some l =>
      match LoadAndAttach (be_xdp env) l (b_kernel b) with
      | (Some err, _, k) =>
          (set_xdp None (s_xdpCancel s) s,
           mkBoot (b_rt b) k (b_xdpMap b) 0 (b_cache b) (b_file b)
             (b_steps b ++ [SXdpDegraded (classifyXDPError (Some err) (attach_perm (be_xdp env)))]))
      | (None, l, k) =>
          (set_xdp (Some l) true s,
           mkBoot (b_rt b) k (CacheMap l) 1 (b_cache b) (b_file b) (b_steps b ++ [SXdpAttached]))
      end
  end.

Definition run_warmup (s : server) (b : Boot) : server * Boot :=
  if wc_Enabled (s_warmupCfg s) then
    (mkServer (s_listen s) (s_listeners s) (s_warmupCfg s) (s_snapshotCfg s) (s_hosts s) (s_expLimiter s)
       (s_xdpLoader s) (s_xdpCancel s) true (s_udpSrvs s) (s_tcpSrvs s) (s_udpAddr s) (s_tcpAddr s),
     add_steps [SWarmupStarted] b)
  else (s, b).

Inductive RunResult := RunReady | RunFailed (err : string) | RunBlocked.

Definition set_addr (udp : bool) (addr : string) (s : server) : server :=
  mkServer (s_listen s) (s_listeners s) (s_warmupCfg s) (s_snapshotCfg s) (s_hosts s) (s_expLimiter s)
    (s_xdpLoader s) (s_xdpCancel s) (s_warmupCancel s) (s_udpSrvs s) (s_tcpSrvs s)
    (if udp then addr else s_udpAddr s) (if udp then s_tcpAddr s else addr).

(** [for udpReady != nil || tcpReady != nil { select ... }]: the first listener of
    each kind sets the address; a failure before both are up ends the wait. *)
Fixpoint wait_ready (events : list ListenEvent) (udp tcp : bool) (s : server) : RunResult * server :=
  if udp && tcp then (RunReady, s)
  else
    match events with
    | [] => (RunBlocked, s)
    | UdpStarted a :: rest => wait_ready rest true tcp (if udp then s else set_addr true a s)
    | TcpStarted a :: rest => wait_ready rest udp true (if tcp then s else set_addr false a s)
    | ListenFailed e :: _ => (RunFailed e, s)
    end.

Definition setRuntimeStateServing (s : server) (b : Boot) : Boot :=
  set_rt (SetRuntimeServingPhase (wc_Enabled (s_warmupCfg s)) (b_rt b)).2 b.

Definition setRuntimeStateShuttingDown (b : Boot) : Boot :=
  set_rt (MarkRuntimeShuttingDown (b_rt b)).2 b.

Definition Run (env : BootEnv) (s : server) (b : Boot) : RunResult * server * Boot :=
  let s := make_listeners s in
  let b := add_steps [SProbeLoop] b in
  let '(s, b) := run_xdp env s b in
  let '(s, b) := run_warmup s b in
  let b := add_steps [SListening (length (s_udpSrvs s) + length (s_tcpSrvs s))] b in
  match wait_ready (be_events env) false false s with
  | (RunReady, s) => (RunReady, s, setRuntimeStateServing s b)
  | (r, s) => (r, s, b)
  end.

(** *** Shutdown *)

Definition stop_errors (srvs : list listener) (stop : nat → at_stop) : list string :=
  omap (λ i, stop_error (stop i)) (seq 0 (length srvs)).

(** Stopping the listeners. *)
Definition shutdown_steps (s : server) : list bootStep :=
  [SMarkedDown] ++ (if s_warmupCancel s then [SWarmupCancelled] else []) ++
  (if s_xdpCancel s then [SXdpCancelled] else []) ++
  (SStopped "udp" <$> seq 0 (length (s_udpSrvs s))) ++ (SStopped "tcp" <$> seq 0 (length (s_tcpSrvs s))).

(** Whether [s.wg.Wait()] returns: the warm-up and the XDP loops are cancelled and
    end, so it does unless a listener started too late to be stopped. *)
Definition wait_returns (env : BootEnv) (s : server) : bool :=
  forallb (λ i, goroutine_ends (be_stop_udp env i)) (seq 0 (length (s_udpSrvs s))) &&
  forallb (λ i, goroutine_ends (be_stop_tcp env i)) (seq 0 (length (s_tcpSrvs s))).

(** A call that may never return. *)
Inductive call := Returned (err : option string) | Hangs.

Definition shutdown_xdp (env : BootEnv) (s : server) (b : Boot) : list string * server * Boot :=
  match s_xdpLoader s with
  | None => ([], s, b)
  | Some l =>
      let '(errs, _, k) := Close (be_xdp env) l (b_kernel b) in
      (match errs with
       | [] => []
       | _ => ["[XDP] close: [XDP] close: [" +:+ Join " " errs +:+ "]"]
       end,
       set_xdp None (s_xdpCancel s) s,
       mkBoot (b_rt b) k false 0 (b_cache b) (b_file b) (b_steps b ++ [SXdpDetached]))
  end.

Definition shutdown_snapshot (env : BootEnv) (s : server) (b : Boot) : Boot :=
  if sc_Enabled (s_snapshotCfg s) then
    let '(failed, file) := SaveSnapshot (s_snapshotCfg s) (b_cache b) (be_now env) (be_write env) (b_file b) in
    mkBoot (b_rt b) (b_kernel b) (b_xdpMap b) (b_xdpStatus b) (b_cache b) file
      (b_steps b ++ [SSnapshotSaved failed])
  else b.

Definition Shutdown (env : BootEnv) (s : server) (b : Boot) : call * server * Boot :=
  let b := add_steps (shutdown_steps s) (setRuntimeStateShuttingDown b) in
  if negb (wait_returns env s) then (Hangs, s, b)
  else
    let b := add_steps [SWaited; SPoolStopped] b in
    let errs := stop_errors (s_udpSrvs s) (be_stop_udp env) ++
                stop_errors (s_tcpSrvs s) (be_stop_tcp env) ++ option_list (be_pool_err env) in
    let '(xerrs, s, b) := shutdown_xdp env s b in
    let b := shutdown_snapshot env s b in
    (Returned (head (errs ++ xerrs)), s, b).

(** ** Properties *)

(** The events up to the first failure. *)
Fixpoint before_failure (events : list ListenEvent) : list ListenEvent :=
  match events with
  | [] => []
  | ListenFailed _ :: _ => []
  | e :: rest => e :: before_failure rest
  end.

Definition udp_starts (events : list ListenEvent) : list string :=
  omap (λ e, match e with UdpStarted a => Some a | _ => None end) events.
Definition tcp_starts (events : list ListenEvent) : list string :=
  omap (λ e, match e with TcpStarted a => Some a | _ => None end) events.

(** [wait_ready] only touches the addresses. *)
Definition same_server (s s' : server) : Prop :=
  s_xdpLoader s' = s_xdpLoader s ∧ s_udpSrvs s' = s_udpSrvs s ∧ s_tcpSrvs s' = s_tcpSrvs s ∧
  s_snapshotCfg s' = s_snapshotCfg s ∧ s_warmupCfg s' = s_warmupCfg s ∧
  s_xdpCancel s' = s_xdpCancel s ∧ s_warmupCancel s' = s_warmupCancel s.

Lemma wait_ready_spec events udp tcp s :
  let '(r, s') := wait_ready events udp tcp s in
  same_server s s' ∧
  (r = RunReady ↔ (udp = true ∨ udp_starts (before_failure events) ≠ []) ∧
                  (tcp = true ∨ tcp_starts (before_failure events) ≠ [])) ∧
  (r = RunReady →
     s_udpAddr s' = (if udp then s_udpAddr s else default "" (head (udp_starts events))) ∧
     s_tcpAddr s' = (if tcp then s_tcpAddr s else default "" (head (tcp_starts events)))).
Proof.
  revert udp tcp s. induction events as [|e events IH]; intros udp tcp s.
  { destruct udp, tcp; simpl; split_and!; try done; naive_solver. }
  destruct (udp && tcp) eqn:Eb.
  { apply andb_true_iff in Eb as [-> ->]. simpl. split_and!; try done. naive_solver. }
  simpl. rewrite Eb. destruct e as [a|a|err].
  - specialize (IH true tcp (if udp then s else set_addr true a s)).
    destruct (wait_ready events true tcp _) as [r s']. destruct IH as (Hs & Hr & Ha).
    split_and!; [destruct udp; exact Hs|rewrite Hr; clear; simpl; intuition done|].
    intros Hrdy. destruct (Ha Hrdy) as [-> ->]. destruct udp, tcp; done.
  - specialize (IH udp true (if tcp then s else set_addr false a s)).
    destruct (wait_ready events udp true _) as [r s']. destruct IH as (Hs & Hr & Ha).
    split_and!; [destruct tcp; exact Hs|rewrite Hr; clear; simpl; intuition done|].
    intros Hrdy. destruct (Ha Hrdy) as [-> ->]. destruct udp, tcp; done.
  - split_and!; try done. simpl. destruct udp, tcp; naive_solver.
Qed.

(** A server that was just created: it has nothing open. *)
Definition fresh_server (s : server) : Prop :=
  s_xdpLoader s = None ∨ ∃ iface, s_xdpLoader s = Some (NewXDPLoader iface).

Lemma NewServerWithFullConfig_fresh numCPU listen n w sc hosts fwd iface lim :
  fresh_server (NewServerWithFullConfig numCPU listen n w sc hosts fwd iface lim).1.
Proof. unfold fresh_server. simpl. case_match; [by left|right; by eexists]. Qed.

(** The server's loader has open exactly what the kernel gained since [k0], and
    the map is published only while the loader has it. *)
Definition holds_xdp (k0 : Kernel) (s : server) (b : Boot) : Prop :=
  match s_xdpLoader s with
  | None => b_kernel b = k0 ∧ b_xdpMap b = false
  | Some l => owns l k0 (b_kernel b)
  end.

Lemma run_xdp_spec env s b :
  fresh_server s → b_xdpMap b = false →
  let '(s', b') := run_xdp env s b in
  holds_xdp (b_kernel b) s' b' ∧ b_rt b' = b_rt b ∧ b_cache b' = b_cache b ∧ b_file b' = b_file b ∧
  s_udpSrvs s' = s_udpSrvs s ∧ s_tcpSrvs s' = s_tcpSrvs s ∧ s_snapshotCfg s' = s_snapshotCfg s ∧
  s_warmupCfg s' = s_warmupCfg s.
Proof.
  intros Hf Hm. unfold run_xdp. destruct Hf as [E|[iface E]]; rewrite E.
  { unfold holds_xdp. rewrite E. by split_and!. }
  pose proof (LoadAndAttach_owns (be_xdp env) iface (b_kernel b)) as Hl.
  destruct (LoadAndAttach _ _ _) as [[[err|] l] k]; simpl in *.
  - destruct Hl as (_ & _ & He). destruct He as [-> _]; [by eexists|]. by split_and!.
  - destruct Hl as (Ho & _). by split_and!.
Qed.

Lemma Run_spec env s b :
  fresh_server s → b_xdpMap b = false → rt_ready (b_rt b) = false →
  let '(r, s1, b1) := Run env s b in
  let n := Z.to_nat (Z.max 1 (s_listeners s)) in
  holds_xdp (b_kernel b) s1 b1 ∧ b_cache b1 = b_cache b ∧ b_file b1 = b_file b ∧
  s_snapshotCfg s1 = s_snapshotCfg s ∧
  s_udpSrvs s1 = replicate n (mkListener (s_listen s) "udp" (1 <? s_listeners s)) ∧
  s_tcpSrvs s1 = replicate n (mkListener (s_listen s) "tcp" (1 <? s_listeners s)) ∧
  (rt_ready (b_rt b1) = true ↔ r = RunReady) ∧
  (r = RunReady ↔ udp_starts (before_failure (be_events env)) ≠ [] ∧
                  tcp_starts (before_failure (be_events env)) ≠ []).
Proof.
  intros Hf Hm Hr. unfold Run.
  assert (fresh_server (make_listeners s)) as Hf' by done.
  pose proof (run_xdp_spec env (make_listeners s) (add_steps [SProbeLoop] b) Hf' Hm) as Hx.
  destruct (run_xdp env (make_listeners s) _) as [s1 b1]. destruct Hx as (Hh & Hrt & Hc & Hfile & Hu & Ht & Hsn & Hw).
  assert (∃ s2 b2, run_warmup s1 b1 = (s2, b2) ∧ holds_xdp (b_kernel b) s2 b2 ∧ b_rt b2 = b_rt b ∧
    b_cache b2 = b_cache b ∧ b_file b2 = b_file b ∧ s_udpSrvs s2 = s_udpSrvs (make_listeners s) ∧
    s_tcpSrvs s2 = s_tcpSrvs (make_listeners s) ∧ s_snapshotCfg s2 = s_snapshotCfg s) as
    (s2 & b2 & -> & Hh2 & Hrt2 & Hc2 & Hf2 & Hu2 & Ht2 & Hs2).
  { unfold run_warmup. case_match; eexists _, _; (split; [done|]); split_and!; done. }
  pose proof (wait_ready_spec (be_events env) false false s2) as Hwr.
  destruct (wait_ready _ _ _ s2) as [r s3]. destruct Hwr as (Hsame & Hrdy & _).
  destruct Hsame as (X & U & T & S & _).
  assert ((if s_listeners s <? 1 then 1 else s_listeners s) = Z.max 1 (s_listeners s)) as Hn
    by (destruct (Z.ltb_spec (s_listeners s) 1); lia).
  assert ((1 <? Z.max 1 (s_listeners s)) = (1 <? s_listeners s)) as Hn'
    by (destruct (Z.ltb_spec 1 (s_listeners s)), (Z.ltb_spec 1 (Z.max 1 (s_listeners s))); lia).
  simpl in Hu2, Ht2. rewrite Hn, Hn' in Hu2, Ht2.
  assert (r = RunReady ↔ udp_starts (before_failure (be_events env)) ≠ [] ∧
                  tcp_starts (before_failure (be_events env)) ≠ []) as Hrdy' by (rewrite Hrdy; naive_solver).
  destruct r; unfold holds_xdp in *; simpl; rewrite ?X, ?U, ?T, ?S, ?Hu2, ?Ht2;
    (split_and!; [done..| |exact Hrdy']); rewrite ?Hrt2, ?Hr; done.
Qed.

Lemma shutdown_xdp_spec env s b k0 :
  holds_xdp k0 s b →
  let '(_, s', b') := shutdown_xdp env s b in
  b_kernel b' = k0 ∧ b_xdpMap b' = false ∧ s_xdpLoader s' = None ∧ b_rt b' = b_rt b ∧ b_cache b' = b_cache b ∧
  b_file b' = b_file b ∧ s_snapshotCfg s' = s_snapshotCfg s.
Proof.
  intros Hh. unfold shutdown_xdp, holds_xdp in *. destruct (s_xdpLoader s) as [l|] eqn:El.
  - pose proof (Close_owns (be_xdp env) l _ _ Hh) as Hcl.
    destruct (Close (be_xdp env) l (b_kernel b)) as [[errs l'] k']. destruct Hcl as (_ & _ & _ & -> & _). by split_and!.
  - destruct Hh. by split_and!.
Qed.

(** The steps logged before do not matter to closing XDP. *)
Lemma shutdown_xdp_errors env s l l' r b :
  (shutdown_xdp env s (add_steps l' (add_steps l (set_rt r b)))).1.1 = (shutdown_xdp env s b).1.1.
Proof.
  unfold shutdown_xdp. destruct (s_xdpLoader s) as [ld|]; [|done]. simpl. by destruct (Close _ _ _) as [[? ?] ?].
Qed.

(** The steps of a shutdown are only added to. *)
Lemma shutdown_rest_steps env s b :
  ∃ l, b_steps (shutdown_snapshot env (shutdown_xdp env s b).1.2 (shutdown_xdp env s b).2) = b_steps b ++ l.
Proof.
  unfold shutdown_snapshot, shutdown_xdp.
  repeat (case_match; simpl); rewrite <-?(assoc_L (++)); try (by eexists); exists []; by rewrite app_nil_r.
Qed.

Lemma wait_returns_spec env s :
  wait_returns env s = true ↔
    (∀ i, (i < length (s_udpSrvs s))%nat → goroutine_ends (be_stop_udp env i) = true) ∧
    (∀ i, (i < length (s_tcpSrvs s))%nat → goroutine_ends (be_stop_tcp env i) = true).
Proof.
  unfold wait_returns. rewrite andb_true_iff, !forallb_forall. setoid_rewrite in_seq.
  split; intros [Hu Ht]; (split; intros i Hi; [apply Hu|apply Ht]; lia).
Qed.

(** A shutdown that hangs waits for a listener that it called to stop before that
    listener had started. *)
Lemma wait_hangs env s :
  wait_returns env s = false →
  ∃ i err, (i < length (s_udpSrvs s))%nat ∧ be_stop_udp env i = StopEarly err true ∨
           (i < length (s_tcpSrvs s))%nat ∧ be_stop_tcp env i = StopEarly err true.
Proof.
  assert (∀ stop n, forallb (λ i, goroutine_ends (stop i)) (seq 0 n) = false →
    ∃ i err, (i < n)%nat ∧ stop i = StopEarly err true) as Hf.
  { intros stop n Hn. rewrite <-not_true_iff_false, forallb_forall in Hn.
    destruct (decide (Forall (λ i, goroutine_ends (stop i) = true) (seq 0 n))) as [Ha|Ha].
    - destruct Hn. intros i Hi. rewrite Forall_forall in Ha. apply Ha. by apply list_elem_of_In.
    - apply not_Forall_Exists in Ha; [|apply _]. apply Exists_exists in Ha as (i & Hi & Hg).
      apply elem_of_seq in Hi. exists i. simpl in Hg.
      destruct (stop i) as [| |err []]; try done. exists err. split; [lia|done]. }
  unfold wait_returns. intros [Hu|Ht]%andb_false_iff.
  - destruct (Hf _ _ Hu) as (i & err & ? & ?). exists i, err. by left.
  - destruct (Hf _ _ Ht) as (i & err & ? & ?). exists i, err. by right.
Qed.

(** What every shutdown does, and one that returns. *)
Lemma Shutdown_spec env s b k0 :
  holds_xdp k0 s b →
  let '(c, s', b') := Shutdown env s b in
  rt_ready (b_rt b') = false ∧ (c = Hangs ↔ wait_returns env s = false) ∧
  (∃ l, b_steps b' = b_steps b ++ shutdown_steps s ++ l) ∧
  ∀ err, c = Returned err →
    b_kernel b' = k0 ∧ b_xdpMap b' = false ∧ s_xdpLoader s' = None ∧
    (if sc_Enabled (s_snapshotCfg s) then
       b_file b' = (SaveSnapshot (s_snapshotCfg s) (b_cache b) (be_now env) (be_write env) (b_file b)).2 ∧
       ∃ failed, last (b_steps b') = Some (SSnapshotSaved failed)
     else b_file b' = b_file b) ∧
    (err = None ↔ stop_errors (s_udpSrvs s) (be_stop_udp env) = [] ∧
       stop_errors (s_tcpSrvs s) (be_stop_tcp env) = [] ∧ be_pool_err env = None ∧ (shutdown_xdp env s b).1.1 = []).
Proof.
  intros Hh. unfold Shutdown. destruct (wait_returns env s) eqn:Ew; simpl.
  2:{ split_and!; try done. exists []. by rewrite app_nil_r. }
  set (b1 := add_steps [SWaited; SPoolStopped] _).
  pose proof (shutdown_xdp_spec env s b1 k0 Hh) as Hx. pose proof (shutdown_rest_steps env s b1) as [l Hl].
  rewrite <-(shutdown_xdp_errors env s (shutdown_steps s) [SWaited; SPoolStopped] (MarkRuntimeShuttingDown (b_rt b)).2 b).
  change (add_steps [SWaited; SPoolStopped] (add_steps (shutdown_steps s) (set_rt (MarkRuntimeShuttingDown (b_rt b)).2 b)))
    with b1.
  destruct (shutdown_xdp env s b1) as [[xe s'] b']. destruct Hx as (K & Mp & L & R & Cc & F & Sn). simpl in Hl |- *.
  assert (head ((stop_errors (s_udpSrvs s) (be_stop_udp env) ++
    stop_errors (s_tcpSrvs s) (be_stop_tcp env) ++ option_list (be_pool_err env)) ++ xe) = None ↔
    stop_errors (s_udpSrvs s) (be_stop_udp env) = [] ∧ stop_errors (s_tcpSrvs s) (be_stop_tcp env) = [] ∧
    be_pool_err env = None ∧ xe = []) as Herr.
  { rewrite head_None, !app_nil. destruct (be_pool_err env); naive_solver. }
  assert (∃ l0, b_steps (shutdown_snapshot env s' b') = b_steps b ++ shutdown_steps s ++ l0) as Hsteps.
  { exists ([SWaited; SPoolStopped] ++ l). rewrite Hl, <-app_assoc, <-app_assoc. reflexivity. }
  revert Hsteps. unfold shutdown_snapshot. rewrite Sn, Cc, F. destruct (sc_Enabled (s_snapshotCfg s)).
  - change (b_cache b1) with (b_cache b). change (b_file b1) with (b_file b).
    destruct (SaveSnapshot _ _ _ _ _) as [failed file]. simpl. rewrite R. intros Hsteps. split_and!; try done.
    intros err [= <-]. split_and!; try done. exists failed. by rewrite last_snoc.
  - rewrite R. intros Hsteps. split_and!; try done. intros err [= <-]. by split_and!.
Qed.

End boot.

Module BootWitness.
Import RefDns RefSort.
#[export] Existing Instance RefDns.lib.
#[export] Existing Instance RefSort.lib.
#[export] Existing Instance RefCache.lib.
#[export] Existing Instance RefEbpf.lib.

Definition refused : XdpEnv := mkXdpEnv None None (Some "not supported") None None (Some "busy") false.
Definition up : BootEnv :=
  mkBootEnv refused [TcpStarted "127.0.0.1:53"; UdpStarted "127.0.0.1:53"; ListenFailed "in use"]
    (λ _, StopServing None) (λ _, StopServing None) None 0 None.
Definition srv : server :=
  (NewServerWithFullConfig 4 "127.0.0.1:53" 2 (mkWarmupConfig false 0 0 1 []) (mkSnapshotConfig false "") [] []
     "eth0" (mkLimitConfig "" 0 [] false)).1.
Definition cold : Boot := mkBoot runtimeState_init (mkKernel 0 0) false 0 (mkCache newCache None) FileMissing [].

(** Two pairs of listeners: XDP attaches in the generic mode and is detached; the
    failure to close the objects is what [Shutdown] returns. *)
Example starts_and_stops :
  let r := Run up srv cold in
  let q := Shutdown up r.1.2 r.2 in
  r.1.1 = RunReady ∧ b_kernel r.2 = mkKernel 1 1 ∧ length (s_udpSrvs r.1.2) = 2%nat ∧
  q.1.1 = Returned (Some "[XDP] close: [XDP] close: [close eBPF objects: busy]") ∧ b_kernel q.2 = mkKernel 0 0.
Proof. vm_compute. split_and!; reflexivity. Qed.

(** [Run] returns when one pair is up.  If the second UDP listener starts after it
    was told to stop, [Shutdown] waits for it forever, with XDP still attached. *)
Definition late : BootEnv :=
  mkBootEnv refused (be_events up)
    (λ i, if (i =? 1)%nat then StopEarly "dns: server not started" true else StopServing None)
    (λ _, StopServing None) None 0 None.

Example late_listener :
  let r := Run up srv cold in
  let q := Shutdown late r.1.2 r.2 in
  r.1.1 = RunReady ∧ q.1.1 = Hangs ∧ b_kernel q.2 = mkKernel 1 1.
Proof. vm_compute. split_and!; reflexivity. Qed.

End BootWitness.
