(* ===== verification/Main.v ===== *)
(** * The command (cmd/rec53.go)

    [main]: read the flags and the file, validate, apply the settings, and then
    either trace one name or serve until a signal or an error and shut down.  It
    composes the configuration ([Config]), the server's life cycle ([Boot]), the
    requests served ([Server]), the snapshot ([Snapshot]) and traced resolutions
    ([Trace]).  [os.Exit(1)] and returning are the results of the function; what the
    operating system, the libraries and the network do is its input. *)

From S2P Require Import Prelude GoLib GoText Runtime Float64 Base64 NetIP Dns Zone External Cache Snapshot.
From S2P Require Import RateLog Gate HostsForward IPQuality IPPool HotZone Limiter World States Upstream.
From S2P Require Import Logic StateMachine Frame Resolver Server Warmup Trace Config Boot.

(** ** Shutting down several components *)

(** A shutdown function may be nil; it changes the state, may fail and may never
    return.  Errors are logged and the next function is called all the same.  The
    result: whether all calls returned, the errors, and the state. *)
Fixpoint gracefulShutdown {S} (shutdowns : list (option (S → call * S))) (st : S) : bool * list string * S :=
  match shutdowns with
  | [] => (true, [], st)
  | None :: rest => gracefulShutdown rest st
  | Some shutdown :: rest =>
      match shutdown st with
      | (Hangs, st) => (false, [], st)
      | (Returned err, st) =>
          let '(ok, errs, st) := gracefulShutdown rest st in (ok, option_list err ++ errs, st)
      end
  end.

(** The two channels of [waitForSignal]: an error (nil when the channel was closed)
    or a signal; the result is the signal. *)
Inductive wakeup := WError (err : option string) | WSignal (sig : string).

Definition waitForSignal (w : wakeup) : option string :=
  match w with WError _ => None | WSignal s => Some s end.

(** ** Options and environment *)

Record Options := mkOptions {
  o_configPath : string;
  o_flags : Flags;
  o_showVersion : bool;
  o_traceDomain : string;
  o_traceType : string;
}.

(** The process-wide settings [main] changes. *)
Record Globals := mkGlobals {
  g_upstreamTimeout : Z;
  g_gate : upstreamConcurrencyGate;
  g_hosts : hostsForwardSnapshot;
  g_logLevel : Level;
}.

Inductive TraceErr := TNilConfig | TWrite (err : string) | TResolve (err : RErr).

Section main.
Context `{DL : DnsLib} `{GC : GoCache Msg} `{EM : EbpfMap BPFKey BPFValue} `{GS : GoSort} `{E : !Env}.
Context `{DN : DnsNames} (err_text : RErr → string).

Record MainEnv := mkMainEnv {
  me_numCPU : Z;
  me_ReadFile : string → FileRead;
  me_Unmarshal : string → Config + string;
  me_ResolveTCPAddr : string → option string;
  me_port : string;               (* the port of iterative queries *)
  me_now : Z;
  me_mono : option Z;
  me_run : BootEnv;               (* during [Run] *)
  me_requests : list (NetAddr * Msg);  (* received until the listeners are stopped *)
  me_warmupEnds : bool;           (* the warm-up completes while the process serves *)
  me_wakeup : option wakeup;      (* nothing has arrived yet: None *)
  me_stop : BootEnv;              (* during [Shutdown] *)
  me_metricUp : bool;             (* the metrics server could listen *)
  me_metricStop : option string;  (* stopping it *)
  me_writeTrace : option string;  (* writing the trace to standard output *)
}.

(** ** Trace mode *)

(** [LoadSnapshot] into the shared cache, if a file is configured. *)
Definition load_for_trace (env : MainEnv) (file : FileContent) (cfg : Config) (c : Cache) : Cache :=
  if String.eqb (sc_File (cfg_Snapshot cfg)) "" then c
  else (LoadSnapshot (cfg_Snapshot cfg) file c (me_now env) (me_mono env)).2.2.

(** The error returned, and what was written. *)
Definition runTraceMode (env : MainEnv) (file : FileContent) (cfg : option Config) (domain : string) (qtype : Z)
    : M World (option TraceErr * string) :=
  match cfg with
  | None => ret (Some TNilConfig, "")
  | Some cfg =>
      let published := (NewServerWithFullConfig (me_numCPU env) (Listen (cfg_DNS cfg)) 1 (cfg_Warmup cfg)
        (cfg_Snapshot cfg) (cfg_Hosts cfg) (cfg_Forwarding cfg) "" (limit_config cfg)).2 in
      do! modify_shared (λ s, set_cache (load_for_trace env file cfg (sh_cache s)) (set_hosts published s)) in
      let! r := TraceDomain err_text (me_port env) domain qtype in
      let '(_, trace, err) := r in
      match trace with
      | None => ret (TResolve <$> err, "")
      | Some t =>
          match me_writeTrace env with
          | Some e => ret (Some (TWrite e), "")
          | None => ret (TResolve <$> err, Format (Some t) +:+ newline)
          end
      end
  end.

(** ** main *)

(** [MetricServer]: whether it accepts connections, and whether connections are
    still open. *)
Record httpServer := mkHttp {
  hs_addr : string;
  hs_accepts : bool;
  hs_open : bool;
}.

(** [http.Server.Shutdown]: from the call on the server accepts nothing; it fails
    when connections are still open at the deadline. *)
Definition http_Shutdown (err : option string) (h : httpServer) : call * httpServer :=
  (Returned err, mkHttp (hs_addr h) false (match err with Some _ => true | None => false end)).

Inductive MainResult :=
| MVersion
| MConfigError (err : ConfigErr)
| MTraceTypeError (value : string)
| MTraced (result : res (option TraceErr * string)) (w : World)
| MBlocked (g : Globals) (s : server) (b : Boot)      (* in [Run] *)
| MCrashed (w : World)                                (* a panic while serving *)
| MServing (g : Globals) (replies : list Msg) (s : server) (b : Boot)
| MHung (g : Globals) (s : server) (b : Boot)         (* in [Shutdown] *)
| MStopped (g : Globals) (replies : list Msg) (sig : option string) (errors : list string) (s : server) (b : Boot)
    (metrics : option httpServer).

(** The exit code; a process that goes on has none.  A panic of [main] itself is
    recovered and exits with 1, one of a listener's goroutine is not recovered. *)
Definition exit_code (r : MainResult) : option Z :=
  match r with
  | MVersion | MStopped _ _ _ _ _ _ _ | MTraced (Ok (None, _)) _ => Some 0
  | MConfigError _ | MTraceTypeError _ | MTraced _ _ => Some 1
  | MCrashed _ => Some 2
  | MBlocked _ _ _ | MServing _ _ _ _ | MHung _ _ _ => None
  end.

(** The configuration the command runs with. *)
Definition effective_config (env : MainEnv) (o : Options) : Config + ConfigErr :=
  match loadConfig (me_ReadFile env) (me_Unmarshal env) (me_numCPU env) (o_configPath o) with
  | inr e => inr e
  | inl cfg =>
      let cfg := apply_flags (o_flags o) cfg in
      match validateConfig (me_ResolveTCPAddr env) (Some cfg) with
      | Some e => inr e
      | None => inl cfg
      end
  end.

(** Settings applied before anything is started. *)
Definition apply_settings (env : MainEnv) (cfg : Config) (g : Globals) : Globals :=
  let d := cfg_DNS cfg in
  mkGlobals
    (if 0 <? UpstreamTimeout d then SetUpstreamTimeout (g_upstreamTimeout g) (UpstreamTimeout d)
     else g_upstreamTimeout g)
    (setLimit (me_numCPU env) (g_gate g) (UpstreamConcurrencyLimit d))
    (g_hosts g) (g_logLevel g).

(** The server [main] creates, with the snapshot restored and the runtime state reset. *)
Definition prepare (env : MainEnv) (cfg : Config) (g : Globals) (b : Boot) : Globals * server * Boot :=
  let xdpIface := if xdp_Enabled (cfg_XDP cfg) then xdp_Interface (cfg_XDP cfg) else "" in
  let '(s, published) := NewServerWithFullConfig (me_numCPU env) (Listen (cfg_DNS cfg)) (Listeners (cfg_DNS cfg))
    (cfg_Warmup cfg) (cfg_Snapshot cfg) (cfg_Hosts cfg) (cfg_Forwarding cfg) xdpIface (limit_config cfg) in
  let cache := (LoadSnapshot (cfg_Snapshot cfg) (b_file b) (b_cache b) (me_now env) (me_mono env)).2.2 in
  (mkGlobals (g_upstreamTimeout g) (g_gate g) published (parseLogLevel (LogLevel (cfg_DNS cfg))), s,
   mkBoot (ResetRuntimeState (b_rt b)) (b_kernel b) (b_xdpMap b) (b_xdpStatus b) cache (b_file b) (b_steps b)).

(** *** Serving *)

(** The requests that arrive, each run by [ServeDNS]; what runs beside a request,
    other requests, the warm-up and the probe loop, is the interference of the
    environment. *)
Fixpoint serve_requests (port : string) (requests : list (NetAddr * Msg)) : M World (list Msg) :=
  match requests with
  | [] => ret []
  | (addr, r) :: rest =>
      do! modify (set_req (Some r)) in
      let! m := ServeDNS port addr in
      let! ms := serve_requests port rest in
      ret (m :: ms)
  end.

(** The process the requests find: the cache with the snapshot, the published
    hosts and zones, the gate and the limiter. *)
Definition serving_world (g : Globals) (s : server) (b : Boot) (w : World) : World :=
  set_shared (set_cache (b_cache b) (set_hosts (g_hosts g) (set_gate (g_gate g)
    (set_lim (s_expLimiter s) (w_shared w))))) w.

Definition with_cache (c : Cache) (b : Boot) : Boot :=
  mkBoot (b_rt b) (b_kernel b) (b_xdpMap b) (b_xdpStatus b) c (b_file b) (b_steps b).

(** Everything from the return of [Run] to the shutdown. *)
Definition serve (env : MainEnv) (g : Globals) (s : server) (b : Boot) (w : World) : res (list Msg) * Boot * World :=
  let '(r, w') := serve_requests (me_port env) (me_requests env) (serving_world g s b w) in
  let b := if wc_Enabled (s_warmupCfg s) && me_warmupEnds env
           then set_rt (MarkRuntimeWarmupComplete (b_rt b)).2 b else b in
  (r, with_cache (sh_cache (w_shared w')) b, w').

(** What [waitForSignal] receives; the error of a failed start is in the channel. *)
Definition wake (env : MainEnv) (r : RunResult) : option wakeup :=
  match me_wakeup env, r with
  | None, RunFailed e => Some (WError (Some e))
  | w, _ => w
  end.

(** The server, the state of the process, and the metrics server. *)
Definition Live : Type := server * Boot * option httpServer.

Definition server_shutdown (env : MainEnv) (st : Live) : call * Live :=
  let '(s, b, m) := st in
  let '(c, s', b') := Shutdown (me_stop env) s b in (c, (s', b', m)).

Definition ShutdownMetric (env : MainEnv) (st : Live) : call * Live :=
  match st with
  | (s, b, Some h) => let '(c, h) := http_Shutdown (me_metricStop env) h in (c, (s, b, Some h))
  | (s, b, None) => (Returned None, (s, b, None))
  end.

Definition main (env : MainEnv) (o : Options) (g : Globals) (b : Boot) (w : World) : MainResult :=
  if o_showVersion o then MVersion
  else
    match effective_config env o with
    | inr e => MConfigError e
    | inl cfg =>
        let g := apply_settings env cfg g in
        if negb (String.eqb (o_traceDomain o) "") then
          match parseTraceQType (o_traceType o) with
          | None => MTraceTypeError (o_traceType o)
          | Some qtype =>
              let '(r, w') := runTraceMode env (b_file b) (Some cfg) (o_traceDomain o) qtype w in MTraced r w'
          end
        else
          let metrics := Some (mkHttp (Metric (cfg_DNS cfg)) (me_metricUp env) false) in
          let '(g, s, b) := prepare env cfg g b in
          match Run (me_run env) s b with
          | (RunBlocked, s, b) => MBlocked g s b
          | (r, s, b) =>
              match serve env g s b w with
              | (Panic, _, w) => MCrashed w
              | (Ok replies, b, _) =>
                  match wake env r with
                  | None => MServing g replies s b
                  | Some wk =>
                      match gracefulShutdown [Some (server_shutdown env); Some (ShutdownMetric env)] (s, b, metrics) with
                      | (false, _, (s, b, _)) => MHung g s b
                      | (true, errors, (s, b, metrics)) => MStopped g replies (waitForSignal wk) errors s b metrics
                      end
                  end
              end
          end
    end.

End main.

(** ** Nothing starts without a valid configuration, and what starts is stopped *)
Section lifecycle.
Context `{DLL : DnsLibLaws} `{DWL : !DnsWireLaws} `{GCL : GoCacheLaws Msg} `{EML : EbpfMapLaws BPFKey BPFValue}.
Context `{GS : GoSort} `{E : !Env} `{EOK : !EnvOk} `{DN : DnsNames} (err_text : RErr → string).

(** The settings in force are the configured ones. *)
Definition settings_applied (env : MainEnv) (cfg : Config) (g0 g : Globals) : Prop :=
  g_upstreamTimeout g = (if decide (0 < UpstreamTimeout (cfg_DNS cfg)) then UpstreamTimeout (cfg_DNS cfg)
                         else g_upstreamTimeout g0) ∧
  limit (g_gate g) = normalizeUpstreamConcurrencyLimit (me_numCPU env) (UpstreamConcurrencyLimit (cfg_DNS cfg)) ∧
  g_hosts g = SetHostsAndForward (cfg_Hosts cfg) (cfg_Forwarding cfg) ∧
  g_logLevel g = parseLogLevel (LogLevel (cfg_DNS cfg)).

Lemma validated_timeout resolve cfg :
  validateConfig resolve (Some cfg) = None → 0 < UpstreamTimeout (cfg_DNS cfg) →
  100 * Millisecond ≤ UpstreamTimeout (cfg_DNS cfg).
Proof.
  intros Hv Hpos. unfold validateConfig in Hv. rewrite !fail_if_None, !and_then_None, !fail_if_None in Hv.
  destruct Hv as (_ & _ & _ & _ & _ & _ & Ht & _). apply andb_false_iff in Ht as [Ht|Ht].
  - apply Z.ltb_ge in Ht. lia.
  - by apply Z.ltb_ge in Ht.
Qed.

Lemma effective_valid env o cfg :
  effective_config env o = inl cfg → validateConfig (me_ResolveTCPAddr env) (Some cfg) = None.
Proof. unfold effective_config. repeat case_match; naive_solver. Qed.

(** The cache the process starts with. *)
Definition loaded (env : MainEnv) (cfg : Config) (b : Boot) : Cache :=
  (LoadSnapshot (cfg_Snapshot cfg) (b_file b) (b_cache b) (me_now env) (me_mono env)).2.2.

(** The pairs of listeners. *)
Definition pairs (cfg : Config) : nat := Z.to_nat (Z.max 1 (Listeners (cfg_DNS cfg))).

Lemma prepare_spec env cfg g b :
  validateConfig (me_ResolveTCPAddr env) (Some cfg) = None →
  let '(g', s, b') := prepare env cfg (apply_settings env cfg g) b in
  settings_applied env cfg g g' ∧ fresh_server s ∧ s_snapshotCfg s = cfg_Snapshot cfg ∧
  Z.to_nat (Z.max 1 (s_listeners s)) = pairs cfg ∧
  s_expLimiter s = newExpensiveRequestLimiter (me_numCPU env) (limit_config cfg) ∧
  rt_ready (b_rt b') = false ∧ b_kernel b' = b_kernel b ∧ b_xdpMap b' = b_xdpMap b ∧ b_file b' = b_file b ∧
  b_cache b' = loaded env cfg b.
Proof.
  intros Hv. unfold prepare. pose proof (NewServerWithFullConfig_fresh (me_numCPU env) (Listen (cfg_DNS cfg))
    (Listeners (cfg_DNS cfg)) (cfg_Warmup cfg) (cfg_Snapshot cfg) (cfg_Hosts cfg) (cfg_Forwarding cfg)
    (if xdp_Enabled (cfg_XDP cfg) then xdp_Interface (cfg_XDP cfg) else "") (limit_config cfg)) as Hf.
  split_and!; try done.
  - unfold settings_applied. split_and!; try done. simpl.
    case_decide as Hpos; [|by rewrite (proj2 (Z.ltb_ge 0 _)) by lia].
    rewrite (proj2 (Z.ltb_lt 0 _)) by lia. unfold SetUpstreamTimeout.
    rewrite (proj2 (Z.ltb_ge _ _)); [done|]. by eapply validated_timeout.
  - unfold pairs. simpl. destruct (Z.ltb_spec (Listeners (cfg_DNS cfg)) 1); f_equal; lia.
Qed.

(** Whatever the file holds, the cache stays sound. *)
Lemma loaded_ok env cfg b : cache_ok (b_cache b) → cache_ok (loaded env cfg b).
Proof.
  intros Hc. unfold loaded, LoadSnapshot. case_match; [done|]. destruct (b_file b) as [| | |es]; try done. cbn [snd].
  assert (∀ st, cache_ok st.2 → cache_ok (foldl (load_entry (me_now env) (me_mono env)) st es).2) as Hf; [|by apply Hf].
  induction es as [|e es IH]; intros st Hst; [done|]. cbn [foldl]. apply IH. rewrite load_entry_cache.
  unfold entry_status. destruct (DecodeString _) as [wire|]; [|done].
  destruct (Unpack wire) as [m|] eqn:Eu; [|done]. cbv zeta. destruct (_ =? 0); [done|].
  apply cache_ok_set; [done|]. apply Unpack_typed in Eu. unfold all_rrs in Eu. rewrite !Forall_app in Eu. apply Eu.
Qed.

(** A reply to a request. *)
Definition answers (rq : NetAddr * Msg) (m : Msg) : Prop :=
  Id (Hdr m) = Id (Hdr rq.2) ∧ Response (Hdr m) = true ∧
  ∀ q qs, Questions rq.2 = q :: qs → Q_Name q ≠ "" → head (Questions m) = Some q.

Lemma serve_requests_ok port requests w :
  shared_ok (w_shared w) →
  ∃ replies w', serve_requests port requests w = (Ok replies, w') ∧ Forall2 answers requests replies.
Proof.
  revert w. induction requests as [|[addr r] requests IH]; intros w Hw; [by exists [], w|].
  cbn [serve_requests]. unfold bind, modify.
  destruct (ServeDNS_ok port addr (set_req (Some r) w) r Hw eq_refl) as (m & w1 & -> & Hi & Hr & _ & Hq & _ & Hw1).
  destruct (IH w1 Hw1) as (ms & w2 & -> & Hms). exists (m :: ms), w2. split; [done|]. by constructor.
Qed.

Lemma wait_ready_limiter events udp tcp s : s_expLimiter (wait_ready events udp tcp s).2 = s_expLimiter s.
Proof.
  revert udp tcp s. induction events as [|e events IH]; intros udp tcp s; simpl; [by case_match|].
  case_match; [done|]. destruct e; [rewrite IH; by case_match..|done].
Qed.

Lemma Run_limiter env s b : s_expLimiter (Run env s b).1.2 = s_expLimiter s.
Proof.
  unfold Run. destruct (run_xdp env (make_listeners s) _) as [s1 b1] eqn:E1.
  assert (s_expLimiter s1 = s_expLimiter s) as Hl1 by (unfold run_xdp in E1; repeat case_match; by simplify_eq).
  destruct (run_warmup s1 b1) as [s2 b2] eqn:E2.
  assert (s_expLimiter s2 = s_expLimiter s1) as Hl2 by (unfold run_warmup in E2; repeat case_match; by simplify_eq).
  pose proof (wait_ready_limiter (be_events env) false false s2) as Hl3.
  destruct (wait_ready _ _ _ s2) as [[] s3]; simpl in *; congruence.
Qed.

(** The requests received were run by [ServeDNS] in a process with the configured
    hosts, zones, gate and limiter and the cache of the snapshot, and each was
    answered; [w'] is what they left. *)
Definition served (env : MainEnv) (cfg : Config) (g : Globals) (b : Boot) (replies : list Msg) (w' : World) : Prop :=
  ∃ w1, sh_cache (w_shared w1) = loaded env cfg b ∧ sh_hosts (w_shared w1) = g_hosts g ∧
    sh_gate (w_shared w1) = g_gate g ∧
    sh_lim (w_shared w1) = newExpensiveRequestLimiter (me_numCPU env) (limit_config cfg) ∧
    serve_requests (me_port env) (me_requests env) w1 = (Ok replies, w') ∧
    Forall2 answers (me_requests env) replies.

(** Every listener was told to stop, and its goroutine has ended. *)
Definition listeners_ended (env : MainEnv) (cfg : Config) (b : Boot) : Prop :=
  ∀ i, (i < pairs cfg)%nat →
    SStopped "udp" i ∈ b_steps b ∧ goroutine_ends (be_stop_udp (me_stop env) i) = true ∧
    SStopped "tcp" i ∈ b_steps b ∧ goroutine_ends (be_stop_tcp (me_stop env) i) = true.

Lemma serve_spec env cfg g s b0 b w :
  shared_ok (w_shared w) → cache_ok (b_cache b0) → b_cache b = loaded env cfg b0 →
  s_expLimiter s = newExpensiveRequestLimiter (me_numCPU env) (limit_config cfg) →
  ∃ replies b' w', serve env g s b w = (Ok replies, b', w') ∧ served env cfg g b0 replies w' ∧
    b_cache b' = sh_cache (w_shared w') ∧ b_file b' = b_file b ∧ b_kernel b' = b_kernel b ∧
    b_xdpMap b' = b_xdpMap b ∧ rt_ready (b_rt b') = rt_ready (b_rt b).
Proof.
  intros [_ Hg] Hc Hl Hlim. assert (shared_ok (w_shared (serving_world g s b w))) as Hw.
  { split; [|exact Hg]. simpl. rewrite Hl. by apply loaded_ok. }
  destruct (serve_requests_ok (me_port env) (me_requests env) _ Hw) as (replies & w' & Hs & Ha).
  unfold serve. rewrite Hs. eexists replies, _, w'. split; [done|]. split.
  { exists (serving_world g s b w). by split_and!. }
  case_match; simpl; split_and!; try done. unfold MarkRuntimeWarmupComplete. by case_match.
Qed.

Lemma shutdown_steps_stopped s i :
  ((i < length (s_udpSrvs s))%nat → SStopped "udp" i ∈ shutdown_steps s) ∧
  ((i < length (s_tcpSrvs s))%nat → SStopped "tcp" i ∈ shutdown_steps s).
Proof.
  unfold shutdown_steps. rewrite !elem_of_app, !list_elem_of_fmap.
  split; intros Hi; [right; right; right; left|do 4 right]; exists i; (split; [done|]); apply elem_of_seq; lia.
Qed.

Lemma ended_spec env cfg s b b' l :
  length (s_udpSrvs s) = pairs cfg → length (s_tcpSrvs s) = pairs cfg →
  wait_returns (me_stop env) s = true → b_steps b' = b_steps b ++ shutdown_steps s ++ l →
  listeners_ended env cfg b'.
Proof.
  intros Hu Ht [Wu Wt]%wait_returns_spec Hs i Hi. rewrite Hs, !elem_of_app.
  destruct (shutdown_steps_stopped s i) as [Su St]. rewrite Hu in Su, Wu. rewrite Ht in St, Wt.
  split_and!; eauto.
Qed.

(** The two shutdown calls: the second is made whatever the first returns. *)
Lemma shutdown_both env s b m :
  gracefulShutdown [Some (server_shutdown env); Some (ShutdownMetric env)] (s, b, Some m) =
    match Shutdown (me_stop env) s b with
    | (Hangs, s', b') => (false, [], (s', b', Some m))
    | (Returned err, s', b') =>
        (true, option_list err ++ option_list (me_metricStop env), (s', b', Some (http_Shutdown (me_metricStop env) m).2))
    end.
Proof.
  cbn [gracefulShutdown]. unfold server_shutdown, ShutdownMetric.
  destruct (Shutdown _ _ _) as [[[err|] s'] b']; simpl; [|done]. by rewrite app_nil_r.
Qed.

Lemma not_ready b : rt_ready (b_rt b) = false → (readinessHandler (b_rt b)).1 = StatusServiceUnavailable.
Proof. intros Hn. unfold readinessHandler, RuntimeState. simpl. by rewrite Hn. Qed.

(** What the results of [main] mean. *)
Definition life_of (env : MainEnv) (o : Options) (g : Globals) (b : Boot) (w : World) (r : MainResult) : Prop :=
  match r with
  | MVersion => o_showVersion o = true
  | MConfigError e => o_showVersion o = false ∧ effective_config env o = inr e ∧ exit_code r = Some 1
  | MTraceTypeError v => v = o_traceType o ∧ parseTraceQType v = None ∧ ∃ cfg, effective_config env o = inl cfg
  | MTraced r w' => o_traceDomain o ≠ "" ∧ ∃ cfg qtype, effective_config env o = inl cfg ∧
      parseTraceQType (o_traceType o) = Some qtype ∧
      runTraceMode err_text env (b_file b) (Some cfg) (o_traceDomain o) qtype w = (r, w')
  | MBlocked g' s b' => ∃ cfg, effective_config env o = inl cfg ∧ settings_applied env cfg g g' ∧
      (readinessHandler (b_rt b')).1 = StatusServiceUnavailable ∧
      (udp_starts (before_failure (be_events (me_run env))) = [] ∨
       tcp_starts (before_failure (be_events (me_run env))) = [])
  | MCrashed _ => False
  | MServing g' replies s b' => ∃ cfg w', effective_config env o = inl cfg ∧ settings_applied env cfg g g' ∧
      served env cfg g' b replies w' ∧ (readinessHandler (b_rt b')).1 = StatusOK ∧ me_wakeup env = None
  | MHung g' s b' => ∃ cfg i err, effective_config env o = inl cfg ∧ settings_applied env cfg g g' ∧
      (readinessHandler (b_rt b')).1 = StatusServiceUnavailable ∧ (i < pairs cfg)%nat ∧
      (be_stop_udp (me_stop env) i = StopEarly err true ∨ be_stop_tcp (me_stop env) i = StopEarly err true)
  | MStopped g' replies sig errors s b' metrics =>
      ∃ cfg w', effective_config env o = inl cfg ∧ settings_applied env cfg g g' ∧ served env cfg g' b replies w' ∧
      (readinessHandler (b_rt b')).1 = StatusServiceUnavailable ∧ listeners_ended env cfg b' ∧
      b_kernel b' = b_kernel b ∧ b_xdpMap b' = false ∧ s_xdpLoader s = None ∧
      b_file b' = (if sc_Enabled (cfg_Snapshot cfg) then
        (SaveSnapshot (cfg_Snapshot cfg) (sh_cache (w_shared w')) (be_now (me_stop env)) (be_write (me_stop env))
           (b_file b)).2 else b_file b) ∧
      (∃ left, metrics = Some (mkHttp (Metric (cfg_DNS cfg)) false left) ∧
         (left = true → ∃ e, me_metricStop env = Some e ∧ e ∈ errors)) ∧
      (∀ x, sig = Some x → me_wakeup env = Some (WSignal x))
  end.

(** Serving and shutting down. *)
Lemma served_life env o g g' cfg r s b0 b w :
  effective_config env o = inl cfg → settings_applied env cfg g g' →
  shared_ok (w_shared w) → cache_ok (b_cache b0) → b_cache b = loaded env cfg b0 → b_file b = b_file b0 →
  s_expLimiter s = newExpensiveRequestLimiter (me_numCPU env) (limit_config cfg) →
  s_snapshotCfg s = cfg_Snapshot cfg → length (s_udpSrvs s) = pairs cfg → length (s_tcpSrvs s) = pairs cfg →
  holds_xdp (b_kernel b0) s b → (rt_ready (b_rt b) = true ↔ r = RunReady) → r ≠ RunBlocked →
  life_of env o g b0 w
    (match serve env g' s b w with
     | (Panic, _, w) => MCrashed w
     | (Ok replies, b, _) =>
         match wake env r with
         | None => MServing g' replies s b
         | Some wk =>
             match gracefulShutdown [Some (server_shutdown env); Some (ShutdownMetric env)]
                     (s, b, Some (mkHttp (Metric (cfg_DNS cfg)) (me_metricUp env) false)) with
             | (false, _, (s, b, _)) => MHung g' s b
             | (true, errors, (s, b, metrics)) => MStopped g' replies (waitForSignal wk) errors s b metrics
             end
         end
     end).
Proof.
  intros He Hset Hw Hc Hl Hfile Hlim Hsn Hu Ht Hx Hrdy Hnb.
  destruct (serve_spec env cfg g' s b0 b w Hw Hc Hl Hlim) as (replies & b1 & w1 & -> & Hs & C1 & F1 & K1 & M1 & R1).
  destruct (wake env r) as [wk|] eqn:Ewk.
  2:{ unfold wake in Ewk. destruct (me_wakeup env) eqn:Em; [done|]. destruct r; try done.
      exists cfg, w1. split_and!; try done. unfold readinessHandler, RuntimeState. simpl.
      by rewrite R1, (proj2 Hrdy eq_refl). }
  assert (holds_xdp (b_kernel b0) s b1) as Hx1 by (unfold holds_xdp in *; by rewrite K1, M1).
  rewrite shutdown_both. pose proof (Shutdown_spec (me_stop env) s b1 _ Hx1) as Hsp.
  destruct (Shutdown (me_stop env) s b1) as [[[err|] s2] b2]; destruct Hsp as (Hd & Hh & [l Hst] & Hret).
  - destruct (Hret err eq_refl) as (K & Mp & L & F & _). exists cfg, w1.
    split_and!; try done; [by apply not_ready| | | |].
    + eapply ended_spec; [exact Hu|exact Ht| |exact Hst].
      apply not_false_iff_true. intros Hf. by apply Hh in Hf.
    + rewrite Hsn, C1, F1, Hfile in F. revert F. destruct (sc_Enabled (cfg_Snapshot cfg)); [intros [F _]; exact F|done].
    + eexists. split; [done|]. destruct (me_metricStop env) as [e|]; [|done]. intros _. exists e.
      split; [done|]. rewrite elem_of_app. right. by left.
    + intros x Hsig. unfold wake in Ewk. destruct (me_wakeup env); [|by destruct r; simplify_eq].
      injection Ewk as ->. by destruct wk; simplify_eq/=.
  - destruct (wait_hangs _ _ (proj1 Hh eq_refl)) as (i & e & Hi). rewrite Hu, Ht in Hi. exists cfg, i, e.
    split_and!; try done; [by apply not_ready| |];
      destruct Hi as [[Hi He']|[Hi He']]; try done; auto.
Qed.

(** C11: the life of the process.  [--version] only prints.  A configuration that
    cannot be read or is invalid ends the process with code 1 before anything is
    started, and such an error is reported only for one.  Otherwise the configured
    settings are in force exactly (the upstream timeout is never silently
    rejected), and the process either traces one name, or serves: from whatever
    snapshot file it started, it never crashes on a request and answers every one,
    and it is ready until it is woken up.  It waits forever in [Run] only if no UDP
    or no TCP listener comes up before a failure, and in [Shutdown] only if a
    listener starts after it was told to stop.  Once it has stopped, for whatever
    reason, it is not ready, every listener was told to stop and its goroutine has
    ended, no XDP handle it did not hold before is held and no map published, the
    file holds the snapshot of the cache the requests left if that is enabled (or
    what a failed write leaves), and the metrics server accepts no connections,
    even when stopping the DNS server failed. *)
Theorem main_lifecycle (env : MainEnv) (o : Options) (g : Globals) (b : Boot) (w : World) :
  b_xdpMap b = false → cache_ok (b_cache b) → shared_ok (w_shared w) →
  life_of env o g b w (main err_text env o g b w).
Proof.
  intros Hm Hc Hw. unfold main. destruct (o_showVersion o) eqn:Ev; [done|].
  destruct (effective_config env o) as [cfg|e] eqn:Ec; [|done].
  destruct (String.eqb_spec (o_traceDomain o) "") as [_|Htr]; cbn [negb].
  2:{ destruct (parseTraceQType _) as [q|] eqn:Eq; [|by simpl; eauto].
      destruct (runTraceMode _ _ _ _ _ q w) as [r w'] eqn:Er. split; [done|]. exists cfg, q. by split_and!. }
  pose proof (prepare_spec env cfg g b (effective_valid _ _ _ Ec)) as Hp.
  destruct (prepare env cfg _ b) as [[g1 s1] b1].
  destruct Hp as (Hg & Hf & Hsn & Hn & Hlim & Hr & Hk & Hx & Hfile & Hl).
  pose proof (Run_spec (me_run env) s1 b1 Hf ltac:(by rewrite Hx) Hr) as Hrun.
  pose proof (Run_limiter (me_run env) s1 b1) as Hlim2.
  destruct (Run (me_run env) s1 b1) as [[r s2] b2].
  destruct Hrun as (Hh & Hc2 & Hf2 & Hs2 & Hu & Ht & Hrdy & Hev). simpl in Hlim2.
  rewrite Hn in Hu, Ht. apply (f_equal length) in Hu, Ht. rewrite length_replicate in Hu, Ht.
  rewrite Hk in Hh.
  assert (r = RunBlocked ∨ r ≠ RunBlocked) as [->|Hne] by (destruct r; [right|right|left]; done).
  - exists cfg. split_and!; try done; [|].
    { apply not_ready, not_true_iff_false. intros Hready. by apply Hrdy in Hready. }
    destruct (udp_starts _) eqn:Eu; [by left|right]. destruct (tcp_starts _) eqn:Et; [done|].
    assert (RunBlocked = RunReady) as [=]. by apply Hev.
  - destruct r; [..|done]; eapply served_life; eauto; congruence.
Qed.

End lifecycle.

Module MainWitness.
Import RefWorld BootWitness TraceWitness ConfigWitness.
#[export] Existing Instance RefDns.wire.

(** The configuration [sample] with snapshots and two pairs of listeners. *)
Definition config : Config :=
  let d := cfg_DNS sample in
  mkConfig (mkDNSConfig (Listen d) (Metric d) (LogLevel d) 0 8 "enabled" 4 [] 2)
    (cfg_Warmup sample) (mkSnapshotConfig true "/var/lib/rec53/snapshot.json") (cfg_Hosts sample) (cfg_Forwarding sample)
    (mkXDPConfig true "eth0") (cfg_Debug sample).

Definition client : NetAddr := UDPAddr [192; 0; 2; 7].

(** One request is served, a signal arrives; stopping the metrics server times out. *)
Definition run_env (stop : BootEnv) : MainEnv :=
  mkMainEnv 4 (λ _, ReadOk "dns:") (λ _, inl config) no_resolver "53" (5000 * Second) None up [(client, query)] true
    (Some (WSignal "terminated")) stop true (Some "context deadline exceeded") None.
Definition opts : Options := mkOptions "config.yaml" default_flags false "" "A".
Definition defaults : Globals := mkGlobals (1500 * Millisecond) (newUpstreamConcurrencyGate 4 0) empty_hostsForward InfoLevel.

Definition stop_env : BootEnv := mkBootEnv refused [] (be_stop_udp up) (be_stop_tcp up) None (5001 * Second) None.

(** The keys of a snapshot file. *)
Definition saved_keys (f : FileContent) : list string :=
  match f with FileEntries es => se_Key <$> es | _ => [] end.

Lemma main_lifecycle_witness :
  match main err_text (run_env stop_env) opts defaults cold (serving fresh query) with
  | MStopped g replies sig errors s b metrics =>
      (Answer <$> replies) = [[www]] ∧ sig = Some "terminated" ∧ saved_keys (b_file b) ≠ [] ∧
      b_kernel b = b_kernel cold ∧ (readinessHandler (b_rt b)).1 = StatusServiceUnavailable ∧
      match effective_config (run_env stop_env) opts with
      | inl cfg => pairs cfg = 2%nat ∧ listeners_ended (run_env stop_env) cfg b
      | inr _ => False
      end ∧ (hs_accepts <$> metrics) = Some false ∧
      "context deadline exceeded" ∈ errors
  | _ => False
  end.
Proof.
  pose proof (main_lifecycle err_text (run_env stop_env) opts defaults cold (serving fresh query) eq_refl
    (proj1 fresh_ok) fresh_ok) as H.
  assert (match main err_text (run_env stop_env) opts defaults cold (serving fresh query) with
          | MStopped _ replies sig errors _ b (Some h) =>
              bool_decide ((Answer <$> replies) = [[www]]) && bool_decide (sig = Some "terminated") &&
              negb (bool_decide (saved_keys (b_file b) = [])) && bool_decide ("context deadline exceeded" ∈ errors) &&
              match effective_config (run_env stop_env) opts with inl cfg => bool_decide (pairs cfg = 2%nat) | inr _ => false end
          | _ => false
          end = true) as E by (vm_compute; reflexivity).
  destruct (main _ _ _ _ _ _) as [| | | | | | | |g replies sig errors s b metrics]; try discriminate E.
  destruct metrics as [h|]; [|discriminate E].
  destruct H as (cfg & w' & Hc & _ & _ & Hr & Hl & Hk & _ & _ & _ & (left & Hm & _) & _).
  rewrite Hc in E |- *. rewrite !andb_true_iff, negb_true_iff, !bool_decide_eq_true, bool_decide_eq_false in E.
  destruct E as ((((Ea & Es) & Ek) & Ee) & Ec). rewrite Hm.
  do 5 (split; [assumption|]). split; [split; assumption|]. split; [reflexivity|assumption].
Defined.

(** If the second UDP listener starts only after it was told to stop, the process
    never ends. *)
Example late_listener_hangs :
  match main err_text (run_env late) opts defaults cold (serving fresh query) with MHung _ _ _ => True | _ => False end.
Proof. vm_compute. exact I. Qed.

End MainWitness.
