(* ===== verification/TuiMetrics.v ===== *)
(** * Scraped metrics (tui/metrics.go, tui/config.go)

    What [rec53top] computes from two successive scrapes: sums by label, deltas of
    counters, quantiles of histograms.  The text parser of the Prometheus client
    is a parameter: its result, the metric families, is an input.  Go visits maps
    in an unspecified order, and floating-point sums depend on it, so the order is
    an interface ([GoMapOrder]) of which only permutation is assumed. *)

From Stdlib Require Import SpecFloat.
From S2P Require Import Prelude GoLib GoText Float64.

(** ** Floats and maps *)

Definition f64_eqb : f64 → f64 → bool := SFeqb.
Definition f64_inf : f64 := S754_infinity false.
Definition IsInf_pos (x : f64) : bool := match x with S754_infinity false => true | _ => false end.

(** The order in which [range] visits the entries of a map. *)
Class GoMapOrder := { range_order : ∀ {A : Type}, list A → list A }.
Class GoMapOrderLaws `{GoMapOrder} : Prop := {
  range_order_perm {A} (l : list A) : range_order l ≡ₚ l;
}.

Module RefOrder.
#[export] Instance lib : GoMapOrder := { range_order A l := l }.
#[export] Instance laws : GoMapOrderLaws.
Proof. by split. Qed.
End RefOrder.

Definition range `{GoMapOrder} `{Countable K} {V} (m : gmap K V) : list (K * V) :=
  range_order (map_to_list m).

(** [m[k]] of a [map[K]float64]: zero when absent. *)
Definition get `{Countable K} (m : gmap K f64) (k : K) : f64 := default f64_zero (m !! k).

(** [m[k] += v] *)
Definition add_to `{Countable K} (m : gmap K f64) (k : K) (v : f64) : gmap K f64 :=
  <[k := f64_add (get m k) v]> m.

(** A [map[float64]float64]: keys are compared with Go's [==], for which the two
    zeros are equal and a NaN is never found again. *)
Abbreviation fmap64 := (list (f64 * f64)).

Fixpoint fget (m : fmap64) (k : f64) : f64 :=
  match m with
  | [] => f64_zero
  | (k', v) :: m' => if f64_eqb k k' then v else fget m' k
  end.

Fixpoint fset (m : fmap64) (k v : f64) : fmap64 :=
  match m with
  | [] => [(k, v)]
  | (k', v') :: m' => if f64_eqb k k' then (k', v) :: m' else (k', v') :: fset m' k v
  end.

(** ** The data *)

Record metricSample := mkSample {
  ms_Labels : gmap string string;
  ms_Value : f64;
}.

Record histogramSample := mkHistogram {
  hs_Labels : gmap string string;
  hs_Count : f64;
  hs_Sum : f64;
  hs_Buckets : fmap64;
}.

Record transitionKey := mkTransition {
  From : string;
  To : string;
}.

#[export] Instance transitionKey_eq_dec : EqDecision transitionKey.
Proof. solve_decision. Defined.
#[export] Instance transitionKey_countable : Countable transitionKey.
Proof.
  refine (inj_countable' (λ k, (From k, To k)) (λ p, mkTransition p.1 p.2) _). by intros [].
Defined.

Record MetricsSnapshot := mkMetrics {
  At : Z;
  Gauges : gmap string (list metricSample);
  Counters : gmap string (list metricSample);
  Histograms : gmap string (list histogramSample);
}.

(** The families of the Prometheus client; a missing part is [None]. *)
Inductive MetricType := MT_COUNTER | MT_GAUGE | MT_SUMMARY | MT_UNTYPED | MT_HISTOGRAM.

Record dtoHistogram := mkDtoHistogram {
  dh_SampleCount : Z;                 (* uint64 *)
  dh_SampleSum : f64;
  dh_Buckets : list (f64 * Z);        (* upper bound, cumulative count *)
}.

Record dtoMetric := mkDtoMetric {
  dm_Label : list (string * string);
  dm_Gauge : option f64;
  dm_Counter : option f64;
  dm_Histogram : option dtoHistogram;
}.

Record MetricFamily := mkFamily {
  mf_Type : MetricType;
  mf_Metric : list dtoMetric;
}.

(** ** Parsing *)

Definition collectLabels (labels : list (string * string)) : gmap string string :=
  foldl (λ m l, <[l.1 := l.2]> m) ∅ labels.

Definition collectScalarSamples (family : MetricFamily) (gauge : bool) : list metricSample :=
  (λ m, mkSample (collectLabels (dm_Label m))
          (default f64_zero (if gauge then dm_Gauge m else dm_Counter m))) <$> mf_Metric family.

Definition empty_histogram : dtoHistogram := mkDtoHistogram 0 f64_zero [].

Definition collectHistogramSamples (family : MetricFamily) : list histogramSample :=
  (λ m,
    let h := default empty_histogram (dm_Histogram m) in
    let buckets := foldl (λ b u, fset b u.1 (f64_of_Z u.2)) [] (dh_Buckets h) in
    mkHistogram (collectLabels (dm_Label m)) (f64_of_Z (dh_SampleCount h)) (dh_SampleSum h)
      (fset buckets f64_inf (f64_of_Z (dh_SampleCount h)))) <$> mf_Metric family.

(** Each family is appended to the samples of its kind under its name; names are
    unique, so the visiting order does not matter. *)
Definition parseMetrics (now : Z) (families : gmap string MetricFamily) : MetricsSnapshot :=
  mkMetrics now
    (omap (λ f, match mf_Type f with MT_GAUGE => Some (collectScalarSamples f true) | _ => None end) families)
    (omap (λ f, match mf_Type f with MT_COUNTER => Some (collectScalarSamples f false) | _ => None end) families)
    (omap (λ f, match mf_Type f with MT_HISTOGRAM => Some (collectHistogramSamples f) | _ => None end) families).

(** ** Queries *)

Definition aggregateSamples (s : MetricsSnapshot) (name : string) : option (list metricSample) :=
  match Counters s !! name with
  | Some samples => Some samples
  | None => Gauges s !! name
  end.

Definition sum (s : MetricsSnapshot) (name : string) : option f64 :=
  samples ← aggregateSamples s name;
  Some (foldl (λ total sample, f64_add total (ms_Value sample)) f64_zero samples).

Definition label_of (labels : gmap string string) (label : string) : string :=
  default "" (labels !! label).

Definition or_unknown (s : string) : string := if String.eqb s "" then "unknown" else s.

Definition sumByLabel (s : MetricsSnapshot) (name label : string) : option (gmap string f64) :=
  samples ← aggregateSamples s name;
  Some (foldl (λ m sample, add_to m (or_unknown (label_of (ms_Labels sample) label)) (ms_Value sample)) ∅ samples).

Definition sumByLabelPair (s : MetricsSnapshot) (name left right : string) : option (gmap transitionKey f64) :=
  samples ← aggregateSamples s name;
  Some (foldl (λ m sample,
          add_to m (mkTransition (or_unknown (label_of (ms_Labels sample) left))
                                 (or_unknown (label_of (ms_Labels sample) right))) (ms_Value sample)) ∅ samples).

Definition histogramBuckets (s : MetricsSnapshot) (name : string) : option fmap64 :=
  histograms ← Histograms s !! name;
  Some (foldl (λ buckets h,
          foldl (λ b u, fset b u.1 (f64_add (fget b u.1) u.2)) buckets (hs_Buckets h)) [] histograms).

Definition gaugeValue (s : MetricsSnapshot) (name : string) : option f64 :=
  match Gauges s !! name with
  | Some (sample :: _) => Some (ms_Value sample)
  | _ => None
  end.

Definition hasMetric (s : MetricsSnapshot) (name : string) : bool :=
  match aggregateSamples s name with
  | Some _ => true
  | None => match Histograms s !! name with Some _ => true | None => false end
  end.

(** ** Deltas *)

(** A counter that went down was reset: it counts as no change. *)
Definition deltaFloat (curr prev : f64) : f64 :=
  if f64_ltb curr prev then f64_zero else f64_sub curr prev.

Definition deltaMap `{Countable K} (curr prev : gmap K f64) : gmap K f64 :=
  map_imap (λ key value, Some (deltaFloat value (get prev key))) curr.

Definition deltaBuckets (curr prev : fmap64) : fmap64 :=
  (λ kv, (kv.1, deltaFloat kv.2 (fget prev kv.1))) <$> curr.

(** ** Quantiles *)

(** The order of [sort.Float64s]: NaN before everything else. *)
Definition float_less (x y : f64) : bool := f64_ltb x y || (is_nan x && negb (is_nan y)).

Definition sortFloatKeys `{GoSort} (values : fmap64) : list f64 := sort_Slice float_less values.*1.

(** The loop over the sorted bounds: the first bucket that reaches the target,
    interpolated. *)
Fixpoint quantile_loop (target : f64) (buckets : fmap64) (keys : list f64) (prevUpper prevCount : f64)
    : option f64 :=
  match keys with
  | [] => None
  | upper :: keys' =>
      let count := fget buckets upper in
      if f64_leb target count then
        if IsInf_pos upper then Some prevUpper
        else
          let bucketCount := f64_sub count prevCount in
          if f64_leb bucketCount f64_zero then Some upper
          else
            let position := f64_div (f64_sub target prevCount) bucketCount in
            Some (f64_add prevUpper (f64_mul (f64_sub upper prevUpper) position))
      else quantile_loop target buckets keys' upper count
  end.

Definition histogramQuantile `{GoSort} (q : f64) (buckets : fmap64) : option f64 :=
  let keys := sortFloatKeys buckets in
  lastKey ← last keys;
  let total := fget buckets lastKey in
  if f64_leb total f64_zero then None
  else Some (default lastKey (quantile_loop (f64_mul q total) buckets keys f64_zero f64_zero)).

(** ** Picking the top label *)

(** Larger values first, equal ones by label. *)
Definition top_first {A} (label : A → string) (a b : A * f64) : bool :=
  if f64_eqb a.2 b.2 then strings_lt (label a.1) (label b.1) else f64_ltb b.2 a.2.

Definition pickTopLabel `{GoSort} `{GoMapOrder} (values : gmap string f64) : string * f64 :=
  match sort_Slice (top_first id) (range values) with
  | [] => ("", f64_zero)
  | e :: _ => e
  end.

Definition labelSignature `{GoSort} `{GoMapOrder} (labels : gmap string string) : string :=
  let keys := sort_Slice strings_lt (range labels).*1 in
  Join "," ((λ key, key +:+ "=" +:+ label_of labels key) <$> keys).

(** ** tui/config.go *)

Definition DefaultTarget : string := "http://127.0.0.1:9999/metric".

Record TuiConfig := mkTuiConfig {
  tc_Target : string;
  tc_RefreshInterval : Z;
  tc_Timeout : Z;
  tc_Plain : bool;
}.

Definition normalized (c : TuiConfig) : TuiConfig :=
  mkTuiConfig (if String.eqb (tc_Target c) "" then DefaultTarget else tc_Target c)
    (if tc_RefreshInterval c <=? 0 then 2 * Second else tc_RefreshInterval c)
    (if tc_Timeout c <=? 0 then 1500 * Millisecond else tc_Timeout c) (tc_Plain c).

(** ** Orders on floats *)

Lemma f64_eqb_spec x y :
  is_nan x = false → is_nan y = false →
  f64_eqb x y = negb (f64_ltb x y) && negb (f64_ltb y x).
Proof.
  unfold f64_eqb, SFeqb. destruct x as [[]|[]| |[] ? ?], y as [[]|[]| |[] ? ?]; try done;
    intros _ _; f64_cases.
Qed.

(** Comparing by a first order, and by a second one where the first ties. *)
Definition lex {A} (lt1 lt2 : A → A → bool) (a b : A) : bool :=
  if lt1 a b then true else if lt1 b a then false else lt2 a b.

Lemma lex_weak {A} (lt1 lt2 : A → A → bool) l :
  strict_weak_on lt1 l → strict_weak_on lt2 l → strict_weak_on (lex lt1 lt2) l.
Proof.
  intros [I1 T1 C1] [I2 T2 C2]. unfold lex. split.
  - intros a Ha. by rewrite (I1 a Ha), (I2 a Ha).
  - intros a b c Ha Hb Hc.
    destruct (lt1 a b) eqn:Eab; [|destruct (lt1 b a) eqn:Eba; [done|]];
      (destruct (lt1 b c) eqn:Ebc; [|destruct (lt1 c b) eqn:Ecb; [done|]]).
    + by rewrite (T1 a b c).
    + destruct (lt1 a c) eqn:Eac; [done|]. rewrite (C1 a c b) in Eab by done. done.
    + destruct (lt1 a c) eqn:Eac; [done|]. rewrite (C1 b a c) in Ebc by done. done.
    + rewrite (C1 a b c), (C1 c b a) by done. by apply T2.
  - intros a b c Ha Hb Hc.
    destruct (lt1 a b) eqn:Eab; [done|]. destruct (lt1 b c) eqn:Ebc; [done|]. rewrite (C1 a b c) by done.
    destruct (lt1 c a) eqn:Eca; [done|]. destruct (lt1 b a) eqn:Eba.
    { rewrite (C1 b c a) in Eba by done. done. }
    destruct (lt1 c b) eqn:Ecb; [by rewrite (C1 c a b) in Ecb|]. by apply C2.
Qed.

Lemma strings_lt_weak {A} (label : A → string) l : strict_weak_on (λ a b, strings_lt (label a) (label b)) l.
Proof.
  split.
  - intros a _. apply strings_lt_irrefl.
  - intros a b c _ _ _. apply strings_lt_trans.
  - intros a b c _ _ _ Hab Hbc. destruct (strings_lt (label a) (label c)) eqn:E; [|done].
    destruct (strings_lt_total (label b) (label c)) as [Eq|[Lt|Lt]]; [congruence|congruence|].
    by rewrite (strings_lt_trans _ _ _ E Lt) in Hab.
Qed.

Lemma values_gt_weak {A} (l : list (A * f64)) :
  Forall (λ e, is_nan e.2 = false) l → strict_weak_on (λ a b : A * f64, f64_ltb b.2 a.2) l.
Proof.
  intros Hl. rewrite Forall_forall in Hl. split.
  - intros a _. apply f64_ltb_irrefl.
  - intros a b c _ _ _ Hab Hbc. by eapply f64_ltb_trans.
  - intros a b c Ha Hb Hc Hab Hbc. by apply (f64_ltb_incomp c.2 b.2 a.2); auto.
Qed.

(** The comparator of the rankings is a strict weak order away from NaN. *)
Lemma top_first_lex {A} (label : A → string) (a b : A * f64) :
  is_nan a.2 = false → is_nan b.2 = false →
  top_first label a b = lex (λ a b, f64_ltb b.2 a.2) (λ a b, strings_lt (label a.1) (label b.1)) a b.
Proof.
  intros Ha Hb. unfold top_first, lex. rewrite f64_eqb_spec by done.
  destruct (f64_ltb a.2 b.2) eqn:E1, (f64_ltb b.2 a.2) eqn:E2; try done.
Qed.

Lemma top_first_weak {A} (label : A → string) (l : list (A * f64)) :
  Forall (λ e, is_nan e.2 = false) l → strict_weak_on (top_first label) l.
Proof.
  intros Hl. pose proof (lex_weak _ _ l (values_gt_weak l Hl) (strings_lt_weak (λ e, label e.1) l)) as [I T C].
  rewrite Forall_forall in Hl. split.
  - intros a Ha. rewrite top_first_lex by auto. by apply I.
  - intros a b c Ha Hb Hc. rewrite !top_first_lex by auto. by apply T.
  - intros a b c Ha Hb Hc. rewrite !top_first_lex by auto. by apply C.
Qed.
