(* ===== verification/GoFormat.v ===== *)
(** * Printing floats (Go's fmt and math)

    [fmt.Sprintf] with a fixed number of decimals rounds the exact binary value to
    the nearest decimal, ties to even; [math.Round] rounds half away from zero.
    Both are computed exactly here, from sign, mantissa and exponent. *)

From Stdlib Require Import SpecFloat Ascii.
From S2P Require Import Prelude GoLib GoText Float64.

(** [n / d] rounded to the nearest integer, ties to even; [d > 0]. *)
Definition round_half_even (n d : Z) : Z :=
  let q := n / d in
  let r := n mod d in
  if 2 * r <? d then q
  else if d <? 2 * r then q + 1
  else if Z.even q then q else q + 1.

Lemma round_half_even_near n d :
  0 < d → 2 * Z.abs (round_half_even n d * d - n) ≤ d.
Proof.
  intros Hd. unfold round_half_even. pose proof (Z.div_mod n d ltac:(lia)) as E.
  pose proof (Z.mod_pos_bound n d Hd) as B. set (q := n / d) in *. set (r := n mod d) in *.
  destruct (Z.ltb_spec (2 * r) d); [|destruct (Z.ltb_spec d (2 * r)); [|destruct (Z.even q)]]; nia.
Qed.

(** Numerator and denominator of [m * 2^e * 10^prec]. *)
Definition scaled (m : positive) (e : Z) (prec : nat) : Z * Z :=
  if 0 <=? e then (Z.pos m * 2 ^ e * 10 ^ Z.of_nat prec, 1)
  else (Z.pos m * 10 ^ Z.of_nat prec, 2 ^ (- e)).

Fixpoint zeros (n : nat) : string := match n with O => "" | S n' => "0" +:+ zeros n' end.

Definition pad_zeros (n : nat) (s : string) : string := zeros (n - String.length s) +:+ s.

(** [v / 10^prec] with [prec] decimals. *)
Definition decimal (v : Z) (prec : nat) : string :=
  match prec with
  | O => Itoa v
  | _ => Itoa (v / 10 ^ Z.of_nat prec) +:+ "." +:+ pad_zeros prec (Itoa (v mod 10 ^ Z.of_nat prec))
  end.

(** [fmt.Sprintf("%.<prec>f", x)] *)
Definition format_fixed (prec : nat) (x : f64) : string :=
  match x with
  | S754_nan => "NaN"
  | S754_infinity s => if s then "-Inf" else "+Inf"
  | S754_zero s => (if s then "-" else "") +:+ decimal 0 prec
  | S754_finite s m e =>
      let '(n, d) := scaled m e prec in
      (if s then "-" else "") +:+ decimal (round_half_even n d) prec
  end.

(** [math.Round] *)
Definition f64_round (x : f64) : f64 :=
  match x with
  | S754_finite s m e =>
      if 0 <=? e then x
      else
        let n := (2 * Z.pos m + 2 ^ (- e)) / (2 * 2 ^ (- e)) in
        match n with
        | 0 => S754_zero s
        | _ => f64_of_Z (if s then - n else n)
        end
  | _ => x
  end.

Definition f64_abs (x : f64) : f64 :=
  match x with
  | S754_zero _ => S754_zero false
  | S754_infinity _ => S754_infinity false
  | S754_nan => S754_nan
  | S754_finite _ m e => S754_finite false m e
  end.

Definition is_inf_any (x : f64) : bool := match x with S754_infinity _ => true | _ => false end.

(** [utf8.RuneCountInString]: a well-formed sequence counts once, any other byte
    on its own. *)
Definition byte_in (lo hi : N) (a : ascii) : bool := let n := N_of_ascii a in (lo <=? n)%N && (n <=? hi)%N.

(** Where the second byte of a three- or four-byte sequence must lie. *)
Definition second_ok (a b : ascii) : bool :=
  let n := N_of_ascii a in
  if (n =? 224)%N then byte_in 160 191 b
  else if (n =? 237)%N then byte_in 128 159 b
  else if (n =? 240)%N then byte_in 144 191 b
  else if (n =? 244)%N then byte_in 128 143 b
  else byte_in 128 191 b.

Fixpoint rune_count (s : string) : nat :=
  match s with
  | EmptyString => 0
  | String a s1 =>
      S (match s1 with
         | String b s2 =>
             if byte_in 194 223 a && byte_in 128 191 b then rune_count s2
             else match s2 with
                  | String c s3 =>
                      if byte_in 224 239 a && second_ok a b && byte_in 128 191 c then rune_count s3
                      else match s3 with
                           | String d s4 =>
                               if byte_in 240 244 a && second_ok a b && byte_in 128 191 c && byte_in 128 191 d
                               then rune_count s4 else rune_count s1
                           | EmptyString => rune_count s1
                           end
                  | EmptyString => rune_count s1
                  end
         | EmptyString => 0
         end)
  end.

(** Padding to a width in runes: [%-16s] and [%8s]. *)
Fixpoint spaces (n : nat) : string := match n with O => "" | S n' => " " +:+ spaces n' end.
Definition pad_right (n : nat) (s : string) : string := s +:+ spaces (n - rune_count s).
Definition pad_left (n : nat) (s : string) : string := spaces (n - rune_count s) +:+ s.

(** [f] without its trailing zeros, [f] being a list of digits. *)
Fixpoint strip_zeros (digits : list ascii) : list ascii :=
  match digits with
  | [] => []
  | c :: rest =>
      match strip_zeros rest with
      | [] => if bool_decide (c = "0"%char) then [] else [c]
      | r => c :: r
      end
  end.

(** [Duration.String] for one second and more: hours, minutes, and seconds with
    the decimals they need. *)
Definition Duration_String (d : Z) : string :=
  let secs := Z.quot d Second in
  let frac := strip_zeros (String.list_ascii_of_string (pad_zeros 9 (Itoa (Z.rem d Second)))) in
  let mins := secs / 60 in
  let hours := mins / 60 in
  (if 0 <? hours then Itoa hours +:+ "h" else "") +:+
  (if 0 <? mins then Itoa (mins mod 60) +:+ "m" else "") +:+
  Itoa (secs mod 60) +:+ (match frac with [] => "" | _ => "." +:+ String.string_of_list_ascii frac end) +:+ "s".

Example durations :
  Duration_String <$> [1500 * Millisecond; 2 * Second; 3723 * Second; 60 * Second] = ["1.5s"; "2s"; "1h2m3s"; "1m0s"].
Proof. by vm_compute. Qed.

(** ** The formats of the dashboard (tui/dashboard.go) *)

Definition not_finite (x : f64) : bool := is_nan x || is_inf_any x.

Definition percent (value : f64) : string :=
  if not_finite value then "--" else format_fixed 1 (f64_mul value (f64_of_Z 100)) +:+ "%".

Definition rate (value : f64) : string :=
  if not_finite value then "--" else format_fixed 1 value +:+ "/s".

Definition number (value : f64) : string :=
  if not_finite value then "--"
  else if f64_leb (f64_of_Z 1000) value then format_fixed 0 value
  else format_fixed 1 value.

Definition count (value : f64) : string :=
  if not_finite value then "--"
  else if f64_ltb (f64_abs (f64_sub value (f64_round value))) (f64_const 1 1000000)
  then format_fixed 0 (f64_round value)
  else format_fixed 1 value.

Definition latency (value : f64) : string :=
  if f64_leb value f64_zero || is_nan value || is_inf_any value then "--"
  else format_fixed 1 value +:+ "ms".

Definition fallbackText (value : string) : string := if String.eqb value "" then "--" else value.

Example formats_run :
  (percent (f64_const 1 20), rate (f64_const 5 2), number (f64_of_Z 1234), number (f64_const 5 4),
   count (f64_of_Z 42), latency f64_zero, latency (f64_const 31 2), percent S754_nan)
  = ("5.0%", "2.5/s", "1234", "1.2", "42", "--", "15.5ms", "--").
Proof. vm_compute. reflexivity. Qed.
