(* ===== verification/GoFields.v ===== *)
(** * Splitting text at white space (Go's strings.Fields and TrimSpace)

    Text is scanned byte by byte: a white-space rune of several bytes starts with a
    byte that no other rune has in its middle. *)

From Stdlib Require Import Ascii.
From S2P Require Import Prelude GoLib GoText Float64 GoFormat.

Definition byte_is (n : N) (c : ascii) : bool := (N_of_ascii c =? n)%N.

(** The white-space runes of three bytes: U+1680, U+2000 to U+200A, U+2028,
    U+2029, U+202F, U+205F and U+3000. *)
Definition space3 (a b c : ascii) : bool :=
  byte_is 225 a && byte_is 154 b && byte_is 128 c ||
  byte_is 226 a && byte_is 128 b &&
    (byte_in 128 138 c || byte_is 168 c || byte_is 169 c || byte_is 175 c) ||
  byte_is 226 a && byte_is 129 b && byte_is 159 c ||
  byte_is 227 a && byte_is 128 b && byte_is 128 c.

(** The length of the white-space rune [s] starts with; zero if it does not. *)
Definition space_width (s : string) : nat :=
  match s with
  | EmptyString => 0
  | String a s1 =>
      if is_space a then 1
      else match s1 with
           | EmptyString => 0
           | String b s2 =>
               if byte_is 194 a && (byte_is 133 b || byte_is 160 b) then 2
               else match s2 with
                    | EmptyString => 0
                    | String c _ => if space3 a b c then 3 else 0
                    end
           end
  end.

(** [s] without [skip] bytes and the white space after them. *)
Fixpoint skip_space (s : string) (skip : nat) : string :=
  match s with
  | EmptyString => ""
  | String _ r =>
      match skip with
      | S k => skip_space r k
      | O => match space_width s with O => s | S k => skip_space r k end
      end
  end.

(** [s] up to the last byte that is not white space. *)
Fixpoint cut_space (s : string) : string :=
  match s with
  | EmptyString => ""
  | String c r => if String.eqb (skip_space s 0) "" then "" else String c (cut_space r)
  end.

(** [strings.TrimSpace] *)
Definition strings_TrimSpace (s : string) : string := cut_space (skip_space s 0).

Definition emit (cur : string) (l : list string) : list string :=
  if String.eqb cur "" then l else cur :: l.

Fixpoint fields_go (s : string) (skip : nat) (cur : string) : list string :=
  match s with
  | EmptyString => emit cur []
  | String c r =>
      match skip with
      | S k => fields_go r k cur
      | O => match space_width s with
             | O => fields_go r O (cur +:+ String c "")
             | S k => emit cur (fields_go r k "")
             end
      end
  end.

(** [strings.Fields] *)
Definition Fields (s : string) : list string := fields_go s 0 "".

Example Fields_runs :
  Fields " a.example.  AAAA extra" = ["a.example."; "AAAA"; "extra"] ∧
  strings_TrimSpace (String (ascii_of_N 194) (String (ascii_of_N 160) " x y ")) = "x y" ∧
  Fields (String (ascii_of_N 195) (String (ascii_of_N 160) " y")) =
    [String (ascii_of_N 195) (String (ascii_of_N 160) ""); "y"].
Proof. by vm_compute. Qed.

(** ** Fields of a trimmed line *)

Lemma fields_go_cur s k cur : cur ≠ "" → fields_go s k cur ≠ [].
Proof.
  revert k cur. induction s as [|c s IH]; intros k cur Hc; cbn [fields_go].
  - unfold emit. by rewrite (proj2 (String.eqb_neq _ _) Hc).
  - destruct k as [|k]; [|by apply IH].
    destruct (space_width (String c s)); [apply IH; by destruct cur|].
    unfold emit. by rewrite (proj2 (String.eqb_neq _ _) Hc).
Qed.

Lemma space_width_app s u : space_width s ≠ 0%nat → space_width (s +:+ u) = space_width s.
Proof.
  destruct s as [|a [|b [|c s]]]; [done|..]; simpl; (destruct (is_space a); [done|]); [done|..];
    by destruct (byte_is 194 a && (byte_is 133 b || byte_is 160 b)).
Qed.

Lemma cut_space_prefix s : ∃ u, s = cut_space s +:+ u.
Proof.
  induction s as [|c s [u IH]]; [by exists ""|]. cbn [cut_space].
  case_match; [by exists (String c s)|]. exists u. change (String c s = String c (cut_space s +:+ u)). by f_equal.
Qed.

Lemma skip_space_head s k : skip_space s k = "" ∨ space_width (skip_space s k) = 0%nat.
Proof.
  revert k. induction s as [|c s IH]; intros k; [by left|]. cbn [skip_space].
  destruct k as [|k]; [|done]. destruct (space_width (String c s)) eqn:E; [by right|done].
Qed.

(** A line with something on it has a first field. *)
Lemma Fields_trimmed s : strings_TrimSpace s ≠ "" → Fields (strings_TrimSpace s) ≠ [].
Proof.
  unfold strings_TrimSpace, Fields. destruct (skip_space_head s 0) as [->|Hw]; [done|].
  destruct (skip_space s 0) as [|c t]; [done|]. cbn [cut_space].
  case_match; [done|]. intros _. destruct (cut_space_prefix t) as [u Hu]. cbn [fields_go].
  destruct (space_width (String c (cut_space t))) eqn:E; [by apply fields_go_cur|].
  assert (space_width (String c t) = S n) as E'; [|congruence].
  rewrite Hu, <- E. change (String c (cut_space t +:+ u)) with (String c (cut_space t) +:+ u).
  apply space_width_app. by rewrite E.
Qed.
