(* ===== verification/CpuStat.v ===== *)
(** * Reading the processor counters (server/hot_zone_protection.go)

    [readCPUStat] reads the first line of [/proc/stat] and adds up its counters;
    the CPU sampler of the hot-zone controller turns two readings into a usage. *)

From Stdlib Require Import Ascii.
From S2P Require Import Prelude GoLib GoText Float64 GoFormat GoFields HotZone.

(** ** fmt.Sscanf with one [%d] into a [uint64] *)

(** The longest prefix of decimal digits. *)
Fixpoint digit_prefix (s : string) : string :=
  match s with
  | EmptyString => ""
  | String c r => match digit_of c with Some _ => String c (digit_prefix r) | None => "" end
  end.

(** An error without a digit, and for a number that does not fit; what follows
    the digits is not looked at. *)
Definition Sscanf_d (s : string) : option Z :=
  v ← unsigned_value (digit_prefix s);
  if v <? 2 ^ 64 then Some v else None.

(** ** readCPUStat *)

(** [strings.SplitN(data, "\n", 2)[0]] *)
Definition first_line (data : string) : string := default "" (head (split_char "010"%char data)).

(** The loop over the fields after the first: at most [len(values)] of them. *)
Fixpoint stat_loop (room : nat) (fields : list string) (total : Z) (values : list Z) : option (Z * list Z) :=
  match room, fields with
  | O, _ | _, [] => Some (total, values)
  | S room', f :: fields' =>
      v ← Sscanf_d f;
      stat_loop room' fields' (u64 (total + v)) (values ++ [v])
  end.

(** [file] is what [os.ReadFile] returns; the result is the total and the idle
    time.  The entries of [values] that were not read are zero. *)
Definition readCPUStat (file : option string) : option (Z * Z) :=
  data ← file;
  match Fields (first_line data) with
  | name :: rest =>
      if (length rest <? 4)%nat || negb (String.eqb name "cpu") then None
      else
        '(total, values) ← stat_loop 8 rest 0 [];
        Some (total, u64 (default 0 (values !! 3%nat) + default 0 (values !! 4%nat)))
  | [] => None
  end.

Example readCPUStat_runs :
  readCPUStat (Some ("cpu  10 2 3 400 50 6 7 8 900 1000" +:+ newline +:+ "cpu0 1 1 1 1")) = Some (486, 450) ∧
  readCPUStat (Some "cpu 1 2 3") = None ∧ readCPUStat (Some "cpu0 1 2 3 4") = None ∧
  readCPUStat (Some "cpu 1 2 x 4") = None ∧ readCPUStat None = None.
Proof. by vm_compute. Qed.

(** The usage of a sample, from the contents of the file. *)
Definition sample_usage (s : cpuUsageSampler) (now : Z) (file : option string) : f64 * cpuUsageSampler :=
  CPUUsage s now (readCPUStat file).

(** ** Bounds *)

Lemma digits_value_nonneg acc s v : 0 ≤ acc → digits_value acc s = Some v → 0 ≤ v.
Proof.
  revert acc. induction s as [|c s IH]; intros acc Ha; simpl; [by intros [= <-]|].
  unfold digit_of. case_match eqn:E; [|done]. intros H. simpl in H.
  apply IH in H; [done|]. apply andb_true_iff in E as [E1%Z.leb_le _]. lia.
Qed.

Lemma Sscanf_d_bounds s v : Sscanf_d s = Some v → 0 ≤ v < 2 ^ 64.
Proof.
  unfold Sscanf_d. intros (v' & Hv & H)%bind_Some. case_match eqn:E; [|done]. injection H as <-.
  apply Z.ltb_lt in E. split; [|done]. unfold unsigned_value in Hv. case_match; [done|].
  by eapply (digits_value_nonneg 0).
Qed.

Lemma stat_loop_spec room fields total values total' values' :
  stat_loop room fields total values = Some (total', values') →
  ∃ vs, mapM Sscanf_d (take room fields) = Some vs ∧ values' = values ++ vs ∧
    total' = fold_left (λ t v, u64 (t + v)) vs total.
Proof.
  revert fields total values. induction room as [|room IH]; intros fields total values; simpl.
  { intros [= -> ->]. exists []. by rewrite app_nil_r. }
  destruct fields as [|f fields]; simpl.
  { intros [= -> ->]. exists []. by rewrite app_nil_r. }
  intros (v & Hv & H)%bind_Some. destruct (IH _ _ _ H) as (vs & Hvs & -> & ->). exists (v :: vs).
  rewrite Hv. simpl. rewrite Hvs. simpl. split; [done|]. by rewrite <-(assoc_L (++)).
Qed.

Lemma stat_loop_complete room fields total values vs :
  mapM Sscanf_d (take room fields) = Some vs →
  stat_loop room fields total values = Some (fold_left (λ t v, u64 (t + v)) vs total, values ++ vs).
Proof.
  revert fields total values vs. induction room as [|room IH]; intros fields total values vs; simpl.
  { intros [= <-]. by rewrite app_nil_r. }
  destruct fields as [|f fields]; simpl; [intros [= <-]; by rewrite app_nil_r|].
  intros (v & Hv & (vs' & Hvs & [= <-])%bind_Some)%bind_Some. rewrite Hv. simpl.
  rewrite (IH _ _ _ _ Hvs). simpl. by rewrite <-(assoc_L (++)).
Qed.

Lemma wrapping_sum_acc vs t : fold_left (λ t v, u64 (t + v)) vs (u64 t) = u64 (t + foldr Z.add 0 vs).
Proof.
  revert t. induction vs as [|v vs IH]; intros t; simpl; [f_equal; lia|].
  unfold u64 in *. rewrite Zplus_mod_idemp_l, IH. f_equal. lia.
Qed.

(** A wrapping sum is the sum, modulo [2^64]. *)
Lemma wrapping_sum vs : fold_left (λ t v, u64 (t + v)) vs 0 = u64 (foldr Z.add 0 vs).
Proof. exact (wrapping_sum_acc vs 0). Qed.

(** ** A line as the kernel prints it is read back *)

Definition word_char (c : ascii) : bool := negb (is_space c) && (N_of_ascii c <? 128)%N.

Fixpoint word (s : string) : bool :=
  match s with EmptyString => true | String c r => word_char c && word r end.

Lemma word_char_width c s : word_char c = true → space_width (String c s) = 0%nat.
Proof.
  unfold word_char. intros [Hs%negb_true_iff Hn%N.ltb_lt]%andb_true_iff. simpl. rewrite Hs.
  destruct s as [|b [|d s]]; [done|..]; unfold space3, byte_is;
    rewrite !(proj2 (N.eqb_neq (N_of_ascii c) _)) by lia; done.
Qed.

Lemma append_nil_r (s : string) : s +:+ "" = s.
Proof. induction s as [|c s IH]; [done|]. change (String c (s +:+ "") = String c s). by f_equal. Qed.

Lemma append_snoc (s t : string) (c : ascii) : (s +:+ String c "") +:+ t = s +:+ String c t.
Proof.
  induction s as [|d s IH]; [done|].
  change (String d ((s +:+ String c "") +:+ t) = String d (s +:+ String c t)). by f_equal.
Qed.

Lemma fields_go_word w s cur :
  word w = true → fields_go (w +:+ s) 0 cur = fields_go s 0 (cur +:+ w).
Proof.
  revert cur. induction w as [|c w IH]; intros cur Hw.
  - by rewrite append_nil_r.
  - change (word (String c w)) with (word_char c && word w) in Hw. apply andb_true_iff in Hw as [Hc Hw].
    change (String c w +:+ s) with (String c (w +:+ s)). cbn [fields_go].
    rewrite (word_char_width c _ Hc), (IH _ Hw). by rewrite append_snoc.
Qed.

(** [Fields] undoes joining with spaces. *)
Lemma Fields_Join ws :
  Forall (λ w, word w = true ∧ w ≠ "") ws → Fields (Join " " ws) = ws.
Proof.
  unfold Fields. induction 1 as [|w ws [Hw Hne] Hws IH]; [done|].
  assert (∀ l, emit w l = w :: l) as Hemit
    by (intros l; unfold emit; by rewrite (proj2 (String.eqb_neq _ _) Hne)).
  destruct ws as [|w' ws].
  - change (Join " " [w]) with w. pose proof (fields_go_word w "" "" Hw) as Hf.
    rewrite append_nil_r in Hf. rewrite Hf. change ("" +:+ w) with w. simpl. by rewrite Hemit.
  - change (Join " " (w :: w' :: ws)) with (w +:+ (" " +:+ Join " " (w' :: ws))).
    rewrite (fields_go_word _ _ _ Hw). change ("" +:+ w) with w.
    change (" " +:+ Join " " (w' :: ws)) with (String " "%char (Join " " (w' :: ws))). cbn [fields_go].
    change (space_width (String " "%char (Join " " (w' :: ws)))) with 1%nat. cbv iota. by rewrite IH, Hemit.
Qed.

(** ** Decimal numbers *)

Lemma digit_char_value (n : N) :
  (n < 10)%N → digit_of (pretty_N_char n) = Some (Z.of_N n) ∧ word_char (pretty_N_char n) = true.
Proof.
  intros Hn. assert (n ∈ [0; 1; 2; 3; 4; 5; 6; 7; 8; 9]%N) as Hin by (set_unfold; lia).
  revert Hin. clear. revert n. apply Forall_forall. repeat constructor.
Qed.

(** A property of the strings of digits that holds of the empty one holds of a
    printed number. *)
Lemma pretty_N_go_ind (P : string → Prop) :
  (∀ n s, (n < 10)%N → P s → P (String (pretty_N_char n) s)) →
  ∀ x s, P s → P (pretty_N_go x s).
Proof.
  intros Hstep x. induction (N.lt_wf_0 x) as [x _ IH]. intros s Hs.
  destruct (decide (0 < x)%N) as [Hx|Hx].
  - rewrite pretty_N_go_step by done. apply IH; [by apply N.div_lt|]. apply Hstep; [by apply N.mod_lt|done].
  - replace x with 0%N by lia. by rewrite pretty_N_go_0.
Qed.

Lemma digits_value_go x s : digits_value 0 (pretty_N_go x s) = digits_value (Z.of_N x) s.
Proof.
  revert s. induction (N.lt_wf_0 x) as [x _ IH]. intros s. destruct (decide (0 < x)%N) as [Hx|Hx].
  - rewrite pretty_N_go_step by done. rewrite IH by by apply N.div_lt.
    cbn [digits_value]. rewrite (proj1 (digit_char_value _ (N.mod_lt x 10 ltac:(lia)))). simpl. f_equal.
    rewrite (N.div_mod x 10) at 3 by lia. lia.
  - replace x with 0%N by lia. by rewrite pretty_N_go_0.
Qed.

Lemma pretty_N_digits (n : N) (P : string → Prop) :
  P "" → (∀ n s, (n < 10)%N → P s → P (String (pretty_N_char n) s)) → P (pretty n).
Proof.
  intros H0 Hstep. unfold pretty, pretty_N. case_decide; [by apply (Hstep 0%N)|].
  by apply pretty_N_go_ind.
Qed.

Lemma pretty_N_not_empty (n : N) : pretty n ≠ "".
Proof.
  unfold pretty, pretty_N. case_decide as Hn; [done|].
  rewrite pretty_N_go_step by lia. by apply (pretty_N_go_ind (λ s, s ≠ "")).
Qed.

(** [Sscanf] reads a printed number back. *)
Lemma Sscanf_d_pretty (n : N) : (n < 2 ^ 64)%N → Sscanf_d (pretty n) = Some (Z.of_N n).
Proof.
  intros Hn. unfold Sscanf_d.
  assert (digit_prefix (pretty n) = pretty n) as ->.
  { apply (pretty_N_digits n (λ s, digit_prefix s = s)); [done|]. intros m s Hm Hs. cbn [digit_prefix].
    by rewrite (proj1 (digit_char_value m Hm)), Hs. }
  assert (unsigned_value (pretty n) = Some (Z.of_N n)) as ->.
  { unfold unsigned_value. pose proof (pretty_N_not_empty n) as Hne.
    assert (digits_value 0 (pretty n) = Some (Z.of_N n)) as Hd.
    { unfold pretty, pretty_N. case_decide; [by subst|]. by rewrite digits_value_go. }
    by destruct (pretty n). }
  simpl. by rewrite (proj2 (Z.ltb_lt (Z.of_N n) _)) by lia.
Qed.

(** The line of the kernel: "cpu", then the counters. *)
Definition cpu_line (counters : list N) : string := Join " " ("cpu" :: (pretty <$> counters)).

Lemma pretty_N_word (n : N) : word (pretty n) = true ∧ pretty n ≠ "".
Proof.
  split; [|apply pretty_N_not_empty]. apply (pretty_N_digits n (λ s, word s = true)); [done|].
  intros m s Hm Hs. cbn [word]. by rewrite (proj2 (digit_char_value m Hm)), Hs.
Qed.

Lemma word_no_newline s : word s = true → has_char "010"%char s = false.
Proof.
  induction s as [|c s IH]; [done|]. cbn [word]. intros [Hc Hs]%andb_true_iff.
  cbn [has_char]. rewrite (IH Hs), orb_false_r. apply Ascii.eqb_neq. intros E. subst c. by vm_compute in Hc.
Qed.

Lemma Join_no_newline ws : Forall (λ w, word w = true) ws → has_char "010"%char (Join " " ws) = false.
Proof.
  induction 1 as [|w ws Hw Hws IH]; [done|]. apply word_no_newline in Hw.
  destruct ws as [|w' ws]; [done|].
  change (Join " " (w :: w' :: ws)) with (w +:+ (" " +:+ Join " " (w' :: ws))).
  by rewrite !has_char_app, Hw, IH.
Qed.

(** What the kernel printed is what is read: the total of the first eight
    counters, idle and waiting time together, modulo [2^64]; whatever follows on
    other lines. *)
Theorem readCPUStat_cpu_line (counters : list N) (rest : string) :
  (4 ≤ length counters)%nat → Forall (λ n, n < 2 ^ 64)%N counters →
  readCPUStat (Some (cpu_line counters +:+ newline +:+ rest)) =
    Some (u64 (foldr Z.add 0 (Z.of_N <$> take 8 counters)),
          u64 (default 0 ((Z.of_N <$> counters) !! 3%nat) + default 0 ((Z.of_N <$> counters) !! 4%nat))).
Proof.
  intros Hlen Hb. unfold readCPUStat, first_line. cbn [mbind option_bind].
  assert (Forall (λ w, word w = true ∧ w ≠ "") ("cpu" :: (pretty <$> counters))) as Hws.
  { constructor; [done|]. apply Forall_fmap. apply Forall_true. intros n. apply pretty_N_word. }
  change (newline +:+ rest) with (String "010"%char rest). rewrite split_char_app.
  2:{ apply Join_no_newline. eapply Forall_impl; [exact Hws|]. by intros w [? _]. }
  change (default "" (head (cpu_line counters :: split_char "010"%char rest))) with (cpu_line counters).
  unfold cpu_line. rewrite (Fields_Join _ Hws), length_fmap, (proj2 (Nat.ltb_ge _ _) Hlen).
  change (false || negb (String.eqb "cpu" "cpu")) with false. cbv iota.
  assert (mapM Sscanf_d (take 8 (pretty <$> counters)) = Some (Z.of_N <$> take 8 counters)) as Hm.
  { rewrite <-fmap_take. apply mapM_Some. apply Forall2_fmap. apply Forall_Forall2_diag.
    apply Forall_take. eapply Forall_impl; [exact Hb|]. intros n Hn. by apply Sscanf_d_pretty. }
  rewrite (stat_loop_complete _ _ _ _ _ Hm). cbn [mbind option_bind app]. rewrite wrapping_sum.
  do 2 f_equal. f_equal. by rewrite !list_lookup_fmap, !lookup_take_lt by lia.
Qed.
