(* ===== verification/DnsPerf.v ===== *)
(** * The load generator (tools/dnsperf/main.go)

    The tool reads a list of queries, hands them in turn to a pool of workers,
    each with one connection to the server, and reports counts and latencies.
    This file models its sequential parts: the query file, a worker's exchange with
    its reconnection, the statistics and their printed form, and the checks of
    [main].  The goroutines and channels that connect them are in [PerfRun].

    Upper-casing is the ASCII one ([ToUpper] of [HostsForward]). *)

From Stdlib Require Import SpecFloat Ascii.
From S2P Require Import Prelude GoLib GoText Float64 FloatExact Dns HostsForward TuiMetrics GoFormat GoFields.

(** ** Lines *)

(** [bufio.MaxScanTokenSize] *)
Definition MaxScanTokenSize : Z := 64 * 1024.

Fixpoint dropCR (s : string) : string :=
  match s with
  | EmptyString => ""
  | String c EmptyString => if byte_is 13 c then "" else s
  | String c r => String c (dropCR r)
  end.

(** The lines a [bufio.Scanner] delivers and the error it stops with: a line that
    does not fit the buffer, or [readErr] at the end of the data.  A last line is
    delivered without a line break, but not if it is empty. *)
Fixpoint scan_pieces (pieces : list string) (readErr : option string) : list string * option string :=
  match pieces with
  | [] => ([], readErr)
  | p :: rest =>
      if MaxScanTokenSize <=? Z.of_nat (String.length p) then ([], Some "bufio.Scanner: token too long")
      else match rest with
           | [] => (if String.eqb p "" then [] else [dropCR p], readErr)
           | _ => let '(ls, e) := scan_pieces rest readErr in (dropCR p :: ls, e)
           end
  end.

Definition scan_lines (data : string) (readErr : option string) : list string * option string :=
  scan_pieces (split_char newline_char data) readErr.

(** ** Queries *)

Record query := mkQuery {
  q_name : string;
  q_qtype : Z;
}.

Record result := mkResult {
  r_latency : Z;
  r_rcode : Z;
  r_timeout : bool;
  r_err : bool;
}.

Inductive LoadErr :=
| LOpen (err : string)
| LUnknownType (lineNo : Z) (field : string)
| LScan (err : string)
| LEmpty (path : string).

(** What reading a file gives: an error of [os.Open], or the data up to the end of
    the file or a read error. *)
Definition FileSys : Type := string → string * option string + string.

Section dnsperf.
Context `{DL : DnsLib} `{DN : DnsNames} `{GS : GoSort} `{GO : GoMapOrder}.

(** One line: nothing, a query, or an unknown type; [fields[0]] of no fields
    panics. *)
Definition parse_line (lineNo : Z) (text : string) : res (option query + LoadErr) :=
  let line := strings_TrimSpace text in
  match line with
  | EmptyString => Ok (inl None)
  | String c _ =>
      if bool_decide (c = "#"%char) then Ok (inl None)
      else
        match Fields line with
        | [] => Panic
        | name :: more =>
            match more with
            | [] => Ok (inl (Some (mkQuery (Fqdn name) TypeA)))
            | t :: _ =>
                match TypeOfString (ToUpper t) with
                | None => Ok (inr (LUnknownType lineNo t))
                | Some qtype => Ok (inl (Some (mkQuery (Fqdn name) qtype)))
                end
            end
        end
  end.

Fixpoint load_loop (lineNo : Z) (lines : list string) (qs : list query) : res (list query + LoadErr) :=
  match lines with
  | [] => Ok (inl qs)
  | l :: rest =>
      match parse_line (lineNo + 1) l with
      | Panic => Panic
      | Ok (inr e) => Ok (inr e)
      | Ok (inl None) => load_loop (lineNo + 1) rest qs
      | Ok (inl (Some q)) => load_loop (lineNo + 1) rest (qs ++ [q])
      end
  end.

Definition loadQueriesFromFile (fs : FileSys) (path : string) : res (list query + LoadErr) :=
  match fs path with
  | inr err => Ok (inr (LOpen err))
  | inl (data, readErr) =>
      let '(lines, err) := scan_lines data readErr in
      match load_loop 0 lines [] with
      | Panic => Panic
      | Ok (inr e) => Ok (inr e)
      | Ok (inl qs) =>
          match err with
          | Some e => Ok (inr (LScan e))
          | None => match qs with [] => Ok (inr (LEmpty path)) | _ => Ok (inl qs) end
          end
      end
  end.

(** ** A worker *)

(** What a worker observes of the network and the clock, in any state [N]:
    [dns.DialTimeout], [WriteMsg], [ReadMsg] (which may return a message along
    with an error), [time.Now], and the id [SetQuestion] draws. *)
Record Net (N : Type) := mkNet {
  net_dial : N → option string * N;
  net_write : Msg → N → option string * N;
  net_read : N → (option Msg * option string) * N;
  net_now : N → Z * N;
  net_id : N → Z * N;
}.
#[global] Arguments net_dial {N} _ _.
#[global] Arguments net_write {N} _ _ _.
#[global] Arguments net_read {N} _ _.
#[global] Arguments net_now {N} _ _.
#[global] Arguments net_id {N} _ _.

(** What it does to connections. *)
Inductive WEvent := Dialed (ok : bool) | DeadlineSet (t : Z) | Wrote | WasRead | WasClosed.

Section worker.
Context {N : Type} (net : Net N) (timeout : Z).

(** [conn != nil], the network, and the events so far. *)
Record WorkerSt := mkWorkerSt {
  w_conn : bool;
  w_net : N;
  w_events : list WEvent;
}.

Definition push (s : WorkerSt) (n : N) (conn : bool) (e : WEvent) : WorkerSt :=
  mkWorkerSt conn n (w_events s ++ [e]).

Definition dial (s : WorkerSt) : WorkerSt :=
  let '(err, n) := net_dial net (w_net s) in
  let ok := match err with None => true | Some _ => false end in
  push s n ok (Dialed ok).

Definition close (s : WorkerSt) : WorkerSt := push s (w_net s) false WasClosed.

(** The loop over the attempts: [resp] and [err] are the variables of the loop. *)
Fixpoint attempts (n : nat) (msg : Msg) (deadline : Z) (resp : option Msg) (err : option string)
    (s : WorkerSt) : option Msg * option string * WorkerSt :=
  match n with
  | O => (resp, err, s)
  | S n' =>
      let s1 := if w_conn s then s else dial s in
      if negb (w_conn s1) then (resp, Some "dial failed", s1)
      else
        let s2 := push s1 (w_net s1) true (DeadlineSet deadline) in
        let '(werr, nw) := net_write net msg (w_net s2) in
        let s3 := push s2 nw true Wrote in
        match werr with
        | Some e => attempts n' msg deadline resp (Some e) (close s3)
        | None =>
            let '((resp', rerr), nr) := net_read net (w_net s3) in
            let s4 := push s3 nr true WasRead in
            match rerr with
            | Some e => attempts n' msg deadline resp' (Some e) (close s4)
            | None => (resp', None, s4)
            end
        end
  end.

Definition isTimeout (err : string) : bool := Contains err "timeout" || Contains err "deadline".

Definition now_of (s : WorkerSt) : Z * WorkerSt :=
  let '(t, n) := net_now net (w_net s) in (t, mkWorkerSt (w_conn s) n (w_events s)).

(** The body of the loop over the queries. *)
Definition worker_query (q : query) (s : WorkerSt) : result * WorkerSt :=
  let '(id, n) := net_id net (w_net s) in
  let msg := set_RecursionDesired (SetQuestion new_Msg (q_name q) (q_qtype q) id) true in
  let '(t0, s1) := now_of (mkWorkerSt (w_conn s) n (w_events s)) in
  let '(resp, err, s2) := attempts 2 msg (t0 + timeout) None None s1 in
  let '(t1, s3) := now_of s2 in
  let lat := time_Sub t1 t0 in
  (match err with
   | Some e => if isTimeout e then mkResult lat 0 true false else mkResult lat 0 false true
   | None => match resp with
             | Some m => mkResult lat (Rcode (Hdr m)) false false
             | None => mkResult lat 0 false false
             end
   end, s3).

Fixpoint worker_loop (qs : list query) (s : WorkerSt) : list result * WorkerSt :=
  match qs with
  | [] => ([], s)
  | q :: rest =>
      let '(r, s1) := worker_query q s in
      let '(rs, s2) := worker_loop rest s1 in
      (r :: rs, s2)
  end.

(** The worker on the queries it receives before the channel is closed: it dials,
    answers each query with one result, and closes its connection. *)
Definition worker (qs : list query) (n : N) : list result * WorkerSt :=
  let '(rs, s) := worker_loop qs (dial (mkWorkerSt false n [])) in
  (rs, if w_conn s then close s else s).
End worker.

(** ** Statistics *)

(** The counters are [int64]; counting one query at a time does not reach their
    bound. *)
Record collector := mkCollector {
  c_lats : list Z;
  c_rcodes : gmap Z Z;
  c_timeouts : Z;
  c_errors : Z;
  c_total : Z;
}.

(** The capacity is only reserved; a non-positive estimate is replaced. *)
Definition newCollector (estimateCap : Z) : collector * Z :=
  (mkCollector [] ∅ 0 0 0, if estimateCap <=? 0 then 10000 else estimateCap).

Definition record (c : collector) (r : result) : collector :=
  let lats := c_lats c ++ [r_latency r] in
  let total := c_total c + 1 in
  if r_timeout r then mkCollector lats (c_rcodes c) (c_timeouts c + 1) (c_errors c) total
  else if r_err r then mkCollector lats (c_rcodes c) (c_timeouts c) (c_errors c + 1) total
  else mkCollector lats (<[r_rcode r := default 0 (c_rcodes c !! r_rcode r) + 1]> (c_rcodes c))
         (c_timeouts c) (c_errors c) total.

Record statsSnap := mkSnap {
  s_total : Z;
  s_timeouts : Z;
  s_errors : Z;
  s_rcodes : gmap Z Z;
  s_sorted : list Z;
}.

Definition perf_snapshot (c : collector) : statsSnap :=
  mkSnap (c_total c) (c_timeouts c) (c_errors c) (c_rcodes c) (sort_Slice Z.ltb (c_lats c)).

(** [l[i]] *)
Definition index {A} (l : list A) (i : Z) : res A :=
  if i <? 0 then Panic
  else match l !! Z.to_nat i with Some x => Ok x | None => Panic end.

Definition percentile (s : statsSnap) (p : f64) : res Z :=
  let n := Z.of_nat (length (s_sorted s)) in
  if n =? 0 then Ok 0
  else index (s_sorted s) (f64_trunc (f64_mul (f64_of_Z (n - 1)) p)).

(** ** Reports *)

Definition fmtLat (d : Z) : string :=
  let us := Z.quot d 1000 in
  if us <? 1000 then Itoa us +:+ "us"
  else format_fixed 1 (f64_div (f64_of_Z us) (f64_of_Z 1000)) +:+ "ms".

Definition p50 : f64 := f64_const 50 100.
Definition p75 : f64 := f64_const 75 100.
Definition p90 : f64 := f64_const 90 100.
Definition p95 : f64 := f64_const 95 100.
Definition p99 : f64 := f64_const 99 100.
Definition p999 : f64 := f64_const 999 1000.

Definition rbind {A B} (r : res A) (f : A → res B) : res B :=
  match r with Ok a => f a | Panic => Panic end.

Definition printProgress (elapsed : Z) (s : statsSnap) : res string :=
  let qps := f64_div (f64_of_Z (s_total s)) (Seconds elapsed) in
  let errs := s_timeouts s + s_errors s in
  rbind (percentile s p50) (λ a, rbind (percentile s p95) (λ b, rbind (percentile s p99) (λ c,
  Ok ("[" +:+ pad_left 4 (format_fixed 0 (Seconds elapsed)) +:+ "s] sent=" +:+ pad_right 8 (Itoa (s_total s)) +:+
      " qps=" +:+ pad_right 8 (format_fixed 0 qps) +:+ " p50=" +:+ pad_right 8 (fmtLat a) +:+
      " p95=" +:+ pad_right 8 (fmtLat b) +:+ " p99=" +:+ pad_right 8 (fmtLat c) +:+ " err=" +:+ Itoa errs)))).

(** One line of the latency table; the first and the last are read directly. *)
Definition latency_line (s : statsSnap) (label : string) (value : f64) : res string :=
  rbind (if String.eqb label "Min" then index (s_sorted s) 0
         else if String.eqb label "Max" then index (s_sorted s) (Z.of_nat (length (s_sorted s)) - 1)
         else percentile s value)
    (λ d, Ok ("    " +:+ pad_right 6 label +:+ "  " +:+ fmtLat d)).

Definition latency_table : list (string * f64) :=
  [("Min", f64_zero); ("P50", p50); ("P75", p75); ("P90", p90); ("P95", p95); ("P99", p99);
   ("P999", p999); ("Max", f64_of_Z 1)].

Fixpoint latency_lines (s : statsSnap) (rows : list (string * f64)) : res (list string) :=
  match rows with
  | [] => Ok []
  | (label, value) :: rest =>
      rbind (latency_line s label value) (λ l, rbind (latency_lines s rest) (λ ls, Ok (l :: ls)))
  end.

(** The response codes, in the order [range] visits them. *)
Definition rcode_lines (s : statsSnap) : list string :=
  (λ e, let pct := f64_mul (f64_div (f64_of_Z e.2) (f64_of_Z (s_total s))) (f64_of_Z 100) in
     "    " +:+ pad_right 12 (RcodeToString e.1) +:+ "  " +:+ Itoa e.2 +:+ " (" +:+ format_fixed 1 pct +:+ "%)")
  <$> range (s_rcodes s).

Definition rule : string := "==============================================".

Definition printSummary (elapsed : Z) (s : statsSnap) : res (list string) :=
  rbind (if (length (s_sorted s) =? 0)%nat then Ok []
         else rbind (latency_lines s latency_table) (λ ls, Ok (["  Latency:"] ++ ls ++ [""])))
    (λ lats,
      Ok (["" ; rule; "  Summary"; rule;
           "  Queries:    " +:+ Itoa (s_total s);
           "  Duration:   " +:+ format_fixed 2 (Seconds elapsed) +:+ "s"] ++
          (if f64_ltb f64_zero (Seconds elapsed)
           then ["  QPS:        " +:+ format_fixed 1 (f64_div (f64_of_Z (s_total s)) (Seconds elapsed))] else []) ++
          ["  Timeouts:   " +:+ Itoa (s_timeouts s); "  Errors:     " +:+ Itoa (s_errors s); ""] ++
          lats ++
          (if (size (s_rcodes s) =? 0)%nat then [] else ["  Response codes:"] ++ rcode_lines s ++ [""]))).

(** ** Dispatching *)

Definition hex_digit (n : Z) : ascii := ascii_of_N (Z.to_N (if n <? 10 then 48 + n else 87 + n)).

(** [fmt.Sprintf("%08x", v)] of a [uint32] *)
Fixpoint hex (digits : nat) (v : Z) : string :=
  match digits with
  | O => ""
  | S d => hex d (v / 16) +:+ String (hex_digit (v mod 16)) ""
  end.

(** The [i]-th query, with the random number drawn for it; [i % len(base)] of an
    empty list panics. *)
Definition dispatch_query (base : list query) (randomPrefix : bool) (rand : Z) (i : Z) : res query :=
  if (length base =? 0)%nat then Panic
  else rbind (index base (i mod Z.of_nat (length base)))
         (λ q, Ok (if randomPrefix then mkQuery (hex 8 rand +:+ "." +:+ q_name q) (q_qtype q) else q)).

(** [count == 0 || i < count] *)
Definition more_queries (count i : Z) : bool := (count =? 0) || (i <? count).

(** ** main *)

Record PerfFlags := mkPerfFlags {
  flagServer : string;
  flagConcurrency : Z;
  flagCount : Z;
  flagDuration : Z;
  flagQPS : Z;
  flagFile : string;
  flagRandomPrefix : string;
  flagProto : string;
  flagTimeout : Z;
}.

Definition default_perf_flags : PerfFlags :=
  mkPerfFlags "127.0.0.1:53" 10 0 0 0 "" "" "udp" (5 * Second).

(** What a run is given. *)
Record PerfRunCfg := mkPerfRunCfg {
  rc_base : list query;
  rc_count : Z;
  rc_concurrency : Z;
  rc_estCap : Z;
  rc_interval : option Z;    (* of the rate limiter *)
  rc_randomPrefix : bool;
}.

Inductive DieMsg :=
| DNoSource
| DBothSources
| DConcurrency
| DProto
| DLoad (e : LoadErr).

Inductive PerfStart := PDie (msg : DieMsg) | PStart (header : list string) (cfg : PerfRunCfg).

Definition check_flags (f : PerfFlags) : option DieMsg :=
  if String.eqb (flagFile f) "" && String.eqb (flagRandomPrefix f) "" then Some DNoSource
  else if negb (String.eqb (flagFile f) "") && negb (String.eqb (flagRandomPrefix f) "") then Some DBothSources
  else if flagConcurrency f <? 1 then Some DConcurrency
  else if negb (String.eqb (flagProto f) "udp") && negb (String.eqb (flagProto f) "tcp") then Some DProto
  else None.

(** -d takes precedence over -n. *)
Definition effective_count (f : PerfFlags) : Z :=
  if 0 <? flagDuration f then 0 else if flagCount f =? 0 then 10000 else flagCount f.

(** [v] units of [10^prec] nanoseconds each, with the decimals it needs. *)
Definition units (v : Z) (prec : nat) (unit : string) : string :=
  let frac := strip_zeros (String.list_ascii_of_string (pad_zeros prec (Itoa (v mod 10 ^ Z.of_nat prec)))) in
  Itoa (v / 10 ^ Z.of_nat prec) +:+
  (match frac with [] => "" | _ => "." +:+ String.string_of_list_ascii frac end) +:+ unit.

(** [Duration.String] of a positive duration. *)
Definition Duration_text (d : Z) : string :=
  if Second <=? d then Duration_String d
  else if Millisecond <=? d then units d 6 "ms"
  else if 1000 <=? d then units d 3 (String (ascii_of_N 194) (String (ascii_of_N 181) "s"))
  else Itoa d +:+ "ns".

Definition perf_header (f : PerfFlags) (base : list query) : list string :=
  ["DNS Performance Testing Tool";
   "  Server:      " +:+ flagServer f +:+ " (" +:+ flagProto f +:+ ")";
   "  Concurrency: " +:+ Itoa (flagConcurrency f)] ++
  (if 0 <? effective_count f then ["  Queries:     " +:+ Itoa (effective_count f)] else []) ++
  (if 0 <? flagDuration f then ["  Duration:    " +:+ Duration_text (flagDuration f)] else []) ++
  (if 0 <? flagQPS f then ["  Rate limit:  " +:+ Itoa (flagQPS f) +:+ " qps"] else []) ++
  [if negb (String.eqb (flagRandomPrefix f) "")
   then "  Mode:        random-prefix -> *." +:+ flagRandomPrefix f
   else "  Query file:  " +:+ flagFile f +:+ " (" +:+ Itoa (Z.of_nat (length base)) +:+ " entries)"; ""].

(** [time.NewTicker(time.Second / time.Duration(qps))] panics when the quotient is
    zero. *)
Definition rate_ticker (qps : Z) : res (option Z) :=
  if 0 <? qps then let d := Z.quot Second qps in if d <=? 0 then Panic else Ok (Some d)
  else Ok None.

(** [main] up to the call of [dispatchQueries]. *)
Definition perf_start (fs : FileSys) (f : PerfFlags) : res PerfStart :=
  match check_flags f with
  | Some m => Ok (PDie m)
  | None =>
      rbind (if negb (String.eqb (flagFile f) "") then loadQueriesFromFile fs (flagFile f)
             else Ok (inl [mkQuery (Fqdn (flagRandomPrefix f)) TypeA]))
        (λ loaded,
          match loaded with
          | inr e => Ok (PDie (DLoad e))
          | inl base =>
              let count := effective_count f in
              rbind (rate_ticker (flagQPS f)) (λ interval,
              Ok (PStart (perf_header f base)
                    (mkPerfRunCfg base count (flagConcurrency f) (if count =? 0 then 100000 else count) interval
                       (negb (String.eqb (flagRandomPrefix f) "")))))
          end)
  end.
End dnsperf.

(** ** Queries of a file *)
Section load.
Context `{DL : DnsLib} `{DN : DnsNames}.

Lemma parse_line_total n l : ∃ r, parse_line n l = Ok r.
Proof.
  unfold parse_line. pose proof (Fields_trimmed l) as Hf.
  destruct (strings_TrimSpace l) as [|c r]; [by eexists|]. case_match; [by eexists|].
  destruct (Fields (String c r)); [by destruct Hf|]. repeat case_match; by eexists.
Qed.

Lemma load_loop_total n ls qs : ∃ r, load_loop n ls qs = Ok r.
Proof.
  revert n qs. induction ls as [|l ls IH]; intros n qs; simpl; [by eexists|].
  destruct (parse_line_total (n + 1) l) as [[[q|]|e] ->]; [apply IH|apply IH|by eexists].
Qed.

(** The query of a line, where it has one. *)
Definition line_query (l : string) : option query :=
  match parse_line 0 l with Ok (inl q) => q | _ => None end.

Lemma parse_line_query n l q : parse_line n l = Ok (inl q) → line_query l = q.
Proof. unfold line_query, parse_line. repeat case_match; naive_solver. Qed.

Lemma load_loop_queries n ls qs qs' : load_loop n ls qs = Ok (inl qs') → qs' = qs ++ omap line_query ls.
Proof.
  revert n qs. induction ls as [|l ls IH]; intros n qs; simpl; [intros [= <-]; by rewrite app_nil_r|].
  destruct (parse_line (n + 1) l) as [[[q|]|e]|] eqn:E; try done;
    apply parse_line_query in E; rewrite E; intros ->%IH; [by rewrite <- (assoc_L (++))|done].
Qed.

(** Loading a file never panics; it gives the queries of its lines, in order, and
    at least one. *)
Lemma loadQueriesFromFile_spec fs path :
  ∃ r, loadQueriesFromFile fs path = Ok r ∧
    (∀ qs, r = inl qs → ∃ data e, fs path = inl (data, e) ∧
       qs = omap line_query (scan_lines data e).1 ∧ qs ≠ []).
Proof.
  unfold loadQueriesFromFile. destruct (fs path) as [[data e]|e]; [|by eexists].
  destruct (scan_lines data e) as [ls err] eqn:Es. destruct (load_loop_total 0 ls []) as [r Hr]. rewrite Hr.
  destruct r as [qs|e']; [|by eexists]. apply load_loop_queries in Hr. simpl in Hr.
  destruct err; [by eexists|]. destruct qs as [|q qs]; [by eexists|].
  eexists; split; [done|]. intros ? [= <-]. exists data, e. by rewrite Es.
Qed.
End load.

(** ** A worker's connections *)

Definition events_of (P : WEvent → bool) (l : list WEvent) : Z := Z.of_nat (length (List.filter P l)).
Definition is_open (e : WEvent) : bool := match e with Dialed ok => ok | _ => false end.
Definition is_close (e : WEvent) : bool := match e with WasClosed => true | _ => false end.
Definition is_write (e : WEvent) : bool := match e with Wrote => true | _ => false end.

Lemma events_of_snoc P l e : events_of P (l ++ [e]) = events_of P l + (if P e then 1 else 0).
Proof. unfold events_of. rewrite List.filter_app, length_app. simpl. destruct (P e); simpl; lia. Qed.

Section worker_lemmas.
Context `{DL : DnsLib} {N : Type} (net : Net N) (timeout : Z).

(** Every connection opened is closed, or is the one at hand. *)
Definition balanced (s : WorkerSt (N := N)) : Prop :=
  events_of is_open (w_events s) = events_of is_close (w_events s) + (if w_conn s then 1 else 0).
Definition writes (s : WorkerSt (N := N)) : Z := events_of is_write (w_events s).

Lemma push_counts s n conn e :
  balanced (push s n conn e) ↔
    events_of is_open (w_events s) + (if is_open e then 1 else 0) =
    events_of is_close (w_events s) + (if is_close e then 1 else 0) + (if conn then 1 else 0).
Proof. unfold balanced, push. simpl. by rewrite !events_of_snoc. Qed.

Lemma push_writes s n conn e : writes (push s n conn e) = writes s + (if is_write e then 1 else 0).
Proof. unfold writes, push. simpl. by rewrite events_of_snoc. Qed.

Lemma dial_balanced s : balanced s → w_conn s = false → balanced (dial net s) ∧ writes (dial net s) = writes s.
Proof.
  unfold balanced at 1, dial. intros Hb Hc. rewrite Hc in Hb. destruct (net_dial net (w_net s)) as [err n].
  rewrite push_counts, push_writes. simpl. split; [|lia]. destruct err; simpl; lia.
Qed.

Lemma close_balanced s : balanced s → w_conn s = true → balanced (close s) ∧ writes (close s) = writes s.
Proof.
  unfold balanced at 1, close. intros Hb Hc. rewrite Hc in Hb. rewrite push_counts, push_writes. simpl. lia.
Qed.

Lemma push_balanced s n e :
  balanced s → w_conn s = true → is_open e = false → is_close e = false → balanced (push s n true e).
Proof. unfold balanced at 1. intros Hb Hcn Ho Hc. rewrite Hcn in Hb. rewrite push_counts, Ho, Hc. simpl. lia. Qed.

(** At most [n] writes, whatever fails; and an exchange that succeeded leaves a
    connection. *)
Lemma attempts_spec n msg deadline resp err s :
  balanced s →
  let '(_, _, s') := attempts net n msg deadline resp err s in
  balanced s' ∧ writes s ≤ writes s' ≤ writes s + Z.of_nat n.
Proof.
  revert resp err s. induction n as [|n IH]; intros resp err s Hb; cbn [attempts]; [split; [done|lia]|].
  set (s1 := if w_conn s then s else dial net s).
  assert (balanced s1 ∧ writes s1 = writes s) as [Hb1 Hw1].
  { unfold s1. destruct (w_conn s) eqn:Ec; [done|by apply dial_balanced]. }
  clearbody s1. destruct (w_conn s1) eqn:Ec; simpl; [|split; [done|lia]].
  assert (balanced (push s1 (w_net s1) true (DeadlineSet deadline))) as Hb2 by by apply push_balanced.
  destruct (net_write net msg (w_net s1)) as [werr nw].
  set (s3 := push (push _ _ _ _) nw true Wrote).
  assert (balanced s3 ∧ writes s3 = writes s + 1) as [Hb3 Hw3].
  { split; [by apply push_balanced|]. unfold s3. rewrite !push_writes. simpl. lia. }
  destruct werr as [e|].
  { destruct (close_balanced s3 Hb3 eq_refl) as [Hb4 Hw4]. specialize (IH resp (Some e) (close s3) Hb4).
    destruct (attempts net n msg deadline resp (Some e) (close s3)) as [[? ?] ?]. split; [apply IH|lia]. }
  destruct (net_read net nw) as [[resp' rerr] nr].
  set (s4 := push s3 nr true WasRead).
  assert (balanced s4 ∧ writes s4 = writes s + 1) as [Hb4 Hw4].
  { split; [by apply push_balanced|]. unfold s4. rewrite push_writes. simpl. lia. }
  destruct rerr as [e|]; [|split; [done|lia]].
  destruct (close_balanced s4 Hb4 eq_refl) as [Hb5 Hw5]. specialize (IH resp' (Some e) (close s4) Hb5).
  destruct (attempts net n msg deadline resp' (Some e) (close s4)) as [[? ?] ?]. split; [apply IH|lia].
Qed.

(** A result is a timeout, another error, or a response code. *)
Definition result_ok (r : result) : Prop :=
  r_timeout r && r_err r = false ∧ (r_timeout r || r_err r = true → r_rcode r = 0).

Lemma worker_query_spec q s :
  balanced s →
  let '(r, s') := worker_query net timeout q s in
  balanced s' ∧ writes s ≤ writes s' ≤ writes s + 2 ∧ result_ok r.
Proof.
  intros Hb. unfold worker_query, now_of. destruct (net_id net (w_net s)) as [id n].
  cbn [w_net w_conn w_events]. destruct (net_now net n) as [t0 n0].
  set (s1 := mkWorkerSt (w_conn s) n0 (w_events s)).
  pose proof (attempts_spec 2 (set_RecursionDesired (SetQuestion new_Msg (q_name q) (q_qtype q) id) true)
                (t0 + timeout) None None s1 Hb) as Ha.
  destruct (attempts net 2 _ _ None None s1) as [[resp err] s2]. destruct Ha as [Hb2 Hw2].
  destruct (net_now net (w_net s2)) as [t1 n1].
  split_and!; [done|apply Hw2|apply Hw2|]. unfold result_ok. repeat case_match; done.
Qed.

Lemma worker_loop_spec qs s :
  balanced s →
  let '(rs, s') := worker_loop net timeout qs s in
  balanced s' ∧ length rs = length qs ∧ writes s' ≤ writes s + 2 * Z.of_nat (length qs) ∧ Forall result_ok rs.
Proof.
  revert s. induction qs as [|q qs IH]; intros s Hb; simpl; [split_and!; [done|done|lia|done]|].
  pose proof (worker_query_spec q s Hb) as Hq. destruct (worker_query net timeout q s) as [r s1].
  destruct Hq as (Hb1 & Hw1 & Hr). specialize (IH s1 Hb1).
  destruct (worker_loop net timeout qs s1) as [rs s2]. destruct IH as (Hb2 & Hl & Hw2 & Hrs).
  split_and!; [done|simpl; lia|lia|by constructor].
Qed.

(** A worker answers every query it takes with one result, tries each at most
    twice, and has closed every connection it opened when it returns. *)
Lemma worker_spec qs n :
  let '(rs, s) := worker net timeout qs n in
  length rs = length qs ∧ Forall result_ok rs ∧ w_conn s = false ∧
  events_of is_open (w_events s) = events_of is_close (w_events s) ∧
  events_of is_write (w_events s) ≤ 2 * Z.of_nat (length qs).
Proof.
  unfold worker. destruct (dial_balanced (mkWorkerSt false n []) eq_refl eq_refl) as [Hb0 Hw0].
  pose proof (worker_loop_spec qs _ Hb0) as Hl.
  destruct (worker_loop net timeout qs _) as [rs s]. destruct Hl as (Hb & Hl & Hw & Hrs).
  assert (balanced (if w_conn s then close s else s) ∧ writes (if w_conn s then close s else s) = writes s ∧
    w_conn (if w_conn s then close s else s) = false) as (Hb' & Hw' & Hc').
  { destruct (w_conn s) eqn:Ec; [|done]. by destruct (close_balanced s Hb Ec). }
  unfold balanced in Hb'. rewrite Hc' in Hb'. unfold writes in *. simpl in Hw0.
  split_and!; [done|done|done|lia|]. rewrite Hw'. change (events_of is_write []) with 0 in Hw0. lia.
Qed.
End worker_lemmas.

(** ** What the statistics say *)

Definition results_where (P : result → bool) (rs : list result) : Z := Z.of_nat (length (List.filter P rs)).
Definition answered (r : result) : bool := negb (r_timeout r) && negb (r_err r).

Lemma results_where_snoc P rs r : results_where P (rs ++ [r]) = results_where P rs + (if P r then 1 else 0).
Proof. unfold results_where. rewrite List.filter_app, length_app. simpl. destruct (P r); simpl; lia. Qed.

(** The sum of the counts of a map. *)
Definition map_sum (m : gmap Z Z) : Z := map_fold (λ _ n acc, n + acc) 0 m.

Lemma map_sum_insert (m : gmap Z Z) k v : map_sum (<[k := default 0 (m !! k) + v]> m) = map_sum m + v.
Proof.
  unfold map_sum. destruct (m !! k) as [x|] eqn:E; simpl.
  - rewrite <- (insert_delete_eq m). rewrite <- (insert_delete_id m k x E) at 2.
    rewrite !map_fold_insert_L by (try apply lookup_delete_eq; intros; lia). lia.
  - rewrite map_fold_insert_L by (done || (intros; lia)). lia.
Qed.

(** A collector that recorded [rs]. *)
Record recorded (rs : list result) (c : collector) : Prop := {
  rec_lats : c_lats c = r_latency <$> rs;
  rec_total : c_total c = Z.of_nat (length rs);
  rec_timeouts : c_timeouts c = results_where r_timeout rs;
  rec_errors : c_errors c = results_where (λ r, negb (r_timeout r) && r_err r) rs;
  rec_rcodes k : default 0 (c_rcodes c !! k) = results_where (λ r, answered r && (r_rcode r =? k)) rs;
  rec_sum : c_total c = c_timeouts c + c_errors c + map_sum (c_rcodes c);
}.

Lemma recorded_new e : recorded [] (newCollector e).1.
Proof. by split. Qed.

Lemma recorded_snoc rs c r : recorded rs c → recorded (rs ++ [r]) (record c r).
Proof.
  intros [Hl Ht Hto He Hr Hs]. unfold record.
  assert (Z.of_nat (length (rs ++ [r])) = c_total c + 1) as Hlen by (rewrite length_app; simpl; lia).
  destruct (r_timeout r) eqn:E1; [|destruct (r_err r) eqn:E2];
    (split; simpl; rewrite ?results_where_snoc, ?fmap_app; unfold answered; rewrite ?E1, ?E2; simpl);
    try lia; try (by rewrite Hl); try (intros k; rewrite results_where_snoc, ?E1, ?E2, <- Hr; simpl; lia).
  - intros k. rewrite results_where_snoc, E1, E2. simpl. unfold answered in Hr.
    rewrite <- Hr. destruct (Z.eqb_spec (r_rcode r) k) as [->|Hk]; [by rewrite lookup_insert_eq|].
    rewrite lookup_insert_ne by done. lia.
  - rewrite map_sum_insert. lia.
Qed.

Lemma recorded_foldl rs rs0 c : recorded rs0 c → recorded (rs0 ++ rs) (foldl record c rs).
Proof.
  revert rs0 c. induction rs as [|r rs IH]; intros rs0 c Hc; simpl; [by rewrite app_nil_r|].
  rewrite (cons_middle r rs0 rs), (assoc_L (++)). by apply IH, recorded_snoc.
Qed.

Lemma index_Ok {A} (l : list A) i : 0 ≤ i < Z.of_nat (length l) → ∃ x, index l i = Ok x ∧ l !! Z.to_nat i = Some x.
Proof.
  intros Hi. unfold index. destruct (Z.ltb_spec i 0); [lia|].
  destruct (lookup_lt_is_Some_2 l (Z.to_nat i)) as [x Hx]; [lia|]. exists x. by rewrite Hx.
Qed.

(** The fractions the reports ask for. *)
Definition perf_fractions : list f64 := [p50; p75; p90; p95; p99; p999].

Lemma fraction_index n p :
  p ∈ perf_fractions → 0 ≤ n < 2 ^ 53 → 0 ≤ f64_trunc (f64_mul (f64_of_Z n) p) ≤ n.
Proof.
  intros Hp Hn. unfold perf_fractions in Hp.
  rewrite !elem_of_cons in Hp. destruct Hp as [->|[->|[->|[->|[->|[->|Hp]]]]]];
    [by apply trunc_fraction..|by apply elem_of_nil in Hp].
Qed.

Lemma percentile_Ok s p :
  p ∈ perf_fractions → s_sorted s ≠ [] → Z.of_nat (length (s_sorted s)) ≤ 2 ^ 53 →
  ∃ i d, 0 ≤ i < Z.of_nat (length (s_sorted s)) ∧ percentile s p = Ok d ∧ s_sorted s !! Z.to_nat i = Some d.
Proof.
  intros Hp Hne Hl. unfold percentile. set (n := Z.of_nat (length (s_sorted s))) in *.
  assert (0 < n) as Hn by (unfold n; destruct (s_sorted s); simpl; [done|lia]).
  destruct (Z.eqb_spec n 0); [lia|].
  pose proof (fraction_index (n - 1) p Hp ltac:(lia)) as Hi.
  destruct (index_Ok (s_sorted s) (f64_trunc (f64_mul (f64_of_Z (n - 1)) p))) as (d & Hd & Hlk);
    [fold n; lia|]. eexists _, d. split; [|by split]. lia.
Qed.

Lemma percentile_total s p :
  p ∈ perf_fractions → Z.of_nat (length (s_sorted s)) ≤ 2 ^ 53 → ∃ d, percentile s p = Ok d.
Proof.
  intros Hp Hl. destruct (decide (s_sorted s = [])) as [E|E].
  - exists 0. unfold percentile. by rewrite E.
  - destruct (percentile_Ok s p Hp E Hl) as (i & d & _ & Hd & _). by exists d.
Qed.

Section report.
Context `{DN : DnsNames} `{GSL : GoSortLaws} `{GO : GoMapOrder}.

Lemma ltb_weak l : strict_weak_on Z.ltb l.
Proof.
  split; intros; bool_prop; [apply Z.ltb_irrefl|apply Z.ltb_lt; lia|apply Z.ltb_ge; lia].
Qed.

Lemma sort_latencies l : sort_Slice Z.ltb l = merge_sort Z.le l.
Proof.
  apply (StronglySorted_unique Z.le).
  - pose proof (sort_Slice_sorted Z.ltb l (ltb_weak l)) as Hs.
    induction Hs as [|a l' Hs IH Ha]; constructor; [done|].
    eapply Forall_impl; [exact Ha|]. simpl. intros b Hb. bool_prop. lia.
  - apply StronglySorted_merge_sort; apply _.
  - by rewrite sort_Slice_perm, merge_sort_Permutation.
Qed.

Lemma snapshot_length c : length (s_sorted (perf_snapshot c)) = length (c_lats c).
Proof. unfold perf_snapshot. simpl. by rewrite sort_Slice_perm. Qed.

Lemma latency_line_total s label p :
  p ∈ perf_fractions ∨ label = "Min" ∨ label = "Max" → s_sorted s ≠ [] →
  Z.of_nat (length (s_sorted s)) ≤ 2 ^ 53 → ∃ line, latency_line s label p = Ok line.
Proof.
  intros Hp Hne Hl. unfold latency_line.
  assert (0 < Z.of_nat (length (s_sorted s))) as Hn by (destruct (s_sorted s); simpl; [done|lia]).
  destruct (String.eqb_spec label "Min") as [->|H1].
  { destruct (index_Ok (s_sorted s) 0 ltac:(lia)) as (x & -> & _). by eexists. }
  destruct (String.eqb_spec label "Max") as [->|H2].
  { destruct (index_Ok (s_sorted s) (Z.of_nat (length (s_sorted s)) - 1) ltac:(lia)) as (x & -> & _). by eexists. }
  destruct Hp as [Hp|[Hp|Hp]]; [|done..].
  destruct (percentile_total s p Hp Hl) as [d ->]. by eexists.
Qed.

Lemma latency_lines_total s rows :
  Forall (λ r, r.2 ∈ perf_fractions ∨ r.1 = "Min" ∨ r.1 = "Max") rows → s_sorted s ≠ [] →
  Z.of_nat (length (s_sorted s)) ≤ 2 ^ 53 →
  ∃ lines, latency_lines s rows = Ok lines ∧ length lines = length rows.
Proof.
  intros Hr Hne Hl. induction Hr as [|[label p] rows Hp _ [ls [IH HL]]]; simpl; [by eexists|].
  destruct (latency_line_total s label p Hp Hne Hl) as [l ->]. simpl. rewrite IH. simpl.
  eexists; split; [done|]. simpl. by rewrite HL.
Qed.

Lemma printSummary_total elapsed s :
  Z.of_nat (length (s_sorted s)) ≤ 2 ^ 53 → ∃ lines, printSummary elapsed s = Ok lines.
Proof.
  intros Hl. unfold printSummary. destruct (Nat.eqb_spec (length (s_sorted s)) 0); [by eexists|].
  destruct (latency_lines_total s latency_table) as (ls & -> & _); [|by destruct (s_sorted s)|done|by eexists].
  unfold latency_table, perf_fractions.
  repeat (constructor; [simpl; first [by right; left|by right; right|left; set_solver]|]). constructor.
Qed.

Lemma printProgress_total elapsed s :
  Z.of_nat (length (s_sorted s)) ≤ 2 ^ 53 → ∃ line, printProgress elapsed s = Ok line.
Proof.
  intros Hl. unfold printProgress.
  destruct (percentile_total s p50 ltac:(unfold perf_fractions; set_solver) Hl) as [a ->].
  destruct (percentile_total s p95 ltac:(unfold perf_fractions; set_solver) Hl) as [b ->].
  destruct (percentile_total s p99 ltac:(unfold perf_fractions; set_solver) Hl) as [c ->].
  simpl. by eexists.
Qed.

(** C32: the report of the load generator is right and always printed.  For any
    results (fewer than [2^53]) recorded in any order: the total is their number
    and splits into timeouts, errors and the counts of the response codes; each
    count is the number of results of its kind; every percentile printed is an
    element of the sorted list of all latencies, at an index the float
    arithmetic keeps in range; and neither report panics. *)
Theorem perf_report_exact (rs : list result) (estCap elapsed : Z) :
  Z.of_nat (length rs) ≤ 2 ^ 53 →
  let s := perf_snapshot (foldl record (newCollector estCap).1 rs) in
  s_total s = Z.of_nat (length rs) ∧
  s_total s = s_timeouts s + s_errors s + map_sum (s_rcodes s) ∧
  s_timeouts s = results_where r_timeout rs ∧
  s_errors s = results_where (λ r, negb (r_timeout r) && r_err r) rs ∧
  (∀ k, default 0 (s_rcodes s !! k) = results_where (λ r, answered r && (r_rcode r =? k)) rs) ∧
  s_sorted s = merge_sort Z.le (r_latency <$> rs) ∧
  (∀ p, p ∈ perf_fractions → rs ≠ [] → ∃ i d, 0 ≤ i < Z.of_nat (length rs) ∧
     percentile s p = Ok d ∧ merge_sort Z.le (r_latency <$> rs) !! Z.to_nat i = Some d) ∧
  (∃ line, printProgress elapsed s = Ok line) ∧
  (∃ lines, printSummary elapsed s = Ok lines).
Proof.
  intros Hl s. pose proof (recorded_foldl rs [] _ (recorded_new estCap)) as [Hlats Ht Hto He Hr Hs].
  simpl in *. set (c := foldl record _ rs) in *.
  assert (Z.of_nat (length (s_sorted s)) = Z.of_nat (length rs)) as Hn
    by (unfold s; by rewrite snapshot_length, Hlats, length_fmap).
  assert (s_sorted s = merge_sort Z.le (r_latency <$> rs)) as Hsorted
    by (unfold s, perf_snapshot; simpl; by rewrite sort_latencies, Hlats).
  split_and!; try done.
  - intros p Hp Hne. rewrite <- Hsorted, <- Hn. apply percentile_Ok; [done| |lia].
    intros E. rewrite E in Hn. by destruct rs.
  - apply printProgress_total. lia.
  - apply printSummary_total. lia.
Qed.

End report.

Module PerfWitness.
#[export] Instance perf_names : DnsNames := {
  TypeToString t := if t =? TypeA then "A" else "";
  RcodeToString r := if r =? RcodeSuccess then "NOERROR" else "";
  TypeOfString s := if String.eqb s "A" then Some TypeA else None;
}.

Definition results : list result :=
  [mkResult 3000000 0 false false; mkResult 1000000 3 false false; mkResult 5000000000 0 true false;
   mkResult 2000000 0 false false].

Lemma perf_report_exact_witness :
  let s := perf_snapshot (GS := RefSort.lib) (foldl record (newCollector 4).1 results) in
  s_total s = 4 ∧ s_timeouts s = 1 ∧ ∃ lines, printSummary (GO := RefOrder.lib) Second s = Ok lines.
Proof.
  destruct (perf_report_exact (GSL := RefSort.laws) (GO := RefOrder.lib) results 4 Second)
    as (H1 & _ & H2 & _ & _ & _ & _ & _ & H3); [vm_compute; discriminate|].
  split; [exact H1|]. split; [exact H2|exact H3].
Defined.

Example summary_runs :
  printProgress (2 * Second) (perf_snapshot (GS := RefSort.lib) (foldl record (newCollector 4).1 results)) =
  Ok "[   2s] sent=4        qps=2        p50=2.0ms    p95=3.0ms    p99=3.0ms    err=1".
Proof. by vm_compute. Qed.
End PerfWitness.
