(* ===== verification/PerfRun.v ===== *)
(** * A run of the load generator (tools/dnsperf/main.go)

    The goroutines of [main]: the dispatcher, the workers, the collector, and the
    event that closes [stop] (an interrupt, or the end of the duration).  They meet
    in two bounded channels; a step is one channel operation of one of them, so the
    theorems range over all interleavings.  What a worker makes of a query is any
    result its exchange with some network can give ([answers]). *)

From S2P Require Import Prelude GoLib GoText Float64 FloatExact Dns HostsForward TuiMetrics GoFormat GoFields DnsPerf.

(** Where the main goroutine is: in [dispatchQueries] (checking [stop], waiting for
    the rate limiter, sending), after it, waiting for the workers, waiting for the
    collector, done. *)
Inductive DispState :=
| DCheck (i : Z)
| DTick (i : Z)
| DSend (i : Z) (q : query)
| DDone
| DWait
| DCollect
| DEnd.

Inductive WorkerState := WIdle | WBusy (q : query) | WOut (r : result) | WExit.

#[export] Instance query_eq_dec : EqDecision query.
Proof. solve_decision. Defined.
#[export] Instance result_eq_dec : EqDecision result.
Proof. solve_decision. Defined.
#[export] Instance WorkerState_eq_dec : EqDecision WorkerState.
Proof. solve_decision. Defined.

(** The state of a run; [pr_sent] and [pr_log] record the queries dispatched and
    the answers given, and [pr_done] the results collected. *)
Record PRun := mkPRun {
  pr_disp : DispState;
  pr_stop : bool;
  pr_queries : list query;      (* queryCh *)
  pr_workers : list WorkerState;
  pr_results : list result;     (* resultCh *)
  pr_coll : collector;
  pr_collDone : bool;
  pr_sent : list query;
  pr_log : list (query * result);
  pr_done : list result;
}.

Section run.
Context `{DL : DnsLib} `{DN : DnsNames}.
Context (cfg : PerfRunCfg).

Definition chan_cap : Z := rc_concurrency cfg * 2.

Definition set_disp (s : PRun) (d : DispState) : PRun :=
  mkPRun d (pr_stop s) (pr_queries s) (pr_workers s) (pr_results s) (pr_coll s) (pr_collDone s)
    (pr_sent s) (pr_log s) (pr_done s).

Definition set_workers (s : PRun) (qch : list query) (ws : list WorkerState) (rch : list result)
    (log : list (query * result)) : PRun :=
  mkPRun (pr_disp s) (pr_stop s) qch ws rch (pr_coll s) (pr_collDone s) (pr_sent s) log (pr_done s).

(** A result some exchange of a worker gives for [q]. *)
Definition answers (q : query) (r : result) : Prop :=
  ∃ (N : Type) (net : Net N) (timeout : Z) (s : WorkerSt) , balanced s ∧ (worker_query net timeout q s).1 = r.

Definition queries_closed (d : DispState) : bool :=
  match d with DWait | DCollect | DEnd => true | _ => false end.
Definition results_closed (d : DispState) : bool :=
  match d with DCollect | DEnd => true | _ => false end.

Definition perf_init : PRun :=
  mkPRun (DCheck 0) false [] (replicate (Z.to_nat (rc_concurrency cfg)) WIdle) []
    (newCollector (rc_estCap cfg)).1 false [] [] [].

(** One operation of one goroutine. *)
Inductive perf_work : PRun → PRun → Prop :=
| pw_check_end i s :
    pr_disp s = DCheck i → more_queries (rc_count cfg) i = false → perf_work s (set_disp s DDone)
| pw_check_stop i s :
    pr_disp s = DCheck i → more_queries (rc_count cfg) i = true → pr_stop s = true → perf_work s (set_disp s DDone)
| pw_check_go i s :
    pr_disp s = DCheck i → more_queries (rc_count cfg) i = true → pr_stop s = false → perf_work s (set_disp s (DTick i))
| pw_tick i rand q s :
    pr_disp s = DTick i → 0 ≤ rand < 2 ^ 32 →
    dispatch_query (rc_base cfg) (rc_randomPrefix cfg) rand i = Ok q →
    perf_work s (set_disp s (DSend i q))
| pw_tick_stop i d s :
    pr_disp s = DTick i → rc_interval cfg = Some d → pr_stop s = true → perf_work s (set_disp s DDone)
| pw_send i q s :
    pr_disp s = DSend i q → Z.of_nat (length (pr_queries s)) < chan_cap →
    perf_work s (mkPRun (DCheck (i + 1)) (pr_stop s) (pr_queries s ++ [q]) (pr_workers s) (pr_results s)
                   (pr_coll s) (pr_collDone s) (pr_sent s ++ [q]) (pr_log s) (pr_done s))
| pw_send_stop i q s :
    pr_disp s = DSend i q → pr_stop s = true → perf_work s (set_disp s DDone)
| pw_close s :
    pr_disp s = DDone → perf_work s (set_disp s DWait)
| pw_wait s :
    pr_disp s = DWait → Forall (λ w, w = WExit) (pr_workers s) → perf_work s (set_disp s DCollect)
| pw_end s :
    pr_disp s = DCollect → pr_collDone s = true → perf_work s (set_disp s DEnd)
| pw_recv pre post q qch s :
    pr_workers s = pre ++ WIdle :: post → pr_queries s = q :: qch →
    perf_work s (set_workers s qch (pre ++ WBusy q :: post) (pr_results s) (pr_log s))
| pw_exit pre post s :
    pr_workers s = pre ++ WIdle :: post → pr_queries s = [] → queries_closed (pr_disp s) = true →
    perf_work s (set_workers s [] (pre ++ WExit :: post) (pr_results s) (pr_log s))
| pw_answer pre post q r s :
    pr_workers s = pre ++ WBusy q :: post → answers q r →
    perf_work s (set_workers s (pr_queries s) (pre ++ WOut r :: post) (pr_results s) (pr_log s ++ [(q, r)]))
| pw_out pre post r s :
    pr_workers s = pre ++ WOut r :: post → Z.of_nat (length (pr_results s)) < chan_cap →
    perf_work s (set_workers s (pr_queries s) (pre ++ WIdle :: post) (pr_results s ++ [r]) (pr_log s))
| pw_collect r rch s :
    pr_collDone s = false → pr_results s = r :: rch →
    perf_work s (mkPRun (pr_disp s) (pr_stop s) (pr_queries s) (pr_workers s) rch (record (pr_coll s) r) false
                   (pr_sent s) (pr_log s) (pr_done s ++ [r]))
| pw_collect_end s :
    pr_collDone s = false → pr_results s = [] → results_closed (pr_disp s) = true →
    perf_work s (mkPRun (pr_disp s) (pr_stop s) (pr_queries s) (pr_workers s) [] (pr_coll s) true
                   (pr_sent s) (pr_log s) (pr_done s)).

(** Work, or the closing of [stop]. *)
Inductive perf_step : PRun → PRun → Prop :=
| ps_work s s' : perf_work s s' → perf_step s s'
| ps_stop s :
    perf_step s (mkPRun (pr_disp s) true (pr_queries s) (pr_workers s) (pr_results s) (pr_coll s) (pr_collDone s)
                   (pr_sent s) (pr_log s) (pr_done s)).

(** ** The invariant *)

Definition busy (w : WorkerState) : option query := match w with WBusy q => Some q | _ => None end.
Definition outgoing_result (w : WorkerState) : option result := match w with WOut r => Some r | _ => None end.

(** The index of the next query, while dispatching. *)
Definition disp_ok (count : Z) (d : DispState) (n : Z) : Prop :=
  match d with
  | DCheck i => i = n ∧ (count = 0 ∨ i ≤ Z.max 0 count)
  | DTick i => i = n ∧ more_queries count i = true
  | DSend i q => i = n ∧ more_queries count i = true ∧
      ∃ rand, dispatch_query (rc_base cfg) (rc_randomPrefix cfg) rand i = Ok q
  | _ => count = 0 ∨ n ≤ Z.max 0 count
  end.

Record perf_inv (s : PRun) : Prop := {
  pi_disp : disp_ok (rc_count cfg) (pr_disp s) (Z.of_nat (length (pr_sent s)));
  pi_full : queries_closed (pr_disp s) = true ∨ pr_disp s = DDone → pr_stop s = false →
    Z.of_nat (length (pr_sent s)) = Z.max 0 (rc_count cfg) ∧ rc_count cfg ≠ 0;
  pi_sent j q : pr_sent s !! j = Some q →
    ∃ rand, dispatch_query (rc_base cfg) (rc_randomPrefix cfg) rand (Z.of_nat j) = Ok q;
  pi_queries : pr_sent s ≡ₚ pr_queries s ++ omap busy (pr_workers s) ++ (pr_log s).*1;
  pi_results : (pr_log s).*2 ≡ₚ omap outgoing_result (pr_workers s) ++ pr_results s ++ pr_done s;
  pi_answers : Forall (λ e, answers e.1 e.2) (pr_log s);
  pi_coll : recorded (pr_done s) (pr_coll s);
  pi_workers : length (pr_workers s) = Z.to_nat (rc_concurrency cfg);
  pi_caps : Z.of_nat (length (pr_queries s)) ≤ chan_cap ∧ Z.of_nat (length (pr_results s)) ≤ chan_cap;
  pi_exit : WExit ∈ pr_workers s → queries_closed (pr_disp s) = true ∧ pr_queries s = [];
  pi_closed : results_closed (pr_disp s) = true → Forall (λ w, w = WExit) (pr_workers s);
  pi_collDone : pr_collDone s = true → results_closed (pr_disp s) = true ∧ pr_results s = [];
  pi_end : pr_disp s = DEnd → pr_collDone s = true;
}.

Lemma inv_init : 1 ≤ rc_concurrency cfg → perf_inv perf_init.
Proof.
  intros Hc. split; simpl; try done.
  - split; [done|lia].
  - intros [?|?] _; done.
  - rewrite app_nil_r. induction (Z.to_nat (rc_concurrency cfg)); simpl; done.
  - rewrite app_nil_r. induction (Z.to_nat (rc_concurrency cfg)); simpl; done.
  - apply length_replicate.
  - unfold chan_cap. lia.
  - intros [? _]%elem_of_replicate. done.
Qed.

(** A step of the main goroutine that touches nothing else. *)
Lemma inv_disp s d :
  perf_inv s →
  disp_ok (rc_count cfg) d (Z.of_nat (length (pr_sent s))) →
  (queries_closed d = true ∨ d = DDone → pr_stop s = false →
     Z.of_nat (length (pr_sent s)) = Z.max 0 (rc_count cfg) ∧ rc_count cfg ≠ 0) →
  (queries_closed (pr_disp s) = true → queries_closed d = true) →
  (results_closed d = true → Forall (λ w, w = WExit) (pr_workers s)) →
  (pr_collDone s = true → results_closed d = true) →
  (d = DEnd → pr_collDone s = true) →
  perf_inv (set_disp s d).
Proof.
  intros [H1 H2 H3 H4 H5 H6 H7 H8 H9 H10 H11 H12 H13] Hd Hf Hq Hr Hc He. split; simpl; try done.
  - intros Hw. destruct (H10 Hw). auto.
  - intros Hw. destruct (H12 Hw). auto.
Qed.

Lemma more_queries_false count i :
  more_queries count i = false → count ≠ 0 ∧ count ≤ i.
Proof. unfold more_queries. intros H. bool_prop. lia. Qed.

Lemma more_queries_true count i :
  more_queries count i = true → count = 0 ∨ i < count.
Proof. unfold more_queries. intros [H|H]%orb_true_iff; bool_prop; lia. Qed.

(** A step of a worker: what it takes, answers and passes on. *)
Lemma inv_workers s pre post w w' qch rch log :
  perf_inv s → pr_workers s = pre ++ w :: post →
  pr_sent s ≡ₚ qch ++ omap busy (pre ++ w' :: post) ++ log.*1 →
  log.*2 ≡ₚ omap outgoing_result (pre ++ w' :: post) ++ rch ++ pr_done s →
  Forall (λ e, answers e.1 e.2) log →
  Z.of_nat (length qch) ≤ chan_cap ∧ Z.of_nat (length rch) ≤ chan_cap →
  w ≠ WExit →
  (pr_queries s = [] → qch = []) →
  (w' = WExit → queries_closed (pr_disp s) = true ∧ qch = []) →
  perf_inv (set_workers s qch (pre ++ w' :: post) rch log).
Proof.
  intros [H1 H2 H3 H4 H5 H6 H7 H8 H9 H10 H11 H12 H13] Hw Hq Hr Ha Hc Hne Hqn Hx.
  assert (results_closed (pr_disp s) = true → False) as Hnc.
  { intros Hr'. specialize (H11 Hr'). rewrite Hw in H11. apply Forall_app in H11 as [_ H11].
    by apply Forall_cons in H11 as [? _]. }
  split; simpl; try done.
  - rewrite <- H8, Hw, !length_app. done.
  - intros [Hin|[Hin|Hin]%elem_of_cons]%elem_of_app.
    + destruct H10; [rewrite Hw, elem_of_app; by left|auto].
    + auto.
    + destruct H10; [rewrite Hw, elem_of_app, elem_of_cons; by right; right|auto].
  - intros Hd. by destruct (H12 Hd).
Qed.

(** The worker at hand taken out of the two permutations of the invariant. *)
Ltac worker_perms Hi Hw :=
  let P1 := fresh "P1" in let P2 := fresh "P2" in let Hcap := fresh "Hcap" in
  pose proof (pi_queries _ Hi) as P1; pose proof (pi_results _ Hi) as P2; pose proof (pi_caps _ Hi) as Hcap;
  rewrite Hw, omap_app in P1; rewrite Hw, omap_app in P2; simpl in P1, P2, Hcap.

Lemma inv_recv s pre post q qch :
  perf_inv s → pr_workers s = pre ++ WIdle :: post → pr_queries s = q :: qch →
  perf_inv (set_workers s qch (pre ++ WBusy q :: post) (pr_results s) (pr_log s)).
Proof.
  intros Hi Hw Hq. worker_perms Hi Hw. rewrite Hq in P1, Hcap. simpl in Hcap.
  apply (inv_workers s pre post WIdle); try done; rewrite ?omap_app; simpl.
  - rewrite P1. solve_Permutation.
  - done.
  - apply Hi.
  - lia.
  - by rewrite Hq.
Qed.

Lemma inv_exit s pre post :
  perf_inv s → pr_workers s = pre ++ WIdle :: post → pr_queries s = [] → queries_closed (pr_disp s) = true →
  perf_inv (set_workers s [] (pre ++ WExit :: post) (pr_results s) (pr_log s)).
Proof.
  intros Hi Hw Hq Hc. worker_perms Hi Hw. rewrite Hq in P1, Hcap. simpl in Hcap.
  apply (inv_workers s pre post WIdle); try done; rewrite ?omap_app; simpl; try done. apply Hi.
Qed.

Lemma inv_answer s pre post q r :
  perf_inv s → pr_workers s = pre ++ WBusy q :: post → answers q r →
  perf_inv (set_workers s (pr_queries s) (pre ++ WOut r :: post) (pr_results s) (pr_log s ++ [(q, r)])).
Proof.
  intros Hi Hw Ha. worker_perms Hi Hw.
  apply (inv_workers s pre post (WBusy q)); try done; rewrite ?omap_app, ?fmap_app; simpl.
  - rewrite P1. solve_Permutation.
  - rewrite P2. solve_Permutation.
  - apply Forall_app. split; [apply Hi|by constructor].
Qed.

Lemma inv_out s pre post r :
  perf_inv s → pr_workers s = pre ++ WOut r :: post → Z.of_nat (length (pr_results s)) < chan_cap →
  perf_inv (set_workers s (pr_queries s) (pre ++ WIdle :: post) (pr_results s ++ [r]) (pr_log s)).
Proof.
  intros Hi Hw Hc. worker_perms Hi Hw.
  apply (inv_workers s pre post (WOut r)); try done; rewrite ?omap_app; simpl.
  - done.
  - rewrite P2. solve_Permutation.
  - apply Hi.
  - rewrite length_app. simpl. lia.
Qed.

Lemma inv_send s i q :
  perf_inv s → pr_disp s = DSend i q → Z.of_nat (length (pr_queries s)) < chan_cap →
  perf_inv (mkPRun (DCheck (i + 1)) (pr_stop s) (pr_queries s ++ [q]) (pr_workers s) (pr_results s)
                   (pr_coll s) (pr_collDone s) (pr_sent s ++ [q]) (pr_log s) (pr_done s)).
Proof.
  intros [H1 H2 H3 H4 H5 H6 H7 H8 H9 H10 H11 H12 H13] Hd Hc. rewrite Hd in *. simpl in *.
  destruct H1 as (-> & Hm & rand & Hq). apply more_queries_true in Hm. split; simpl; try done.
  - rewrite length_app. simpl. split; lia.
  - intros [?|?]; done.
  - intros j q'. rewrite lookup_app_Some. intros [Hj|[Hge Hj]]; [by apply H3|].
    apply list_lookup_singleton_Some in Hj as [Hj <-]. exists rand.
    by replace (Z.of_nat j) with (Z.of_nat (length (pr_sent s))) by lia.
  - rewrite H4. solve_Permutation.
  - rewrite length_app. simpl. lia.
  - intros Hx. by destruct (H10 Hx).
Qed.

Lemma inv_collect s r rch :
  perf_inv s → pr_collDone s = false → pr_results s = r :: rch →
  perf_inv (mkPRun (pr_disp s) (pr_stop s) (pr_queries s) (pr_workers s) rch (record (pr_coll s) r) false
                   (pr_sent s) (pr_log s) (pr_done s ++ [r])).
Proof.
  intros [H1 H2 H3 H4 H5 H6 H7 H8 H9 H10 H11 H12 H13] Hd Hr. rewrite Hr in *. simpl in *. split; simpl; try done.
  - rewrite H5. solve_Permutation.
  - by apply recorded_snoc.
  - lia.
  - intros He. by rewrite (H13 He) in Hd.
Qed.

Lemma inv_collect_end s :
  perf_inv s → pr_results s = [] → results_closed (pr_disp s) = true →
  perf_inv (mkPRun (pr_disp s) (pr_stop s) (pr_queries s) (pr_workers s) [] (pr_coll s) true
                   (pr_sent s) (pr_log s) (pr_done s)).
Proof.
  intros [H1 H2 H3 H4 H5 H6 H7 H8 H9 H10 H11 H12 H13] Hr Hc. rewrite Hr in *. by split.
Qed.

Lemma inv_work s s' : perf_inv s → perf_work s s' → perf_inv s'.
Proof.
  intros Hi Hw. pose proof (pi_disp s Hi) as Hd. pose proof (pi_full s Hi) as Hf.
  pose proof (pi_closed s Hi) as Hcl. pose proof (pi_collDone s Hi) as Hcd.
  destruct Hw as [i s E Hm|i s E Hm Hs|i s E Hm Hs|i rand q s E Hr Hq|i d s E Hd' Hs|i q s E Hc|i q s E Hs
    |s E|s E Hx|s E Hx|pre post q qch s Hw Hq|pre post s Hw Hq Hc|pre post q r s Hw Ha|pre post r s Hw Hc
    |r rch s Hc Hr|s Hc Hr Hx];
    try (rewrite E in Hd, Hf, Hcl, Hcd; simpl in Hd, Hf, Hcl, Hcd); eauto using inv_recv, inv_exit, inv_answer,
      inv_out, inv_send, inv_collect, inv_collect_end.
  all: apply inv_disp; rewrite ?E; simpl; try done; try (by intros ?; destruct Hcd).
  - apply more_queries_false in Hm. lia.
  - intros _ Hs. apply more_queries_false in Hm. lia.
  - apply more_queries_true in Hm. lia.
  - intros _ Hs'. congruence.
  - split; [lia|done].
  - intros [?|?]; done.
  - split_and!; [lia|naive_solver..].
  - intros [?|?]; done.
  - destruct Hd as [Hn Hm%more_queries_true]. lia.
  - intros _ Hs'. congruence.
  - destruct Hd as (Hn & Hm%more_queries_true & _). lia.
  - intros _ Hs'. congruence.
  - intros _. by apply Hf; right.
  - intros _. by apply Hf; left.
  - intros _. by apply Hf; left.
Qed.

Lemma inv_step s s' : perf_inv s → perf_step s s' → perf_inv s'.
Proof.
  intros Hi Hs. destruct Hs as [s s' Hw|s]; [by eapply inv_work|].
  destruct Hi as [H1 H2 H3 H4 H5 H6 H7 H8 H9 H10 H11 H12 H13]. by split.
Qed.

Lemma inv_reachable s : 1 ≤ rc_concurrency cfg → rtc perf_step perf_init s → perf_inv s.
Proof.
  intros Hc Hr. pose proof (inv_init Hc) as H0. induction Hr as [|s0 s1 s2 Hs _ IH]; [done|].
  apply IH. by eapply inv_step.
Qed.

(** ** Progress *)

Lemma dispatch_query_Ok rand i :
  rc_base cfg ≠ [] → 0 ≤ i → ∃ q, dispatch_query (rc_base cfg) (rc_randomPrefix cfg) rand i = Ok q.
Proof.
  intros Hb Hi. unfold dispatch_query. destruct (Nat.eqb_spec (length (rc_base cfg)) 0) as [E|E];
    [by apply nil_length_inv in E|].
  destruct (index_Ok (rc_base cfg) (i mod Z.of_nat (length (rc_base cfg)))) as (q & -> & _);
    [apply Z.mod_pos_bound; lia|]. by eexists.
Qed.

Lemma answers_some q : ∃ r, answers q r.
Proof.
  eexists. exists unit, (mkNet unit (λ n, (None, n)) (λ _ n, (None, n)) (λ n, ((None, None), n))
    (λ n, (0, n)) (λ n, (0, n))), 0, (mkWorkerSt false tt []). by split.
Qed.

(** Where a worker is not done, some goroutine can go on: the worker itself, or
    the collector when the results are full. *)
Lemma worker_progress s w :
  1 ≤ rc_concurrency cfg → perf_inv s → w ∈ pr_workers s → w ≠ WExit →
  (w = WIdle → pr_queries s ≠ [] ∨ queries_closed (pr_disp s) = true) → ∃ s', perf_work s s'.
Proof.
  intros Hc Hi Hw Hne Hidle. apply list_elem_of_split in Hw as (pre & post & Hw). destruct w as [|q|r|]; try done.
  - destruct (pr_queries s) as [|q qch] eqn:Eq; [|eexists; by eapply pw_recv].
    destruct (Hidle eq_refl) as [?|Hq]; [done|]. eexists. by eapply pw_exit.
  - destruct (answers_some q) as [r Ha]. eexists. by eapply pw_answer.
  - destruct (Z_lt_ge_dec (Z.of_nat (length (pr_results s))) chan_cap) as [Hl|Hg]; [eexists; by eapply pw_out|].
    assert (pr_collDone s = false) as Hcd.
    { destruct (pr_collDone s) eqn:E; [|done]. destruct (pi_collDone s Hi E) as [Hrc _].
      pose proof (pi_closed s Hi Hrc) as Hx. rewrite Hw in Hx. apply Forall_app in Hx as [_ Hx].
      by apply Forall_cons in Hx as [? _]. }
    destruct (pr_results s) as [|r' rch] eqn:Er; [|eexists; by eapply pw_collect].
    unfold chan_cap in Hg. simpl in Hg. lia.
Qed.

(** The run is over. *)
Definition perf_finished (s : PRun) : Prop := pr_disp s = DEnd.

Lemma perf_progress s :
  1 ≤ rc_concurrency cfg → rc_base cfg ≠ [] → perf_inv s → ¬ perf_finished s → ∃ s', perf_work s s'.
Proof.
  intros Hc Hb Hi Hf. pose proof (pi_disp s Hi) as Hd.
  destruct (pr_disp s) as [i|i|i q| | | |] eqn:E; simpl in Hd.
  - destruct (more_queries (rc_count cfg) i) eqn:Em; [|eexists; by eapply pw_check_end].
    destruct (pr_stop s) eqn:Es; eexists; [by eapply pw_check_stop|by eapply pw_check_go].
  - destruct (dispatch_query_Ok 0 i Hb ltac:(lia)) as [q Hq]. eexists. by eapply (pw_tick i 0).
  - destruct (Z_lt_ge_dec (Z.of_nat (length (pr_queries s))) chan_cap) as [Hl|Hg]; [eexists; by eapply pw_send|].
    destruct (pr_workers s) as [|w ws] eqn:Ew; [pose proof (pi_workers s Hi) as Hn; rewrite Ew in Hn; simpl in Hn; lia|].
    apply (worker_progress s w); [done|done|rewrite Ew; by left| |].
    + intros ->. destruct (pi_exit s Hi) as [Hx _]; [rewrite Ew; by left|]. by rewrite E in Hx.
    + intros _. left. intros Eq. rewrite Eq in Hg. unfold chan_cap in Hg. simpl in Hg. lia.
  - eexists. by apply pw_close.
  - destruct (decide (Forall (λ w, w = WExit) (pr_workers s))) as [Hx|Hx]; [eexists; by apply pw_wait|].
    apply not_Forall_Exists in Hx; [|intros w; apply _].
    apply Exists_exists in Hx as (w & Hw & Hne). apply (worker_progress s w); try done.
    intros _. right. by rewrite E.
  - destruct (pr_collDone s) eqn:Ed; [eexists; by apply pw_end|].
    destruct (pr_results s) as [|r rch] eqn:Er; eexists; [apply pw_collect_end; by rewrite ?E|by eapply pw_collect].
  - by destruct Hf.
Qed.

(** ** Termination

    What is left to do: eight units for every query still to be sent, and what
    remains of the way of those in flight.  Once [stop] is closed at most one more
    query is sent, whatever the count. *)
Definition disp_weight (stop : bool) (count : Z) (d : DispState) : nat :=
  match d with
  | DCheck i => if stop then 6 else 8 * Z.to_nat (count - i) + 6
  | DTick i => if stop then 12 else 8 * Z.to_nat (count - i) + 5
  | DSend i _ => if stop then 11 else 8 * Z.to_nat (count - i) + 4
  | DDone => 3
  | DWait => 2
  | DCollect => 1
  | DEnd => 0
  end.

Definition worker_weight (w : WorkerState) : nat :=
  match w with WIdle => 1 | WBusy _ => 4 | WOut _ => 3 | WExit => 0 end.

Definition perf_left (s : PRun) : nat :=
  disp_weight (pr_stop s) (rc_count cfg) (pr_disp s) + 4 * length (pr_queries s) +
  sum_list_with worker_weight (pr_workers s) + length (pr_results s) + (if pr_collDone s then 0 else 1).

Lemma perf_work_decreases s s' :
  perf_inv s → rc_count cfg ≠ 0 ∨ pr_stop s = true → perf_work s s' → (perf_left s' < perf_left s)%nat.
Proof.
  intros Hi Hfin Hw. unfold perf_left. pose proof (pi_disp s Hi) as Hd.
  destruct Hw as [i s E Hm|i s E Hm Hs|i s E Hm Hs|i rand q s E Hr Hq|i d s E Hd' Hs|i q s E Hc|i q s E Hs
    |s E|s E Hx|s E Hx|pre post q qch s Hw Hq|pre post s Hw Hq Hc|pre post q r s Hw Ha|pre post r s Hw Hc
    |r rch s Hc Hr|s Hc Hr Hx]; try rewrite E in *; simpl in *; rewrite ?length_app; simpl.
  1-10: try (destruct (pr_stop s); simpl; lia).
  - destruct (pr_stop s) eqn:Es; [lia|]. destruct Hd as (_ & Hm%more_queries_true & _).
    destruct Hfin as [Hfin|]; [|done]. lia.
  - rewrite Hw, Hq, !sum_list_with_app. simpl. lia.
  - rewrite Hw, Hq, !sum_list_with_app. simpl. lia.
  - rewrite Hw, !sum_list_with_app. simpl. lia.
  - rewrite Hw, !sum_list_with_app. simpl. lia.
  - rewrite Hr, Hc. simpl. lia.
  - rewrite Hr, Hc. simpl. lia.
Qed.

(** ** The accounts of a run *)

Lemma finished_accounts s :
  1 ≤ rc_concurrency cfg → perf_inv s → perf_finished s →
  pr_sent s ≡ₚ (pr_log s).*1 ∧ (pr_log s).*2 ≡ₚ pr_done s.
Proof.
  intros Hc Hi Hf. pose proof (pi_end s Hi Hf) as Hcd. destruct (pi_collDone s Hi Hcd) as [Hrc Hr].
  pose proof (pi_closed s Hi Hrc) as Hx. pose proof (pi_queries s Hi) as P1. pose proof (pi_results s Hi) as P2.
  rewrite Hr in P2.
  assert (omap busy (pr_workers s) = [] ∧ omap outgoing_result (pr_workers s) = []) as [B1 B2].
  { clear -Hx. induction Hx as [|w ws -> Hx [IH1 IH2]]; [done|]. split; [exact IH1|exact IH2]. }
  rewrite B1 in P1. rewrite B2 in P2. simpl in P1, P2. split; [|done].
  destruct (pr_workers s) as [|w ws] eqn:Ew; [pose proof (pi_workers s Hi) as Hn; rewrite Ew in Hn; simpl in Hn; lia|].
  apply Forall_cons in Hx as [-> _]. destruct (pi_exit s Hi) as [_ Hq]; [rewrite Ew; by left|].
  by rewrite Hq in P1.
Qed.

(** C31: a run of the load generator accounts for every query.  With at least one
    worker and one query to send, in every interleaving of dispatcher, workers,
    collector and the closing of [stop]: the queries sent are those of the file in
    turn; each is waiting, in work or answered, and each answer is on its way or
    counted, exactly once; the channels stay within their capacity; the goroutines
    never deadlock, and with a count or once [stop] is closed every run ends; then
    the total reported is the number of queries sent, which is the count asked for
    unless [stop] was closed. *)
Theorem perf_run_accounts (s : PRun) :
  1 ≤ rc_concurrency cfg → rc_base cfg ≠ [] → rtc perf_step perf_init s →
  (∀ j q, pr_sent s !! j = Some q →
     ∃ rand, dispatch_query (rc_base cfg) (rc_randomPrefix cfg) rand (Z.of_nat j) = Ok q) ∧
  pr_sent s ≡ₚ pr_queries s ++ omap busy (pr_workers s) ++ (pr_log s).*1 ∧
  (pr_log s).*2 ≡ₚ omap outgoing_result (pr_workers s) ++ pr_results s ++ pr_done s ∧
  Forall (λ e, answers e.1 e.2) (pr_log s) ∧
  Z.of_nat (length (pr_queries s)) ≤ chan_cap ∧ Z.of_nat (length (pr_results s)) ≤ chan_cap ∧
  (perf_finished s ∨ ∃ s', perf_work s s') ∧
  (rc_count cfg ≠ 0 ∨ pr_stop s = true → ∀ s', perf_work s s' → (perf_left s' < perf_left s)%nat) ∧
  (perf_finished s →
     c_total (pr_coll s) = Z.of_nat (length (pr_sent s)) ∧ recorded (pr_done s) (pr_coll s) ∧
     (pr_stop s = false → Z.of_nat (length (pr_sent s)) = Z.max 0 (rc_count cfg) ∧ rc_count cfg ≠ 0)).
Proof.
  intros Hc Hb Hr. pose proof (inv_reachable s Hc Hr) as Hi.
  split_and!; try apply Hi.
  - destruct (pr_disp s) eqn:E; try (right; apply perf_progress; [done..|]; unfold perf_finished; congruence).
    by left.
  - intros Hfin s' Hw. by apply perf_work_decreases.
  - intros Hf. destruct (finished_accounts s Hc Hi Hf) as [P1 P2]. split_and!.
    + rewrite (rec_total _ _ (pi_coll s Hi)), P1, <- P2, !length_fmap. done.
    + apply Hi.
    + apply (pi_full s Hi). left. by rewrite Hf.
Qed.

End run.

(** ** Starting a run *)
Section start.
Context `{DL : DnsLib} `{DN : DnsNames} `{GS : GoSort} `{GO : GoMapOrder}.

(** What [main] passes to a run is what a run needs; the only panic on the way is
    the ticker of a rate above one query per nanosecond. *)
Lemma perf_start_usable fs f :
  match perf_start fs f with
  | Panic => Second < flagQPS f
  | Ok (PDie _) => True
  | Ok (PStart _ cfg) =>
      rc_base cfg ≠ [] ∧ 1 ≤ rc_concurrency cfg ∧ rc_count cfg = effective_count f ∧
      (rc_interval cfg = None ∧ flagQPS f ≤ 0 ∨
       ∃ d, rc_interval cfg = Some d ∧ 0 < d ∧ 0 < flagQPS f ≤ Second)
  end.
Proof.
  unfold perf_start. destruct (check_flags f) as [m|] eqn:Ec; [done|].
  assert (1 ≤ flagConcurrency f) as Hc.
  { unfold check_flags in Ec. repeat case_match; try done; bool_prop; lia. }
  assert (∃ r, (if negb (String.eqb (flagFile f) "") then loadQueriesFromFile fs (flagFile f)
             else Ok (inl [mkQuery (Fqdn (flagRandomPrefix f)) TypeA])) = Ok r ∧ ∀ qs, r = inl qs → qs ≠ [])
    as (r & -> & Hr).
  { destruct (negb _); [|eexists; split; [done|by intros ? [= <-]]].
    destruct (loadQueriesFromFile_spec fs (flagFile f)) as (r & -> & Hr). exists r. split; [done|].
    intros qs ->. by destruct (Hr qs eq_refl) as (? & ? & ? & ? & ?). }
  destruct r as [qs|e]; [|done]. specialize (Hr qs eq_refl). cbn [rbind].
  unfold rate_ticker. destruct (Z.ltb_spec 0 (flagQPS f)) as [Hq|Hq]; cbn [rbind];
    [|cbn [rc_base rc_concurrency rc_count rc_interval]; split_and!; auto].
  unfold Second, Millisecond. destruct (Z.leb_spec (Z.quot (1000 * 1000000) (flagQPS f)) 0) as [H0|H0]; cbn [rbind].
  - destruct (Z_lt_ge_dec (1000 * 1000000) (flagQPS f)) as [|Hge]; [done|].
    assert (1 ≤ Z.quot (1000 * 1000000) (flagQPS f)) by (apply Z.quot_le_lower_bound; lia). lia.
  - cbn [rc_base rc_concurrency rc_count rc_interval]. split_and!; auto. right. eexists. split_and!; [done|done|done|].
    destruct (Z_lt_ge_dec (1000 * 1000000) (flagQPS f)); [|lia]. rewrite Z.quot_small in H0 by lia. lia.
Qed.
End start.

Module PerfRunWitness.
Definition q0 : query := mkQuery "example." TypeA.
Definition cfg : PerfRunCfg := mkPerfRunCfg [q0] 1 1 1 None false.
Definition r0 : result := mkResult 0 0 false false.
Definition quiet : Net unit :=
  mkNet unit (λ n, (None, n)) (λ _ n, (None, n)) (λ n, ((None, None), n)) (λ n, (0, n)) (λ n, (0, n)).

(** One query, one worker, to the end. *)
Lemma one_query : rtc (perf_step (DL := RefDns.lib) cfg) (perf_init cfg)
  (mkPRun DEnd false [] [WExit] [] (record (newCollector 1).1 r0) true [q0] [(q0, r0)] [r0]).
Proof.
  eapply rtc_l; [apply ps_work; by apply (pw_check_go cfg 0)|].
  eapply rtc_l; [apply ps_work; apply (pw_tick cfg 0 0 q0); [reflexivity|lia|reflexivity]|].
  eapply rtc_l; [apply ps_work; apply (pw_send cfg 0 q0); [reflexivity|reflexivity]|].
  eapply rtc_l; [apply ps_work; by apply (pw_recv cfg [] [] q0 [])|].
  eapply rtc_l; [apply ps_work; apply (pw_answer cfg [] [] q0 r0); [reflexivity|]|].
  { exists unit, quiet, 0, (mkWorkerSt false tt []). split; reflexivity. }
  eapply rtc_l; [apply ps_work; apply (pw_out cfg [] [] r0); [reflexivity|reflexivity]|].
  eapply rtc_l; [apply ps_work; by apply (pw_collect cfg r0 [])|].
  eapply rtc_l; [apply ps_work; by apply (pw_check_end cfg 1)|].
  eapply rtc_l; [apply ps_work; by apply pw_close|].
  eapply rtc_l; [apply ps_work; by apply (pw_exit cfg [] [])|].
  eapply rtc_l; [apply ps_work; apply pw_wait; [reflexivity|by repeat constructor]|].
  eapply rtc_l; [apply ps_work; by apply pw_collect_end|].
  eapply rtc_l; [apply ps_work; by apply pw_end|]. apply rtc_refl.
Qed.

Lemma perf_run_accounts_witness :
  c_total (record (newCollector 1).1 r0) = Z.max 0 (rc_count cfg).
Proof.
  destruct (perf_run_accounts (DL := RefDns.lib) cfg _ ltac:(simpl; lia) ltac:(simpl; discriminate) one_query)
    as (_ & _ & _ & _ & _ & _ & _ & _ & Hf).
  destruct (Hf eq_refl) as (Ht & _ & Hs). destruct (Hs eq_refl) as [Hn _].
  rewrite <- Hn. exact Ht.
Defined.
End PerfRunWitness.
