(* ===== verification/Prom.v ===== *)
(** * The Prometheus client

    The metrics of rec53 are collectors of client_golang, a library outside the
    repository.  [Prom] is its interface as the code uses it: vectors are created
    with their label names, a call names a collector by its values for these
    labels, a registry panics when a collector is registered twice, and the page it
    serves lists the children of the registered collectors.  [PromLaws] relates the
    library to a plain model: a map of children per collector.  A vector has a
    child for the label values it was used with; a collector without labels has its
    one child from the start.  A scrape is what a client parses from the page. *)

From Stdlib Require Import SpecFloat.
From S2P Require Import Prelude GoLib GoText Float64 FloatExact TuiMetrics GoFormat.

(** ** Text *)

(** [utf8.ValidString] *)
Fixpoint valid_utf8 (s : string) : bool :=
  match s with
  | EmptyString => true
  | String a s1 =>
      if byte_in 0 127 a then valid_utf8 s1
      else match s1 with
           | EmptyString => false
           | String b s2 =>
               if byte_in 194 223 a && byte_in 128 191 b then valid_utf8 s2
               else match s2 with
                    | EmptyString => false
                    | String c s3 =>
                        if byte_in 224 239 a && second_ok a b && byte_in 128 191 c then valid_utf8 s3
                        else match s3 with
                             | EmptyString => false
                             | String d s4 =>
                                 byte_in 240 244 a && second_ok a b && byte_in 128 191 c &&
                                 byte_in 128 191 d && valid_utf8 s4
                             end
                    end
           end
  end.

Definition name_start (c : Ascii.ascii) : bool :=
  byte_in 97 122 c || byte_in 65 90 c || byte_in 95 95 c.
Definition name_rest (c : Ascii.ascii) : bool := name_start c || byte_in 48 57 c.

(** Names of metrics and labels that every version of the library accepts. *)
Definition valid_name (s : string) : bool :=
  match String.list_ascii_of_string s with
  | [] => false
  | c :: l => name_start c && forallb name_rest l
  end.

(** ** Collectors and their children *)

(** A vector has label names; a plain collector has [None]. *)
Record Desc := mkDesc {
  d_name : string;
  d_kind : MetricType;
  d_labels : option (list string);
  d_buckets : list f64;
}.

Definition label_names (d : Desc) : list string := default [] (d_labels d).

Definition desc_ok (d : Desc) : bool :=
  valid_name (d_name d) && forallb (λ l, valid_name l && negb (HasPrefix l "__") && negb (String.eqb l "le")) (label_names d) &&
  bool_decide (NoDup (label_names d)).

(** The counts a counter was given, the last value of a gauge; of a histogram the
    number and the sum of the observations and the count of each bucket, the last
    one for what is above all bounds. *)
Inductive pvalue :=
| PCounter (n : Z)
| PGauge (x : f64)
| PHistogram (count : Z) (sum : f64) (cells : list Z).

Definition zero_value (d : Desc) : pvalue :=
  match d_kind d with
  | MT_COUNTER => PCounter 0
  | MT_HISTOGRAM => PHistogram 0 f64_zero (replicate (S (length (d_buckets d))) 0)
  | _ => PGauge f64_zero
  end.

Record PromState := mkProm {
  ps_descs : gmap string Desc;
  ps_reg : gset string;
  ps_children : gmap string (gmap (list string) pvalue);
}.

Definition children (s : PromState) (name : string) : gmap (list string) pvalue :=
  default ∅ (ps_children s !! name).

Definition plain_child (d : Desc) : option (string * gmap (list string) pvalue) :=
  match d_labels d with
  | None => Some (d_name d, {[ ([] : list string) := zero_value d ]})
  | Some _ => None
  end.

Definition prom_state0 (ds : list Desc) : PromState :=
  mkProm (list_to_map (map (λ d, (d_name d, d)) ds)) ∅ (list_to_map (omap plain_child ds)).

Definition labels_ok (d : Desc) (lvs : list string) : bool :=
  (length lvs =? length (label_names d))%nat && forallb valid_utf8 lvs.

(** A change of the child with these label values, created if need be; [None] is
    a panic. *)
Definition update (name : string) (lvs : list string) (f : Desc → pvalue → option pvalue) (s : PromState)
    : option PromState :=
  d ← ps_descs s !! name;
  if labels_ok d lvs then
    v ← f d (default (zero_value d) (children s name !! lvs));
    Some (mkProm (ps_descs s) (ps_reg s) (<[name := <[lvs := v]> (children s name)]> (ps_children s)))
  else None.

(** [Inc] and [Add]: a counter cannot decrease. *)
Definition add_value (n : Z) (_ : Desc) (v : pvalue) : option pvalue :=
  match v with PCounter m => if n <? 0 then None else Some (PCounter (m + n)) | _ => None end.

Definition set_value (x : f64) (_ : Desc) (v : pvalue) : option pvalue :=
  match v with PGauge _ => Some (PGauge x) | _ => None end.

(** The first bucket whose bound is not below the value. *)
Fixpoint bucket_of (bounds : list f64) (x : f64) : nat :=
  match bounds with
  | [] => 0
  | b :: rest => if f64_leb x b then 0 else S (bucket_of rest x)
  end.

Definition observe_value (x : f64) (d : Desc) (v : pvalue) : option pvalue :=
  match v with
  | PHistogram n sum cells => Some (PHistogram (n + 1) (f64_add sum x) (alter (Z.add 1) (bucket_of (d_buckets d) x) cells))
  | _ => None
  end.

Definition register (name : string) (s : PromState) : option PromState :=
  d ← ps_descs s !! name;
  if bool_decide (name ∈ ps_reg s) || negb (desc_ok d) then None
  else Some (mkProm (ps_descs s) ({[name]} ∪ ps_reg s) (ps_children s)).

(** ** What a scrape shows *)

(** The buckets of the page are cumulative, and the last one has no bound. *)
Fixpoint cumulative (acc : Z) (bounds : list f64) (cells : list Z) : list (f64 * Z) :=
  match cells with
  | [] => []
  | c :: cells' =>
      match bounds with
      | [] => [(f64_inf, acc + c)]
      | b :: bounds' => (b, acc + c) :: cumulative (acc + c) bounds' cells'
      end
  end.

(** The metric of a child, its labels in some order; counters are exact up to
    [2^53]. *)
Definition metric_of (d : Desc) (lvs : list string) (v : pvalue) (m : dtoMetric) : Prop :=
  dm_Label m ≡ₚ zip (label_names d) lvs ∧
  match v with
  | PCounter n => n < 2 ^ 53 → dm_Counter m = Some (f64_of_Z n)
  | PGauge x => dm_Gauge m = Some x
  | PHistogram n sum cells => dm_Histogram m = Some (mkDtoHistogram n sum (cumulative 0 (d_buckets d) cells))
  end.

(** ** The library *)

Class Prom (P : Type) := {
  (** the collectors a package creates when it is initialised *)
  prom_new : list Desc → P;
  (** [c.WithLabelValues(lvs...)] (or [c] itself), then [Inc] or [Add], [Set], [Observe];
      [None] is a panic *)
  prom_Add : string → list string → Z → P → option P;
  prom_Set : string → list string → f64 → P → option P;
  prom_Observe : string → list string → f64 → P → option P;
  (** [DefaultRegisterer.MustRegister(c)] *)
  prom_MustRegister : string → P → option P;
  (** the families a client parses from the page of [promhttp.Handler()] *)
  prom_scrape : P → gmap string MetricFamily;
}.

Class PromLaws (P : Type) `{Prom P} := {
  prom_view : P → PromState;
  prom_new_view ds : NoDup (d_name <$> ds) → prom_view (prom_new ds) = prom_state0 ds;
  prom_Add_view name lvs n p s : update name lvs (add_value n) (prom_view p) = Some s →
    ∃ p', prom_Add name lvs n p = Some p' ∧ prom_view p' = s;
  prom_Set_view name lvs x p s : update name lvs (set_value x) (prom_view p) = Some s →
    ∃ p', prom_Set name lvs x p = Some p' ∧ prom_view p' = s;
  prom_Observe_view name lvs x p s : update name lvs (observe_value x) (prom_view p) = Some s →
    ∃ p', prom_Observe name lvs x p = Some p' ∧ prom_view p' = s;
  prom_MustRegister_view name p s : register name (prom_view p) = Some s →
    ∃ p', prom_MustRegister name p = Some p' ∧ prom_view p' = s;
  prom_MustRegister_twice name p : name ∈ ps_reg (prom_view p) → prom_MustRegister name p = None;
  prom_scrape_some p name d :
    ps_descs (prom_view p) !! name = Some d → name ∈ ps_reg (prom_view p) → children (prom_view p) name ≠ ∅ →
    ∃ f l, prom_scrape p !! name = Some f ∧ mf_Type f = d_kind d ∧
      l ≡ₚ map_to_list (children (prom_view p) name) ∧ Forall2 (λ c m, metric_of d c.1 c.2 m) l (mf_Metric f);
  prom_scrape_none p name d :
    ps_descs (prom_view p) !! name = Some d →
    name ∉ ps_reg (prom_view p) ∨ children (prom_view p) name = ∅ → prom_scrape p !! name = None;
}.

(** ** A reference library: the model itself *)
Module RefProm.
Definition dto_of (d : Desc) (lvs : list string) (v : pvalue) : dtoMetric :=
  mkDtoMetric (zip (label_names d) lvs)
    (match v with PGauge x => Some x | _ => None end)
    (match v with PCounter n => Some (f64_of_Z n) | _ => None end)
    (match v with PHistogram n sum cells => Some (mkDtoHistogram n sum (cumulative 0 (d_buckets d) cells)) | _ => None end).

Definition scrape (s : PromState) : gmap string MetricFamily :=
  map_imap (λ name d,
    let cs := map_to_list (children s name) in
    if bool_decide (name ∈ ps_reg s) && negb (length cs =? 0)%nat
    then Some (mkFamily (d_kind d) ((λ c, dto_of d c.1 c.2) <$> cs)) else None) (ps_descs s).

#[export] Instance lib : Prom PromState := {
  prom_new := prom_state0;
  prom_Add name lvs n := update name lvs (add_value n);
  prom_Set name lvs x := update name lvs (set_value x);
  prom_Observe name lvs x := update name lvs (observe_value x);
  prom_MustRegister := register;
  prom_scrape := scrape;
}.

#[export] Instance laws : PromLaws PromState.
Proof.
  refine (Build_PromLaws _ _ id _ _ _ _ _ _ _ _); simpl; eauto.
  - intros name p Hin. unfold register. destruct (ps_descs p !! name); [|done]. simpl.
    by rewrite bool_decide_eq_true_2.
  - intros p name d Hd Hreg Hne. unfold scrape. rewrite map_lookup_imap, Hd. simpl.
    rewrite bool_decide_eq_true_2 by done. simpl.
    destruct (Nat.eqb_spec (length (map_to_list (children p name))) 0) as [E|E].
    { apply nil_length_inv, map_to_list_empty_iff in E. done. }
    eexists _, _. split_and!; [done|done|done|]. simpl. rewrite Forall2_fmap_r.
    apply Forall_Forall2_diag, Forall_true. intros [lvs v]. split; [done|]. by destruct v.
  - intros p name d Hd Hor. unfold scrape. rewrite map_lookup_imap, Hd. simpl.
    destruct Hor as [Hn|He]; [by rewrite bool_decide_eq_false_2|].
    rewrite He, map_to_list_empty. by rewrite andb_false_r.
Defined.
End RefProm.
