(* ===== verification/Metrics.v ===== *)
(** * The metrics of the server (monitor/var.go, monitor/metric.go)

    The thirty-six collectors with their kinds, label names and buckets, the methods
    of [Metric] the server calls, and their registration.  A method is a program on
    the state of the Prometheus library ([Prom]) that may panic; [MetricCall] lists
    the calls with their arguments, so a sequence of calls is what a server that ran
    for a while has done.  [effects] is the same as data: which child of which
    collector a call touches, and how. *)

From S2P Require Import Prelude GoLib GoText Float64 FloatExact TuiMetrics GoFormat Prom.

(** ** monitor/var.go *)

Definition InCounter : Desc := mkDesc "rec53_query_counter" MT_COUNTER (Some ["stage"; "type"]) [].
Definition OutCounter : Desc := mkDesc "rec53_response_counter" MT_COUNTER (Some ["stage"; "type"; "code"]) [].
Definition LatencyHistogramObserver : Desc :=
  mkDesc "rec53_latency" MT_HISTOGRAM (Some ["stage"; "type"; "code"]) (f64_of_Z <$> [10; 50; 200; 1000; 3000]).
Definition IPQualityV2_P50 : Desc := mkDesc "rec53_ipv2_p50_latency_ms" MT_GAUGE (Some ["ip"]) [].
Definition IPQualityV2_P95 : Desc := mkDesc "rec53_ipv2_p95_latency_ms" MT_GAUGE (Some ["ip"]) [].
Definition IPQualityV2_P99 : Desc := mkDesc "rec53_ipv2_p99_latency_ms" MT_GAUGE (Some ["ip"]) [].
Definition XDPStatus : Desc := mkDesc "rec53_xdp_status" MT_GAUGE None [].
Definition XDPCacheHitsTotal : Desc := mkDesc "rec53_xdp_cache_hits_total" MT_GAUGE None [].
Definition XDPCacheMissesTotal : Desc := mkDesc "rec53_xdp_cache_misses_total" MT_GAUGE None [].
Definition XDPPassTotal : Desc := mkDesc "rec53_xdp_pass_total" MT_GAUGE None [].
Definition XDPErrorsTotal : Desc := mkDesc "rec53_xdp_errors_total" MT_GAUGE None [].
Definition CacheLookupTotal : Desc := mkDesc "rec53_cache_lookup_total" MT_COUNTER (Some ["result"]) [].
Definition CacheEntries : Desc := mkDesc "rec53_cache_entries" MT_GAUGE None [].
Definition CacheLifecycleTotal : Desc := mkDesc "rec53_cache_lifecycle_total" MT_COUNTER (Some ["event"]) [].
Definition SnapshotOperationsTotal : Desc :=
  mkDesc "rec53_snapshot_operations_total" MT_COUNTER (Some ["operation"; "result"]) [].
Definition SnapshotEntriesTotal : Desc :=
  mkDesc "rec53_snapshot_entries_total" MT_COUNTER (Some ["operation"; "result"]) [].
Definition SnapshotDurationMs : Desc :=
  mkDesc "rec53_snapshot_duration_ms" MT_HISTOGRAM (Some ["operation"; "result"])
    (f64_of_Z <$> [1; 5; 10; 50; 100; 250; 500; 1000; 5000]).
Definition UpstreamFailuresTotal : Desc :=
  mkDesc "rec53_upstream_failures_total" MT_COUNTER (Some ["reason"; "rcode"]) [].
Definition UpstreamFallbackTotal : Desc := mkDesc "rec53_upstream_fallback_total" MT_COUNTER (Some ["result"]) [].
Definition UpstreamWinnerTotal : Desc := mkDesc "rec53_upstream_winner_total" MT_COUNTER (Some ["path"]) [].
Definition UpstreamGateEventsTotal : Desc :=
  mkDesc "rec53_upstream_gate_events_total" MT_COUNTER (Some ["action"; "path"]) [].
Definition UpstreamGateInFlight : Desc := mkDesc "rec53_upstream_gate_inflight" MT_GAUGE None [].
Definition UpstreamGateLimit : Desc := mkDesc "rec53_upstream_gate_limit" MT_GAUGE None [].
Definition XDPSyncErrorsTotal : Desc := mkDesc "rec53_xdp_cache_sync_errors_total" MT_COUNTER (Some ["reason"]) [].
Definition XDPCleanupDeletedTotal : Desc := mkDesc "rec53_xdp_cleanup_deleted_total" MT_COUNTER None [].
Definition XDPEntries : Desc := mkDesc "rec53_xdp_entries" MT_GAUGE None [].
Definition StateMachineStageTotal : Desc := mkDesc "rec53_state_machine_stage_total" MT_COUNTER (Some ["stage"]) [].
Definition StateMachineFailuresTotal : Desc :=
  mkDesc "rec53_state_machine_failures_total" MT_COUNTER (Some ["reason"]) [].
Definition StateMachineTransitionTotal : Desc :=
  mkDesc "rec53_state_machine_transition_total" MT_COUNTER (Some ["from"; "to"]) [].
Definition ExpensiveRequestLimitTotal : Desc :=
  mkDesc "rec53_expensive_request_limit_total" MT_COUNTER (Some ["action"; "path"]) [].
Definition HotZoneProtectionEventsTotal : Desc :=
  mkDesc "rec53_hot_zone_protection_events_total" MT_COUNTER (Some ["event"]) [].
Definition HotZoneObserveMode : Desc := mkDesc "rec53_hot_zone_observe_mode" MT_GAUGE None [].
Definition HotZoneProtected : Desc := mkDesc "rec53_hot_zone_protected" MT_GAUGE None [].
Definition HotZoneAvgExpensiveConcurrency : Desc :=
  mkDesc "rec53_hot_zone_avg_expensive_concurrency" MT_GAUGE None [].
Definition HotZoneBaselineConcurrency : Desc := mkDesc "rec53_hot_zone_baseline_concurrency" MT_GAUGE None [].
Definition HotZoneCandidateStreak : Desc := mkDesc "rec53_hot_zone_candidate_streak" MT_GAUGE None [].

(** In the order [Register] registers them. *)
Definition collectors : list Desc :=
  [InCounter; OutCounter; LatencyHistogramObserver; IPQualityV2_P50; IPQualityV2_P95; IPQualityV2_P99; XDPStatus;
   XDPCacheHitsTotal; XDPCacheMissesTotal; XDPPassTotal; XDPErrorsTotal; CacheLookupTotal; CacheEntries;
   CacheLifecycleTotal; SnapshotOperationsTotal; SnapshotEntriesTotal; SnapshotDurationMs; UpstreamFailuresTotal;
   UpstreamFallbackTotal; UpstreamWinnerTotal; UpstreamGateEventsTotal; UpstreamGateInFlight; UpstreamGateLimit;
   XDPSyncErrorsTotal; XDPCleanupDeletedTotal; XDPEntries; StateMachineStageTotal; StateMachineFailuresTotal;
   StateMachineTransitionTotal; ExpensiveRequestLimitTotal; HotZoneProtectionEventsTotal; HotZoneObserveMode;
   HotZoneProtected; HotZoneAvgExpensiveConcurrency; HotZoneBaselineConcurrency; HotZoneCandidateStreak].

(** ** monitor/metric.go *)

Section metric.
Context {P : Type} `{PR : Prom P}.

(** A call into the library, which may panic. *)
Definition prom_do (f : P → option P) : M P unit :=
  λ p, match f p with Some p' => (Ok tt, p') | None => (Panic, p) end.

Definition counter_add (d : Desc) (lvs : list string) (n : Z) : M P unit := prom_do (prom_Add (d_name d) lvs n).
Definition gauge_set (d : Desc) (lvs : list string) (x : f64) : M P unit := prom_do (prom_Set (d_name d) lvs x).
Definition observe (d : Desc) (lvs : list string) (x : f64) : M P unit := prom_do (prom_Observe (d_name d) lvs x).

Definition InCounterAdd (stage qtype : string) : M P unit := counter_add InCounter [stage; qtype] 1.
Definition OutCounterAdd (stage qtype code : string) : M P unit := counter_add OutCounter [stage; qtype; code] 1.
Definition LatencyHistogramObserve (stage qtype code : string) (latency : f64) : M P unit :=
  observe LatencyHistogramObserver [stage; qtype; code] latency.
Definition CacheLookupAdd (result : string) : M P unit := counter_add CacheLookupTotal [result] 1.
Definition CacheEntriesSet (entries : Z) : M P unit := gauge_set CacheEntries [] (f64_of_Z entries).
Definition CacheLifecycleAdd (event : string) (delta : Z) : M P unit := counter_add CacheLifecycleTotal [event] delta.
Definition IPQualityV2GaugeSet (ip : string) (p50 p95 p99 : f64) : M P unit :=
  do! gauge_set IPQualityV2_P50 [ip] p50 in
  do! gauge_set IPQualityV2_P95 [ip] p95 in
  gauge_set IPQualityV2_P99 [ip] p99.
Definition SnapshotOperationAdd (operation result : string) : M P unit :=
  counter_add SnapshotOperationsTotal [operation; result] 1.
Definition SnapshotEntriesAdd (operation result : string) (count : Z) : M P unit :=
  counter_add SnapshotEntriesTotal [operation; result] count.
Definition SnapshotDurationObserve (operation result : string) (duration : Z) : M P unit :=
  observe SnapshotDurationMs [operation; result] (f64_of_Z (Z.quot duration Millisecond)).
Definition UpstreamFailureAdd (reason rcode : string) : M P unit := counter_add UpstreamFailuresTotal [reason; rcode] 1.
Definition UpstreamFallbackAdd (result : string) : M P unit := counter_add UpstreamFallbackTotal [result] 1.
Definition UpstreamWinnerAdd (path : string) : M P unit := counter_add UpstreamWinnerTotal [path] 1.
Definition UpstreamGateEventAdd (action path : string) : M P unit := counter_add UpstreamGateEventsTotal [action; path] 1.
Definition UpstreamGateInFlightSet (value : Z) : M P unit := gauge_set UpstreamGateInFlight [] (f64_of_Z value).
Definition UpstreamGateLimitSet (value : Z) : M P unit := gauge_set UpstreamGateLimit [] (f64_of_Z value).
Definition XDPSyncErrorAdd (reason : string) : M P unit := counter_add XDPSyncErrorsTotal [reason] 1.
Definition XDPCleanupDeletedAdd (count : Z) : M P unit := counter_add XDPCleanupDeletedTotal [] count.
Definition XDPEntriesSet (count : Z) : M P unit := gauge_set XDPEntries [] (f64_of_Z count).
Definition StateMachineStageAdd (stage : string) : M P unit := counter_add StateMachineStageTotal [stage] 1.
Definition StateMachineFailureAdd (reason : string) : M P unit := counter_add StateMachineFailuresTotal [reason] 1.
Definition StateMachineTransitionAdd (from to : string) : M P unit :=
  counter_add StateMachineTransitionTotal [from; to] 1.
Definition ExpensiveRequestLimitAdd (action path : string) : M P unit :=
  counter_add ExpensiveRequestLimitTotal [action; path] 1.
Definition HotZoneEventAdd (event : string) : M P unit := counter_add HotZoneProtectionEventsTotal [event] 1.
Definition HotZoneObserveModeSet (active : bool) : M P unit :=
  if active then gauge_set HotZoneObserveMode [] (f64_of_Z 1) else gauge_set HotZoneObserveMode [] (f64_of_Z 0).
Definition HotZoneProtectedSet (active : bool) : M P unit :=
  if active then gauge_set HotZoneProtected [] (f64_of_Z 1) else gauge_set HotZoneProtected [] (f64_of_Z 0).
Definition HotZoneAvgExpensiveConcurrencySet (value : f64) : M P unit :=
  gauge_set HotZoneAvgExpensiveConcurrency [] value.
Definition HotZoneBaselineConcurrencySet (value : f64) : M P unit := gauge_set HotZoneBaselineConcurrency [] value.
Definition HotZoneCandidateStreakSet (value : Z) : M P unit := gauge_set HotZoneCandidateStreak [] (f64_of_Z value).

Fixpoint register_all (ds : list Desc) : M P unit :=
  match ds with
  | [] => ret tt
  | d :: ds' => do! prom_do (prom_MustRegister (d_name d)) in register_all ds'
  end.

Definition Register : M P unit := register_all collectors.

(** The address the metrics server listens on; [None] before it was started. *)
Record Monitor := mkMonitor {
  mon_prom : P;
  MetricServer : option string;
}.

Definition InitMetricWithAddr (addr : string) : M Monitor unit := λ m,
  match Register (mon_prom m) with
  | (Ok _, p) => (Ok tt, mkMonitor p (Some addr))
  | (Panic, p) => (Panic, mkMonitor p (MetricServer m))
  end.

Definition InitMetric : M Monitor unit := InitMetricWithAddr ":9999".

(** ** Calls *)

Inductive MetricCall :=
| CInCounterAdd (stage qtype : string)
| COutCounterAdd (stage qtype code : string)
| CLatencyHistogramObserve (stage qtype code : string) (latency : f64)
| CCacheLookupAdd (result : string)
| CCacheEntriesSet (entries : Z)
| CCacheLifecycleAdd (event : string) (delta : Z)
| CIPQualityV2GaugeSet (ip : string) (p50 p95 p99 : f64)
| CSnapshotOperationAdd (operation result : string)
| CSnapshotEntriesAdd (operation result : string) (count : Z)
| CSnapshotDurationObserve (operation result : string) (duration : Z)
| CUpstreamFailureAdd (reason rcode : string)
| CUpstreamFallbackAdd (result : string)
| CUpstreamWinnerAdd (path : string)
| CUpstreamGateEventAdd (action path : string)
| CUpstreamGateInFlightSet (value : Z)
| CUpstreamGateLimitSet (value : Z)
| CXDPSyncErrorAdd (reason : string)
| CXDPCleanupDeletedAdd (count : Z)
| CXDPEntriesSet (count : Z)
| CStateMachineStageAdd (stage : string)
| CStateMachineFailureAdd (reason : string)
| CStateMachineTransitionAdd (from to : string)
| CExpensiveRequestLimitAdd (action path : string)
| CHotZoneEventAdd (event : string)
| CHotZoneObserveModeSet (active : bool)
| CHotZoneProtectedSet (active : bool)
| CHotZoneAvgExpensiveConcurrencySet (value : f64)
| CHotZoneBaselineConcurrencySet (value : f64)
| CHotZoneCandidateStreakSet (value : Z)
(** [monitor.XDPStatus.Set] (server.go) and the gauges of the kernel's counters
    (xdp_metrics.go) are set directly. *)
| CXDPStatusSet (x : f64)
| CXDPStatsSet (hit miss pass xerr : f64).

Definition call (c : MetricCall) : M P unit :=
  match c with
  | CInCounterAdd stage qtype => InCounterAdd stage qtype
  | COutCounterAdd stage qtype code => OutCounterAdd stage qtype code
  | CLatencyHistogramObserve stage qtype code latency => LatencyHistogramObserve stage qtype code latency
  | CCacheLookupAdd result => CacheLookupAdd result
  | CCacheEntriesSet entries => CacheEntriesSet entries
  | CCacheLifecycleAdd event delta => CacheLifecycleAdd event delta
  | CIPQualityV2GaugeSet ip p50 p95 p99 => IPQualityV2GaugeSet ip p50 p95 p99
  | CSnapshotOperationAdd operation result => SnapshotOperationAdd operation result
  | CSnapshotEntriesAdd operation result count => SnapshotEntriesAdd operation result count
  | CSnapshotDurationObserve operation result duration => SnapshotDurationObserve operation result duration
  | CUpstreamFailureAdd reason rcode => UpstreamFailureAdd reason rcode
  | CUpstreamFallbackAdd result => UpstreamFallbackAdd result
  | CUpstreamWinnerAdd path => UpstreamWinnerAdd path
  | CUpstreamGateEventAdd action path => UpstreamGateEventAdd action path
  | CUpstreamGateInFlightSet value => UpstreamGateInFlightSet value
  | CUpstreamGateLimitSet value => UpstreamGateLimitSet value
  | CXDPSyncErrorAdd reason => XDPSyncErrorAdd reason
  | CXDPCleanupDeletedAdd count => XDPCleanupDeletedAdd count
  | CXDPEntriesSet count => XDPEntriesSet count
  | CStateMachineStageAdd stage => StateMachineStageAdd stage
  | CStateMachineFailureAdd reason => StateMachineFailureAdd reason
  | CStateMachineTransitionAdd from to => StateMachineTransitionAdd from to
  | CExpensiveRequestLimitAdd action path => ExpensiveRequestLimitAdd action path
  | CHotZoneEventAdd event => HotZoneEventAdd event
  | CHotZoneObserveModeSet active => HotZoneObserveModeSet active
  | CHotZoneProtectedSet active => HotZoneProtectedSet active
  | CHotZoneAvgExpensiveConcurrencySet value => HotZoneAvgExpensiveConcurrencySet value
  | CHotZoneBaselineConcurrencySet value => HotZoneBaselineConcurrencySet value
  | CHotZoneCandidateStreakSet value => HotZoneCandidateStreakSet value
  | CXDPStatusSet x => gauge_set XDPStatus [] x
  | CXDPStatsSet hit miss pass xerr =>
      do! gauge_set XDPCacheHitsTotal [] hit in
      do! gauge_set XDPCacheMissesTotal [] miss in
      do! gauge_set XDPPassTotal [] pass in
      gauge_set XDPErrorsTotal [] xerr
  end.

Fixpoint calls (cs : list MetricCall) : M P unit :=
  match cs with
  | [] => ret tt
  | c :: cs' => do! call c in calls cs'
  end.
End metric.

(** ** The same as data

    Counters are only given integers; [float64(delta)] is the integer itself up to
    [2^53]. *)

Inductive op := OAdd (n : Z) | OSet (x : f64) | OObserve (x : f64).

Record effect := mkEffect {
  e_desc : Desc;
  e_labels : list string;
  e_op : op;
}.

Definition effects (c : MetricCall) : list effect :=
  match c with
  | CInCounterAdd stage qtype => [mkEffect InCounter [stage; qtype] (OAdd 1)]
  | COutCounterAdd stage qtype code => [mkEffect OutCounter [stage; qtype; code] (OAdd 1)]
  | CLatencyHistogramObserve stage qtype code latency =>
      [mkEffect LatencyHistogramObserver [stage; qtype; code] (OObserve latency)]
  | CCacheLookupAdd result => [mkEffect CacheLookupTotal [result] (OAdd 1)]
  | CCacheEntriesSet entries => [mkEffect CacheEntries [] (OSet (f64_of_Z entries))]
  | CCacheLifecycleAdd event delta => [mkEffect CacheLifecycleTotal [event] (OAdd delta)]
  | CIPQualityV2GaugeSet ip p50 p95 p99 =>
      [mkEffect IPQualityV2_P50 [ip] (OSet p50); mkEffect IPQualityV2_P95 [ip] (OSet p95);
       mkEffect IPQualityV2_P99 [ip] (OSet p99)]
  | CSnapshotOperationAdd operation result => [mkEffect SnapshotOperationsTotal [operation; result] (OAdd 1)]
  | CSnapshotEntriesAdd operation result count => [mkEffect SnapshotEntriesTotal [operation; result] (OAdd count)]
  | CSnapshotDurationObserve operation result duration =>
      [mkEffect SnapshotDurationMs [operation; result] (OObserve (f64_of_Z (Z.quot duration Millisecond)))]
  | CUpstreamFailureAdd reason rcode => [mkEffect UpstreamFailuresTotal [reason; rcode] (OAdd 1)]
  | CUpstreamFallbackAdd result => [mkEffect UpstreamFallbackTotal [result] (OAdd 1)]
  | CUpstreamWinnerAdd path => [mkEffect UpstreamWinnerTotal [path] (OAdd 1)]
  | CUpstreamGateEventAdd action path => [mkEffect UpstreamGateEventsTotal [action; path] (OAdd 1)]
  | CUpstreamGateInFlightSet value => [mkEffect UpstreamGateInFlight [] (OSet (f64_of_Z value))]
  | CUpstreamGateLimitSet value => [mkEffect UpstreamGateLimit [] (OSet (f64_of_Z value))]
  | CXDPSyncErrorAdd reason => [mkEffect XDPSyncErrorsTotal [reason] (OAdd 1)]
  | CXDPCleanupDeletedAdd count => [mkEffect XDPCleanupDeletedTotal [] (OAdd count)]
  | CXDPEntriesSet count => [mkEffect XDPEntries [] (OSet (f64_of_Z count))]
  | CStateMachineStageAdd stage => [mkEffect StateMachineStageTotal [stage] (OAdd 1)]
  | CStateMachineFailureAdd reason => [mkEffect StateMachineFailuresTotal [reason] (OAdd 1)]
  | CStateMachineTransitionAdd from to => [mkEffect StateMachineTransitionTotal [from; to] (OAdd 1)]
  | CExpensiveRequestLimitAdd action path => [mkEffect ExpensiveRequestLimitTotal [action; path] (OAdd 1)]
  | CHotZoneEventAdd event => [mkEffect HotZoneProtectionEventsTotal [event] (OAdd 1)]
  | CHotZoneObserveModeSet active => [mkEffect HotZoneObserveMode [] (OSet (f64_of_Z (if active then 1 else 0)))]
  | CHotZoneProtectedSet active => [mkEffect HotZoneProtected [] (OSet (f64_of_Z (if active then 1 else 0)))]
  | CHotZoneAvgExpensiveConcurrencySet value => [mkEffect HotZoneAvgExpensiveConcurrency [] (OSet value)]
  | CHotZoneBaselineConcurrencySet value => [mkEffect HotZoneBaselineConcurrency [] (OSet value)]
  | CHotZoneCandidateStreakSet value => [mkEffect HotZoneCandidateStreak [] (OSet (f64_of_Z value))]
  | CXDPStatusSet x => [mkEffect XDPStatus [] (OSet x)]
  | CXDPStatsSet hit miss pass xerr =>
      [mkEffect XDPCacheHitsTotal [] (OSet hit); mkEffect XDPCacheMissesTotal [] (OSet miss);
       mkEffect XDPPassTotal [] (OSet pass); mkEffect XDPErrorsTotal [] (OSet xerr)]
  end.

(** ** Types: kinds, arities, label values *)

Definition kind_ok (d : Desc) (o : op) : bool :=
  match d_kind d, o with
  | MT_COUNTER, OAdd _ | MT_GAUGE, OSet _ | MT_HISTOGRAM, OObserve _ => true
  | _, _ => false
  end.

Definition op_nonneg (o : op) : bool := match o with OAdd n => 0 <=? n | _ => true end.

(** What a caller owes: label values that are text, counts that are not negative. *)
Definition call_ok (c : MetricCall) : Prop :=
  Forall (λ e, forallb valid_utf8 (e_labels e) = true ∧ op_nonneg (e_op e) = true) (effects c).

(** What the library asks for. *)
Definition effect_ok (e : effect) : Prop :=
  e_desc e ∈ collectors ∧ labels_ok (e_desc e) (e_labels e) = true ∧
  kind_ok (e_desc e) (e_op e) = true ∧ op_nonneg (e_op e) = true.

(** Every method passes its collector as many label values as it was declared
    with, and the operation of its kind. *)
Ltac in_collectors := unfold collectors; repeat first [apply list_elem_of_here | apply list_elem_of_further].

Lemma call_typed c : call_ok c → Forall effect_ok (effects c).
Proof.
  unfold call_ok. intros Hc. eapply Forall_impl; [apply Forall_and; split; [exact Hc|]|].
  - instantiate (1 := λ e, e_desc e ∈ collectors ∧ kind_ok (e_desc e) (e_op e) = true ∧
      length (e_labels e) = length (label_names (e_desc e))). clear Hc.
    destruct c; simpl; repeat (constructor; [split; [in_collectors|done]|]); constructor.
  - intros e [[Hu Hn] (Hi & Hk & Hl)]. split_and!; try done. unfold labels_ok. by rewrite Hl, Nat.eqb_refl.
Qed.

(** ** Children *)

Definition value_ok (d : Desc) (v : pvalue) : bool :=
  match d_kind d, v with
  | MT_COUNTER, PCounter _ | MT_GAUGE, PGauge _ | MT_HISTOGRAM, PHistogram _ _ _ => true
  | _, _ => false
  end.

Definition apply_op (d : Desc) (o : op) (v : pvalue) : pvalue :=
  match o, v with
  | OAdd n, PCounter m => PCounter (m + n)
  | OSet x, PGauge _ => PGauge x
  | OObserve x, PHistogram n sum cells =>
      PHistogram (n + 1) (f64_add sum x) (alter (Z.add 1) (bucket_of (d_buckets d) x) cells)
  | _, _ => v
  end.

Definition op_fun (o : op) : Desc → pvalue → option pvalue :=
  match o with OAdd n => add_value n | OSet x => set_value x | OObserve x => observe_value x end.

Lemma op_fun_ok d o v :
  kind_ok d o = true → op_nonneg o = true → value_ok d v = true → op_fun o d v = Some (apply_op d o v).
Proof.
  unfold kind_ok, value_ok. destruct (d_kind d), o, v; try done; simpl. intros _ Hn _. bool_prop.
  by destruct (Z.ltb_spec n 0); [lia|].
Qed.

Lemma apply_op_ok d o v : kind_ok d o = true → value_ok d v = true → value_ok d (apply_op d o v) = true.
Proof. unfold kind_ok, value_ok. by destruct (d_kind d), o, v. Qed.

Lemma zero_value_ok d o : kind_ok d o = true → value_ok d (zero_value d) = true.
Proof. unfold kind_ok, value_ok, zero_value. by destruct (d_kind d), o. Qed.

(** Whether an effect is on the child [lvs] of [d]. *)
Definition touches (d : Desc) (lvs : list string) (e : effect) : bool :=
  String.eqb (d_name (e_desc e)) (d_name d) && bool_decide (e_labels e = lvs).

Definition child_step (d : Desc) (lvs : list string) (acc : option pvalue) (e : effect) : option pvalue :=
  if touches d lvs e then Some (apply_op d (e_op e) (default (zero_value d) acc)) else acc.

Definition child_init (d : Desc) (lvs : list string) : option pvalue :=
  match d_labels d with
  | None => if bool_decide (lvs = []) then Some (zero_value d) else None
  | Some _ => None
  end.

(** The child [lvs] of [d] after some effects. *)
Definition child_after (d : Desc) (lvs : list string) (es : list effect) : option pvalue :=
  foldl (child_step d lvs) (child_init d lvs) es.

(** ** The state of the library after calls *)

Lemma collectors_NoDup : NoDup (d_name <$> collectors).
Proof. apply (bool_decide_unpack _). by vm_compute. Qed.

Lemma collectors_ok : forallb desc_ok collectors = true.
Proof. by vm_compute. Qed.

Record prom_ok (s : PromState) : Prop := {
  ok_descs d : d ∈ collectors → ps_descs s !! d_name d = Some d;
  ok_values d lvs v : d ∈ collectors → children s (d_name d) !! lvs = Some v → value_ok d v = true;
}.

Lemma same_name s d d' : prom_ok s → d ∈ collectors → d' ∈ collectors → d_name d = d_name d' → d = d'.
Proof.
  intros Hs Hd Hd' E. pose proof (ok_descs s Hs d Hd) as H1. pose proof (ok_descs s Hs d' Hd') as H2.
  rewrite E in H1. congruence.
Qed.

Lemma children_insert s name name' lvs lvs' v descs reg :
  children (mkProm descs reg (<[name := <[lvs := v]> (children s name)]> (ps_children s))) name' !! lvs' =
  if String.eqb name name' && bool_decide (lvs = lvs') then Some v else children s name' !! lvs'.
Proof.
  unfold children at 1. simpl. destruct (String.eqb_spec name name') as [<-|Hn]; simpl.
  - rewrite lookup_insert_eq. simpl. destruct (decide (lvs = lvs')) as [<-|Hl].
    + by rewrite bool_decide_eq_true_2, lookup_insert_eq.
    + by rewrite bool_decide_eq_false_2, lookup_insert_ne.
  - by rewrite lookup_insert_ne.
Qed.

Lemma update_ok s e :
  prom_ok s → effect_ok e →
  ∃ s', update (d_name (e_desc e)) (e_labels e) (op_fun (e_op e)) s = Some s' ∧ prom_ok s' ∧
    ps_reg s' = ps_reg s ∧
    ∀ d lvs, d ∈ collectors →
      children s' (d_name d) !! lvs = child_step d lvs (children s (d_name d) !! lvs) e.
Proof.
  intros Hs (Hd & Hl & Hk & Hn). unfold update. rewrite (ok_descs s Hs _ Hd). simpl. rewrite Hl.
  set (old := default (zero_value (e_desc e)) (children s (d_name (e_desc e)) !! e_labels e)).
  assert (value_ok (e_desc e) old = true) as Hold.
  { unfold old. destruct (children s _ !! _) eqn:E; [by apply (ok_values s Hs _ _ _ Hd E)|by apply (zero_value_ok _ (e_op e))]. }
  rewrite op_fun_ok by done. simpl. eexists. split; [done|].
  assert (∀ d lvs, d ∈ collectors →
    children (mkProm (ps_descs s) (ps_reg s)
      (<[d_name (e_desc e) := <[e_labels e := apply_op (e_desc e) (e_op e) old]> (children s (d_name (e_desc e)))]>
        (ps_children s))) (d_name d) !! lvs = child_step d lvs (children s (d_name d) !! lvs) e) as Hch.
  { intros d lvs Hin. rewrite children_insert. unfold child_step, touches.
    destruct (String.eqb_spec (d_name (e_desc e)) (d_name d)) as [E|]; [|done]. simpl.
    destruct (bool_decide_reflect (e_labels e = lvs)) as [<-|]; [|done].
    by rewrite (same_name s d (e_desc e) Hs Hin Hd (eq_sym E)). }
  split_and!; [|done|exact Hch]. split; [apply Hs|].
  intros d lvs v Hin Hv. rewrite Hch in Hv by done. unfold child_step, touches in Hv.
  destruct (String.eqb_spec (d_name (e_desc e)) (d_name d)) as [E|]; [|by apply (ok_values s Hs _ _ _ Hin Hv)].
  destruct (bool_decide_reflect (e_labels e = lvs)) as [<-|]; [|by apply (ok_values s Hs _ _ _ Hin Hv)].
  simpl in Hv. rewrite (same_name s d (e_desc e) Hs Hin Hd (eq_sym E)) in *. fold old in Hv.
  injection Hv as <-. by apply apply_op_ok.
Qed.

Section run.
Context {P : Type} `{PR : Prom P} `{PL : !PromLaws P}.

Definition do_effect (e : effect) : M P unit :=
  match e_op e with
  | OAdd n => counter_add (e_desc e) (e_labels e) n
  | OSet x => gauge_set (e_desc e) (e_labels e) x
  | OObserve x => observe (e_desc e) (e_labels e) x
  end.

Fixpoint do_effects (es : list effect) : M P unit :=
  match es with
  | [] => ret tt
  | e :: es' => do! do_effect e in do_effects es'
  end.

Lemma bind_unit (m : M P unit) p : bind m (λ _, ret tt) p = m p.
Proof. unfold bind, ret. by destruct (m p) as [[[]|] p']. Qed.

Lemma bind_ext {A B} (m : M P A) (f g : A → M P B) p : (∀ a q, f a q = g a q) → bind m f p = bind m g p.
Proof. intros H. unfold bind. by destruct (m p) as [[a|] p']. Qed.

(** The methods do what [effects] says. *)
Lemma call_effects c p : call c p = do_effects (effects c) p.
Proof.
  destruct c; cbn [call effects do_effects]; try (by rewrite bind_unit).
  - repeat (apply bind_ext; intros _ ?). by rewrite bind_unit.
  - rewrite bind_unit. unfold HotZoneObserveModeSet. by destruct active.
  - rewrite bind_unit. unfold HotZoneProtectedSet. by destruct active.
  - repeat (apply bind_ext; intros _ ?). by rewrite bind_unit.
Qed.

Lemma do_effects_app es es' p : do_effects (es ++ es') p = bind (do_effects es) (λ _, do_effects es') p.
Proof.
  revert p. induction es as [|e es IH]; intros p; simpl; [done|].
  unfold bind in *. destruct (do_effect e p) as [[u|] p']; [apply IH|done].
Qed.

Lemma calls_effects cs p : calls cs p = do_effects (mjoin (effects <$> cs)) p.
Proof.
  revert p. induction cs as [|c cs IH]; intros p; [done|]. cbn [calls].
  change (mjoin (effects <$> c :: cs)) with (effects c ++ mjoin (effects <$> cs)).
  rewrite do_effects_app. unfold bind. rewrite call_effects.
  by destruct (do_effects (effects c) p) as [[u|] p'].
Qed.

Lemma do_effect_ok e p :
  prom_ok (prom_view p) → effect_ok e →
  ∃ p', do_effect e p = (Ok tt, p') ∧ prom_ok (prom_view p') ∧ ps_reg (prom_view p') = ps_reg (prom_view p) ∧
    ∀ d lvs, d ∈ collectors → children (prom_view p') (d_name d) !! lvs =
      child_step d lvs (children (prom_view p) (d_name d) !! lvs) e.
Proof.
  intros Hs He. destruct (update_ok (prom_view p) e Hs He) as (s' & Hu & Hs' & Hreg & Hch).
  assert (∃ p', do_effect e p = (Ok tt, p') ∧ prom_view p' = s') as (p' & Hp & <-).
  { unfold do_effect, counter_add, gauge_set, observe, prom_do. destruct (e_op e); simpl in Hu.
    - destruct (prom_Add_view _ _ _ _ _ Hu) as (p' & -> & Hv). by exists p'.
    - destruct (prom_Set_view _ _ _ _ _ Hu) as (p' & -> & Hv). by exists p'.
    - destruct (prom_Observe_view _ _ _ _ _ Hu) as (p' & -> & Hv). by exists p'. }
  by exists p'.
Qed.

Lemma do_effects_ok es p :
  prom_ok (prom_view p) → Forall effect_ok es →
  ∃ p', do_effects es p = (Ok tt, p') ∧ prom_ok (prom_view p') ∧ ps_reg (prom_view p') = ps_reg (prom_view p) ∧
    ∀ d lvs, d ∈ collectors → children (prom_view p') (d_name d) !! lvs =
      foldl (child_step d lvs) (children (prom_view p) (d_name d) !! lvs) es.
Proof.
  intros Hs Hes. revert p Hs. induction Hes as [|e es He _ IH]; intros p Hs; simpl; [by exists p|].
  destruct (do_effect_ok e p Hs He) as (p1 & E1 & Hs1 & Hr1 & Hc1).
  destruct (IH p1 Hs1) as (p2 & E2 & Hs2 & Hr2 & Hc2). exists p2.
  unfold bind. rewrite E1. split_and!; [done|done|congruence|].
  intros d lvs Hd. rewrite Hc2, Hc1 by done. done.
Qed.

(** ** Registration *)

Lemma register_all_ok ds p :
  prom_ok (prom_view p) → (∀ d, d ∈ ds → d ∈ collectors) → NoDup (d_name <$> ds) →
  (∀ d, d ∈ ds → d_name d ∉ ps_reg (prom_view p)) →
  ∃ p', register_all ds p = (Ok tt, p') ∧ prom_ok (prom_view p') ∧
    ps_children (prom_view p') = ps_children (prom_view p) ∧
    (∀ d, d ∈ ds → d_name d ∈ ps_reg (prom_view p')) ∧ ps_reg (prom_view p) ⊆ ps_reg (prom_view p').
Proof.
  revert p. induction ds as [|d ds IH]; intros p Hs Hin Hnd Hfresh; simpl.
  { exists p. split_and!; try done. by intros d ?%elem_of_nil. }
  apply NoDup_cons in Hnd as [Hd Hnd]. assert (d ∈ collectors) as Hdc by (apply Hin; by left).
  assert (register (d_name d) (prom_view p) =
    Some (mkProm (ps_descs (prom_view p)) ({[d_name d]} ∪ ps_reg (prom_view p)) (ps_children (prom_view p)))) as Hr.
  { unfold register. rewrite (ok_descs _ Hs d Hdc). simpl. pose proof collectors_ok as Hok.
    rewrite List.forallb_forall in Hok. rewrite Hok by by apply list_elem_of_In.
    rewrite bool_decide_eq_false_2 by (apply Hfresh; by left). done. }
  destruct (prom_MustRegister_view _ _ _ Hr) as (p1 & E1 & V1).
  destruct (IH p1) as (p2 & E2 & Hs2 & Hc2 & Hr2 & Hsub); rewrite ?V1; simpl.
  - destruct Hs. by split.
  - intros d' ?. apply Hin. by right.
  - done.
  - intros d' Hd' [E%elem_of_singleton|Hold]%elem_of_union; [|apply (Hfresh d'); [by right|done]].
    apply Hd. rewrite <- E. by apply list_elem_of_fmap_2.
  - exists p2. unfold bind, prom_do. rewrite E1. rewrite V1 in Hsub. simpl in Hsub.
    split_and!; [done|done|by rewrite Hc2, V1| |set_solver].
    intros d' [->|Hd']%elem_of_cons; [set_solver|by apply Hr2].
Qed.
End run.

(** The children a list of collectors starts with. *)
Lemma plain_children ds d :
  NoDup (d_name <$> ds) → d ∈ ds →
  (list_to_map (omap plain_child ds) : gmap string (gmap (list string) pvalue)) !! d_name d = snd <$> plain_child d.
Proof.
  induction ds as [|d' ds IH]; [by intros _ ?%elem_of_nil|]. intros [Hd Hnd]%NoDup_cons Hin.
  assert (∀ m, plain_child d' = Some m → m.1 = d_name d') as Hname
    by (intros m; unfold plain_child; case_match; intros [= <-]; done).
  apply elem_of_cons in Hin as [->|Hin]; csimpl.
  - destruct (plain_child d') as [[n m]|] eqn:E; simpl.
    + specialize (Hname _ eq_refl). simpl in Hname. subst n. by rewrite lookup_insert_eq.
    + apply not_elem_of_list_to_map_1. intros ([n m] & Hn & Hx)%list_elem_of_fmap.
      apply list_elem_of_omap in Hx as (d & Hd' & Hp). apply Hd.
      unfold plain_child in Hp. case_match; try done. injection Hp as <- _. simpl in Hn. rewrite Hn. by apply list_elem_of_fmap_2.
  - assert (d_name d ≠ d_name d') as Hne by (intros E; apply Hd; rewrite <- E; by apply list_elem_of_fmap_2).
    destruct (plain_child d') as [[n m]|] eqn:E; simpl; [|by apply IH].
    specialize (Hname _ eq_refl). simpl in Hname. subst n. rewrite lookup_insert_ne by done. by apply IH.
Qed.

Lemma state0_children d lvs : d ∈ collectors → children (prom_state0 collectors) (d_name d) !! lvs = child_init d lvs.
Proof.
  intros Hd. unfold children, prom_state0. cbn [ps_children].
  rewrite (plain_children collectors d collectors_NoDup Hd). unfold plain_child, child_init.
  destruct (d_labels d); [done|]. simpl. destruct (bool_decide_reflect (lvs = [])) as [->|Hl].
  - apply lookup_singleton_eq.
  - by apply lookup_singleton_ne.
Qed.

Lemma state0_ok : prom_ok (prom_state0 collectors).
Proof.
  split.
  - intros d Hd. unfold prom_state0. cbn [ps_descs]. apply elem_of_list_to_map_1.
    + pose proof collectors_NoDup as Hn. revert Hn. by vm_compute.
    + apply list_elem_of_In, List.in_map_iff. exists d. split; [done|]. by apply list_elem_of_In.
  - intros d lvs v Hd. rewrite state0_children by done. unfold child_init.
    assert (value_ok d (zero_value d) = true) as Hz.
    { pose proof (proj1 (List.forallb_forall (λ d, value_ok d (zero_value d)) collectors)) as Hf.
      apply Hf; [by vm_compute|by apply list_elem_of_In]. }
    repeat case_match; try done. by intros [= <-].
Qed.

Section served.
Context {P : Type} `{PR : Prom P} `{PL : !PromLaws P}.

(** [p] is the state of the library of a process that registered its metrics and
    then made the calls [cs]. *)
Definition served (cs : list MetricCall) (p : P) : Prop :=
  ∃ p1, Register (prom_new collectors) = (Ok tt, p1) ∧ calls cs p1 = (Ok tt, p).

Definition all_effects (cs : list MetricCall) : list effect := mjoin (effects <$> cs).

Lemma calls_typed cs : Forall call_ok cs → Forall effect_ok (all_effects cs).
Proof.
  unfold all_effects. induction 1 as [|c cs Hc _ IH]; [constructor|]. apply Forall_app. split; [by apply call_typed|done].
Qed.

Lemma Register_new :
  ∃ p1, Register (prom_new collectors) = (Ok tt, p1) ∧ prom_ok (prom_view p1) ∧
    (∀ d, d ∈ collectors → d_name d ∈ ps_reg (prom_view p1)) ∧
    ∀ d lvs, d ∈ collectors → children (prom_view p1) (d_name d) !! lvs = child_init d lvs.
Proof.
  pose proof (prom_new_view collectors collectors_NoDup) as V0.
  destruct (register_all_ok collectors (prom_new collectors)) as (p1 & E & Hs & Hc & Hr & _);
    rewrite ?V0; [apply state0_ok|done|apply collectors_NoDup|by intros d _ ?%elem_of_empty|].
  exists p1. split_and!; [done|done|done|]. intros d lvs Hd. rewrite <- state0_children by done.
  unfold children. by rewrite Hc, V0.
Qed.

Lemma served_spec cs p :
  Forall call_ok cs → served cs p →
  prom_ok (prom_view p) ∧ (∀ d, d ∈ collectors → d_name d ∈ ps_reg (prom_view p)) ∧
  ∀ d lvs, d ∈ collectors → children (prom_view p) (d_name d) !! lvs = child_after d lvs (all_effects cs).
Proof.
  intros Hcs (p1 & E1 & E2). destruct Register_new as (p1' & E1' & Hs & Hr & Hc).
  assert (p1' = p1) as -> by congruence. rewrite calls_effects in E2.
  destruct (do_effects_ok _ _ Hs (calls_typed cs Hcs)) as (p2 & E2' & Hs2 & Hr2 & Hc2).
  unfold all_effects in E2'. assert (p2 = p) as -> by congruence. split_and!; [done|by rewrite Hr2|].
  intros d lvs Hd. unfold child_after. by rewrite Hc2, Hc by done.
Qed.

Lemma served_exists cs : Forall call_ok cs → ∃ p, served cs p.
Proof.
  intros Hcs. destruct Register_new as (p1 & E1 & Hs & _).
  destruct (do_effects_ok _ _ Hs (calls_typed cs Hcs)) as (p2 & E2 & _). exists p2, p1.
  split; [done|]. rewrite calls_effects. done.
Qed.

(** C17: the metrics are well typed.  For every implementation of the client
    library's interface: registering the thirty-six collectors succeeds; then no
    sequence of calls of the [Metric] methods panics, since each passes the number
    of label values and the operation its collector was declared with, as long as
    label values are valid UTF-8 and counts are not negative; afterwards every child
    of every collector holds exactly what the calls on it add up to; and
    initialising the metrics a second time in a process panics. *)
Theorem metrics_well_typed (cs : list MetricCall) (addr addr' : string) :
  Forall call_ok cs →
  ∃ m p, InitMetricWithAddr addr (mkMonitor (prom_new collectors) None) = (Ok tt, m) ∧
    MetricServer m = Some addr ∧ calls cs (mon_prom m) = (Ok tt, p) ∧
    (∀ d lvs, d ∈ collectors → children (prom_view p) (d_name d) !! lvs = child_after d lvs (all_effects cs)) ∧
    (InitMetricWithAddr addr' (mkMonitor p (Some addr))).1 = Panic.
Proof.
  intros Hcs. destruct (served_exists cs Hcs) as [p Hp].
  destruct (served_spec cs p Hcs Hp) as (_ & Hreg & Hch). destruct Hp as (p1 & E1 & E2).
  exists (mkMonitor p1 (Some addr)), p. split_and!; try done.
  - unfold InitMetricWithAddr. simpl. by rewrite E1.
  - unfold InitMetricWithAddr, Register. cbn [mon_prom collectors register_all]. unfold bind, prom_do.
    rewrite (prom_MustRegister_twice (d_name InCounter) p); [done|]. apply Hreg. in_collectors.
Qed.
End served.

Module MetricsWitness.
Import RefProm.
Definition some_calls : list MetricCall :=
  [CInCounterAdd "request" "A"; CInCounterAdd "forward_request" "A"; CCacheLifecycleAdd "flush" 3;
   CLatencyHistogramObserve "latency" "A" "NOERROR" (f64_of_Z 12); CHotZoneProtectedSet true].

Lemma metrics_well_typed_witness :
  ∃ m p, InitMetricWithAddr ":9999" (mkMonitor (prom_new collectors) None) = (Ok tt, m) ∧
    calls some_calls (mon_prom m) = (Ok tt, p) ∧
    children p "rec53_cache_lifecycle_total" !! ["flush"] = Some (PCounter 3).
Proof.
  destruct (metrics_well_typed some_calls ":9999" ":9999") as (m & p & H1 & _ & H2 & H3 & _).
  { unfold some_calls, call_ok. repeat constructor. }
  exists m, p. split; [exact H1|]. split; [exact H2|].
  exact (H3 CacheLifecycleTotal ["flush"] ltac:(in_collectors)).
Defined.
End MetricsWitness.
