(* ===== verification/Background.v ===== *)
(** * Work in the background

    The goroutines that run beside the resolver: the loops that export the XDP
    counters and drop expired kernel entries (server/xdp_metrics.go,
    server/xdp_loader.go), the probe loop of the address pool with [Shutdown]
    (server/ip_pool.go), and the goroutine of the start-up warm-up
    (server/server.go). *)

From S2P Require Import Prelude GoLib GoText Runtime Float64 FloatExact Dns External Cache IPQuality IPPool.
From S2P Require Import World Warmup Boot CpuStat Prom Metrics.
Import Xdp.

(** ** The kernel's counters *)

Definition STAT_HIT : Z := 0.
Definition STAT_MISS : Z := 1.
Definition STAT_PASS : Z := 2.
Definition STAT_ERROR : Z := 3.

(** The [xdp_stats] map at one moment: the values of a key on each CPU, or the
    error of the lookup. *)
Definition StatsLookup := Z → option (list Z).

Definition StatsMap (l : XDPLoader) (xdpStats : StatsLookup) : option StatsLookup :=
  if xl_objs l then Some xdpStats else None.

(** One counter over all CPUs, as [uint64]. *)
Definition cpu_total (perCPU : list Z) : Z := fold_left (λ t v, u64 (t + v)) perCPU 0.

(** The variable keeps its zero when the lookup fails. *)
Definition stat_value (lookup : StatsLookup) (index : Z) : f64 :=
  match lookup index with
  | None => f64_zero
  | Some perCPU => f64_of_Z (cpu_total perCPU)
  end.

Definition collectXDPStats (statsMap : option StatsLookup) : list MetricCall :=
  match statsMap with
  | None => []
  | Some lookup =>
      [CXDPStatsSet (stat_value lookup STAT_HIT) (stat_value lookup STAT_MISS)
         (stat_value lookup STAT_PASS) (stat_value lookup STAT_ERROR)]
  end.

Definition XDPStatsForTest (l : XDPLoader) (xdpStats : StatsLookup) : option (Z * Z * Z * Z) :=
  if xl_objs l then
    hit ← cpu_total <$> xdpStats 0;
    miss ← cpu_total <$> xdpStats 1;
    pass ← cpu_total <$> xdpStats 2;
    xerr ← cpu_total <$> xdpStats 3;
    Some (hit, miss, pass, xerr)
  else None.

(** Where the counters can be read, what is exported is their sums over the CPUs,
    modulo [2^64]; below [2^53] without any loss. *)
Theorem collectXDPStats_sums l xdpStats hit miss pass xerr :
  XDPStatsForTest l xdpStats = Some (hit, miss, pass, xerr) →
  collectXDPStats (StatsMap l xdpStats) =
    [CXDPStatsSet (f64_of_Z hit) (f64_of_Z miss) (f64_of_Z pass) (f64_of_Z xerr)] ∧
  ∃ perCPU, xdpStats STAT_HIT = Some perCPU ∧ hit = u64 (foldr Z.add 0 perCPU).
Proof.
  unfold XDPStatsForTest, StatsMap. destruct (xl_objs l); [|done].
  intros (h & Hh & (m & Hm & (p & Hp & (e & He & [= <- <- <- <-])%bind_Some)%bind_Some)%bind_Some)%bind_Some.
  apply fmap_Some in Hh as (lh & Hh & ->). apply fmap_Some in Hm as (lm & Hm & ->).
  apply fmap_Some in Hp as (lp & Hp & ->). apply fmap_Some in He as (le & He & ->).
  split.
  - simpl. unfold stat_value, STAT_HIT, STAT_MISS, STAT_PASS, STAT_ERROR. by rewrite Hh, Hm, Hp, He.
  - exists lh. split; [done|]. apply wrapping_sum.
Qed.

(** A counter whose lookup fails is exported as zero: the gauge, which the
    viewer reads as a counter, falls back and rises again at the next reading. *)
Theorem failed_lookup_exports_zero lookup :
  lookup STAT_HIT = None →
  ∃ miss pass xerr, collectXDPStats (Some lookup) = [CXDPStatsSet f64_zero miss pass xerr].
Proof. intros Hl. unfold collectXDPStats, stat_value. rewrite Hl. by do 3 eexists. Qed.

(** ** Loops on a ticker

    [for { select { case <-ctx.Done(): return; case <-ticker.C: ... } }]: as long
    as the loop runs it may take a tick, and once the context is done it may
    return.  When both are ready Go takes either. *)
Section ticker_loop.
Context {S : Type} (tick : S → S → Prop).

Record Loop := mkLoop { lp_state : S; lp_done : bool; lp_running : bool }.

Inductive loop_step : Loop → Loop → Prop :=
| loop_tick s s' d : tick s s' → loop_step (mkLoop s d true) (mkLoop s' d true)
| loop_cancel s d r : loop_step (mkLoop s d r) (mkLoop s true r)
| loop_return s : loop_step (mkLoop s true true) (mkLoop s true false).

(** [start] is false for the loops that return at once, without a map. *)
Definition loop_start (start : bool) (s : S) : Loop := mkLoop s false start.

Lemma loop_stopped s d l : rtc loop_step (mkLoop s d false) l → lp_state l = s ∧ lp_running l = false.
Proof.
  intros Hr. remember (mkLoop s d false) as l0 eqn:E.
  revert d E. induction Hr as [l0|l0 l1 l2 Hs _ IH]; intros d ->; [done|].
  inversion Hs; subst. by eapply IH.
Qed.

Lemma loop_run l0 l :
  rtc loop_step l0 l →
  rtc tick (lp_state l0) (lp_state l) ∧ (lp_done l0 = true → lp_done l = true) ∧
  (lp_running l = false → lp_running l0 = false ∨ lp_done l = true).
Proof.
  induction 1 as [l|l0 l1 l Hs _ (IH1 & IH2 & IH3)]; [naive_solver|].
  destruct Hs; simpl in *; naive_solver eauto using rtc_l.
Qed.

(** Every state of a loop is reached by ticks, it stops only after its context
    is done, and can then always stop. *)
Lemma loop_ticks s0 l :
  rtc loop_step (loop_start true s0) l →
  rtc tick s0 (lp_state l) ∧
  (lp_running l = false → lp_done l = true) ∧
  (lp_done l = true → ∃ l', rtc loop_step l l' ∧ lp_running l' = false).
Proof.
  intros (H1 & _ & H2)%loop_run. split_and!; [done|naive_solver|].
  intros Hd. destruct l as [s d r]; simpl in *. subst d. exists (mkLoop s true false). split; [|done].
  destruct r; [|done]. apply rtc_once. constructor.
Qed.

End ticker_loop.
Arguments Loop S : clear implicits.

(** ** The loops of the kernel cache *)

Definition xdpMetricsInterval : Z := 5 * Second.
Definition xdpCleanupInterval : Z := 100 * Millisecond.

(** The calls made so far; at each tick the map is read anew. *)
Inductive metrics_tick : list MetricCall → list MetricCall → Prop :=
| metrics_tick_intro cs lookup : metrics_tick cs (cs ++ collectXDPStats (Some lookup)).

Definition startXDPMetricsLoop (statsMap : option StatsLookup) : Loop (list MetricCall) :=
  loop_start (bool_decide (is_Some statsMap)) [].

Section kernel_cache.
Context `{EML : EbpfMapLaws BPFKey BPFValue}.

(** What [cleanupExpiredBPFEntries] reports: the number it returns, and the
    entries that were live when it went through the map. *)
Definition cleanup_calls (m : emap BPFKey BPFValue) (mono : option Z) : list MetricCall :=
  match mono with
  | None => []
  | Some nowSec =>
      [CXDPCleanupDeletedAdd (cleanupExpiredBPFEntries m mono).2;
       CXDPEntriesSet (Z.of_nat (length (filter (λ kv, ¬ BV_ExpireTs kv.2 ≤ nowSec) (em_Iterate m))))]
  end.

(** A tick at the reading [mono] of the monotonic clock, one of [readings]. *)
Inductive cleanup_tick (readings : option Z → Prop) :
    emap BPFKey BPFValue * list MetricCall → emap BPFKey BPFValue * list MetricCall → Prop :=
| cleanup_tick_intro m mono cs :
    readings mono →
    cleanup_tick readings (m, cs) ((cleanupExpiredBPFEntries m mono).1, cs ++ cleanup_calls m mono).

Definition startXDPCleanupLoop (cacheMap : option (emap BPFKey BPFValue)) (m : emap BPFKey BPFValue)
    : Loop (emap BPFKey BPFValue * list MetricCall) :=
  loop_start (bool_decide (is_Some cacheMap)) (m, []).

Lemma cleanup_ticks readings s s' k v :
  rtc (cleanup_tick readings) s s' →
  (em_Lookup s'.1 k = Some v → em_Lookup s.1 k = Some v) ∧
  ((∀ t, readings (Some t) → t < BV_ExpireTs v) → em_Lookup s.1 k = Some v → em_Lookup s'.1 k = Some v).
Proof.
  induction 1 as [s|s0 s1 s Hs _ [IH1 IH2]]; [done|]. destruct Hs as [m mono cs Hr]. simpl in *.
  pose proof (cleanup_only_expired m mono) as Hc.
  destruct (cleanupExpiredBPFEntries m mono) as [m1 d]. destruct Hc as (Hc1 & Hc2 & _). simpl in *.
  split; [auto|]. intros Hlive Hk. apply IH2; [done|]. apply Hc2; [done|]. intros t ->. auto.
Qed.

(** The clean-up loop never loses a live entry nor invents one: what is left was
    there with the same value, and an entry that expires after every reading of
    the clock stays. *)
Theorem cleanup_loop_keeps_live readings m l k v :
  rtc (loop_step (cleanup_tick readings)) (startXDPCleanupLoop (Some m) m) l →
  (em_Lookup (lp_state l).1 k = Some v → em_Lookup m k = Some v) ∧
  ((∀ t, readings (Some t) → t < BV_ExpireTs v) → em_Lookup m k = Some v →
     em_Lookup (lp_state l).1 k = Some v).
Proof. intros (Ht & _ & _)%loop_run. exact (cleanup_ticks readings (m, []) (lp_state l) k v Ht). Qed.

End kernel_cache.

(** ** The probe loop of the address pool and its [Shutdown] *)

(** Where a call of [Shutdown] is: not made; waiting, with its helper goroutine
    still in [wg.Wait()] or past [close(done)]; returned, with its error. *)
Inductive shutdown_pc :=
| SdIdle
| SdWaiting (closed : bool)
| SdReturned (err : option string).

Record PoolRun := mkPoolRun {
  pr_pool : IPPool;
  pr_once : bool;        (* [probeLoopOnce] has run *)
  pr_wg : Z;             (* the counter of [wg] *)
  pr_running : bool;     (* [periodicProbeLoop] is in its loop *)
  pr_cancelled : bool;   (* [ipp.ctx] is done *)
  pr_shutdown : shutdown_pc;
}.

Definition pool_init : PoolRun := mkPoolRun NewIPPool false 0 false false SdIdle.

Inductive pool_step : PoolRun → PoolRun → Prop :=
(** [StartProbeLoop]: the first call starts the loop, later ones do nothing. *)
| pool_start p w r c sd exempt now :
    pool_step (mkPoolRun p false w r c sd) (mkPoolRun (StartProbeLoop p exempt now) true (w + 1) true c sd)
(** a turn of [periodicProbeLoop] *)
| pool_tick p o w c sd clock ok :
    pool_step (mkPoolRun p o w true c sd) (mkPoolRun (probe_tick p clock ok) o w true c sd)
(** its return, with [wg.Done()] *)
| pool_exit p o w sd :
    pool_step (mkPoolRun p o w true true sd) (mkPoolRun p o (w - 1) false true sd)
(** requests look addresses up and record what they measure *)
| pool_request p m o w r c sd :
    pool_step (mkPoolRun p o w r c sd) (mkPoolRun (set_poolV2 p m) o w r c sd)
(** [Shutdown]: [ipp.cancel()]; the helper's [wg.Wait()] and [close(done)]; the
    two branches of the [select] *)
| pool_shutdown p o w r c :
    pool_step (mkPoolRun p o w r c SdIdle) (mkPoolRun p o w r true (SdWaiting false))
| pool_waited p o r c :
    pool_step (mkPoolRun p o 0 r c (SdWaiting false)) (mkPoolRun p o 0 r c (SdWaiting true))
| pool_done p o w r c :
    pool_step (mkPoolRun p o w r c (SdWaiting true)) (mkPoolRun p o w r c (SdReturned None))
| pool_deadline p o w r c b e :
    pool_step (mkPoolRun p o w r c (SdWaiting b)) (mkPoolRun p o w r c (SdReturned (Some e))).

(** The counter of [wg] says whether the loop runs, the loop was started before
    it runs, and from the call of [Shutdown] on the context is done; once the
    helper has seen the counter at zero with the loop started, the loop is over. *)
Definition pool_ok (s : PoolRun) : Prop :=
  pr_wg s = (if pr_running s then 1 else 0) ∧
  (pr_running s = true → pr_once s = true) ∧
  (pr_shutdown s ≠ SdIdle → pr_cancelled s = true).

Definition loop_over (s : PoolRun) : Prop := pr_once s = true ∧ pr_running s = false.

Definition past_wait (s : PoolRun) : Prop := pr_shutdown s = SdWaiting true ∨ pr_shutdown s = SdReturned None.

Lemma pool_ok_step s s' : pool_ok s → pool_step s s' → pool_ok s'.
Proof.
  intros (Hw & Ho & Hc) Hs. destruct Hs; unfold pool_ok in *; simpl in *; split_and!; try naive_solver.
  destruct r; [naive_solver|lia].
Qed.

Lemma loop_over_step s s' : loop_over s → pool_step s s' → loop_over s' ∧ lastPruneAt (pr_pool s') = lastPruneAt (pr_pool s).
Proof. intros [Ho Hr] Hs. destruct Hs; unfold loop_over in *; simpl in *; naive_solver. Qed.

Lemma past_wait_step s s' :
  pool_ok s → pr_once s = true → (past_wait s → loop_over s) → pool_step s s' → past_wait s' → loop_over s'.
Proof.
  intros (Hw & _ & _) Ho Hi Hs Hp. unfold past_wait, loop_over in *.
  destruct Hs; simpl in *; try naive_solver. destruct r; [lia|done].
Qed.

Lemma once_step s s' : pr_once s = true → pool_step s s' → pr_once s' = true.
Proof. intros Ho Hs. by destruct Hs. Qed.

(** Started pools: the invariants along a run. *)
Lemma pool_run s0 s :
  pool_ok s0 → pr_once s0 = true → (past_wait s0 → loop_over s0) → rtc pool_step s0 s →
  pool_ok s ∧ pr_once s = true ∧ (past_wait s → loop_over s).
Proof.
  intros H1 H2 H3 Hr. induction Hr as [s|s0 s1 s Hs _ IH]; [done|].
  apply IH; eauto using pool_ok_step, once_step. intros Hp. by eapply past_wait_step.
Qed.

Lemma loop_over_run s s' :
  loop_over s → rtc pool_step s s' → loop_over s' ∧ lastPruneAt (pr_pool s') = lastPruneAt (pr_pool s).
Proof.
  intros Ho Hr. revert Ho. induction Hr as [s|s0 s1 s Hs _ IH]; intros Ho; [done|].
  destruct (loop_over_step _ _ Ho Hs) as [Ho' Hl]. destruct (IH Ho') as [? ?]. split; [done|congruence].
Qed.

(** C21: shutting the address pool down.  For a pool whose probe loop was started
    before [Shutdown] was called, in every interleaving of the loop, the requests
    and the call: while [Shutdown] waits, it can still return [nil]; once it has
    returned [nil], the loop is over for good: no address is probed or pruned any
    more, and a later [StartProbeLoop] does not start it again.  (With an expired
    context [Shutdown] returns the context's error and the loop may still run.) *)
Theorem pool_shutdown_stops_probing (s1 s : PoolRun) :
  rtc pool_step pool_init s1 → pr_once s1 = true → pr_shutdown s1 = SdIdle → rtc pool_step s1 s →
  (∀ b, pr_shutdown s = SdWaiting b → ∃ s', rtc pool_step s s' ∧ pr_shutdown s' = SdReturned None) ∧
  (pr_shutdown s = SdReturned None →
     ∀ s', rtc pool_step s s' → pr_running s' = false ∧ lastPruneAt (pr_pool s') = lastPruneAt (pr_pool s)).
Proof.
  intros H0 Hon Hsd Hr.
  assert (pool_ok s1) as Hok1.
  { clear -H0. assert (pool_ok pool_init) as Hi by done. revert Hi.
    induction H0; eauto using pool_ok_step. }
  destruct (pool_run s1 s Hok1 Hon) as ((Hw & Ho & Hc) & Hon' & Hp); [|done|].
  { unfold past_wait. rewrite Hsd. naive_solver. }
  split.
  - intros b Eb. rewrite Eb in Hc. specialize (Hc ltac:(done)).
    destruct s as [p o w r c sd]; simpl in *. subst sd w c.
    exists (mkPoolRun p o 0 false true (SdReturned None)). split; [|done].
    assert (rtc pool_step (mkPoolRun p o 0 false true (SdWaiting false)) (mkPoolRun p o 0 false true (SdReturned None)))
      as Hend by (eapply rtc_l; [apply pool_waited|]; apply rtc_once, pool_done).
    destruct b; [|destruct r; [|done]].
    + destruct Hp as [_ Hrun]; [by left|]. simpl in Hrun. subst r. apply rtc_once, pool_done.
    + eapply rtc_l; [apply pool_exit|]. exact Hend.
  - intros Ed s' Hr'. destruct (loop_over_run s s') as [[_ ?] ?]; [apply Hp; by right|done|done].
Qed.

(** ** The warm-up on start-up *)
Section startup_warmup.
Context `{DL : DnsLib}.

(** [warmupNSOnStartup] from the runtime state [r] it finds when the queries are
    over: a panic of [WarmupNSRecords] is recovered and the completion not marked. *)
Inductive warmupNSOnStartup (cfg : WarmupConfig) (r : runtimeState) : runtimeState → Prop :=
| warmup_recovered : warm_start cfg = None → warmupNSOnStartup cfg r r
| warmup_completed s0 s :
    warm_start cfg = Some s0 → rtc (warm_step cfg) s0 s → finished s →
    warmupNSOnStartup cfg r (MarkRuntimeWarmupComplete r).2.

(** From any state, every run goes on to a finished one. *)
Lemma warm_can_finish cfg s : ∃ s', rtc (warm_step cfg) s s' ∧ finished s'.
Proof.
  induction s as [s IH] using (induction_ltof1 _ work_left). unfold ltof in IH.
  destruct (decide (finished s)) as [Hf|Hf]; [by exists s|].
  assert (∃ s1, warm_step cfg s s1) as [s1 Hs].
  { destruct (ctxDone s) eqn:Ed; [|eexists; by apply step_deadline].
    destruct (warm_work_progress cfg s) as [s1 Hs]; [auto|done|]. exists s1. by apply step_work. }
  destruct (IH s1) as (s' & Hr & Hf'); [by eapply warm_step_decreases|].
  exists s'. split; [by eapply rtc_l|done].
Qed.

(** The start-up warm-up: with a concurrency that is not negative it can always
    end, and when it does the completion is marked and the phase is no longer
    [warming] for a server that is ready; with a negative one the runtime state
    is left as it is, so a server in the phase [warming] stays there. *)
Theorem warmupNSOnStartup_spec (cfg : WarmupConfig) (r : runtimeState) :
  (0 ≤ wc_Concurrency cfg →
     (∃ r', warmupNSOnStartup cfg r r') ∧
     ∀ r', warmupNSOnStartup cfg r r' →
       rt_warmupDone r' = true ∧ rt_ready r' = rt_ready r ∧
       (rt_ready r = true → rt_phase r' ≠ RuntimePhaseWarming)) ∧
  (wc_Concurrency cfg < 0 → ∀ r', warmupNSOnStartup cfg r r' → r' = r).
Proof.
  split.
  - intros Hc. assert (∃ s0, warm_start cfg = Some s0) as [s0 Hs].
    { unfold warm_start. rewrite (proj2 (Z.ltb_ge _ _) Hc). eauto. }
    split.
    + destruct (warm_can_finish cfg s0) as (s & Hr & Hf). eexists. by eapply warmup_completed.
    + intros r' Hr. destruct Hr as [Hn|]; [congruence|]. unfold MarkRuntimeWarmupComplete.
      destruct (rt_ready r) eqn:Er; simpl; [|by split_and!].
      destruct (String.eqb_spec (rt_phase r) RuntimePhaseWarming) as [E|E]; simpl; [by split_and!|].
      by split_and!.
  - intros Hc r' Hr. destruct Hr as [|s0 s Hs]; [done|]. unfold warm_start in Hs.
    by rewrite (proj2 (Z.ltb_lt _ _) Hc) in Hs.
Qed.

End startup_warmup.

Module BackgroundWitness.

(** Start the loop, take a turn, shut down: the loop returns, then [Shutdown]. *)
Lemma pool_shutdown_stops_probing_witness :
  let p := StartProbeLoop NewIPPool ∅ 5 in
  let s1 := mkPoolRun p true 1 true false SdIdle in
  let s := mkPoolRun p true 0 false true (SdReturned None) in
  rtc pool_step pool_init s1 ∧ rtc pool_step s1 s ∧
  ∀ s', rtc pool_step s s' → pr_running s' = false ∧ lastPruneAt (pr_pool s') = 5.
Proof.
  intros p s1 s.
  assert (rtc pool_step pool_init s1) as H1 by (apply rtc_once; exact (pool_start NewIPPool 0 false false SdIdle ∅ 5)).
  assert (rtc pool_step s1 s) as H2.
  { eapply rtc_l; [apply pool_shutdown|]. eapply rtc_l; [apply pool_exit|].
    eapply rtc_l; [apply pool_waited|]. apply rtc_once, pool_done. }
  split; [exact H1|]. split; [exact H2|]. intros s' Hs.
  exact (proj2 (pool_shutdown_stops_probing s1 s H1 eq_refl eq_refl H2) eq_refl s' Hs).
Defined.

End BackgroundWitness.
