(* ===== verification/Dashboard.v ===== *)
(** * The dashboard's panels (tui/dashboard.go)

    How [rec53top] turns two successive scrapes into six panels: rankings of
    labels by their growth, ratios, the dominant path through the resolver's state
    machine, and a status per panel. *)

From S2P Require Import Prelude GoLib GoText Float64 TuiMetrics GoFormat.

(** ** Statuses and panels *)

Inductive panelStatus :=
| statusOK
| statusDegraded
| statusDisabled
| statusUnavailable
| statusDisconnected
| statusWarming
| statusStale.

#[export] Instance panelStatus_eq_dec : EqDecision panelStatus.
Proof. solve_decision. Defined.

Definition status_text (s : panelStatus) : string :=
  match s with
  | statusOK => "OK"
  | statusDegraded => "DEGRADED"
  | statusDisabled => "DISABLED"
  | statusUnavailable => "UNAVAILABLE"
  | statusDisconnected => "DISCONNECTED"
  | statusWarming => "WARMING"
  | statusStale => "STALE"
  end.

Record BreakdownItem := mkItem {
  bi_Label : string;
  bi_Rate : f64;
  bi_Ratio : f64;
  bi_Total : f64;
}.

Record TransitionBreakdownItem := mkEdge {
  te_From : string;
  te_To : string;
  te_Rate : f64;
  te_Ratio : f64;
  te_Total : f64;
}.

Record StateMachinePath := mkPath {
  Summary : string;
  MainEdges : list TransitionBreakdownItem;
  BranchPoint : string;
  BranchOptions : list TransitionBreakdownItem;
  Ambiguous : bool;
}.

Record StateMachineFailureContext := mkFailureContext {
  fc_Reason : string;
  fc_Exit : string;
  fc_Rate : f64;
}.

Record TrafficPanel := mkTraffic {
  tp_Status : panelStatus;
  tp_QPS : f64;
  tp_P99MS : f64;
  tp_ServfailRatio : f64;
  tp_NXDomainRatio : f64;
  tp_NoErrorRatio : f64;
  tp_ResponseCodes : list BreakdownItem;
}.

Record CachePanel := mkCachePanel {
  cp_Status : panelStatus;
  cp_HitRatio : f64;
  cp_PositiveHitRate : f64;
  cp_NegativeHitRate : f64;
  cp_DelegationRate : f64;
  cp_MissRate : f64;
  cp_Entries : f64;
  cp_Lifecycle : string;
  cp_Results : list BreakdownItem;
}.

Record SnapshotPanel := mkSnapshotPanel {
  sp_Status : panelStatus;
  sp_LoadSuccess : f64;
  sp_LoadFailure : f64;
  sp_Imported : f64;
  sp_SkippedExpired : f64;
  sp_SkippedCorrupt : f64;
  sp_SaveSuccess : f64;
  sp_DurationP99MS : f64;
}.

Record UpstreamPanel := mkUpstreamPanel {
  up_Status : panelStatus;
  up_TimeoutRate : f64;
  up_BadRcodeRate : f64;
  up_FallbackRate : f64;
  up_Winner : string;
  up_WinnerRate : f64;
  up_DominantReason : string;
  up_FailureReasons : list BreakdownItem;
  up_Winners : list BreakdownItem;
}.

Record XDPPanel := mkXDPPanel {
  xp_Status : panelStatus;
  xp_Mode : string;
  xp_HitRatio : f64;
  xp_SyncErrorRate : f64;
  xp_CleanupRate : f64;
  xp_Entries : f64;
  xp_PassRate : f64;
  xp_ErrorRate : f64;
}.

Record StateMachinePanel := mkStatePanel {
  st_Status : panelStatus;
  st_TopStage : string;
  st_TopStageRate : f64;
  st_TopTerminal : string;
  st_TopTerminalRate : f64;
  st_TopFailure : string;
  st_TopFailureRate : f64;
  st_SecondFailure : string;
  st_SecondFailureRate : f64;
  st_Terminals : list BreakdownItem;
  st_TerminalTotals : list BreakdownItem;
  st_DominantPath : StateMachinePath;
  st_PathSummary : string;
  st_Stages : list BreakdownItem;
  st_Failures : list BreakdownItem;
  st_LiveEdges : list TransitionBreakdownItem;
  st_LiveTerminals : list TransitionBreakdownItem;
  st_SinceStartEdges : list TransitionBreakdownItem;
  st_FailureContexts : list StateMachineFailureContext;
}.

Section dashboard.
Context `{GS : GoSort} `{GO : GoMapOrder}.

(** ** Rankings *)

(** The entries a ranking keeps ([value <= 0] is skipped; a NaN is not), in the
    order the map is visited. *)
Definition kept {K} (keep : K → bool) (l : list (K * f64)) : list (K * f64) :=
  List.filter (λ e, negb (f64_leb e.2 f64_zero) && keep e.1) l.

Definition total_of {K} (l : list (K * f64)) : f64 :=
  foldl (λ total e, f64_add total e.2) f64_zero l.

(** [if total > 0 { item.Ratio = value / total }] *)
Definition ratio (value total : f64) : f64 :=
  if f64_ltb f64_zero total then f64_div value total else f64_zero.

(** The kept entries, the [limit] largest first. *)
Definition ranked {K} (label : K → string) (entries : list (K * f64)) (limit : Z) : list (K * f64) :=
  take (Z.to_nat limit) (sort_Slice (top_first label) entries).

Definition always {K} (_ : K) : bool := true.

Definition buildBreakdown (delta : gmap string f64) (dt : f64) (limit : Z) : list BreakdownItem :=
  if (size delta =? 0)%nat || f64_leb dt f64_zero || (limit <=? 0) then []
  else
    let entries := kept always (range delta) in
    let total := total_of entries in
    (λ e, mkItem e.1 (f64_div e.2 dt) (ratio e.2 total) f64_zero) <$> ranked id entries limit.

Definition buildTotalBreakdown (values : gmap string f64) (limit : Z) : list BreakdownItem :=
  if (size values =? 0)%nat || (limit <=? 0) then []
  else
    let entries := kept always (range values) in
    let total := total_of entries in
    (λ e, mkItem e.1 f64_zero (ratio e.2 total) e.2) <$> ranked id entries limit.

Definition transitionEdgeLabel (from to : string) : string := from +:+ " -> " +:+ to.

Definition edge_label (k : transitionKey) : string := transitionEdgeLabel (From k) (To k).

Definition buildFilteredTransitionBreakdown (delta : gmap transitionKey f64) (dt : f64) (limit : Z)
    (keep : transitionKey → bool) : list TransitionBreakdownItem :=
  if (size delta =? 0)%nat || f64_leb dt f64_zero || (limit <=? 0) then []
  else
    let entries := kept keep (range delta) in
    let total := total_of entries in
    (λ e, mkEdge (From e.1) (To e.1) (f64_div e.2 dt) (ratio e.2 total) f64_zero) <$>
      ranked edge_label entries limit.

Definition buildTransitionBreakdown (delta : gmap transitionKey f64) (dt : f64) (limit : Z)
    : list TransitionBreakdownItem :=
  buildFilteredTransitionBreakdown delta dt limit always.

Definition buildTransitionTotalBreakdown (values : gmap transitionKey f64) (limit : Z)
    : list TransitionBreakdownItem :=
  if (size values =? 0)%nat || (limit <=? 0) then []
  else
    let entries := kept always (range values) in
    let total := total_of entries in
    (λ e, mkEdge (From e.1) (To e.1) f64_zero (ratio e.2 total) e.2) <$> ranked edge_label entries limit.

Definition isStateMachineTerminalNode (name : string) : bool := HasSuffix name "_exit".

(** The growth of the exits, over all states they are taken from. *)
Definition terminal_sums (delta : gmap transitionKey f64) : gmap string f64 :=
  foldl (λ m e, add_to m (To e.1) e.2) ∅ (kept (λ k, isStateMachineTerminalNode (To k)) (range delta)).

Definition buildTerminalBreakdown (delta : gmap transitionKey f64) (dt : f64) (limit : Z) : list BreakdownItem :=
  buildBreakdown (terminal_sums delta) dt limit.

Definition buildTerminalTotalBreakdown (values : gmap transitionKey f64) (limit : Z) : list BreakdownItem :=
  buildTotalBreakdown (terminal_sums values) limit.

(** ** The dominant path *)

Definition dominantStateMachineEdge (best second : f64) : bool :=
  if f64_leb second f64_zero then f64_ltb f64_zero best
  else f64_leb (f64_mul second (f64_const 12 10)) best &&
       f64_leb (f64_const 1 2) (f64_sub best second).

Definition summarizeStateMachinePath (edges : list TransitionBreakdownItem) (branchPoint : string)
    (ambiguous : bool) : string :=
  if (length edges =? 0)%nat && String.eqb branchPoint "" then ""
  else
    let parts := match edges with [] => [] | e :: _ => te_From e :: (te_To <$> edges) end in
    if ambiguous then
      match parts with
      | [] => "branching live path"
      | _ => Join " -> " parts +:+ " (branching at " +:+ branchPoint +:+ ")"
      end
    else Join " -> " parts.

Definition outgoing (delta : gmap transitionKey f64) (dt : f64) (current : string)
    : list TransitionBreakdownItem :=
  buildFilteredTransitionBreakdown delta dt 4 (λ k, String.eqb (From k) current).

(** [len(outgoing) > 1 && !dominantStateMachineEdge(best.Rate, outgoing[1].Rate)] *)
Definition branches (best : TransitionBreakdownItem) (rest : list TransitionBreakdownItem) : bool :=
  match rest with
  | [] => false
  | second :: _ => negb (dominantStateMachineEdge (te_Rate best) (te_Rate second))
  end.

(** The walk along the largest edge, for at most [fuel] steps: the edges taken,
    and where it branches. *)
Fixpoint path_loop (fuel : nat) (delta : gmap transitionKey f64) (dt : f64) (current : string)
    (visited : gset string) (main : list TransitionBreakdownItem)
    : list TransitionBreakdownItem * option (string * list TransitionBreakdownItem) :=
  match fuel with
  | O => (main, None)
  | S fuel' =>
      match outgoing delta dt current with
      | [] => (main, None)
      | best :: rest =>
          if branches best rest then (main, Some (current, best :: rest))
          else if isStateMachineTerminalNode (te_To best) then (main ++ [best], None)
          else if bool_decide (te_To best ∈ visited) then (main ++ [best], None)
          else path_loop fuel' delta dt (te_To best) ({[te_To best]} ∪ visited) (main ++ [best])
      end
  end.

Definition buildStateMachinePath (delta : gmap transitionKey f64) (dt : f64) : StateMachinePath :=
  match path_loop 12 delta dt "state_init" {["state_init"]} [] with
  | (main, Some (point, options)) =>
      mkPath (summarizeStateMachinePath main point true) main point options true
  | (main, None) => mkPath (summarizeStateMachinePath main "" false) main "" [] false
  end.

Definition empty_path : StateMachinePath := mkPath "" [] "" [] false.

Definition stateMachineFailureExit (reason : string) : string :=
  if Contains reason "formerr" then "formerr_exit"
  else if Contains reason "servfail" then "servfail_exit"
  else if Contains reason "max_iterations" then "max_iterations_exit"
  else if Contains reason "query_upstream_error" then "servfail_exit"
  else "error_exit".

Definition buildStateMachineFailureContexts (failures : list BreakdownItem) : list StateMachineFailureContext :=
  (λ item, mkFailureContext (bi_Label item) (stateMachineFailureExit (bi_Label item)) (bi_Rate item)) <$> failures.

(** ** The panels *)

(** [prev == nil || dt == 0]: no window to measure. *)
Definition no_window (prev : option MetricsSnapshot) (dt : f64) : bool :=
  match prev with None => true | Some _ => f64_eqb dt f64_zero end.

Definition prev_sum (prev : option MetricsSnapshot) (name : string) : option f64 := prev ≫= λ p, sum p name.
Definition prev_by_label (prev : option MetricsSnapshot) (name label : string) : gmap string f64 :=
  default ∅ (prev ≫= λ p, sumByLabel p name label).
Definition prev_gauge (prev : option MetricsSnapshot) (name : string) : f64 :=
  default f64_zero (prev ≫= λ p, gaugeValue p name).

Definition all_values (m : gmap string f64) : f64 := total_of (range m).

Definition empty_traffic (s : panelStatus) : TrafficPanel :=
  mkTraffic s f64_zero f64_zero f64_zero f64_zero f64_zero [].

Definition buildTrafficPanel (prev : option MetricsSnapshot) (curr : MetricsSnapshot) (dt : f64) : TrafficPanel :=
  if negb (hasMetric curr "rec53_query_counter") || negb (hasMetric curr "rec53_response_counter") ||
     negb (hasMetric curr "rec53_latency") then empty_traffic statusUnavailable
  else if no_window prev dt then empty_traffic statusWarming
  else
    let qps := match sum curr "rec53_query_counter", prev_sum prev "rec53_query_counter" with
               | Some c, Some p => f64_div (deltaFloat c p) dt
               | _, _ => f64_zero
               end in
    let '(codes, servfail, nxdomain, noerror) :=
      match sumByLabel curr "rec53_response_counter" "code" with
      | None => ([], f64_zero, f64_zero, f64_zero)
      | Some respCurr =>
          let respDelta := deltaMap respCurr (prev_by_label prev "rec53_response_counter" "code") in
          let codes := buildBreakdown respDelta dt 4 in
          let total := all_values respDelta in
          if f64_ltb f64_zero total then
            (codes, f64_div (get respDelta "SERVFAIL") total, f64_div (get respDelta "NXDOMAIN") total,
             f64_div (get respDelta "NOERROR") total)
          else (codes, f64_zero, f64_zero, f64_zero)
      end in
    let p99 :=
      match histogramBuckets curr "rec53_latency" with
      | None => f64_zero
      | Some currBuckets =>
          let prevBuckets := default [] (prev ≫= λ p, histogramBuckets p "rec53_latency") in
          default f64_zero (histogramQuantile (f64_const 99 100) (deltaBuckets currBuckets prevBuckets))
      end in
    let status := if f64_leb (f64_const 5 100) servfail || f64_leb (f64_of_Z 1000) p99
                  then statusDegraded else statusOK in
    mkTraffic status qps p99 servfail nxdomain noerror codes.

Definition empty_cache (s : panelStatus) (entries : f64) : CachePanel :=
  mkCachePanel s f64_zero f64_zero f64_zero f64_zero f64_zero entries "" [].

Definition buildCachePanel (prev : option MetricsSnapshot) (curr : MetricsSnapshot) (dt : f64) : CachePanel :=
  if negb (hasMetric curr "rec53_cache_lookup_total") || negb (hasMetric curr "rec53_cache_entries")
  then empty_cache statusUnavailable f64_zero
  else
    let entries := default f64_zero (gaugeValue curr "rec53_cache_entries") in
    if no_window prev dt then empty_cache statusWarming entries
    else
      let '(results, pos, neg, deleg, miss, hitRatio) :=
        match sumByLabel curr "rec53_cache_lookup_total" "result" with
        | None => ([], f64_zero, f64_zero, f64_zero, f64_zero, f64_zero)
        | Some resultsCurr =>
            let delta := deltaMap resultsCurr (prev_by_label prev "rec53_cache_lookup_total" "result") in
            let total := all_values delta in
            let hits := f64_add (f64_add (get delta "positive_hit") (get delta "negative_hit"))
                          (get delta "delegation_hit") in
            (buildBreakdown delta dt 4, f64_div (get delta "positive_hit") dt,
             f64_div (get delta "negative_hit") dt, f64_div (get delta "delegation_hit") dt,
             f64_div (get delta "miss") dt,
             if f64_ltb f64_zero total then f64_div hits total else f64_zero)
        end in
      let lifecycle :=
        match sumByLabel curr "rec53_cache_lifecycle_total" "event" with
        | None => ""
        | Some eventsCurr =>
            let '(top, value) :=
              pickTopLabel (deltaMap eventsCurr (prev_by_label prev "rec53_cache_lifecycle_total" "event")) in
            if negb (String.eqb top "") && f64_ltb f64_zero value
            then top +:+ " " +:+ format_fixed 1 (f64_div value dt) +:+ "/s" else ""
        end in
      let lifecycle := if String.eqb lifecycle "" then "steady" else lifecycle in
      let status := if f64_ltb f64_zero miss && f64_ltb hitRatio (f64_const 1 2)
                    then statusDegraded else statusOK in
      mkCachePanel status hitRatio pos neg deleg miss entries lifecycle results.

(** The sum of the samples with these labels. *)
Definition sum_where (samples : list metricSample) (p : gmap string string → bool) : f64 :=
  foldl (λ acc s, if p (ms_Labels s) then f64_add acc (ms_Value s) else acc) f64_zero samples.

Definition op_result (operation result : string) (labels : gmap string string) : bool :=
  String.eqb (label_of labels "operation") operation && String.eqb (label_of labels "result") result.

Definition empty_snapshot (s : panelStatus) : SnapshotPanel :=
  mkSnapshotPanel s f64_zero f64_zero f64_zero f64_zero f64_zero f64_zero f64_zero.

(** The growth of the failed operations, sample by sample. *)
Definition snapshot_failures (prev : option MetricsSnapshot) (operationsCurr : list metricSample) : f64 :=
  let prevSamples := default [] (prev ≫= λ p, Counters p !! "rec53_snapshot_operations_total") in
  let previousBySignature := foldl (λ m s, <[labelSignature (ms_Labels s) := ms_Value s]> m)
                               (∅ : gmap string f64) prevSamples in
  foldl (λ failures s,
    if String.eqb (label_of (ms_Labels s) "result") "failure" then
      f64_add failures (deltaFloat (ms_Value s) (get previousBySignature (labelSignature (ms_Labels s))))
    else failures) f64_zero operationsCurr.

Definition buildSnapshotPanel (prev : option MetricsSnapshot) (curr : MetricsSnapshot) (dt : f64) : SnapshotPanel :=
  if negb (hasMetric curr "rec53_snapshot_operations_total") ||
     negb (hasMetric curr "rec53_snapshot_entries_total") then empty_snapshot statusUnavailable
  else
    let operations := default [] (Counters curr !! "rec53_snapshot_operations_total") in
    let loadSuccess := sum_where operations (op_result "load" "success") in
    let loadFailure := sum_where operations (op_result "load" "failure") in
    let saveSuccess := sum_where operations (op_result "save" "success") in
    let '(imported, expired, corrupt, saveSuccess) :=
      match sumByLabel curr "rec53_snapshot_entries_total" "result" with
      | None => (f64_zero, f64_zero, f64_zero, saveSuccess)
      | Some entries =>
          (get entries "imported", get entries "skipped_expired", get entries "skipped_corrupt",
           if f64_eqb saveSuccess f64_zero then get entries "saved" else saveSuccess)
      end in
    let p99 := match histogramBuckets curr "rec53_snapshot_duration_ms" with
               | None => f64_zero
               | Some buckets => default f64_zero (histogramQuantile (f64_const 99 100) buckets)
               end in
    let status :=
      if no_window prev dt then statusWarming
      else match Counters curr !! "rec53_snapshot_operations_total" with
           | None => statusOK
           | Some operationsCurr =>
               if f64_ltb f64_zero (snapshot_failures prev operationsCurr) then statusDegraded else statusOK
           end in
    mkSnapshotPanel status loadSuccess loadFailure imported expired corrupt saveSuccess p99.

Definition empty_upstream (s : panelStatus) : UpstreamPanel :=
  mkUpstreamPanel s f64_zero f64_zero f64_zero "" f64_zero "" [] [].

Definition head_label (l : list BreakdownItem) : string := match l with i :: _ => bi_Label i | [] => "" end.
Definition head_rate (l : list BreakdownItem) : f64 := match l with i :: _ => bi_Rate i | [] => f64_zero end.

Definition buildUpstreamPanel (prev : option MetricsSnapshot) (curr : MetricsSnapshot) (dt : f64) : UpstreamPanel :=
  if negb (hasMetric curr "rec53_upstream_failures_total") ||
     negb (hasMetric curr "rec53_upstream_fallback_total") ||
     negb (hasMetric curr "rec53_upstream_winner_total") then empty_upstream statusUnavailable
  else if no_window prev dt then empty_upstream statusWarming
  else
    let '(reasons, timeout, badRcode) :=
      match sumByLabel curr "rec53_upstream_failures_total" "reason" with
      | None => ([], f64_zero, f64_zero)
      | Some failuresCurr =>
          let delta := deltaMap failuresCurr (prev_by_label prev "rec53_upstream_failures_total" "reason") in
          (buildBreakdown delta dt 4, f64_div (get delta "timeout") dt, f64_div (get delta "bad_rcode") dt)
      end in
    let fallback :=
      match sum curr "rec53_upstream_fallback_total" with
      | None => f64_zero
      | Some c => f64_div (deltaFloat c (default f64_zero (prev_sum prev "rec53_upstream_fallback_total"))) dt
      end in
    let winners :=
      match sumByLabel curr "rec53_upstream_winner_total" "path" with
      | None => []
      | Some winnersCurr =>
          buildBreakdown (deltaMap winnersCurr (prev_by_label prev "rec53_upstream_winner_total" "path")) dt 3
      end in
    let status := if f64_ltb f64_zero timeout || f64_ltb f64_zero badRcode || f64_ltb f64_zero fallback
                  then statusDegraded else statusOK in
    mkUpstreamPanel status timeout badRcode fallback (head_label winners) (head_rate winners)
      (head_label reasons) reasons winners.

Definition buildXDPPanel (prev : option MetricsSnapshot) (curr : MetricsSnapshot) (dt : f64) : XDPPanel :=
  match gaugeValue curr "rec53_xdp_status" with
  | None => mkXDPPanel statusUnavailable "unavailable" f64_zero f64_zero f64_zero f64_zero f64_zero f64_zero
  | Some status =>
      if f64_ltb status (f64_of_Z 1) then
        mkXDPPanel statusDisabled "disabled" f64_zero f64_zero f64_zero f64_zero f64_zero f64_zero
      else
        let entries := default f64_zero (gaugeValue curr "rec53_xdp_entries") in
        if no_window prev dt then
          mkXDPPanel statusWarming "active" f64_zero f64_zero f64_zero entries f64_zero f64_zero
        else
          let gauge_delta name c := deltaFloat c (prev_gauge prev name) in
          let hitRatio :=
            match gaugeValue curr "rec53_xdp_cache_hits_total", gaugeValue curr "rec53_xdp_cache_misses_total" with
            | Some h, Some m =>
                let hitDelta := gauge_delta "rec53_xdp_cache_hits_total" h in
                let missDelta := gauge_delta "rec53_xdp_cache_misses_total" m in
                let total := f64_add hitDelta missDelta in
                if f64_ltb f64_zero total then f64_div hitDelta total else f64_zero
            | _, _ => f64_zero
            end in
          let gauge_rate name :=
            match gaugeValue curr name with Some c => f64_div (gauge_delta name c) dt | None => f64_zero end in
          let sum_rate name :=
            match sum curr name with
            | Some c => f64_div (deltaFloat c (default f64_zero (prev_sum prev name))) dt
            | None => f64_zero
            end in
          let passRate := gauge_rate "rec53_xdp_pass_total" in
          let errorRate := gauge_rate "rec53_xdp_errors_total" in
          let syncRate := sum_rate "rec53_xdp_cache_sync_errors_total" in
          let cleanupRate := sum_rate "rec53_xdp_cleanup_deleted_total" in
          mkXDPPanel (if f64_ltb f64_zero syncRate || f64_ltb f64_zero errorRate then statusDegraded else statusOK)
            "active" hitRatio syncRate cleanupRate entries passRate errorRate
  end.

Definition empty_state (s : panelStatus) : StateMachinePanel :=
  mkStatePanel s "" f64_zero "" f64_zero "" f64_zero "" f64_zero [] [] empty_path "" [] [] [] [] [] [].

Definition transitions (s : MetricsSnapshot) : option (gmap transitionKey f64) :=
  sumByLabelPair s "rec53_state_machine_transition_total" "from" "to".

Definition buildStateMachinePanel (prev : option MetricsSnapshot) (curr : MetricsSnapshot) (dt : f64)
    : StateMachinePanel :=
  if negb (hasMetric curr "rec53_state_machine_stage_total") ||
     negb (hasMetric curr "rec53_state_machine_transition_total") then empty_state statusUnavailable
  else
    let '(terminalTotals, sinceStart) :=
      match transitions curr with
      | None => ([], [])
      | Some tc => (buildTerminalTotalBreakdown tc 4, buildTransitionTotalBreakdown tc 5)
      end in
    if no_window prev dt then
      mkStatePanel statusWarming "" f64_zero "" f64_zero "" f64_zero "" f64_zero [] terminalTotals empty_path ""
        [] [] [] [] sinceStart []
    else
      let stages :=
        match sumByLabel curr "rec53_state_machine_stage_total" "stage" with
        | None => []
        | Some c => buildBreakdown (deltaMap c (prev_by_label prev "rec53_state_machine_stage_total" "stage")) dt 5
        end in
      let failures :=
        match sumByLabel curr "rec53_state_machine_failures_total" "reason" with
        | None => []
        | Some c => buildBreakdown (deltaMap c (prev_by_label prev "rec53_state_machine_failures_total" "reason")) dt 5
        end in
      let '(liveEdges, terminals, liveTerminals, path) :=
        match transitions curr with
        | None => ([], [], [], empty_path)
        | Some tc =>
            let delta := deltaMap tc (default ∅ (prev ≫= transitions)) in
            (buildTransitionBreakdown delta dt 6, buildTerminalBreakdown delta dt 4,
             buildFilteredTransitionBreakdown delta dt 3 (λ k, isStateMachineTerminalNode (To k)),
             buildStateMachinePath delta dt)
        end in
      let topFailureRate := head_rate failures in
      let topTerminal := head_label terminals in
      let topTerminalRate := head_rate terminals in
      let status :=
        if f64_ltb f64_zero topFailureRate ||
           (f64_ltb f64_zero topTerminalRate && negb (String.eqb topTerminal "") &&
            negb (String.eqb topTerminal "success_exit"))
        then statusDegraded else statusOK in
      mkStatePanel status (head_label stages) (head_rate stages) topTerminal topTerminalRate
        (head_label failures) topFailureRate (head_label (tail failures)) (head_rate (tail failures))
        terminals terminalTotals path (Summary path) stages failures liveEdges liveTerminals sinceStart
        (buildStateMachineFailureContexts failures).

(** ** The whole dashboard *)

Record Dashboard := mkDashboard {
  d_Target : string;
  d_Mode : panelStatus;
  d_LastUpdate : Z;
  d_LastSuccess : Z;
  d_ScrapeDuration : Z;
  d_LastError : string;
  d_OverallSummary : string;
  d_CurrentSnapshot : option MetricsSnapshot;
  d_Traffic : TrafficPanel;
  d_Cache : CachePanel;
  d_Snapshot : SnapshotPanel;
  d_Upstream : UpstreamPanel;
  d_XDP : XDPPanel;
  d_StateMachine : StateMachinePanel;
}.

Definition overall (traffic cache snapshot upstream xdp sm : panelStatus) : string :=
  Join " | " ["TRAFFIC " +:+ status_text traffic; "CACHE " +:+ status_text cache;
    "SNAPSHOT " +:+ status_text snapshot; "UPSTREAM " +:+ status_text upstream;
    "XDP " +:+ status_text xdp; "SM " +:+ status_text sm].

(** The zero XDP panel of a dashboard without data has an empty mode. *)
Definition empty_xdp (s : panelStatus) : XDPPanel :=
  mkXDPPanel s "" f64_zero f64_zero f64_zero f64_zero f64_zero f64_zero.

(** The length of the window between two scrapes. *)
Definition window (prev : option MetricsSnapshot) (curr : MetricsSnapshot) : f64 :=
  match prev with
  | None => f64_zero
  | Some p => let dt := Seconds (time_Sub (At curr) (At p)) in if f64_leb dt f64_zero then f64_zero else dt
  end.

Definition disconnected_panels (target summary err : string) (update success duration : Z) : Dashboard :=
  mkDashboard target statusDisconnected update success duration err summary None
    (empty_traffic statusDisconnected) (empty_cache statusDisconnected f64_zero)
    (empty_snapshot statusDisconnected) (empty_upstream statusDisconnected)
    (empty_xdp statusDisconnected) (empty_state statusDisconnected).

(** [now] and [now'] are the two clock readings. *)
Definition deriveDashboard (now now' : Z) (target : string) (prev curr : option MetricsSnapshot)
    (scrapeDuration : Z) : Dashboard :=
  match curr with
  | None => disconnected_panels target "target unreachable" "" now now' scrapeDuration
  | Some curr =>
      let dt := window prev curr in
      let traffic := buildTrafficPanel prev curr dt in
      let cache := buildCachePanel prev curr dt in
      let snapshot := buildSnapshotPanel prev curr dt in
      let upstream := buildUpstreamPanel prev curr dt in
      let xdp := buildXDPPanel prev curr dt in
      let sm := buildStateMachinePanel prev curr dt in
      mkDashboard target (match prev with None => statusWarming | Some _ => statusOK end)
        now (At curr) scrapeDuration ""
        (overall (tp_Status traffic) (cp_Status cache) (sp_Status snapshot) (up_Status upstream)
           (xp_Status xdp) (st_Status sm))
        (Some curr) traffic cache snapshot upstream xdp sm
  end.

Definition withScrapeError (now : Z) (prev : Dashboard) (err : string) : Dashboard :=
  if IsZero (d_LastSuccess prev) then
    disconnected_panels (d_Target prev) ("DISCONNECTED: " +:+ err) err now time_zero 0
  else
    mkDashboard (d_Target prev) statusStale now (d_LastSuccess prev) (d_ScrapeDuration prev) err
      ("STALE: " +:+ err) (d_CurrentSnapshot prev) (d_Traffic prev) (d_Cache prev) (d_Snapshot prev)
      (d_Upstream prev) (d_XDP prev) (d_StateMachine prev).

(** The scrapes of [runPlain] and [Run]: what is shown after each of them, and
    the snapshot kept for the next. *)
Inductive scrape := ScrapeOk (snapshot : MetricsSnapshot) (duration : Z) | ScrapeErr (err : string).

Record Viewer := mkViewer {
  v_latest : Dashboard;
  v_previous : option MetricsSnapshot;
}.

Definition viewer_init (now : Z) (target : string) : Viewer :=
  mkViewer (deriveDashboard now now target None None 0) None.

Definition viewer_step (v : Viewer) (ns : Z * scrape) : Viewer :=
  match ns with
  | (now, ScrapeErr e) => mkViewer (withScrapeError now (v_latest v) e) (v_previous v)
  | (now, ScrapeOk s dur) =>
      mkViewer (deriveDashboard now now (d_Target (v_latest v)) (v_previous v) (Some s) dur) (Some s)
  end.

End dashboard.

(** ** Rankings are right *)
Section rankings.
Context `{GSL : GoSortLaws} `{GOL : GoMapOrderLaws}.

Lemma elem_of_range `{Countable K} {V} (m : gmap K V) k v : (k, v) ∈ range m ↔ m !! k = Some v.
Proof. unfold range. by rewrite range_order_perm, elem_of_map_to_list. Qed.

Lemma NoDup_range_keys `{Countable K} {V} (m : gmap K V) : NoDup (range m).*1.
Proof. unfold range. rewrite range_order_perm. apply NoDup_fst_map_to_list. Qed.

Lemma elem_of_kept {K} (keep : K → bool) l e :
  e ∈ kept keep l ↔ e ∈ l ∧ f64_leb e.2 f64_zero = false ∧ keep e.1 = true.
Proof.
  unfold kept. rewrite !list_elem_of_In, filter_In, andb_true_iff, negb_true_iff. done.
Qed.

Lemma kept_keys {K} (keep : K → bool) l : NoDup l.*1 → NoDup (kept keep l).*1.
Proof.
  unfold kept. induction l as [|e l IH]; intros Hn; [done|]. apply NoDup_cons in Hn as [Hx Hn]. simpl.
  destruct (negb _ && _); [|by apply IH]. simpl. apply NoDup_cons. split; [|by apply IH].
  intros (e' & Ee & (Hin & _)%elem_of_kept)%list_elem_of_fmap. apply Hx. rewrite Ee. by apply list_elem_of_fmap_2.
Qed.

(** What a ranking of a map's entries is: the entries kept, without repetition,
    each before those it beats, cut to the limit; whatever was cut is beaten by
    nothing that was left out. *)
Lemma ranked_spec `{Countable K} (label : K → string) (keep : K → bool) (m : gmap K f64) (limit : Z) :
  (∀ k v, m !! k = Some v → is_nan v = false) →
  let r := ranked label (kept keep (range m)) limit in
  length r = Nat.min (Z.to_nat limit) (length (kept keep (range m))) ∧
  NoDup r.*1 ∧ StronglySorted (λ a b, top_first label b a = false) r ∧
  (∀ e, e ∈ r → m !! e.1 = Some e.2 ∧ f64_ltb f64_zero e.2 = true ∧ keep e.1 = true) ∧
  (∀ k v, m !! k = Some v → f64_ltb f64_zero v = true → keep k = true →
     (k, v) ∈ r ∨ ∀ e, e ∈ r → top_first label (k, v) e = false).
Proof.
  intros Hnan r. set (es := kept keep (range m)) in *.
  assert (∀ e, e ∈ es → m !! e.1 = Some e.2 ∧ is_nan e.2 = false ∧ f64_ltb f64_zero e.2 = true ∧ keep e.1 = true)
    as Hes.
  { intros [k v] (Hin & Hpos & Hk)%elem_of_kept. apply elem_of_range in Hin. pose proof (Hnan _ _ Hin) as Hv.
    split_and!; try done. simpl in *. destruct (f64_ltb f64_zero v) eqn:E; [done|].
    by rewrite (f64_leb_total f64_zero v eq_refl Hv E) in Hpos. }
  assert (Forall (λ e, is_nan e.2 = false) es) as Hnn by (apply Forall_forall; intros e He; by apply Hes).
  pose proof (sort_Slice_perm (top_first label) es) as Hp.
  pose proof (sort_Slice_sorted (top_first label) es (top_first_weak label es Hnn)) as Hs.
  set (sorted := sort_Slice (top_first label) es) in *.
  assert (r = take (Z.to_nat limit) sorted) as Hr by done. rewrite Hr.
  assert (NoDup sorted.*1) as Hnd.
  { rewrite Hp. apply kept_keys, NoDup_range_keys. }
  rewrite <-(take_drop (Z.to_nat limit) sorted) in Hnd, Hs. split_and!.
  - rewrite length_take. by rewrite Hp.
  - rewrite fmap_app in Hnd. by apply NoDup_app in Hnd as (? & _).
  - by apply StronglySorted_app_1_l in Hs.
  - intros e He. destruct (Hes e) as (? & _ & ? & ?); [|done]. rewrite <-Hp.
    rewrite <-(take_drop (Z.to_nat limit) sorted). apply elem_of_app. by left.
  - intros k v Hkv Hpos Hkp. assert ((k, v) ∈ sorted) as Hin.
    { rewrite Hp. apply elem_of_kept. split_and!; [by apply elem_of_range| |done]. simpl.
      destruct (f64_leb v f64_zero) eqn:E; [|done]. pose proof (f64_leb_ltb_trans _ _ _ E Hpos) as Hx.
      by rewrite f64_ltb_irrefl in Hx. }
    rewrite <-(take_drop (Z.to_nat limit) sorted) in Hin. apply elem_of_app in Hin as [?|Hin]; [by left|right].
    intros e He. exact (StronglySorted_app_1_elem_of _ _ _ _ _ Hs He Hin).
Qed.

(** A breakdown is the ranking it claims to be.  For growth values that are
    numbers and a positive window: the items are the [limit] largest positive
    entries, in descending order with ties by label, without repetition; each
    item's rate is its growth per second and its ratio is its share of the growth
    kept; a positive entry that is not listed is not ahead of any listed one; and
    the result does not depend on the order in which the map was visited, except
    through the rounding of the total. *)
Theorem buildBreakdown_spec (delta : gmap string f64) (dt : f64) (limit : Z) :
  (∀ k v, delta !! k = Some v → is_nan v = false) → f64_leb dt f64_zero = false → 0 < limit →
  let items := buildBreakdown delta dt limit in
  length items = Nat.min (Z.to_nat limit) (length (kept always (range delta))) ∧
  NoDup (bi_Label <$> items) ∧
  StronglySorted (λ a b, top_first id (bi_Label b, get delta (bi_Label b)) (bi_Label a, get delta (bi_Label a)) = false)
    items ∧
  (∀ i, i ∈ items → ∃ v, delta !! bi_Label i = Some v ∧ f64_ltb f64_zero v = true ∧
     bi_Rate i = f64_div v dt ∧ bi_Ratio i = ratio v (total_of (kept always (range delta)))) ∧
  (∀ k v, delta !! k = Some v → f64_ltb f64_zero v = true →
     (∃ i, i ∈ items ∧ bi_Label i = k) ∨
     ∀ i, i ∈ items → top_first id (k, v) (bi_Label i, get delta (bi_Label i)) = false).
Proof.
  intros Hnan Hdt Hl items. set (f := λ e : string * f64, mkItem e.1 (f64_div e.2 dt)
    (ratio e.2 (total_of (kept always (range delta)))) f64_zero).
  set (es := kept always (range delta)) in *. set (r := ranked id es limit).
  assert (items = f <$> r) as ->.
  { unfold items, buildBreakdown. rewrite Hdt, (proj2 (Z.leb_gt limit 0) Hl), !orb_false_r.
    destruct (Nat.eqb_spec (size delta) 0) as [E|]; [|done]. apply map_size_empty_inv in E as ->.
    assert (es = []) as Ees.
    { destruct es as [|e es'] eqn:Ee; [done|]. exfalso. assert (e ∈ es) as He by (rewrite Ee; left).
      apply elem_of_kept in He as [He _]. destruct e as [k v]. by apply elem_of_range in He. }
    unfold r. rewrite Ees. unfold ranked. pose proof (sort_Slice_perm (top_first id) ([] : list (string * f64))) as Hp.
    apply Permutation_nil_r in Hp. by rewrite Hp, take_nil. }
  destruct (ranked_spec id always delta limit Hnan) as (Hlen & Hnd & Hs & Hin & Hout). fold es r in Hlen, Hnd, Hs, Hin, Hout.
  assert (∀ e, e ∈ r → (bi_Label (f e), get delta (bi_Label (f e))) = e) as Hget.
  { intros [k v] He. destruct (Hin _ He) as [Hk _]. simpl in *. unfold get. by rewrite Hk. }
  split_and!.
  - by rewrite length_fmap.
  - rewrite <-list_fmap_compose. exact Hnd.
  - clear -Hs Hget. induction Hs as [|e l Hs IH HF]; [constructor|]. rewrite fmap_cons. constructor.
    + apply IH. intros x Hx. apply Hget. by right.
    + rewrite Forall_forall in HF. apply Forall_forall. intros i (e' & -> & He')%list_elem_of_fmap.
      rewrite (Hget e') by (by right). rewrite (Hget e) by left. by apply HF.
  - intros i (e & -> & He)%list_elem_of_fmap. destruct (Hin e He) as (Hk & Hpos & _). by exists e.2.
  - intros k v Hkv Hpos. destruct (Hout k v Hkv Hpos eq_refl) as [Hr|Hr].
    + left. exists (f (k, v)). split; [by apply list_elem_of_fmap_2|done].
    + right. intros i (e & -> & He)%list_elem_of_fmap. rewrite (Hget e He). by apply Hr.
Qed.

(** ** The dominant path is one *)

(** The edges lead from [from] to [to]. *)
Fixpoint chain (from : string) (es : list TransitionBreakdownItem) (to : string) : Prop :=
  match es with
  | [] => from = to
  | e :: es' => te_From e = from ∧ chain (te_To e) es' to
  end.

(** [e] is a transition that grew in the window, and none out of its source grew
    more. *)
Definition leads (delta : gmap transitionKey f64) (dt : f64) (e : TransitionBreakdownItem) : Prop :=
  ∃ v, delta !! mkTransition (te_From e) (te_To e) = Some v ∧ f64_ltb f64_zero v = true ∧
    te_Rate e = f64_div v dt ∧
    ∀ k v', delta !! k = Some v' → From k = te_From e → f64_ltb f64_zero v' = true → f64_leb v' v = true.

(** [s] is another transition out of the source of [e] that grew, and none but [e]
    grew more. *)
Definition runner_up (delta : gmap transitionKey f64) (dt : f64) (e s : TransitionBreakdownItem) : Prop :=
  te_From s = te_From e ∧ te_To s ≠ te_To e ∧
  ∃ v, delta !! mkTransition (te_From s) (te_To s) = Some v ∧ f64_ltb f64_zero v = true ∧
    te_Rate s = f64_div v dt ∧
    ∀ k v', delta !! k = Some v' → From k = te_From e → To k ≠ te_To e →
      f64_ltb f64_zero v' = true → f64_leb v' v = true.

(** No other transition out of the source of [e] grew. *)
Definition alone (delta : gmap transitionKey f64) (e : TransitionBreakdownItem) : Prop :=
  ∀ k v, delta !! k = Some v → From k = te_From e → f64_ltb f64_zero v = true → To k = te_To e.

(** No transition out of the state grew. *)
Definition quiet (delta : gmap transitionKey f64) (state : string) : Prop :=
  ∀ k v, delta !! k = Some v → From k = state → f64_ltb f64_zero v = false.

(** By at least a fifth and half a transition per second; a rate of zero is beaten
    by any other. *)
Definition clearly_ahead (best second : f64) : Prop :=
  (f64_leb second f64_zero = true ∧ f64_ltb f64_zero best = true) ∨
  (f64_leb second f64_zero = false ∧ f64_leb (f64_mul second (f64_const 12 10)) best = true ∧
   f64_leb (f64_const 1 2) (f64_sub best second) = true).

Definition strongest_edge (delta : gmap transitionKey f64) (dt : f64) (e : TransitionBreakdownItem) : Prop :=
  leads delta dt e ∧ (alone delta e ∨ ∃ s, runner_up delta dt e s ∧ clearly_ahead (te_Rate e) (te_Rate s)).

Lemma dominant_ahead b c : dominantStateMachineEdge b c = true ↔ clearly_ahead b c.
Proof.
  unfold dominantStateMachineEdge, clearly_ahead. destruct (f64_leb c f64_zero); [|rewrite andb_true_iff]; naive_solver.
Qed.

Lemma path_chain_snoc from es mid e : chain from es mid → te_From e = mid → chain from (es ++ [e]) (te_To e).
Proof. revert from. induction es; simpl; intros from; [by intros ->|]. intros [? ?] ?. auto. Qed.

Lemma outgoing_ranked delta dt cur :
  outgoing delta dt cur = [] ∨ outgoing delta dt cur =
    (λ e, mkEdge (From e.1) (To e.1) (f64_div e.2 dt)
       (ratio e.2 (total_of (kept (λ k, String.eqb (From k) cur) (range delta)))) f64_zero) <$>
    ranked edge_label (kept (λ k, String.eqb (From k) cur) (range delta)) 4.
Proof. unfold outgoing, buildFilteredTransitionBreakdown. case_match; auto. Qed.

Lemma top_first_max {A} (label : A → string) a b :
  is_nan a.2 = false → is_nan b.2 = false → top_first label a b = false → f64_leb a.2 b.2 = true.
Proof.
  intros Ha Hb. unfold top_first. rewrite f64_eqb_spec by done. intros Ht.
  destruct (f64_ltb b.2 a.2) eqn:E1; [|by apply f64_leb_total]. exfalso.
  destruct (f64_ltb a.2 b.2) eqn:E2; simpl in Ht; [|done].
  pose proof (f64_ltb_trans _ _ _ E1 E2) as Hx. by rewrite f64_ltb_irrefl in Hx.
Qed.

Lemma positive_kept (keep : transitionKey → bool) (delta : gmap transitionKey f64) k v :
  delta !! k = Some v → f64_ltb f64_zero v = true → keep k = true → (k, v) ∈ kept keep (range delta).
Proof.
  intros Hk Hpos Hkeep. apply elem_of_kept. split_and!; [by apply elem_of_range| |done]. simpl.
  destruct (f64_leb v f64_zero) eqn:E; [|done]. pose proof (f64_leb_ltb_trans _ _ _ E Hpos) as Hx.
  by rewrite f64_ltb_irrefl in Hx.
Qed.

Lemma outgoing_nil delta dt cur :
  outgoing delta dt cur = [] → f64_leb dt f64_zero = true ∨ quiet delta cur.
Proof.
  unfold outgoing, buildFilteredTransitionBreakdown. simpl. rewrite orb_false_r.
  destruct (Nat.eqb_spec (size delta) 0) as [E|]; simpl.
  { intros _. right. apply map_size_empty_inv in E as ->. by intros k v. }
  destruct (f64_leb dt f64_zero); [by left|]. intros En%fmap_nil_inv. right. intros k v Hk Hf.
  destruct (f64_ltb f64_zero v) eqn:Epos; [|done].
  assert ((k, v) ∈ kept (λ k, String.eqb (From k) cur) (range delta)) as Hin
    by (apply positive_kept; [done..|by apply String.eqb_eq]).
  unfold ranked in En. rewrite <-(sort_Slice_perm (top_first edge_label)) in Hin.
  destruct (sort_Slice _ _); [by apply elem_of_nil in Hin|done].
Qed.

(** What the ranking of the transitions out of a state says of its first two. *)
Lemma outgoing_top delta dt cur best rest :
  (∀ k v, delta !! k = Some v → is_nan v = false) → outgoing delta dt cur = best :: rest →
  te_From best = cur ∧ leads delta dt best ∧
  match rest with [] => alone delta best | second :: _ => runner_up delta dt best second end.
Proof.
  intros Hnan Hout.
  destruct (ranked_spec edge_label (λ k, String.eqb (From k) cur) delta 4 Hnan) as (Hlen & Hnd & Hs & Hin & Hmax).
  destruct (outgoing_ranked delta dt cur) as [E|E]; rewrite Hout in E; [done|].
  set (r0 := ranked _ _ _) in *. clearbody r0. destruct r0 as [|[k v] r]; [done|]. injection E as -> Er.
  destruct (Hin (k, v)) as (Hk & Hpos & Hfrom%String.eqb_eq); [left|]. simpl in Hk, Hpos, Hfrom.
  apply StronglySorted_inv in Hs as [Hs Hs1]. rewrite Forall_forall in Hs1.
  assert (∀ k' v', delta !! k' = Some v' → From k' = cur → f64_ltb f64_zero v' = true →
    (k' = k ∨ (k', v') ∈ r ∨ ∀ e, e ∈ (k, v) :: r → top_first edge_label (k', v') e = false)) as Hcases.
  { intros k' v' Hk' Hf Hv'. destruct (Hmax k' v' Hk' Hv') as [Hr|Hr]; [by apply String.eqb_eq| |by auto].
    apply elem_of_cons in Hr as [[= -> ->]|Hr]; auto. }
  split; [done|]. destruct k as [f t]. simpl in Hfrom. subst f. split.
  - exists v. split_and!; [done|done|done|]. intros k' v' Hk' Hf Hv'.
    destruct (Hcases k' v' Hk' Hf Hv') as [->|[Hr|Hr]].
    + simplify_eq. by apply f64_leb_refl; eauto.
    + apply (top_first_max edge_label (k', v') (mkTransition cur t, v)); eauto.
    + apply (top_first_max edge_label (k', v') (mkTransition cur t, v)); eauto. apply Hr. left.
  - destruct r as [|[k2 v2] r]; simpl in Er; subst rest.
    + intros k' v' Hk' Hf Hv'.
      assert ((k', v') ∈ kept (λ k, String.eqb (From k) cur) (range delta)) as Hk1
        by (apply positive_kept; [done..|by apply String.eqb_eq]).
      assert ((mkTransition cur t, v) ∈ kept (λ k, String.eqb (From k) cur) (range delta)) as Hk2
        by (apply positive_kept; [done..|by apply String.eqb_eq]).
      destruct (kept _ (range delta)) as [|x [|y l]]; [by apply elem_of_nil in Hk1| |done].
      apply list_elem_of_singleton in Hk1, Hk2. by simplify_eq.
    + destruct (Hin (k2, v2)) as (Hk2 & Hpos2 & Hfrom2%String.eqb_eq); [right; left|]. simpl in Hk2, Hpos2, Hfrom2.
      destruct k2 as [f2 t2]. simpl in Hfrom2. subst f2. split_and!; [done| |].
      { simpl. intros ->. simpl in Hnd. apply NoDup_cons in Hnd as [Hx _]. apply Hx. left. }
      exists v2. split_and!; [done|done|done|]. intros k' v' Hk' Hf Hne Hv'. simpl in Hf, Hne.
      apply StronglySorted_inv in Hs as [_ Hs2]. rewrite Forall_forall in Hs2.
      destruct (Hcases k' v' Hk' Hf Hv') as [->|[[E|Hr]%elem_of_cons|Hr]]; [done| | |].
      * injection E as -> ->. by apply f64_leb_refl; eauto.
      * apply (top_first_max edge_label (k', v') (mkTransition cur t2, v2)); eauto.
      * apply (top_first_max edge_label (k', v') (mkTransition cur t2, v2)); eauto. apply Hr. right; left.
Qed.

Lemma outgoing_head delta dt cur best rest :
  (∀ k v, delta !! k = Some v → is_nan v = false) → outgoing delta dt cur = best :: rest →
  branches best rest = false → te_From best = cur ∧ strongest_edge delta dt best.
Proof.
  intros Hnan Hout Hb. destruct (outgoing_top delta dt cur best rest Hnan Hout) as (Hf & Hl & Hr).
  split; [done|]. split; [done|]. destruct rest as [|second rest]; [by left|right].
  exists second. split; [done|]. apply dominant_ahead. by apply negb_false_iff in Hb.
Qed.

(** What the walk guarantees of its result, [end_] being where it stops. *)
Definition path_result (delta : gmap transitionKey f64) (dt : f64) (bound : nat) (end_ : string)
    (res : list TransitionBreakdownItem * option (string * list TransitionBreakdownItem)) : Prop :=
  let '(main, branch) := res in
  chain "state_init" main end_ ∧ NoDup (te_From <$> main) ∧ (length main ≤ bound)%nat ∧
  Forall (strongest_edge delta dt) main ∧
  match branch with
  | Some (point, options) =>
      point = end_ ∧ options = outgoing delta dt end_ ∧
      ∃ best rest, options = best :: rest ∧ branches best rest = true
  | None => isStateMachineTerminalNode end_ = true ∨ end_ ∈ te_From <$> main ∨
      outgoing delta dt end_ = [] ∨ length main = bound
  end.

Lemma path_loop_spec delta dt fuel cur visited main :
  (∀ k v, delta !! k = Some v → is_nan v = false) →
  chain "state_init" main cur → NoDup (te_From <$> main) → cur ∉ te_From <$> main →
  Forall (strongest_edge delta dt) main → (∀ x, x ∈ visited ↔ x = cur ∨ x ∈ te_From <$> main) →
  ∃ end_, path_result delta dt (length main + fuel) end_ (path_loop fuel delta dt cur visited main).
Proof.
  intros Hnan. revert cur visited main. induction fuel as [|fuel IH]; intros cur visited main Hc Hn Hcur Hf Hv; simpl.
  { exists cur. unfold path_result. split_and!; try done; [lia|]. right; right; right. lia. }
  destruct (outgoing delta dt cur) as [|best rest] eqn:Eo.
  { exists cur. unfold path_result. split_and!; try done; [lia|auto]. }
  destruct (branches best rest) eqn:Eb.
  { exists cur. unfold path_result. split_and!; try done; [lia|]. by exists best, rest. }
  destruct (outgoing_head delta dt cur best rest Hnan Eo Eb) as [Hfrom Hbest].
  pose proof (path_chain_snoc _ _ _ best Hc Hfrom) as Hc'.
  assert (NoDup (te_From <$> main ++ [best])) as Hn'.
  { rewrite fmap_app. apply NoDup_app. split_and!; [done| |apply NoDup_singleton].
    intros x Hx Hx'%list_elem_of_singleton. by subst. }
  assert (Forall (strongest_edge delta dt) (main ++ [best])) as Hf' by (apply Forall_app; auto).
  assert (∀ x, x ∈ visited ↔ x ∈ te_From <$> main ++ [best]) as Hv'.
  { intros x. rewrite Hv, fmap_app, elem_of_app. simpl. rewrite list_elem_of_singleton, Hfrom. tauto. }
  assert (length (main ++ [best]) ≤ length main + S fuel)%nat as Hlen by (rewrite length_app; simpl; lia).
  destruct (isStateMachineTerminalNode (te_To best)) eqn:Et.
  { exists (te_To best). unfold path_result. split_and!; auto. }
  case_bool_decide as Hvis.
  { exists (te_To best). unfold path_result. split_and!; auto. right; left. by apply Hv'. }
  destruct (IH (te_To best) ({[te_To best]} ∪ visited) (main ++ [best])) as [e He]; try done.
  { intros Hin. by apply Hvis, Hv'. }
  { intros x. rewrite elem_of_union, elem_of_singleton, Hv'. done. }
  exists e. rewrite length_app in He. simpl in He. by rewrite Nat.add_succ_r, <-Nat.add_succ_l, <-Nat.add_1_r.
Qed.

Lemma path_walk delta dt :
  (∀ k v, delta !! k = Some v → is_nan v = false) →
  ∃ end_, path_result delta dt 12 end_ (path_loop 12 delta dt "state_init" {["state_init"]} []).
Proof.
  intros Hnan. destruct (path_loop_spec delta dt 12 "state_init" {["state_init"]} []) as [e He]; try done.
  { apply NoDup_nil_2. } { apply not_elem_of_nil. }
  { intros x. rewrite elem_of_singleton. simpl. rewrite elem_of_nil. tauto. }
  by exists e.
Qed.

(** C33: the dominant path is a path of the transitions seen in the window.  For
    growth values that are numbers: it starts in [state_init], each edge starts
    where the last ended, no transition out of its source grew more, and it is
    either the only one that grew or clearly ahead of the runner-up (at least 1.2
    times its rate and half a transition per second more); no state is left twice,
    and there are at most twelve edges.  It stops at a branch, where the runner-up
    is not clearly behind, and shows the ranked transitions there; otherwise at an
    exit, at a state it has been in, at a state nothing was seen to leave, or after
    the twelfth edge.  (A window of no length shows no edges.) *)
Theorem buildStateMachinePath_spec (delta : gmap transitionKey f64) (dt : f64) :
  (∀ k v, delta !! k = Some v → is_nan v = false) →
  let p := buildStateMachinePath delta dt in
  ∃ end_, chain "state_init" (MainEdges p) end_ ∧ NoDup (te_From <$> MainEdges p) ∧
    (length (MainEdges p) ≤ 12)%nat ∧ Forall (strongest_edge delta dt) (MainEdges p) ∧
    (if Ambiguous p then
       BranchPoint p = end_ ∧ BranchOptions p = outgoing delta dt end_ ∧
       ∃ best second rest, BranchOptions p = best :: second :: rest ∧ te_From best = end_ ∧
         leads delta dt best ∧ runner_up delta dt best second ∧ ¬ clearly_ahead (te_Rate best) (te_Rate second)
     else
       BranchOptions p = [] ∧
       (HasSuffix end_ "_exit" = true ∨ end_ ∈ te_From <$> MainEdges p ∨
        quiet delta end_ ∨ f64_leb dt f64_zero = true ∨ length (MainEdges p) = 12%nat)).
Proof.
  intros Hnan p. destruct (path_walk delta dt Hnan) as [e He]. exists e. unfold p, buildStateMachinePath.
  destruct (path_loop _ _ _ _ _ _) as [main [[point options]|]].
  - destruct He as (? & ? & ? & ? & -> & Ho & best & rest & -> & Hb). simpl. split_and!; try done.
    destruct (outgoing_top delta dt e best rest Hnan (eq_sym Ho)) as (Hf & Hl & Hr).
    destruct rest as [|second rest]; [done|]. exists best, second, rest. split_and!; try done.
    apply negb_true_iff in Hb. rewrite <-dominant_ahead. by rewrite Hb.
  - destruct He as (? & ? & ? & ? & Hend). simpl. split_and!; try done.
    destruct Hend as [?|[?|[Ho|?]]]; [by auto..| |by auto 6]. apply outgoing_nil in Ho as [?|?]; auto 6.
Qed.

(** ** What the viewer shows over time *)

Definition viewer_run (start : Z) (target : string) (scrapes : list (Z * scrape)) : Viewer :=
  foldl viewer_step (viewer_init start target) scrapes.

Definition is_ok (ns : Z * scrape) : bool := match ns.2 with ScrapeOk _ _ => true | ScrapeErr _ => false end.

(** The snapshots scraped so far. *)
Definition snapshots (scrapes : list (Z * scrape)) : list MetricsSnapshot :=
  omap (λ ns, match ns.2 with ScrapeOk s _ => Some s | ScrapeErr _ => None end) scrapes.

(** Real clock readings: no time is the zero time. *)
Definition real_times (scrapes : list (Z * scrape)) : Prop :=
  Forall (λ ns, match ns.2 with ScrapeOk s _ => At s ≠ time_zero | ScrapeErr _ => True end) scrapes.

Lemma viewer_run_snoc start target scrapes ns :
  viewer_run start target (scrapes ++ [ns]) = viewer_step (viewer_run start target scrapes) ns.
Proof. unfold viewer_run. by rewrite foldl_app. Qed.

Lemma viewer_invariant start target scrapes :
  start ≠ time_zero → real_times scrapes →
  let v := viewer_run start target scrapes in
  v_previous v = last (snapshots scrapes) ∧ IsZero (d_LastSuccess (v_latest v)) = false ∧
  d_Target (v_latest v) = target ∧ d_CurrentSnapshot (v_latest v) = last (snapshots scrapes).
Proof.
  intros Hs. induction scrapes as [|[now r] scrapes IH] using rev_ind; intros Hr; simpl.
  { split_and!; [done|by apply Z.eqb_neq|done|done]. }
  apply Forall_app in Hr as [Hr Hl]. apply Forall_cons_1 in Hl as [Hl _]. destruct (IH Hr) as (Hp & Hz & Ht & Hc).
  rewrite viewer_run_snoc. unfold snapshots. rewrite omap_app. fold (snapshots scrapes).
  destruct r as [s dur|e]; simpl in *.
  - rewrite last_snoc. split_and!; [done|by apply Z.eqb_neq|exact Ht|done].
  - rewrite app_nil_r. unfold withScrapeError. rewrite Hz. by split_and!.
Qed.

(** What the viewer shows after any sequence of scrapes.  A scrape that worked
    shows the panels of that snapshot against the one before it, WARMING if it is
    the first and OK otherwise; a scrape that failed keeps the last panels and
    snapshot on display, with the error, as STALE; and this is so even when no
    scrape has worked yet: DISCONNECTED is shown only before the first scrape
    returns. *)
Theorem viewer_modes start target scrapes now r :
  start ≠ time_zero → real_times scrapes →
  let shown := v_latest (viewer_run start target scrapes) in
  let next := v_latest (viewer_run start target (scrapes ++ [(now, r)])) in
  match r with
  | ScrapeOk s dur =>
      next = deriveDashboard now now target (last (snapshots scrapes)) (Some s) dur ∧
      d_Mode next = (if decide (snapshots scrapes = []) then statusWarming else statusOK)
  | ScrapeErr e =>
      d_Mode next = statusStale ∧ d_OverallSummary next = "STALE: " +:+ e ∧ d_LastError next = e ∧
      d_LastSuccess next = d_LastSuccess shown ∧
      d_CurrentSnapshot next = last (snapshots scrapes) ∧
      d_Traffic next = d_Traffic shown ∧ d_Cache next = d_Cache shown ∧ d_Snapshot next = d_Snapshot shown ∧
      d_Upstream next = d_Upstream shown ∧ d_XDP next = d_XDP shown ∧ d_StateMachine next = d_StateMachine shown
  end.
Proof.
  intros Hs Hr. destruct (viewer_invariant start target scrapes Hs Hr) as (Hp & Hz & Ht & Hc).
  rewrite viewer_run_snoc. destruct r as [s dur|e]; simpl in *.
  - rewrite Hp, Ht. split; [done|]. case_decide as E; [by rewrite E|].
    by destruct (last (snapshots scrapes)) eqn:El; [|apply last_None in El].
  - unfold withScrapeError. rewrite Hz. by split_and!.
Qed.

End rankings.

Module DashboardWitness.

#[export] Existing Instance RefSort.lib.
#[export] Existing Instance RefSort.laws.
#[export] Existing Instance RefOrder.lib.
#[export] Existing Instance RefOrder.laws.

Definition growth : gmap string f64 :=
  <["NOERROR" := f64_of_Z 90]> (<["SERVFAIL" := f64_of_Z 30]> (<["REFUSED" := f64_of_Z 30]>
  (<["FORMERR" := f64_zero]> ∅))).

Lemma growth_numbers k v : growth !! k = Some v → is_nan v = false.
Proof. unfold growth. rewrite !lookup_insert_Some, lookup_empty. intros H. by intuition (subst; auto). Qed.

Lemma buildBreakdown_spec_witness :
  (bi_Label <$> buildBreakdown growth (f64_of_Z 10) 2 = ["NOERROR"; "REFUSED"]) ∧
  NoDup (bi_Label <$> buildBreakdown growth (f64_of_Z 10) 2).
Proof.
  split; [by vm_compute|].
  destruct (buildBreakdown_spec growth (f64_of_Z 10) 2 growth_numbers eq_refl eq_refl) as (_ & Hn & _). exact Hn.
Defined.

Definition edges : gmap transitionKey f64 :=
  <[mkTransition "state_init" "hosts_lookup" := f64_of_Z 100]>
  (<[mkTransition "hosts_lookup" "forward_lookup" := f64_of_Z 90]>
  (<[mkTransition "hosts_lookup" "return_resp" := f64_of_Z 5]>
  (<[mkTransition "forward_lookup" "cache_lookup" := f64_of_Z 90]>
  (<[mkTransition "cache_lookup" "classify_resp" := f64_of_Z 46]>
  (<[mkTransition "cache_lookup" "extract_glue" := f64_of_Z 44]> ∅))))).

Lemma edges_numbers k v : edges !! k = Some v → is_nan v = false.
Proof. unfold edges. rewrite !lookup_insert_Some, lookup_empty. intros H. by intuition (subst; auto). Qed.

(** Where the last step is: no other transition out of [forward_lookup] was seen,
    and the two out of [cache_lookup] are too close. *)
Lemma buildStateMachinePath_spec_witness :
  let p := buildStateMachinePath edges (f64_of_Z 10) in
  Summary p = "state_init -> hosts_lookup -> forward_lookup -> cache_lookup (branching at cache_lookup)" ∧
  NoDup (te_From <$> MainEdges p) ∧
  ∃ best second, te_To <$> BranchOptions p = [te_To best; te_To second] ∧ te_From best = BranchPoint p ∧
    ¬ clearly_ahead (te_Rate best) (te_Rate second).
Proof.
  split; [by vm_compute|].
  destruct (buildStateMachinePath_spec edges (f64_of_Z 10) edges_numbers) as (e & _ & Hn & _ & _ & Hb).
  split; [exact Hn|].
  assert (Ambiguous (buildStateMachinePath edges (f64_of_Z 10)) = true) as Ha by (vm_compute; reflexivity).
  rewrite Ha in Hb. destruct Hb as (Hp & _ & best & second & rest & Ho & Hf & _ & _ & Hno).
  assert (length (BranchOptions (buildStateMachinePath edges (f64_of_Z 10))) = 2%nat) as Hl by (vm_compute; reflexivity).
  exists best, second. split; [|split; [congruence|exact Hno]]. rewrite Ho in Hl |- *. by destruct rest.
Defined.

Lemma viewer_modes_witness :
  d_Mode (v_latest (viewer_run 1 "t" [(2, ScrapeErr "refused")])) = statusStale.
Proof. apply (viewer_modes 1 "t" [] 2 (ScrapeErr "refused")); [done|apply Forall_nil; exact I]. Defined.

End DashboardWitness.
