(* ===== verification/Details.v ===== *)
(** * The detail pages (tui/dashboard.go)

    What [rec53top] says about one panel: a verdict, the numbers of the current
    window, the totals since the server started, and what to check next.  A panel
    whose status is not OK or DEGRADED gets an explanation of that status in place
    of a reading of the numbers ([detailStateOverride]). *)

From S2P Require Import Prelude GoLib GoText Float64 TuiMetrics GoFormat Dashboard.

Record detailSection := mkSection {
  sec_Title : string;
  sec_Lines : list string;
}.

Record detailModel := mkModel {
  dm_Status : panelStatus;
  dm_Standout : string;
  dm_CurrentWindowMetrics : list string;
  dm_CurrentSections : list detailSection;
  dm_SinceStartMetrics : list string;
  dm_SinceStartSections : list detailSection;
  dm_NextChecks : list string;
}.

(** ** Lines and sections *)

Definition detailMetricLine (label value : string) : string := "  " +:+ pad_right 16 label +:+ " " +:+ value.

Definition detailTextSection (title : string) (lines : list string) : detailSection :=
  mkSection title (match lines with [] => ["  no recent samples"] | _ => lines end).

(** [fmt.Sprintf("  %-<w>s %8s  %6s", label, value, share)] *)
Definition table_line (w : nat) (label value share : string) : string :=
  "  " +:+ pad_right w label +:+ " " +:+ pad_left 8 value +:+ "  " +:+ pad_left 6 share.

Definition detailRateBreakdownSection (title : string) (items : list BreakdownItem) : detailSection :=
  mkSection title
    (match items with
     | [] => ["  no recent samples"]
     | _ => (λ i, table_line 16 (bi_Label i) (rate (bi_Rate i)) (percent (bi_Ratio i))) <$> items
     end).

Definition detailTransitionRateSection (title : string) (items : list TransitionBreakdownItem) : detailSection :=
  mkSection title
    (match items with
     | [] => ["  no recent transition samples"]
     | _ => (λ i, table_line 30 (transitionEdgeLabel (te_From i) (te_To i)) (rate (te_Rate i)) (percent (te_Ratio i)))
              <$> items
     end).

Definition detailTransitionTotalSection (title : string) (items : list TransitionBreakdownItem) : detailSection :=
  mkSection title
    (match items with
     | [] => ["  no cumulative transition samples"]
     | _ => (λ i, table_line 30 (transitionEdgeLabel (te_From i) (te_To i)) (count (te_Total i)) (percent (te_Ratio i)))
              <$> items
     end).

Definition detailTotalBreakdownSection (title : string) (items : list BreakdownItem) : detailSection :=
  mkSection title
    (match items with
     | [] => ["  no cumulative samples"]
     | _ => (λ i, table_line 16 (bi_Label i) (count (bi_Total i)) (percent (bi_Ratio i))) <$> items
     end).

Definition topBreakdownLabel (items : list BreakdownItem) : string :=
  match items with [] => "" | i :: _ => bi_Label i end.

(** [fmt.Sprintf("%s %s", fallbackText(label), rate(r))] *)
Definition labelled_rate (label : string) (r : f64) : string := fallbackText label +:+ " " +:+ rate r.

(** ** Statuses that replace the reading *)

Definition detailStateOverride (status : panelStatus) (lastError disabledMsg unavailableMsg : string)
    : option (string * list string) :=
  match status with
  | statusWarming =>
      Some ("Only one successful scrape is available, so short-window rates and ratios are not stable yet.",
        ["Wait one more refresh or press r."; "Header time: confirm the live window."])
  | statusUnavailable =>
      Some (if String.eqb unavailableMsg "" then
              "Required metric families for this panel are missing from the current scrape."
            else unavailableMsg,
        ["Verify this target exposes the metric family."; "Check raw /metric or -plain output."])
  | statusDisabled =>
      Some (if String.eqb disabledMsg "" then
              "This panel is intentionally disabled for the current deployment, so there is no live signal to interpret here."
            else disabledMsg,
        ["No action unless this feature should be on."; "Check config before treating it as a fault."])
  | statusDisconnected =>
      Some (if String.eqb lastError "" then
              "The target has not produced a successful scrape yet, so this panel is not showing live rec53 behavior."
            else
              "The target is disconnected from rec53top, so there is no fresh live-state interpretation. Last error: "
                +:+ lastError,
        ["Verify target address and metrics reachability."; "Press r or use -plain/curl after recovery."])
  | statusStale =>
      Some ("This panel is showing stale data because the latest scrape failed, so live interpretation is temporarily frozen."
              +:+ (if String.eqb lastError "" then "" else " Last error: " +:+ lastError),
        ["Treat numbers as old until next scrape."; "Check scrape connectivity first."])
  | _ => None
  end.

(** [model.Standout = standout; model.NextChecks = nextChecks] *)
Definition set_verdict (m : detailModel) (standout : string) (nextChecks : list string) : detailModel :=
  mkModel (dm_Status m) standout (dm_CurrentWindowMetrics m) (dm_CurrentSections m) (dm_SinceStartMetrics m)
    (dm_SinceStartSections m) nextChecks.

(** [if standout, nextChecks, handled := detailStateOverride(...); handled { ...; return model }] *)
Definition unless_override (m : detailModel) (o : option (string * list string)) (rest : detailModel) : detailModel :=
  match o with Some (standout, checks) => set_verdict m standout checks | None => rest end.

Definition stateMachineNextChecks (topStage topTerminal topFailure : string) : list string :=
  let checks := ["Trace: `rec53 --config ./config.yaml --trace-domain example.com --trace-type A`."] in
  if Contains topFailure "upstream" || String.eqb topStage "query_upstream" || String.eqb topTerminal "servfail_exit"
  then "4 Upstream: dominant failure is upstream." :: checks
  else if Contains topFailure "cache" || Contains topFailure "glue" || Contains topStage "cache" ||
          Contains topStage "glue"
  then "2 Cache: dominant failure is cache/referral." :: checks
  else "1 Traffic + 4 Upstream: correlate first." :: checks.

(** ** The path of the state machine as text *)

Definition stateMachinePathSummaryLines (path : StateMachinePath) : list string :=
  if String.eqb (Summary path) "" then ["  no dominant live path yet"]
  else ("  " +:+ Summary path) ::
       (if Ambiguous path && (0 <? length (BranchOptions path))%nat
        then ["  branch point: " +:+ BranchPoint path] else []).

(** The two lines of the edge at position [i]. *)
Definition edge_lines (i : nat) (e : TransitionBreakdownItem) : list string :=
  let prefix := if (0 <? i)%nat then "    " else "  " in
  [prefix +:+ te_From e; prefix +:+ "  -> " +:+ te_To e +:+ "  (" +:+ rate (te_Rate e) +:+ ")"].

Definition stateMachinePathGraphLines (path : StateMachinePath) : list string :=
  if (length (MainEdges path) =? 0)%nat && String.eqb (BranchPoint path) "" then
    ["  no recent live transition samples"]
  else
    concat (imap edge_lines (MainEdges path)) ++
    (if (length (MainEdges path) =? 0)%nat && negb (String.eqb (BranchPoint path) "")
     then ["  " +:+ BranchPoint path] else []) ++
    (if Ambiguous path then ["  branch at " +:+ BranchPoint path] else []).

Definition buildStateMachineFailureContextLines (contexts : list StateMachineFailureContext)
    (path : StateMachinePath) : list string :=
  match contexts with
  | [] => ["  no current failure reason is standing out"]
  | _ =>
      let pathText := fallbackText (Summary path) in
      concat ((λ c,
        ("  " +:+ pad_right 18 (fc_Reason c) +:+ " -> " +:+ pad_right 20 (fc_Exit c) +:+ " " +:+ rate (fc_Rate c)) ::
        (if negb (String.eqb pathText "--") && Contains pathText (fc_Exit c)
         then ["  path context: " +:+ pathText] else [])) <$> contexts)
  end.

Section details.
Context `{GS : GoSort} `{GO : GoMapOrder}.

(** ** Totals since the start *)

(** [if total, ok := snapshot.sum(name); ok { lines = append(lines, ...) }] *)
Definition total_line (snapshot : MetricsSnapshot) (name label : string) : list string :=
  match sum snapshot name with
  | Some total => [detailMetricLine label (count total)]
  | None => []
  end.

(** [if values, ok := snapshot.sumByLabel(name, label); ok { sections = append(sections, ...) }] *)
Definition total_section (snapshot : MetricsSnapshot) (name label title : string) (limit : Z) : list detailSection :=
  match sumByLabel snapshot name label with
  | Some values => [detailTotalBreakdownSection title (buildTotalBreakdown values limit)]
  | None => []
  end.

(** [if snapshot == nil { return nil }] *)
Definition of_snapshot {A} (snapshot : option MetricsSnapshot) (f : MetricsSnapshot → list A) : list A :=
  match snapshot with Some s => f s | None => [] end.

Definition buildTrafficSinceStartMetrics (snapshot : option MetricsSnapshot) : list string :=
  of_snapshot snapshot (λ s,
    total_line s "rec53_query_counter" "queries total" ++
    total_line s "rec53_response_counter" "responses total").

Definition buildTrafficSinceStartSections (snapshot : option MetricsSnapshot) : list detailSection :=
  of_snapshot snapshot (λ s, total_section s "rec53_response_counter" "code" "Response codes:" 4).

Definition buildCacheSinceStartMetrics (snapshot : option MetricsSnapshot) : list string :=
  of_snapshot snapshot (λ s, total_line s "rec53_cache_lookup_total" "lookups total").

Definition buildCacheSinceStartSections (snapshot : option MetricsSnapshot) : list detailSection :=
  of_snapshot snapshot (λ s,
    total_section s "rec53_cache_lookup_total" "result" "Lookup results:" 4 ++
    total_section s "rec53_cache_lifecycle_total" "event" "Lifecycle events:" 4).

Definition buildUpstreamSinceStartMetrics (snapshot : option MetricsSnapshot) : list string :=
  of_snapshot snapshot (λ s,
    total_line s "rec53_upstream_failures_total" "failures total" ++
    total_line s "rec53_upstream_fallback_total" "fallback total" ++
    total_line s "rec53_upstream_winner_total" "winner total").

Definition buildUpstreamSinceStartSections (snapshot : option MetricsSnapshot) : list detailSection :=
  of_snapshot snapshot (λ s,
    total_section s "rec53_upstream_failures_total" "reason" "Failure reasons:" 4 ++
    total_section s "rec53_upstream_winner_total" "path" "Winner paths:" 3).

Definition buildXDPSinceStartMetrics (snapshot : option MetricsSnapshot) : list string :=
  of_snapshot snapshot (λ s,
    total_line s "rec53_xdp_cache_hits_total" "hits total" ++
    total_line s "rec53_xdp_cache_misses_total" "misses total" ++
    total_line s "rec53_xdp_pass_total" "pass total" ++
    total_line s "rec53_xdp_errors_total" "error total" ++
    total_line s "rec53_xdp_cache_sync_errors_total" "sync error total" ++
    total_line s "rec53_xdp_cleanup_deleted_total" "cleanup total").

Definition buildStateMachineSinceStartMetrics (snapshot : option MetricsSnapshot) : list string :=
  of_snapshot snapshot (λ s,
    total_line s "rec53_state_machine_stage_total" "stages total" ++
    match transitions s with
    | Some values =>
        let total := foldl (λ t i, f64_add t (bi_Total i)) f64_zero (buildTerminalTotalBreakdown values 4) in
        if f64_ltb f64_zero total then [detailMetricLine "terminal total" (count total)] else []
    | None => []
    end ++
    total_line s "rec53_state_machine_failures_total" "failures total").

Definition buildStateMachineSinceStartSections (snapshot : option MetricsSnapshot) : list detailSection :=
  of_snapshot snapshot (λ s,
    total_section s "rec53_state_machine_stage_total" "stage" "Stage totals:" 5 ++
    match transitions s with
    | Some values => [detailTotalBreakdownSection "Terminal totals:" (buildTerminalTotalBreakdown values 4)]
    | None => []
    end ++
    total_section s "rec53_state_machine_failures_total" "reason" "Failure totals:" 5).

Definition buildStateMachineFailureTotals (snapshot : option MetricsSnapshot) : list BreakdownItem :=
  of_snapshot snapshot (λ s,
    match sumByLabel s "rec53_state_machine_failures_total" "reason" with
    | Some values => buildTotalBreakdown values 5
    | None => []
    end).

(** ** The pages *)

Definition buildTrafficDetailModel (d : Dashboard) : detailModel :=
  let panel := d_Traffic d in
  let model := mkModel (tp_Status panel) ""
    [detailMetricLine "qps" (number (tp_QPS panel));
     detailMetricLine "p99 latency" (latency (tp_P99MS panel));
     detailMetricLine "servfail ratio" (percent (tp_ServfailRatio panel));
     detailMetricLine "nxdomain ratio" (percent (tp_NXDomainRatio panel));
     detailMetricLine "noerror ratio" (percent (tp_NoErrorRatio panel))]
    [detailRateBreakdownSection "Response mix:" (tp_ResponseCodes panel)]
    (buildTrafficSinceStartMetrics (d_CurrentSnapshot d))
    (buildTrafficSinceStartSections (d_CurrentSnapshot d)) [] in
  unless_override model
    (detailStateOverride (tp_Status panel) (d_LastError d) ""
       "Required traffic metric families are missing from the target scrape.")
    (let topLabel := topBreakdownLabel (tp_ResponseCodes panel) in
     match tp_Status panel with
     | statusDegraded =>
         set_verdict model
           (if f64_leb (f64_const 5 100) (tp_ServfailRatio panel) then
              "SERVFAIL " +:+ percent (tp_ServfailRatio panel) +:+ "; answer quality is degraded."
            else if f64_leb (f64_of_Z 1000) (tp_P99MS panel) then
              "p99 " +:+ latency (tp_P99MS panel) +:+ "; tail latency is elevated."
            else if negb (String.eqb topLabel "") then
              topLabel +:+ " leads the response mix; traffic needs a quality check."
            else "Traffic is degraded, but the bucket mix is still split.")
           ["4 Upstream: check timeout/bad-rcode.";
            "6 State: check failure clustering.";
            "Logs: inspect SERVFAIL if mix stays split."]
     | _ =>
         set_verdict model
           (if negb (String.eqb topLabel "") then topLabel +:+ " leads the response mix."
            else "Traffic looks healthy, but the window is quiet.")
           ["Watch SERVFAIL/p99 before flagging traffic.";
            "2 Cache: compare if latency rises."]
     end).

Definition buildCacheDetailModel (d : Dashboard) : detailModel :=
  let panel := d_Cache d in
  let model := mkModel (cp_Status panel) ""
    [detailMetricLine "hit ratio" (percent (cp_HitRatio panel));
     detailMetricLine "positive hit" (rate (cp_PositiveHitRate panel));
     detailMetricLine "negative hit" (rate (cp_NegativeHitRate panel));
     detailMetricLine "delegation hit" (rate (cp_DelegationRate panel));
     detailMetricLine "miss" (rate (cp_MissRate panel));
     detailMetricLine "entries" (number (cp_Entries panel));
     detailMetricLine "lifecycle" (cp_Lifecycle panel)]
    [] (buildCacheSinceStartMetrics (d_CurrentSnapshot d)) [] [] in
  unless_override model
    (detailStateOverride (cp_Status panel) (d_LastError d) ""
       "Required cache metric families are missing from the target scrape.")
    (let totalHitRate := f64_add (f64_add (cp_PositiveHitRate panel) (cp_NegativeHitRate panel)) (cp_DelegationRate panel) in
     let topLabel := topBreakdownLabel (cp_Results panel) in
     match cp_Status panel with
     | statusDegraded =>
         set_verdict model
           (if f64_ltb totalHitRate (cp_MissRate panel) then
              "Miss " +:+ rate (cp_MissRate panel) +:+ " is ahead of cache-served traffic; hit ratio " +:+
                percent (cp_HitRatio panel) +:+ "."
            else "Hit ratio " +:+ percent (cp_HitRatio panel) +:+ "; miss pressure is visible.")
           ["1 Traffic: compare latency/quality.";
            "4 Upstream: misses may force iter.";
            "6 State: check miss-linked failures."]
     | _ =>
         set_verdict model
           (if negb (String.eqb topLabel "") then
              topLabel +:+ " leads the cache mix; lifecycle " +:+ cp_Lifecycle panel +:+ "."
            else "Cache looks healthy, but the window is quiet.")
           ["Watch miss bursts during traffic shifts.";
            "1 Traffic: compare if latency rises."]
     end).

Definition buildCacheLookupSubviewModel (d : Dashboard) : detailModel :=
  let panel := d_Cache d in
  mkModel (cp_Status panel)
    "Cache lookup mix isolates which result classes are currently dominating and how that compares with cumulative lookup totals."
    [detailMetricLine "hit ratio" (percent (cp_HitRatio panel));
     detailMetricLine "positive hit" (rate (cp_PositiveHitRate panel));
     detailMetricLine "negative hit" (rate (cp_NegativeHitRate panel));
     detailMetricLine "delegation hit" (rate (cp_DelegationRate panel));
     detailMetricLine "miss" (rate (cp_MissRate panel))]
    [detailRateBreakdownSection "Lookup mix:" (cp_Results panel)]
    (of_snapshot (d_CurrentSnapshot d) (λ s, total_line s "rec53_cache_lookup_total" "lookups total"))
    (of_snapshot (d_CurrentSnapshot d) (λ s, total_section s "rec53_cache_lookup_total" "result" "Lookup results:" 4))
    ["Summary: return to cache verdict."; "Lifecycle: open if churn stays high."].

Definition buildCacheLifecycleSubviewModel (d : Dashboard) : detailModel :=
  let panel := d_Cache d in
  mkModel (cp_Status panel)
    "Cache lifecycle activity shows whether writes, refreshes, or evictions are driving churn behind the summary hit ratio."
    [detailMetricLine "entries" (number (cp_Entries panel));
     detailMetricLine "lifecycle" (cp_Lifecycle panel)]
    [] []
    (of_snapshot (d_CurrentSnapshot d) (λ s, total_section s "rec53_cache_lifecycle_total" "event" "Lifecycle events:" 4))
    ["Lookup Mix: compare if misses rise without writes."; "Summary: return to cache verdict."].

Definition buildSnapshotDetailModel (d : Dashboard) : detailModel :=
  let panel := d_Snapshot d in
  let model := mkModel (sp_Status panel) "" [] []
    [detailMetricLine "load success" (number (sp_LoadSuccess panel));
     detailMetricLine "load failure" (number (sp_LoadFailure panel));
     detailMetricLine "imported" (number (sp_Imported panel));
     detailMetricLine "skipped expired" (number (sp_SkippedExpired panel));
     detailMetricLine "skipped corrupt" (number (sp_SkippedCorrupt panel));
     detailMetricLine "saved" (number (sp_SaveSuccess panel));
     detailMetricLine "duration p99" (latency (sp_DurationP99MS panel))] [] [] in
  unless_override model
    (detailStateOverride (sp_Status panel) (d_LastError d) ""
       "Required snapshot metric families are missing from the target scrape.")
    (if bool_decide (sp_Status panel = statusDegraded) || f64_ltb f64_zero (sp_LoadFailure panel) then
       set_verdict model "Snapshot failures seen; do not trust restore yet."
         ["Logs: check load/save failures."; "Compare imported vs skipped counts."]
     else
       set_verdict model
         (if f64_ltb f64_zero (sp_Imported panel) then
            "Snapshot calm; p99 " +:+ latency (sp_DurationP99MS panel) +:+ "."
          else "Snapshot metrics are available, but recent activity is light.")
         ["Check around restart/shutdown events."; "Logs: inspect small import counts."]).

Definition buildUpstreamDetailModel (d : Dashboard) : detailModel :=
  let panel := d_Upstream d in
  let model := mkModel (up_Status panel) ""
    [detailMetricLine "timeout" (rate (up_TimeoutRate panel));
     detailMetricLine "bad rcode" (rate (up_BadRcodeRate panel));
     detailMetricLine "fallback" (rate (up_FallbackRate panel));
     detailMetricLine "winner" (labelled_rate (up_Winner panel) (up_WinnerRate panel));
     detailMetricLine "dominant reason" (fallbackText (up_DominantReason panel))]
    [] (buildUpstreamSinceStartMetrics (d_CurrentSnapshot d)) [] [] in
  unless_override model
    (detailStateOverride (up_Status panel) (d_LastError d) ""
       "Required upstream metric families are missing from the target scrape.")
    (match up_Status panel with
     | statusDegraded =>
         set_verdict model
           (if negb (String.eqb (up_DominantReason panel) "") then
              up_DominantReason panel +:+ " leads recent upstream failures."
            else if f64_ltb f64_zero (up_FallbackRate panel) then
              "Fallback " +:+ rate (up_FallbackRate panel) +:+ "; the first upstream path is not stable."
            else "Upstream is degraded, but no single failure dominates yet.")
           ["Network: check reachability and RTT.";
            "1 Traffic: compare SERVFAIL/p99.";
            "6 State: check query_upstream failures."]
     | _ =>
         set_verdict model
           (if negb (String.eqb (up_Winner panel) "") then
              up_Winner panel +:+ " wins the upstream race most often."
            else "Upstream looks healthy, but the window is quiet.")
           ["Watch timeout/fallback growth."; "Winner mix: track path shifts."]
     end).

Definition buildUpstreamFailuresSubviewModel (d : Dashboard) : detailModel :=
  let panel := d_Upstream d in
  mkModel (up_Status panel)
    "Upstream failures isolates the recent error mix so timeout, bad-rcode, and fallback pressure are not hidden behind the overall summary."
    [detailMetricLine "timeout" (rate (up_TimeoutRate panel));
     detailMetricLine "bad rcode" (rate (up_BadRcodeRate panel));
     detailMetricLine "fallback" (rate (up_FallbackRate panel));
     detailMetricLine "dominant reason" (fallbackText (up_DominantReason panel))]
    [detailRateBreakdownSection "Failure reasons:" (up_FailureReasons panel)]
    (of_snapshot (d_CurrentSnapshot d) (λ s,
       total_line s "rec53_upstream_failures_total" "failures total" ++
       total_line s "rec53_upstream_fallback_total" "fallback total"))
    (of_snapshot (d_CurrentSnapshot d) (λ s, total_section s "rec53_upstream_failures_total" "reason" "Failure reasons:" 4))
    ["Winners: open if no failure dominates."; "Summary: confirm upstream is root cause."].

Definition buildUpstreamWinnersSubviewModel (d : Dashboard) : detailModel :=
  let panel := d_Upstream d in
  mkModel (up_Status panel)
    "Winner paths isolates which upstream path is actually winning, which is useful when failures exist but one route still dominates overall behavior."
    [detailMetricLine "winner" (labelled_rate (up_Winner panel) (up_WinnerRate panel))]
    [detailRateBreakdownSection "Winner mix:" (up_Winners panel)]
    (of_snapshot (d_CurrentSnapshot d) (λ s, total_line s "rec53_upstream_winner_total" "winner total"))
    (of_snapshot (d_CurrentSnapshot d) (λ s, total_section s "rec53_upstream_winner_total" "path" "Winner paths:" 3))
    ["Failures: open if churn follows errors."; "Summary: compare winner mix with verdict."].

Definition buildXDPDetailModel (d : Dashboard) : detailModel :=
  let panel := d_XDP d in
  let model := mkModel (xp_Status panel) ""
    [detailMetricLine "mode" (xp_Mode panel);
     detailMetricLine "hit ratio" (percent (xp_HitRatio panel));
     detailMetricLine "sync errors" (rate (xp_SyncErrorRate panel));
     detailMetricLine "cleanup" (rate (xp_CleanupRate panel));
     detailMetricLine "entries" (number (xp_Entries panel));
     detailMetricLine "pass" (rate (xp_PassRate panel));
     detailMetricLine "errors" (rate (xp_ErrorRate panel))]
    [] (buildXDPSinceStartMetrics (d_CurrentSnapshot d)) [] [] in
  unless_override model
    (detailStateOverride (xp_Status panel) (d_LastError d)
       "XDP is intentionally disabled or unsupported for this deployment, so there is no fast-path activity to diagnose here."
       "Required XDP metrics are missing from the target scrape.")
    (if bool_decide (xp_Status panel = statusDegraded) then
       set_verdict model "XDP is active, but sync or packet-path errors are non-zero."
         ["2 Cache: compare fast-path hit ratio."; "Check sync-error/error counters."]
     else
       set_verdict model
         ("XDP stable; hit " +:+ percent (xp_HitRatio panel) +:+ ", pass " +:+ rate (xp_PassRate panel) +:+ ".")
         ["Watch sync-error growth."; "2 Cache: compare if hit ratio looks low."]).

Definition buildXDPPacketPathsSubviewModel (d : Dashboard) : detailModel :=
  let panel := d_XDP d in
  mkModel (xp_Status panel)
    "Packet paths isolates fast-path wins versus pass-through and error pressure, which helps judge whether XDP is paying for itself right now."
    [detailMetricLine "hit ratio" (percent (xp_HitRatio panel));
     detailMetricLine "pass" (rate (xp_PassRate panel));
     detailMetricLine "errors" (rate (xp_ErrorRate panel))]
    []
    (of_snapshot (d_CurrentSnapshot d) (λ s,
       total_line s "rec53_xdp_cache_hits_total" "hits total" ++
       total_line s "rec53_xdp_cache_misses_total" "misses total" ++
       total_line s "rec53_xdp_pass_total" "pass total" ++
       total_line s "rec53_xdp_errors_total" "error total"))
    [] ["Sync/Cleanup: open if correctness drifts."; "Summary: compare with cache verdict."].

Definition buildXDPSyncCleanupSubviewModel (d : Dashboard) : detailModel :=
  let panel := d_XDP d in
  mkModel (xp_Status panel)
    "Sync and cleanup isolates whether XDP maintenance overhead is staying quiet or quietly eroding fast-path confidence."
    [detailMetricLine "mode" (xp_Mode panel);
     detailMetricLine "sync errors" (rate (xp_SyncErrorRate panel));
     detailMetricLine "cleanup" (rate (xp_CleanupRate panel));
     detailMetricLine "entries" (number (xp_Entries panel))]
    []
    (of_snapshot (d_CurrentSnapshot d) (λ s,
       total_line s "rec53_xdp_cache_sync_errors_total" "sync error total" ++
       total_line s "rec53_xdp_cleanup_deleted_total" "cleanup total"))
    [] ["Packet Paths: open if hit ratio stays low."; "Summary: return to XDP verdict."].

Definition buildStateMachineDetailModel (d : Dashboard) : detailModel :=
  let panel := d_StateMachine d in
  let model := mkModel (st_Status panel) ""
    [detailMetricLine "top stage" (labelled_rate (st_TopStage panel) (st_TopStageRate panel));
     detailMetricLine "top terminal" (labelled_rate (st_TopTerminal panel) (st_TopTerminalRate panel));
     detailMetricLine "top failure" (labelled_rate (st_TopFailure panel) (st_TopFailureRate panel))]
    [detailRateBreakdownSection "Stage mix:" (st_Stages panel);
     detailRateBreakdownSection "Terminal exits:" (st_Terminals panel);
     detailRateBreakdownSection "Failure reasons:" (st_Failures panel)]
    (buildStateMachineSinceStartMetrics (d_CurrentSnapshot d))
    (buildStateMachineSinceStartSections (d_CurrentSnapshot d)) [] in
  unless_override model
    (detailStateOverride (st_Status panel) (d_LastError d) ""
       "Required state-machine metric families are missing from the target scrape.")
    (let hasFailure := negb (String.eqb (st_TopFailure panel) "") in
     let hasTerminal := negb (String.eqb (st_TopTerminal panel) "") in
     match st_Status panel with
     | statusDegraded =>
         set_verdict model
           (if hasFailure && hasTerminal then
              st_TopFailure panel +:+ " is the top recent failure reason and " +:+ st_TopTerminal panel +:+
                " is the exit currently accumulating fastest."
            else if hasFailure then
              st_TopFailure panel +:+ " is the top recent state-machine failure while " +:+
                fallbackText (st_TopStage panel) +:+ " remains the busiest stage."
            else if hasTerminal then
              st_TopTerminal panel +:+
                " is the terminal exit currently growing fastest, so the resolver is ending too many flows there."
            else
              fallbackText (st_TopStage panel) +:+
                " is the busiest stage right now, but the failure mix still needs more samples before one reason clearly dominates.")
           (stateMachineNextChecks (st_TopStage panel) (st_TopTerminal panel) (st_TopFailure panel))
     | _ =>
         set_verdict model
           (if String.eqb (st_TopTerminal panel) "success_exit" then
              st_TopTerminal panel +:+ " is the leading terminal exit and " +:+ fallbackText (st_TopStage panel) +:+
                " is the hottest recent stage, so the aggregate resolver flow still looks healthy."
            else if negb (String.eqb (st_TopStage panel) "") then
              st_TopStage panel +:+
                " is the hottest recent stage, and no failure reason is currently strong enough to define this window."
            else
              "State-machine metrics are healthy, but the current sample window is too quiet to elevate one stage or terminal exit as the standout signal.")
           ["Watch non-success exits before degrading.";
            "Trace: `rec53 --config ./config.yaml --trace-domain example.com --trace-type A`."]
     end).

Definition buildStateMachinePathGraphSubviewModel (d : Dashboard) : detailModel :=
  let panel := d_StateMachine d in
  let model := mkModel (st_Status panel)
    "Path Graph shows the real resolver edges taken in the current window, then keeps cumulative transition totals bounded for baseline comparison."
    [detailMetricLine "top stage" (labelled_rate (st_TopStage panel) (st_TopStageRate panel));
     detailMetricLine "top terminal" (labelled_rate (st_TopTerminal panel) (st_TopTerminalRate panel))]
    [detailTextSection "Live path graph:" (stateMachinePathGraphLines (st_DominantPath panel));
     detailTransitionRateSection "Branch hotspots:" (BranchOptions (st_DominantPath panel));
     detailTransitionRateSection "Terminal exits:" (st_LiveTerminals panel)]
    (of_snapshot (d_CurrentSnapshot d) (λ s, total_line s "rec53_state_machine_transition_total" "transitions total"))
    [detailTransitionTotalSection "Transition totals:" (st_SinceStartEdges panel)] [] in
  unless_override model
    (detailStateOverride (st_Status panel) (d_LastError d) ""
       "Required state-machine transition metrics are missing from the target scrape.")
    (set_verdict model (dm_Standout model)
       ["Failures: open if path ends badly."; "Summary: return to state verdict."]).

Definition buildStateMachineFailuresSubviewModel (d : Dashboard) : detailModel :=
  let panel := d_StateMachine d in
  let model := mkModel (st_Status panel)
    "Failures reconciles bounded failure reasons with terminal exits so the path view and the error view tell the same story."
    [detailMetricLine "top failure" (labelled_rate (st_TopFailure panel) (st_TopFailureRate panel));
     detailMetricLine "top terminal" (labelled_rate (st_TopTerminal panel) (st_TopTerminalRate panel));
     detailMetricLine "dominant path" (fallbackText (st_PathSummary panel))]
    [detailRateBreakdownSection "Failure reasons:" (st_Failures panel);
     detailTextSection "Failure context:"
       (buildStateMachineFailureContextLines (st_FailureContexts panel) (st_DominantPath panel))]
    (of_snapshot (d_CurrentSnapshot d) (λ s, total_line s "rec53_state_machine_failures_total" "failures total"))
    [detailTotalBreakdownSection "Failure totals:" (buildStateMachineFailureTotals (d_CurrentSnapshot d))] [] in
  unless_override model
    (detailStateOverride (st_Status panel) (d_LastError d) ""
       "Required state-machine failure or transition metrics are missing from the target scrape.")
    (set_verdict model (dm_Standout model)
       ["Summary: compare failures with top-line exits."; "Logs: pivot if failures keep rising."]).

End details.

(** ** What a failed scrape does to the pages *)

Section stale.
Context `{GSL : GoSortLaws} `{GOL : GoMapOrderLaws}.

(** The statuses of the six panels. *)
Definition panel_statuses (d : Dashboard) : list panelStatus :=
  [tp_Status (d_Traffic d); cp_Status (d_Cache d); sp_Status (d_Snapshot d); up_Status (d_Upstream d);
   xp_Status (d_XDP d); st_Status (d_StateMachine d)].

(** The pages of the six panels. *)
Definition pages : list (Dashboard → detailModel) :=
  [buildTrafficDetailModel; buildCacheDetailModel; buildSnapshotDetailModel; buildUpstreamDetailModel;
   buildXDPDetailModel; buildStateMachineDetailModel].

Ltac never_stale :=
  repeat first [done | match goal with |- context [match ?x with _ => _ end] => destruct x end].

Lemma traffic_not_stale prev curr dt : tp_Status (buildTrafficPanel prev curr dt) ≠ statusStale.
Proof. unfold buildTrafficPanel. never_stale. Qed.
Lemma cache_not_stale prev curr dt : cp_Status (buildCachePanel prev curr dt) ≠ statusStale.
Proof. unfold buildCachePanel. never_stale. Qed.
Lemma snapshot_not_stale prev curr dt : sp_Status (buildSnapshotPanel prev curr dt) ≠ statusStale.
Proof. unfold buildSnapshotPanel. never_stale. Qed.
Lemma upstream_not_stale prev curr dt : up_Status (buildUpstreamPanel prev curr dt) ≠ statusStale.
Proof. unfold buildUpstreamPanel. never_stale. Qed.
Lemma xdp_not_stale prev curr dt : xp_Status (buildXDPPanel prev curr dt) ≠ statusStale.
Proof. unfold buildXDPPanel. never_stale. Qed.
Lemma state_not_stale prev curr dt : st_Status (buildStateMachinePanel prev curr dt) ≠ statusStale.
Proof. unfold buildStateMachinePanel. never_stale. Qed.

Lemma derived_not_stale now now' target prev curr dur :
  statusStale ∉ panel_statuses (deriveDashboard now now' target prev curr dur).
Proof.
  unfold panel_statuses, deriveDashboard. destruct curr as [curr|]; simpl; rewrite !not_elem_of_cons.
  - split_and!; try apply not_elem_of_nil; apply not_eq_sym; auto using traffic_not_stale, cache_not_stale,
      snapshot_not_stale, upstream_not_stale, xdp_not_stale, state_not_stale.
  - by split_and!; try apply not_elem_of_nil.
Qed.

Lemma run_not_stale start target scrapes :
  start ≠ time_zero → real_times scrapes →
  statusStale ∉ panel_statuses (v_latest (viewer_run start target scrapes)).
Proof.
  intros Hs. induction scrapes as [|[now r] scrapes IH] using rev_ind; intros Hr; [apply derived_not_stale|].
  apply Forall_app in Hr as [Hr _]. rewrite viewer_run_snoc. destruct r as [s dur|e]; [apply derived_not_stale|].
  destruct (viewer_invariant start target scrapes Hs Hr) as (_ & Hz & _). simpl. unfold withScrapeError.
  rewrite Hz. by apply IH.
Qed.

(** Only two statuses mention the last error. *)
Lemma override_error status e e' dis una :
  status ≠ statusDisconnected → status ≠ statusStale →
  detailStateOverride status e dis una = detailStateOverride status e' dis una.
Proof. by destruct status. Qed.

(** Two dashboards that show the same panels of the same snapshot. *)
Definition same_panels (d d' : Dashboard) : Prop :=
  d_CurrentSnapshot d' = d_CurrentSnapshot d ∧ d_Traffic d' = d_Traffic d ∧ d_Cache d' = d_Cache d ∧
  d_Snapshot d' = d_Snapshot d ∧ d_Upstream d' = d_Upstream d ∧ d_XDP d' = d_XDP d ∧
  d_StateMachine d' = d_StateMachine d.

Lemma page_status d : dm_Status <$> ((λ page, page d) <$> pages) = panel_statuses d.
Proof.
  unfold pages, panel_statuses. simpl. unfold buildTrafficDetailModel, buildCacheDetailModel,
    buildSnapshotDetailModel, buildUpstreamDetailModel, buildXDPDetailModel, buildStateMachineDetailModel.
  repeat f_equal; destruct (detailStateOverride _ _ _ _) as [[? ?]|]; simpl; try done;
    repeat case_match; done.
Qed.

Lemma page_same d d' page : page ∈ pages → same_panels d d' →
  dm_Status (page d) ≠ statusDisconnected → dm_Status (page d) ≠ statusStale → page d' = page d.
Proof.
  intros Hp (E0 & E1 & E2 & E3 & E4 & E5 & E6).
  assert (∀ i, dm_Status <$> ((λ page, page d) <$> pages !! i) = panel_statuses d !! i) as Hst.
  { intros i. rewrite <-page_status. by rewrite !list_lookup_fmap. }
  apply list_elem_of_lookup in Hp as [i Hi]. pose proof (Hst i) as Hsi. rewrite Hi in Hsi. simpl in Hsi.
  intros H1 H2. symmetry in Hsi. unfold pages in Hi.
  do 6 (destruct i as [|i]; [injection Hi as <-; injection Hsi as Hsi; rewrite <-Hsi in H1, H2;
    unfold buildTrafficDetailModel, buildCacheDetailModel, buildSnapshotDetailModel, buildUpstreamDetailModel,
      buildXDPDetailModel, buildStateMachineDetailModel; rewrite ?E0, ?E1, ?E2, ?E3, ?E4, ?E5, ?E6;
    by rewrite (override_error _ (d_LastError d') (d_LastError d))|]).
  done.
Qed.

(** A failed scrape leaves every detail page as it was.  However long the viewer
    has run, after a scrape that failed the mode is STALE but no panel has that
    status, and the page of each panel that was not DISCONNECTED is word for word
    the page before the failure: the explanation and the checks written for stale
    panels are never shown. *)
Theorem stale_pages_read_as_live start target scrapes now e :
  start ≠ time_zero → real_times scrapes →
  let shown := v_latest (viewer_run start target scrapes) in
  let next := v_latest (viewer_run start target (scrapes ++ [(now, ScrapeErr e)])) in
  d_Mode next = statusStale ∧ (statusStale ∉ panel_statuses next) ∧
  ∀ page, page ∈ pages → dm_Status (page shown) ≠ statusDisconnected → page next = page shown.
Proof.
  intros Hs Hr shown next. destruct (viewer_invariant start target scrapes Hs Hr) as (_ & Hz & _).
  fold shown in Hz. pose proof (run_not_stale start target scrapes Hs Hr) as Hst. fold shown in Hst.
  assert (next = withScrapeError now shown e) as -> by (unfold next; by rewrite viewer_run_snoc).
  unfold withScrapeError. rewrite Hz. split_and!; [done|exact Hst|]. intros page Hp Hd.
  apply page_same; [done|by split_and!|done|]. intros E. apply Hst. rewrite <-page_status.
  apply list_elem_of_fmap. exists (page shown). split; [done|]. by apply (list_elem_of_fmap_2 (λ page, page shown)).
Qed.

End stale.

Module DetailsWitness.
Import DashboardWitness.

Definition snap (t : Z) : MetricsSnapshot := parseMetrics t ∅.

Lemma stale_pages_read_as_live_witness :
  let shown := v_latest (viewer_run 1 "t" [(2, ScrapeOk (snap 2) 5)]) in
  let next := v_latest (viewer_run 1 "t" [(2, ScrapeOk (snap 2) 5); (3, ScrapeErr "refused")]) in
  d_Mode next = statusStale ∧ buildTrafficDetailModel next = buildTrafficDetailModel shown.
Proof.
  destruct (stale_pages_read_as_live 1 "t" [(2, ScrapeOk (snap 2) 5)] 3 "refused") as (Hm & _ & Hp).
  { done. } { by repeat constructor. }
  split; [exact Hm|]. apply (Hp buildTrafficDetailModel); [left|by vm_compute].
Defined.

End DetailsWitness.
