(* ===== verification/Ui.v ===== *)
(** * The viewer's screens and keys (tui/app.go, tui/plain.go)

    [rec53top]'s full-screen mode as a state machine over key events: which panel
    has the focus, which detail page and subview is open, the recent history, and
    the text every view shows; and the text of the plain mode.  A Go run-time panic
    (an index out of range, a write to a nil map) is [None]. *)

From Stdlib Require Import Ascii SpecFloat.
From S2P Require Import Prelude GoLib GoText Float64 TuiMetrics GoFormat Dashboard Details.

Inductive detailPanel :=
| detailNone
| detailTraffic
| detailCache
| detailSnapshot
| detailUpstream
| detailXDP
| detailState.

Inductive detailSubview :=
| subviewSummary
| subviewCacheLookup
| subviewCacheLifecycle
| subviewUpstreamFailures
| subviewUpstreamWinners
| subviewXDPPacketPaths
| subviewXDPSyncCleanup
| subviewStatePathGraph
| subviewStateFailures.

#[export] Instance detailPanel_eq_dec : EqDecision detailPanel.
Proof. solve_decision. Defined.
#[export] Instance detailSubview_eq_dec : EqDecision detailSubview.
Proof. solve_decision. Defined.

(** The values of the string type [detailPanel]. *)
Definition panel_name (p : detailPanel) : string :=
  match p with
  | detailNone => ""
  | detailTraffic => "traffic"
  | detailCache => "cache"
  | detailSnapshot => "snapshot"
  | detailUpstream => "upstream"
  | detailXDP => "xdp"
  | detailState => "state"
  end.

Definition panel_of_name (s : string) : detailPanel :=
  if String.eqb s "traffic" then detailTraffic
  else if String.eqb s "cache" then detailCache
  else if String.eqb s "snapshot" then detailSnapshot
  else if String.eqb s "upstream" then detailUpstream
  else if String.eqb s "xdp" then detailXDP
  else if String.eqb s "state" then detailState
  else detailNone.

#[export] Instance detailPanel_countable : Countable detailPanel.
Proof. by refine (inj_countable' panel_name panel_of_name _); intros []. Defined.

Record detailSubviewDef := mkDef {
  def_id : detailSubview;
  def_label : string;
}.

Definition overviewPanelOrder : list detailPanel :=
  [detailTraffic; detailCache; detailSnapshot; detailUpstream; detailXDP; detailState].

(** The fields that are not widgets; [ui_detailView] is a map that may be nil. *)
Record dashboardUI := mkUI {
  ui_helpShown : bool;
  ui_detailPanel : detailPanel;
  ui_focusPanel : detailPanel;
  ui_detailView : option (gmap detailPanel detailSubview);
  ui_history : list Dashboard;
  ui_maxHistory : Z;
  ui_refresh : Z;
}.

Definition newDashboardUI (refresh : Z) : dashboardUI :=
  mkUI false detailNone detailTraffic
    (Some (<[detailCache := subviewSummary]> (<[detailUpstream := subviewSummary]> (<[detailXDP := subviewSummary]> ∅))))
    [] 16 refresh.

Definition set_help (b : bool) (ui : dashboardUI) : dashboardUI :=
  mkUI b (ui_detailPanel ui) (ui_focusPanel ui) (ui_detailView ui) (ui_history ui) (ui_maxHistory ui) (ui_refresh ui).
Definition set_detail (p : detailPanel) (ui : dashboardUI) : dashboardUI :=
  mkUI (ui_helpShown ui) p (ui_focusPanel ui) (ui_detailView ui) (ui_history ui) (ui_maxHistory ui) (ui_refresh ui).
Definition set_focus (p : detailPanel) (ui : dashboardUI) : dashboardUI :=
  mkUI (ui_helpShown ui) (ui_detailPanel ui) p (ui_detailView ui) (ui_history ui) (ui_maxHistory ui) (ui_refresh ui).
Definition set_view (v : option (gmap detailPanel detailSubview)) (ui : dashboardUI) : dashboardUI :=
  mkUI (ui_helpShown ui) (ui_detailPanel ui) (ui_focusPanel ui) v (ui_history ui) (ui_maxHistory ui) (ui_refresh ui).

(** ** Panels *)

Definition panelTitle (p : detailPanel) : string :=
  match p with
  | detailTraffic => "Traffic"
  | detailCache => "Cache"
  | detailSnapshot => "Snapshot"
  | detailUpstream => "Upstream"
  | detailXDP => "XDP"
  | detailState => "State Machine"
  | detailNone => "Detail"
  end.

(** The first index of [p] from [i] on, or -1. *)
Fixpoint panel_index (i : Z) (order : list detailPanel) (p : detailPanel) : Z :=
  match order with
  | [] => -1
  | candidate :: order' => if bool_decide (candidate = p) then i else panel_index (i + 1) order' p
  end.
Definition overviewPanelIndex (p : detailPanel) : Z := panel_index 0 overviewPanelOrder p.

Definition isOverviewPanel (p : detailPanel) : bool := 0 <=? overviewPanelIndex p.

Definition detailPanelStatus (p : detailPanel) (d : Dashboard) : panelStatus :=
  match p with
  | detailTraffic => tp_Status (d_Traffic d)
  | detailCache => cp_Status (d_Cache d)
  | detailSnapshot => sp_Status (d_Snapshot d)
  | detailUpstream => up_Status (d_Upstream d)
  | detailXDP => xp_Status (d_XDP d)
  | detailState => st_Status (d_StateMachine d)
  | detailNone => statusUnavailable
  end.

Definition detailDrilldownEnabled (p : detailPanel) (d : Dashboard) : bool :=
  let status := detailPanelStatus p d in
  if negb (bool_decide (status = statusOK)) && negb (bool_decide (status = statusDegraded)) then false
  else match p with
       | detailCache | detailUpstream | detailXDP => true
       | _ => false
       end.

Definition detailSubviewDefs (p : detailPanel) (d : Dashboard) : list detailSubviewDef :=
  if negb (detailDrilldownEnabled p d) then []
  else match p with
       | detailCache =>
           [mkDef subviewSummary "Summary"; mkDef subviewCacheLookup "Lookup Mix";
            mkDef subviewCacheLifecycle "Lifecycle"]
       | detailUpstream =>
           [mkDef subviewSummary "Summary"; mkDef subviewUpstreamFailures "Failures";
            mkDef subviewUpstreamWinners "Winners"]
       | detailXDP =>
           [mkDef subviewSummary "Summary"; mkDef subviewXDPPacketPaths "Packet Paths";
            mkDef subviewXDPSyncCleanup "Sync/Cleanup"]
       | _ => []
       end.

Definition find_def (id : detailSubview) (defs : list detailSubviewDef) : option detailSubviewDef :=
  List.find (λ def, bool_decide (def_id def = id)) defs.

Definition currentDetailSubviewDef (ui : dashboardUI) (p : detailPanel) (d : Dashboard) : option detailSubviewDef :=
  match detailSubviewDefs p d with
  | [] => None
  | first :: _ as defs =>
      let current := default subviewSummary (ui_detailView ui ≫= λ v, v !! p) in
      Some (default first (find_def current defs))
  end.

(** ** Navigation *)

Definition focusedPanel (ui : dashboardUI) : detailPanel :=
  if negb (isOverviewPanel (ui_focusPanel ui)) then detailTraffic else ui_focusPanel ui.

(** [overviewPanelOrder[i]] *)
Definition panel_at (i : Z) : option detailPanel :=
  if i <? 0 then None else overviewPanelOrder !! Z.to_nat i.

Definition cycleFocus (step : Z) (ui : dashboardUI) : option dashboardUI :=
  let index := overviewPanelIndex (focusedPanel ui) in
  let size := Z.of_nat (length overviewPanelOrder) in
  p ← panel_at (Z.rem (index + step + size) size);
  Some (set_focus p ui).

(** Whether the focus moved, and the new state. *)
Definition moveFocus (rowDelta colDelta : Z) (ui : dashboardUI) : option (bool * dashboardUI) :=
  let index := overviewPanelIndex (focusedPanel ui) in
  let row := Z.quot index 2 in
  let col := Z.rem index 2 in
  let nextRow := row + rowDelta in
  let nextCol := col + colDelta in
  if (nextRow <? 0) || (3 <=? nextRow) || (nextCol <? 0) || (2 <=? nextCol) then Some (false, ui)
  else p ← panel_at (nextRow * 2 + nextCol); Some (true, set_focus p ui).

Definition resetDetailSubview (p : detailPanel) (ui : dashboardUI) : dashboardUI :=
  set_view (Some (<[p := subviewSummary]> (default ∅ (ui_detailView ui)))) ui.

Definition openFocusedDetail (ui : dashboardUI) : dashboardUI :=
  let ui := set_detail (focusedPanel ui) ui in
  resetDetailSubview (ui_detailPanel ui) ui.

Definition openDetail (p : detailPanel) (ui : dashboardUI) : dashboardUI :=
  if negb (isOverviewPanel p) then ui else resetDetailSubview p (set_detail p (set_focus p ui)).

Definition returnToOverview (ui : dashboardUI) : dashboardUI := set_detail detailNone ui.

(** The position of the definition with [id], 0 when there is none. *)
Fixpoint def_index (i : Z) (id : detailSubview) (defs : list detailSubviewDef) : Z :=
  match defs with
  | [] => 0
  | def :: defs' => if bool_decide (def_id def = id) then i else def_index (i + 1) id defs'
  end.

Definition cycleDetailSubview (d : Dashboard) (step : Z) (ui : dashboardUI) : option (bool * dashboardUI) :=
  let defs := detailSubviewDefs (ui_detailPanel ui) d in
  match defs with
  | [] | [_] => Some (false, ui)
  | first :: _ =>
      let current := default first (currentDetailSubviewDef ui (ui_detailPanel ui) d) in
      let index := def_index 0 (def_id current) defs in
      let size := Z.of_nat (length defs) in
      let next := Z.rem (index + step + size) size in
      def ← (if next <? 0 then None else defs !! Z.to_nat next);
      v ← ui_detailView ui;
      Some (true, set_view (Some (<[ui_detailPanel ui := def_id def]> v)) ui)
  end.

Definition pushHistory (d : Dashboard) (ui : dashboardUI) : dashboardUI :=
  let history := ui_history ui ++ [d] in
  let maxHistory := if ui_maxHistory ui <=? 0 then 16 else ui_maxHistory ui in
  mkUI (ui_helpShown ui) (ui_detailPanel ui) (ui_focusPanel ui) (ui_detailView ui)
    (if maxHistory <? Z.of_nat (length history)
     then drop (length history - Z.to_nat maxHistory) history else history)
    maxHistory (ui_refresh ui).

(** ** Keys *)

Inductive Key :=
| KeyCtrlC | KeyEscape | KeyEnter | KeyUp | KeyDown | KeyLeft | KeyRight | KeyTab | KeyBacktab | KeyOther.

Inductive uiAction := AStop | ARefresh | ARender.

(** What a key did: whether it was consumed, the action it caused, the new state. *)
Definition keyResult : Type := bool * list uiAction * dashboardUI.

(** [if moved { ui.render(latest); return true }], otherwise go on. *)
Definition consume (r : option (bool * dashboardUI)) (otherwise : dashboardUI → option keyResult) : option keyResult :=
  '(moved, ui) ← r; if (moved : bool) then Some (true, [ARender], ui) else otherwise ui.

Definition rendered (ui : dashboardUI) : option keyResult := Some (true, [ARender], ui).

(** [ui.detailPanel == detailNone && ...] and [ui.detailPanel != detailNone && ...] *)
Definition in_overview (ui : dashboardUI) (r : option (bool * dashboardUI)) : option (bool * dashboardUI) :=
  if bool_decide (ui_detailPanel ui = detailNone) then r else Some (false, ui).
Definition in_detail (ui : dashboardUI) (r : option (bool * dashboardUI)) : option (bool * dashboardUI) :=
  if bool_decide (ui_detailPanel ui = detailNone) then Some (false, ui) else r.

(** The second switch, on [event.Rune()]. *)
Definition handleRune (rune : ascii) (latest : Dashboard) (ui : dashboardUI) : option keyResult :=
  let ignored ui := Some (false, [], ui) in
  match rune with
  | "q"%char => Some (true, [AStop], ui)
  | "r"%char => Some (true, [ARefresh], ui)
  | "h"%char | "?"%char => rendered (set_help (negb (ui_helpShown ui)) ui)
  | "0"%char | "o"%char => rendered (returnToOverview ui)
  | "1"%char => rendered (openDetail detailTraffic ui)
  | "2"%char => rendered (openDetail detailCache ui)
  | "3"%char => rendered (openDetail detailSnapshot ui)
  | "4"%char => rendered (openDetail detailUpstream ui)
  | "5"%char => rendered (openDetail detailXDP ui)
  | "6"%char => rendered (openDetail detailState ui)
  | "["%char => consume (in_detail ui (cycleDetailSubview latest (-1) ui)) ignored
  | "]"%char => consume (in_detail ui (cycleDetailSubview latest 1 ui)) ignored
  | "j"%char => consume (in_overview ui (moveFocus 1 0 ui)) ignored
  | "k"%char => consume (in_overview ui (moveFocus (-1) 0 ui)) ignored
  | "l"%char => consume (in_overview ui (moveFocus 0 1 ui)) ignored
  | _ => ignored ui
  end.

(** [ui.detailPanel == detailNone { ui.cycleFocus(step); ... }] *)
Definition tab_focus (step : Z) (ui : dashboardUI) : option (bool * dashboardUI) :=
  in_overview ui (ui' ← cycleFocus step ui; Some (true, ui')).

Definition handleKey (key : Key) (rune : ascii) (latest : Dashboard) (ui : dashboardUI) : option keyResult :=
  let on_rune ui := handleRune rune latest ui in
  match key with
  | KeyCtrlC => Some (true, [AStop], ui)
  | KeyEscape => rendered (returnToOverview ui)
  | KeyEnter => consume (in_overview ui (Some (true, openFocusedDetail ui))) on_rune
  | KeyUp => consume (in_overview ui (moveFocus (-1) 0 ui)) on_rune
  | KeyDown => consume (in_overview ui (moveFocus 1 0 ui)) on_rune
  | KeyLeft =>
      consume (in_detail ui (cycleDetailSubview latest (-1) ui))
        (λ ui, consume (in_overview ui (moveFocus 0 (-1) ui)) on_rune)
  | KeyRight =>
      consume (in_detail ui (cycleDetailSubview latest 1 ui))
        (λ ui, consume (in_overview ui (moveFocus 0 1 ui)) on_rune)
  | KeyTab =>
      consume (in_detail ui (cycleDetailSubview latest 1 ui)) (λ ui, consume (tab_focus 1 ui) on_rune)
  | KeyBacktab =>
      consume (in_detail ui (cycleDetailSubview latest (-1) ui)) (λ ui, consume (tab_focus (-1) ui) on_rune)
  | KeyOther => on_rune ui
  end.

(** ** Texts *)

Definition statusColor (s : panelStatus) : string :=
  match s with
  | statusOK => "green"
  | statusDegraded | statusStale => "yellow"
  | statusDisabled => "gray"
  | statusUnavailable | statusDisconnected => "red"
  | statusWarming => "blue"
  end.

Definition statusLine (s : panelStatus) : string :=
  "status         [" +:+ statusColor s +:+ "]" +:+ status_text s +:+ "[-]".

Definition formatDurationCompact (value : Z) : string :=
  if value <=? 0 then "--"
  else if value <? Second then Itoa (Z.quot value Millisecond) +:+ "ms"
  else Duration_String value.

Definition detailSectionLines (s : detailSection) : list string := sec_Title s :: sec_Lines s.

(** One part of a detail page: a heading, metrics, and sections after empty lines. *)
Definition model_block (heading : string) (metrics : list string) (sections : list detailSection) : list string :=
  if (0 <? length metrics)%nat || (0 <? length sections)%nat then
    ["" ; heading] ++ metrics ++ concat ((λ s, "" :: detailSectionLines s) <$> sections)
  else [].

Definition renderDetailModel (m : detailModel) : string :=
  Join newline
    ([statusLine (dm_Status m); ""; "Now:"; "  " +:+ fallbackText (dm_Standout m)] ++
     model_block "Window:" (dm_CurrentWindowMetrics m) (dm_CurrentSections m) ++
     model_block "Totals:" (dm_SinceStartMetrics m) (dm_SinceStartSections m) ++
     match dm_NextChecks m with
     | [] => []
     | checks => ["" ; "Next:"] ++ ((λ c, "- " +:+ c) <$> checks)
     end).

(** *** Trends *)

Definition f64_opp : f64 → f64 := SFopp.

Definition trendDirection (values : list f64) : string :=
  match values with
  | [] | [_] => "warming"
  | start :: _ =>
      let end_ := default start (last values) in
      let delta := f64_sub end_ start in
      let threshold :=
        if f64_eqb start f64_zero then f64_zero
        else if f64_ltb start f64_zero then f64_mul (f64_opp start) (f64_const 1 10)
        else f64_mul start (f64_const 1 10) in
      let threshold := if f64_ltb threshold (f64_const 5 100) then f64_const 5 100 else threshold in
      if f64_ltb threshold delta then "rising"
      else if f64_ltb delta (f64_opp threshold) then "cooling"
      else "flat"
  end.

Definition spark_chars : list ascii := ["."; "_"; ":"; "-"; "="; "+"; "*"; "#"]%char.

Definition f64_min_max (values : list f64) (first : f64) : f64 * f64 :=
  foldl (λ mm value,
    (if f64_ltb value mm.1 then value else mm.1, if f64_ltb mm.2 value then value else mm.2))
    (first, first) values.

(** [index < 0] and [index >= len(chars)] are moved to the ends. *)
Definition clamp_index (index : Z) : nat :=
  let index := if index <? 0 then 0 else index in
  Z.to_nat (if Z.of_nat (length spark_chars) <=? index then Z.of_nat (length spark_chars) - 1 else index).

Section screens.
Context `{GS : GoSort} `{GO : GoMapOrder}.
(** What the conversion [int(x)] gives for a NaN, an infinity or a value out of
    range, which Go leaves to the implementation; and the local wall clock of a
    time, [t.Format("15:04:05")]. *)
Context (int_undefined : f64 → Z) (clock : Z → string).

Definition int_of (x : f64) : Z :=
  match x with
  | S754_nan | S754_infinity _ => int_undefined x
  | _ => let z := f64_trunc x in
         if (min_int64 <=? z) && (z <=? max_int64) then z else int_undefined x
  end.

Definition spark_char (minValue maxValue value : f64) : option ascii :=
  spark_chars !! clamp_index (int_of
    (f64_add (f64_mul (f64_div (f64_sub value minValue) (f64_sub maxValue minValue)) (f64_of_Z 7)) (f64_const 1 2))).

Definition asciiSparkline (values : list f64) : option (list ascii) :=
  match values with
  | [] => Some []
  | first :: rest =>
      let '(minValue, maxValue) := f64_min_max rest first in
      if f64_eqb maxValue minValue then Some (replicate (length values) "="%char)
      else mapM (spark_char minValue maxValue) values
  end.

Definition historyValues (ui : dashboardUI) (extract : Dashboard → f64) : list f64 := extract <$> ui_history ui.

Definition trend_cues (ui : dashboardUI) : list (string * list f64) :=
  match ui_detailPanel ui with
  | detailCache =>
      [("hit ratio", historyValues ui (λ d, cp_HitRatio (d_Cache d)));
       ("miss rate", historyValues ui (λ d, cp_MissRate (d_Cache d)))]
  | detailUpstream =>
      [("timeout", historyValues ui (λ d, up_TimeoutRate (d_Upstream d)));
       ("fallback", historyValues ui (λ d, up_FallbackRate (d_Upstream d)))]
  | detailXDP =>
      [("hit ratio", historyValues ui (λ d, xp_HitRatio (d_XDP d)));
       ("sync errors", historyValues ui (λ d, xp_SyncErrorRate (d_XDP d)))]
  | _ => []
  end.

Definition cue_line (c : string * list f64) : option (list string) :=
  if (length c.2 <? 2)%nat then Some []
  else spark ← asciiSparkline c.2;
       Some ["  " +:+ pad_right 16 c.1 +:+ " " +:+ String.string_of_list_ascii spark +:+ "  " +:+ trendDirection c.2].

Definition renderTrendCues (ui : dashboardUI) : option string :=
  if (length (ui_history ui) <? 2)%nat then Some ""
  else
    match trend_cues ui with
    | [] => Some ""
    | cues =>
        lines ← mapM cue_line cues;
        match concat lines with
        | [] => Some ""
        | ls => Some (Join newline
            ("  recent in-process samples only; use Prometheus/Grafana for long-range history" :: ls))
        end
    end.

Definition renderDetailWithTrendCues (ui : dashboardUI) (body : string) : option string :=
  trends ← renderTrendCues ui;
  Some (if String.eqb trends "" then body
        else body +:+ newline +:+ newline +:+ "Trend:" +:+ newline +:+ trends).

Definition renderDetailWithTabs (defs : list detailSubviewDef) (current : detailSubview) (body : string) : string :=
  let tabs := (λ def, if bool_decide (def_id def = current) then "[yellow]> " +:+ def_label def +:+ " <[-]"
                      else def_label def) <$> defs in
  "Subview: " +:+ Join "   " tabs +:+ newline +:+ newline +:+ body.

(** [again] is the result of the call of [renderDetail] in the default case. *)
Definition renderDetailSubview (again : option string) (ui : dashboardUI) (d : Dashboard) (subview : detailSubview)
    : option string :=
  match ui_detailPanel ui with
  | detailCache =>
      Some (renderDetailModel
        (match subview with
         | subviewCacheLookup => buildCacheLookupSubviewModel d
         | subviewCacheLifecycle => buildCacheLifecycleSubviewModel d
         | _ => buildCacheDetailModel d
         end))
  | detailUpstream =>
      Some (renderDetailModel
        (match subview with
         | subviewUpstreamFailures => buildUpstreamFailuresSubviewModel d
         | subviewUpstreamWinners => buildUpstreamWinnersSubviewModel d
         | _ => buildUpstreamDetailModel d
         end))
  | detailXDP =>
      Some (renderDetailModel
        (match subview with
         | subviewXDPPacketPaths => buildXDPPacketPathsSubviewModel d
         | subviewXDPSyncCleanup => buildXDPSyncCleanupSubviewModel d
         | _ => buildXDPDetailModel d
         end))
  | detailState => Some (renderDetailModel (buildStateMachineDetailModel d))
  | _ => again
  end.

Definition detail_hint : string :=
  Join newline
    ["Use arrows, j/k/l, or Tab to focus an overview panel.";
     "Press Enter to open the focused detail view, or use 1-6 as direct shortcuts."; "";
     "1 Traffic"; "2 Cache"; "3 Snapshot"; "4 Upstream"; "5 XDP"; "6 State Machine"].

(** [renderDetail] and [renderDetailSubview] call each other; [fuel] bounds the
    calls, and one is enough ([renderDetail_total]). *)
Fixpoint renderDetail (fuel : nat) (ui : dashboardUI) (d : Dashboard) : option string :=
  match fuel with
  | O => None
  | S fuel' =>
      let defs := detailSubviewDefs (ui_detailPanel ui) d in
      if (1 <? length defs)%nat then
        let subview := from_option def_id subviewSummary (currentDetailSubviewDef ui (ui_detailPanel ui) d) in
        body ← renderDetailSubview (renderDetail fuel' ui d) ui d subview;
        page ← renderDetailWithTrendCues ui body;
        Some (renderDetailWithTabs defs subview page)
      else
        match ui_detailPanel ui with
        | detailTraffic => renderDetailWithTrendCues ui (renderDetailModel (buildTrafficDetailModel d))
        | detailCache => renderDetailWithTrendCues ui (renderDetailModel (buildCacheDetailModel d))
        | detailSnapshot => renderDetailWithTrendCues ui (renderDetailModel (buildSnapshotDetailModel d))
        | detailUpstream => renderDetailWithTrendCues ui (renderDetailModel (buildUpstreamDetailModel d))
        | detailXDP => renderDetailWithTrendCues ui (renderDetailModel (buildXDPDetailModel d))
        | detailState => renderDetailWithTrendCues ui (renderDetailModel (buildStateMachineDetailModel d))
        | detailNone => Some detail_hint
        end
  end.

(** *** The whole screen *)

Definition focusLabel (ui : dashboardUI) : string := panelTitle (focusedPanel ui).

Definition detailTitle (ui : dashboardUI) (d : Dashboard) : string :=
  match ui_detailPanel ui with
  | detailNone => "Detail"
  | p => match currentDetailSubviewDef ui p d with
         | Some def => panelTitle p +:+ " [" +:+ def_label def +:+ "]"
         | None => panelTitle p
         end
  end.

(** The titles of the six overview panels, in their order. *)
Definition updateOverviewTitles (ui : dashboardUI) : list string :=
  (λ p, let title := panelTitle p in
        " " +:+ (if bool_decide (p = focusedPanel ui) then "> " +:+ title +:+ " <" else title) +:+ " ")
    <$> overviewPanelOrder.

Definition quit_keys (help : string) : string :=
  "[yellow]q[-] quit  [yellow]r[-] refresh  [yellow]h/?[-] " +:+ help.

Definition detailFooterText (ui : dashboardUI) (d : Dashboard) : string :=
  let title := panelTitle (ui_detailPanel ui) in
  match currentDetailSubviewDef ui (ui_detailPanel ui) d with
  | Some def =>
      if ui_helpShown ui then
        Join newline
          ["[yellow]Keys[-] " +:+ quit_keys "hide  [yellow]0/esc[-] overview";
           "[yellow]Detail[-] " +:+ title +:+ " / " +:+ def_label def +:+
             "  [yellow]Subview[-] tab shift-tab [ ] left right"]
      else
        quit_keys "help  [yellow]0/esc[-] overview  [yellow]detail[-] " +:+ title +:+ " / " +:+ def_label def +:+
          "  [yellow]subview[-] tab shift-tab [ ] left right"
  | None =>
      if ui_helpShown ui then
        Join newline
          ["[yellow]Keys[-] " +:+ quit_keys "hide  [yellow]0/esc[-] overview";
           "[yellow]Detail[-] " +:+ title]
      else quit_keys "help  [yellow]0/esc[-] overview  [yellow]detail[-] " +:+ title
  end.

Definition footerText (ui : dashboardUI) (d : Dashboard) : string :=
  if negb (bool_decide (ui_detailPanel ui = detailNone)) then detailFooterText ui d
  else if ui_helpShown ui then
    Join newline
      ["[yellow]Keys[-] " +:+
         quit_keys "hide  [yellow]enter[-] detail  [yellow]1-6[-] jump  [yellow]0/esc[-] overview";
       "[yellow]Move[-] arrows/jkl/tab  [yellow]Focus[-] " +:+ focusLabel ui +:+
         "  [yellow]Status[-] OK DEGRADED DISABLED UNAVAILABLE STALE DISCONNECTED WARMING"]
  else
    quit_keys "help  [yellow]enter[-] detail  [yellow]1-6[-] jump  [yellow]0/esc[-] overview  [yellow]move[-] arrows/jkl/tab  [yellow]focus[-] "
      +:+ focusLabel ui.

Record Screen := mkScreen {
  scr_header : string;
  scr_traffic : string;
  scr_cache : string;
  scr_snapshot : string;
  scr_upstream : string;
  scr_xdp : string;
  scr_state : string;
  scr_titles : list string;
  scr_detailTitle : string;
  scr_detail : string;
  scr_page : string;
  scr_footer : string;
}.

Definition header_text (ui : dashboardUI) (d : Dashboard) : string :=
  "[white]rec53top[-] [" +:+ statusColor (d_Mode d) +:+ "]" +:+ status_text (d_Mode d) +:+ "[-] target " +:+
  d_Target d +:+ "  refresh " +:+ formatDurationCompact (ui_refresh ui) +:+ "  scrape " +:+
  formatDurationCompact (d_ScrapeDuration d) +:+ "  " +:+ clock (d_LastUpdate d) +:+ newline +:+ d_OverallSummary d +:+
  (if String.eqb (d_LastError d) "" then "" else newline +:+ "[red]" +:+ d_LastError d +:+ "[-]").

Definition traffic_text (p : TrafficPanel) : string :=
  Join newline
    [statusLine (tp_Status p); "qps            " +:+ number (tp_QPS p); "p99            " +:+ latency (tp_P99MS p);
     "servfail       " +:+ percent (tp_ServfailRatio p); "nxdomain       " +:+ percent (tp_NXDomainRatio p);
     "noerror        " +:+ percent (tp_NoErrorRatio p)].

Definition cache_text (p : CachePanel) : string :=
  Join newline
    [statusLine (cp_Status p); "hit ratio      " +:+ percent (cp_HitRatio p);
     "positive hit   " +:+ rate (cp_PositiveHitRate p); "negative hit   " +:+ rate (cp_NegativeHitRate p);
     "delegation     " +:+ rate (cp_DelegationRate p); "miss           " +:+ rate (cp_MissRate p);
     "entries        " +:+ number (cp_Entries p); "lifecycle      " +:+ cp_Lifecycle p].

Definition snapshot_text (p : SnapshotPanel) : string :=
  Join newline
    [statusLine (sp_Status p); "load success   " +:+ number (sp_LoadSuccess p);
     "load failure   " +:+ number (sp_LoadFailure p); "imported       " +:+ number (sp_Imported p);
     "skip expired   " +:+ number (sp_SkippedExpired p); "skip corrupt   " +:+ number (sp_SkippedCorrupt p);
     "saved          " +:+ number (sp_SaveSuccess p); "duration p99   " +:+ latency (sp_DurationP99MS p)].

Definition upstream_text (p : UpstreamPanel) : string :=
  Join newline
    [statusLine (up_Status p); "timeout        " +:+ rate (up_TimeoutRate p);
     "bad rcode      " +:+ rate (up_BadRcodeRate p); "fallback       " +:+ rate (up_FallbackRate p);
     "winner         " +:+ up_Winner p +:+ " " +:+ rate (up_WinnerRate p);
     "dominant       " +:+ fallbackText (up_DominantReason p)].

Definition xdp_text (p : XDPPanel) : string :=
  Join newline
    [statusLine (xp_Status p); "mode           " +:+ xp_Mode p; "hit ratio      " +:+ percent (xp_HitRatio p);
     "sync errors    " +:+ rate (xp_SyncErrorRate p); "cleanup        " +:+ rate (xp_CleanupRate p);
     "entries        " +:+ number (xp_Entries p); "pass           " +:+ rate (xp_PassRate p);
     "errors         " +:+ rate (xp_ErrorRate p)].

Definition state_text (p : StateMachinePanel) : string :=
  Join newline
    [statusLine (st_Status p); "top stage      " +:+ labelled_rate (st_TopStage p) (st_TopStageRate p);
     "top terminal   " +:+ labelled_rate (st_TopTerminal p) (st_TopTerminalRate p);
     "top failure    " +:+ labelled_rate (st_TopFailure p) (st_TopFailureRate p)].

Definition render (ui : dashboardUI) (d : Dashboard) : option Screen :=
  detail ← renderDetail 1 ui d;
  Some (mkScreen (header_text ui d) (traffic_text (d_Traffic d)) (cache_text (d_Cache d))
    (snapshot_text (d_Snapshot d)) (upstream_text (d_Upstream d)) (xdp_text (d_XDP d))
    (state_text (d_StateMachine d)) (updateOverviewTitles ui) (" " +:+ detailTitle ui d +:+ " ") detail
    (if bool_decide (ui_detailPanel ui = detailNone) then "overview" else "detail") (footerText ui d)).

(** *** Plain mode *)

Definition renderPlainPanel (title : string) (lines : list string) : string :=
  title +:+ newline +:+ Join newline lines.

Definition renderPlainDashboard (d : Dashboard) (refresh : Z) : string :=
  let t := d_Traffic d in
  let c := d_Cache d in
  let s := d_Snapshot d in
  let u := d_Upstream d in
  let x := d_XDP d in
  let m := d_StateMachine d in
  Join (newline +:+ newline)
    ((["rec53top " +:+ status_text (d_Mode d) +:+ " target=" +:+ d_Target d +:+ " refresh=" +:+
       formatDurationCompact refresh +:+ " scrape=" +:+ formatDurationCompact (d_ScrapeDuration d) +:+
       " updated=" +:+ clock (d_LastUpdate d);
     d_OverallSummary d;
     renderPlainPanel "Traffic"
       ["status=" +:+ status_text (tp_Status t); "qps=" +:+ number (tp_QPS t); "p99=" +:+ latency (tp_P99MS t);
        "servfail=" +:+ percent (tp_ServfailRatio t); "nxdomain=" +:+ percent (tp_NXDomainRatio t);
        "noerror=" +:+ percent (tp_NoErrorRatio t)];
     renderPlainPanel "Cache"
       ["status=" +:+ status_text (cp_Status c); "hit_ratio=" +:+ percent (cp_HitRatio c);
        "positive_hit=" +:+ rate (cp_PositiveHitRate c); "negative_hit=" +:+ rate (cp_NegativeHitRate c);
        "delegation=" +:+ rate (cp_DelegationRate c); "miss=" +:+ rate (cp_MissRate c);
        "entries=" +:+ number (cp_Entries c); "lifecycle=" +:+ cp_Lifecycle c];
     renderPlainPanel "Snapshot"
       ["status=" +:+ status_text (sp_Status s); "load_success=" +:+ number (sp_LoadSuccess s);
        "load_failure=" +:+ number (sp_LoadFailure s); "imported=" +:+ number (sp_Imported s);
        "skip_expired=" +:+ number (sp_SkippedExpired s); "skip_corrupt=" +:+ number (sp_SkippedCorrupt s);
        "saved=" +:+ number (sp_SaveSuccess s); "duration_p99=" +:+ latency (sp_DurationP99MS s)];
     renderPlainPanel "Upstream"
       ["status=" +:+ status_text (up_Status u); "timeout=" +:+ rate (up_TimeoutRate u);
        "bad_rcode=" +:+ rate (up_BadRcodeRate u); "fallback=" +:+ rate (up_FallbackRate u);
        "winner=" +:+ labelled_rate (up_Winner u) (up_WinnerRate u);
        "dominant=" +:+ fallbackText (up_DominantReason u)];
     renderPlainPanel "XDP"
       ["status=" +:+ status_text (xp_Status x); "mode=" +:+ xp_Mode x; "hit_ratio=" +:+ percent (xp_HitRatio x);
        "sync_errors=" +:+ rate (xp_SyncErrorRate x); "cleanup=" +:+ rate (xp_CleanupRate x);
        "entries=" +:+ number (xp_Entries x); "pass=" +:+ rate (xp_PassRate x); "errors=" +:+ rate (xp_ErrorRate x)];
     renderPlainPanel "State Machine"
       ["status=" +:+ status_text (st_Status m);
        "top_stage=" +:+ labelled_rate (st_TopStage m) (st_TopStageRate m);
        "top_terminal=" +:+ labelled_rate (st_TopTerminal m) (st_TopTerminalRate m);
        "top_failure=" +:+ labelled_rate (st_TopFailure m) (st_TopFailureRate m)]]) ++
    (if String.eqb (d_LastError d) "" then [] else ["error=" +:+ d_LastError d]) ++
    ["plain mode uses the overview summary only; use the full-screen TUI for 1-6 detail views"]) +:+
  newline +:+ newline.

End screens.

(** ** The viewer never fails and never loses its place *)

Inductive uiEvent := UKey (key : Key) (rune : ascii) (latest : Dashboard) | UDashboard (d : Dashboard).

Definition ui_step (ui : dashboardUI) (e : uiEvent) : option dashboardUI :=
  match e with
  | UKey key rune latest => '(_, _, ui') ← handleKey key rune latest ui; Some ui'
  | UDashboard d => Some (pushHistory d ui)
  end.

Fixpoint ui_run (ui : dashboardUI) (es : list uiEvent) : option dashboardUI :=
  match es with
  | [] => Some ui
  | e :: es' => ui' ← ui_step ui e; ui_run ui' es'
  end.

(** The subviews a panel's page can show. *)
Definition subviews_of (p : detailPanel) : list detailSubview :=
  match p with
  | detailCache => [subviewSummary; subviewCacheLookup; subviewCacheLifecycle]
  | detailUpstream => [subviewSummary; subviewUpstreamFailures; subviewUpstreamWinners]
  | detailXDP => [subviewSummary; subviewXDPPacketPaths; subviewXDPSyncCleanup]
  | _ => [subviewSummary]
  end.

(** The last [n] elements. *)
Definition last_n {A} (n : nat) (l : list A) : list A := drop (length l - n) l.

Definition dashboards (es : list uiEvent) : list Dashboard :=
  omap (λ e, match e with UDashboard d => Some d | UKey _ _ _ => None end) es.

(** The place is right: the focus is a panel, an open page is the focused panel's,
    and the stored subviews belong to their panels. *)
Definition placed (ui : dashboardUI) : Prop :=
  ui_focusPanel ui ∈ overviewPanelOrder ∧
  (ui_detailPanel ui = detailNone ∨ ui_detailPanel ui = ui_focusPanel ui) ∧
  ∃ v, ui_detailView ui = Some v ∧ ∀ p sv, v !! p = Some sv → sv ∈ subviews_of p.

Definition same_history (ui ui' : dashboardUI) : Prop :=
  ui_history ui' = ui_history ui ∧ ui_maxHistory ui' = ui_maxHistory ui ∧ ui_refresh ui' = ui_refresh ui.

(** What every key preserves. *)
Definition stays (ui ui' : dashboardUI) : Prop := placed ui' ∧ same_history ui ui'.

Lemma overview_iff p : p ∈ overviewPanelOrder ↔ p ≠ detailNone.
Proof.
  split; [intros Hin ->; by apply (bool_decide_eq_true_2 _) in Hin|].
  intros Hp. apply (bool_decide_eq_true_1 _). by destruct p.
Qed.

Lemma focused_placed ui : placed ui → focusedPanel ui = ui_focusPanel ui.
Proof. intros [Hf _]. rewrite overview_iff in Hf. unfold focusedPanel. by destruct (ui_focusPanel ui). Qed.

Lemma placed_focus p ui : placed ui → ui_detailPanel ui = detailNone → p ≠ detailNone → stays ui (set_focus p ui).
Proof.
  intros (_ & _ & Hv) Hd Hp. split; [|done]. split_and!; [by apply overview_iff|by left|done].
Qed.

Lemma stays_refl ui : placed ui → stays ui ui.
Proof. by intros H. Qed.

Lemma summary_of p : subviewSummary ∈ subviews_of p.
Proof. destruct p; left. Qed.

Lemma new_placed refresh : placed (newDashboardUI refresh).
Proof.
  split_and!; [left|by left|]. eexists. split; [done|]. intros p sv.
  rewrite !lookup_insert_Some, lookup_empty. intros H. intuition (subst; try done); apply summary_of.
Qed.

Lemma placed_open p ui : placed ui → p ≠ detailNone →
  stays ui (resetDetailSubview p (set_detail p (set_focus p ui))).
Proof.
  intros (_ & _ & v & Hv & Hs) Hp. split; [|done]. split_and!; [by apply overview_iff|by right|].
  simpl. rewrite Hv. eexists. split; [done|]. simpl. intros q sv.
  rewrite lookup_insert_Some. intros [[<- <-]|[_ Hq]]; [apply summary_of|by apply Hs].
Qed.

(** An operation of a key: it does not panic, and the state stays in place. *)
Definition key_ok (ui : dashboardUI) (r : option (bool * dashboardUI)) : Prop :=
  ∃ b ui', r = Some (b, ui') ∧ stays ui ui' ∧ (b = false → ui' = ui).

Lemma moveFocus_ok r c ui : placed ui → ui_detailPanel ui = detailNone → key_ok ui (moveFocus r c ui).
Proof.
  intros Hp Hd. unfold moveFocus. rewrite (focused_placed _ Hp).
  case_match eqn:E; [exists false, ui; split_and!; auto using stays_refl|].
  rewrite !orb_false_iff, !Z.ltb_ge, !Z.leb_gt in E. set (i := overviewPanelIndex _) in *.
  set (n := (Z.quot i 2 + r) * 2 + (Z.rem i 2 + c)). assert (0 ≤ n < 6) as Hn by (unfold n; lia). clearbody n.
  assert (∃ p, panel_at n = Some p ∧ p ≠ detailNone) as (p & -> & Hne).
  { assert (n = 0 ∨ n = 1 ∨ n = 2 ∨ n = 3 ∨ n = 4 ∨ n = 5) as Hc by lia.
    destruct Hc as [->|[->|[->|[->|[->| ->]]]]]; by eexists. }
  exists true, (set_focus p ui). split_and!; [done|by apply placed_focus|done].
Qed.

Lemma cycleFocus_ok step ui : step = 1 ∨ step = -1 → placed ui → ui_detailPanel ui = detailNone →
  key_ok ui (ui' ← cycleFocus step ui; Some (true, ui')).
Proof.
  intros Hs Hp Hd. unfold cycleFocus. rewrite (focused_placed _ Hp).
  assert (∃ p, panel_at (Z.rem (overviewPanelIndex (ui_focusPanel ui) + step + Z.of_nat (length overviewPanelOrder))
            (Z.of_nat (length overviewPanelOrder))) = Some p ∧ p ≠ detailNone) as (p & -> & Hne).
  { destruct Hp as [Hf _]. rewrite overview_iff in Hf.
    destruct Hs as [-> | ->], (ui_focusPanel ui); try done; by eexists. }
  exists true, (set_focus p ui). split_and!; [done|by apply placed_focus|done].
Qed.

Lemma defs_of p d : detailSubviewDefs p d = [] ∨ def_id <$> detailSubviewDefs p d = subviews_of p.
Proof. unfold detailSubviewDefs. destruct (detailDrilldownEnabled p d), p; auto. Qed.

Lemma def_index_range i id defs : 0 ≤ i → 0 ≤ def_index i id defs ∧
  (def_index i id defs < i + Z.of_nat (length defs) ∨ def_index i id defs = 0).
Proof.
  revert i. induction defs as [|def defs IH]; intros i Hi; simpl; [lia|].
  case_bool_decide; [lia|]. destruct (IH (i + 1)); lia.
Qed.

Lemma cycleDetailSubview_ok d step ui : step = 1 ∨ step = -1 → placed ui → key_ok ui (cycleDetailSubview d step ui).
Proof.
  intros Hs Hp. unfold cycleDetailSubview. pose proof (defs_of (ui_detailPanel ui) d) as Hdefs.
  destruct (detailSubviewDefs (ui_detailPanel ui) d) as [|def1 [|def2 defs]].
  1,2: by exists false, ui; split_and!; auto using stays_refl.
  set (all := def1 :: def2 :: defs) in *. set (current := default def1 _).
  destruct (def_index_range 0 (def_id current) all) as [H1 H2]; [lia|].
  assert (0 < Z.of_nat (length all)) as Hl by (simpl; lia).
  pose proof (Z.rem_bound_pos (def_index 0 (def_id current) all + step + Z.of_nat (length all))
    (Z.of_nat (length all)) ltac:(lia) Hl) as Hr.
  set (next := Z.rem _ _) in *. rewrite (proj2 (Z.ltb_ge next 0)) by lia.
  destruct (lookup_lt_is_Some_2 all (Z.to_nat next)) as [def Hdef]; [lia|]. rewrite Hdef. simpl.
  destruct Hp as (Hf & Ho & v & Hv & Hsub). rewrite Hv. simpl.
  eexists true, _. split_and!; [done| |done]. split; [|done]. split_and!; [done|done|].
  eexists. split; [done|]. intros p sv. rewrite lookup_insert_Some. intros [[<- <-]|[_ Hq]]; [|by apply Hsub].
  destruct Hdefs as [?|<-]; [done|]. apply list_elem_of_fmap_2. by eapply list_elem_of_lookup_2.
Qed.

(** A consumed or passed-on key. *)
Definition result_ok (ui : dashboardUI) (r : option keyResult) : Prop :=
  ∃ b acts ui', r = Some (b, acts, ui') ∧ stays ui ui'.

Lemma rendered_ok ui ui' : stays ui ui' → result_ok ui (rendered ui').
Proof. intros H. by eexists _, _, ui'. Qed.

Lemma consume_ok ui r k : placed ui → key_ok ui r → result_ok ui (k ui) → result_ok ui (consume r k).
Proof.
  intros Hp (b & ui' & -> & Hs & Hb) Hk. simpl. destruct b; [by eexists _, _, ui'|]. by rewrite Hb.
Qed.

Lemma in_overview_ok ui r : placed ui → (ui_detailPanel ui = detailNone → key_ok ui r) → key_ok ui (in_overview ui r).
Proof.
  intros Hp Hr. unfold in_overview. case_bool_decide; [by apply Hr|]. exists false, ui. auto using stays_refl.
Qed.
Lemma in_detail_ok ui r : placed ui → key_ok ui r → key_ok ui (in_detail ui r).
Proof.
  intros Hp Hr. unfold in_detail. case_bool_decide; [|done]. exists false, ui. auto using stays_refl.
Qed.

Lemma stays_overview ui : placed ui → stays ui (returnToOverview ui).
Proof. intros (Hf & _ & Hv). split; [|done]. split_and!; [done|by left|done]. Qed.

Lemma openFocusedDetail_ok ui : placed ui → stays ui (openFocusedDetail ui).
Proof.
  intros Hp. unfold openFocusedDetail. rewrite (focused_placed _ Hp). pose proof Hp as (Hf & _).
  pose proof (placed_open (ui_focusPanel ui) ui Hp ltac:(by apply overview_iff)) as H. exact H.
Qed.

Create HintDb ui.
#[export] Hint Resolve rendered_ok consume_ok in_overview_ok in_detail_ok moveFocus_ok cycleFocus_ok
  cycleDetailSubview_ok stays_overview stays_refl openFocusedDetail_ok : ui.

Lemma openDetail_ok p ui : placed ui → p ≠ detailNone → result_ok ui (rendered (openDetail p ui)).
Proof.
  intros Hp Hne. apply rendered_ok. unfold openDetail. assert (isOverviewPanel p = true) as -> by by destruct p.
  by apply placed_open.
Qed.

Lemma handleRune_ok rune latest ui : placed ui → result_ok ui (handleRune rune latest ui).
Proof.
  intros Hp. assert (∀ acts b, result_ok ui (Some (b, acts, ui))) as Hsame.
  { intros acts b. eexists _, _, ui. auto with ui. }
  unfold handleRune. destruct rune as [[] [] [] [] [] [] [] []];
    first [apply Hsame|by apply openDetail_ok|by auto 8 with ui|idtac].
  all: apply rendered_ok; exact (stays_refl _ Hp).
Qed.

Lemma handleKey_ok key rune latest ui : placed ui → result_ok ui (handleKey key rune latest ui).
Proof.
  intros Hp. pose proof (handleRune_ok rune latest ui Hp) as Hr.
  destruct key; simpl; unfold tab_focus; try (by eexists _, _, ui; auto with ui); try (by auto 8 with ui).
  - apply consume_ok; auto with ui. apply in_overview_ok; [done|]. intros _.
    exists true, (openFocusedDetail ui). split_and!; auto with ui. done.
Qed.

Lemma last_n_snoc {A} n (l : list A) x : (0 < n)%nat →
  last_n n (last_n n l ++ [x]) = last_n n (l ++ [x]).
Proof.
  intros Hn. unfold last_n. rewrite !length_app, length_drop. simpl.
  destruct (decide (n ≤ length l)%nat) as [Hle|Hgt].
  - rewrite <-(drop_app_le l [x] (length l - n)) by lia. rewrite drop_drop. f_equal. lia.
  - replace (length l - n)%nat with 0%nat by lia. rewrite drop_0. f_equal. lia.
Qed.

Lemma pushHistory_last_n d ui : ui_maxHistory ui = 16 →
  ui_history (pushHistory d ui) = last_n 16 (ui_history ui ++ [d]).
Proof.
  intros E. unfold pushHistory, last_n. rewrite E. simpl. case_match eqn:H; [done|].
  apply Z.ltb_ge in H. by replace (length (ui_history ui ++ [d]) - 16)%nat with 0%nat by lia.
Qed.

Section safe.
Context `{GS : GoSort} `{GO : GoMapOrder} (int_undefined : f64 → Z) (clock : Z → string).

Lemma clamp_index_lt z : (clamp_index z < length spark_chars)%nat.
Proof.
  unfold clamp_index. change (length spark_chars) with 8%nat.
  destruct (Z.ltb_spec z 0); [simpl; lia|]. destruct (Z.leb_spec (Z.of_nat 8) z); lia.
Qed.

Lemma asciiSparkline_total values :
  ∃ s, asciiSparkline int_undefined values = Some s ∧ length s = length values ∧ Forall (.∈ spark_chars) s.
Proof.
  destruct values as [|first rest]; simpl; [by exists []|].
  destruct (f64_min_max rest first) as [lo hi]. case_match.
  { eexists. split_and!; [done|simpl; by rewrite length_replicate|]. change ("="%char :: replicate (length rest) "="%char)
      with (replicate (S (length rest)) "="%char). apply Forall_replicate. apply (bool_decide_eq_true_1 _). by vm_compute. }
  assert (∀ v, ∃ c, spark_char int_undefined lo hi v = Some c ∧ c ∈ spark_chars) as Hc.
  { intros v. destruct (lookup_lt_is_Some_2 spark_chars _ (clamp_index_lt (int_of int_undefined
      (f64_add (f64_mul (f64_div (f64_sub v lo) (f64_sub hi lo)) (f64_of_Z 7)) (f64_const 1 2))))) as [c Hc].
    exists c. split; [done|by eapply list_elem_of_lookup_2]. }
  change (∃ s, mapM (spark_char int_undefined lo hi) (first :: rest) = Some s ∧ length s = length (first :: rest) ∧
    Forall (.∈ spark_chars) s).
  induction (first :: rest) as [|v l IH]; [by exists []|].
  destruct (Hc v) as (c & Ec & Hin), IH as (s & Es & Hlen & HF). exists (c :: s).
  simpl. rewrite Ec. simpl. rewrite Es. simpl. split_and!; [done|by rewrite Hlen|by constructor].
Qed.

Lemma cue_line_total c : is_Some (cue_line int_undefined c).
Proof.
  unfold cue_line. case_match; [done|]. destruct (asciiSparkline_total c.2) as (s & -> & _). done.
Qed.

Lemma renderTrendCues_total ui : is_Some (renderTrendCues int_undefined ui).
Proof.
  unfold renderTrendCues. case_match; [done|]. destruct (trend_cues ui) as [|c cues]; [done|].
  destruct (mapM_is_Some_2 (cue_line int_undefined) (c :: cues)) as [ls ->]; [|simpl; by case_match].
  apply Forall_forall. intros x _. apply cue_line_total.
Qed.

Lemma with_trends_total ui body : is_Some (renderDetailWithTrendCues int_undefined ui body).
Proof. unfold renderDetailWithTrendCues. by destruct (renderTrendCues_total ui) as [t ->]. Qed.

(** The mutual recursion of the two renderers ends after one call: a panel with
    subviews is one of those [renderDetailSubview] shows itself. *)
Lemma renderDetail_total fuel ui d : is_Some (renderDetail int_undefined (S fuel) ui d).
Proof.
  simpl. destruct (1 <? length (detailSubviewDefs (ui_detailPanel ui) d))%nat eqn:E.
  - unfold detailSubviewDefs in E |- *. destruct (negb _); [done|].
    destruct (ui_detailPanel ui) eqn:Ep; try done; unfold renderDetailSubview; rewrite Ep; simpl;
      match goal with |- context [renderDetailWithTrendCues ?i ?u ?b] => destruct (with_trends_total u b) as [t ->] end; done.
  - destruct (ui_detailPanel ui); try apply with_trends_total. done.
Qed.

(** C29: the full-screen viewer never fails and never loses its place.  Whatever
    keys are pressed, whatever dashboards arrive and in whatever order, no index or
    map access panics; the focus is always one of the six panels, an open page is
    that of the focused panel, the subview remembered for a panel is one of that
    panel's; the history holds exactly the last sixteen dashboards in order; and
    every screen can be rendered, the mutually recursive page renderers ending
    after one call. *)
Theorem viewer_keeps_its_place (refresh : Z) (es : list uiEvent) :
  ∃ ui, ui_run (newDashboardUI refresh) es = Some ui ∧ placed ui ∧
    ui_history ui = last_n 16 (dashboards es) ∧ ui_maxHistory ui = 16 ∧ ui_refresh ui = refresh ∧
    ∀ d, ∃ screen, render int_undefined clock ui d = Some screen ∧
      scr_page screen = (if decide (ui_detailPanel ui = detailNone) then "overview" else "detail").
Proof.
  enough (∀ seen ui, placed ui → ui_history ui = last_n 16 seen → ui_maxHistory ui = 16 → ui_refresh ui = refresh →
    ∃ ui', ui_run ui es = Some ui' ∧ placed ui' ∧ ui_history ui' = last_n 16 (seen ++ dashboards es) ∧
      ui_maxHistory ui' = 16 ∧ ui_refresh ui' = refresh) as Hrun.
  { destruct (Hrun [] (newDashboardUI refresh)) as (ui & Hr & Hp & Hh & Hm & Hf); [apply new_placed|done..|].
    exists ui. split_and!; try done. intros d. unfold render. destruct (renderDetail_total 0 ui d) as [t ->].
    eexists. split; [done|]. simpl. rewrite bool_decide_decide. by destruct (decide _). }
  induction es as [|e es IH]; intros seen ui Hp Hh Hm Hf; simpl; [by exists ui; rewrite app_nil_r|].
  destruct e as [key rune latest|d]; simpl.
  - destruct (handleKey_ok key rune latest ui Hp) as (b & acts & ui' & -> & Hp' & E1 & E2 & E3). simpl.
    apply IH; congruence.
  - destruct (IH (seen ++ [d]) (pushHistory d ui)) as (ui' & Hr & ?); try done.
    + by rewrite pushHistory_last_n, Hh, last_n_snoc by (done || lia).
    + unfold pushHistory. simpl. by rewrite Hm.
    + exists ui'. by rewrite <-(assoc_L (++)) in *.
Qed.

End safe.
