(* ===== verification/App.v ===== *)
(** * The viewer at work (tui/app.go Run, tui/plain.go, tui/metrics.go Scrape)

    The goroutines of the full-screen viewer: the event loop of the terminal
    library, which runs key handlers and queued updates one at a time, the scraper,
    which waits for its ticker or a refresh request and hands each result to the
    event loop before it goes on ([QueueUpdateDraw] returns when the update has run),
    and the end of the context.  A step is one action of one of them.  The HTTP
    client, the parser of the text format and the terminal are inputs. *)

From Stdlib Require Import Ascii SpecFloat.
From S2P Require Import Prelude GoLib GoText Float64 TuiMetrics GoFormat Dashboard Details Ui.

(** ** A scrape *)

(** What the HTTP client returns, and what the parser makes of the body. *)
Inductive httpResult :=
| HttpErr (err : string)
| HttpResp (code : Z) (status : string) (body : gmap string MetricFamily + string).

(** [Scraper.Scrape], with the clock at its start, after parsing and at its end. *)
Definition Scrape (start parsed finish : Z) (r : httpResult) : scrape :=
  match r with
  | HttpErr err => ScrapeErr err
  | HttpResp code status body =>
      if negb (code =? 200) then ScrapeErr ("unexpected status: " +:+ status)
      else match body with
           | inr err => ScrapeErr ("parse metrics: " +:+ err)
           | inl families => ScrapeOk (parseMetrics parsed families) (time_Sub finish start)
           end
  end.

Section app.
Context `{GS : GoSort} `{GO : GoMapOrder}.

(** ** Plain mode *)

(** The loop over the scrapes made before the context ends; [write] is the result
    of writing the [n]-th dashboard. *)
Fixpoint plain_loop (clock : Z → string) (write : nat → option string) (refresh : Z) (n : nat) (v : Viewer)
    (scrapes : list (Z * scrape)) : list string * option string :=
  match scrapes with
  | [] => ([], None)
  | ns :: rest =>
      let v' := viewer_step v ns in
      let text := renderPlainDashboard clock (v_latest v') refresh in
      match write n with
      | Some err => ([text], Some err)
      | None => let '(out, err) := plain_loop clock write refresh (S n) v' rest in (text :: out, err)
      end
  end.

Definition runPlain (clock : Z → string) (write : nat → option string) (start : Z) (cfg : TuiConfig)
    (scrapes : list (Z * scrape)) : list string * option string :=
  let cfg := normalized cfg in
  let v := viewer_init start (tc_Target cfg) in
  let text := renderPlainDashboard clock (v_latest v) (tc_RefreshInterval cfg) in
  match write 0%nat with
  | Some err => ([text], Some err)
  | None =>
      let '(out, err) := plain_loop clock write (tc_RefreshInterval cfg) 1 v scrapes in (text :: out, err)
  end.

(** ** Full-screen mode *)

(** An update handed to the event loop. *)
Inductive update := UpdError (err : string) | UpdDashboard (d : Dashboard).

Record App := mkApp {
  a_ui : dashboardUI;
  a_latest : Dashboard;
  a_previous : option MetricsSnapshot;   (* of the scraping goroutine *)
  a_refresh : bool;                      (* refreshCh holds a request *)
  a_queued : option update;
  a_ctxDone : bool;
  a_stopped : bool;
}.

Definition updateDashboard (d : Dashboard) (a : App) : App :=
  mkApp (pushHistory d (a_ui a)) d (a_previous a) (a_refresh a) (a_queued a) (a_ctxDone a) (a_stopped a).

Definition app_init (start : Z) (cfg : TuiConfig) : App :=
  let d := deriveDashboard start start (tc_Target cfg) None None 0 in
  updateDashboard d (mkApp (newDashboardUI (tc_RefreshInterval cfg)) d None false None false false).

(** What a key's action does: a request for a refresh is dropped when one is
    waiting. *)
Definition do_action (a : App) (act : uiAction) : App :=
  match act with
  | AStop => mkApp (a_ui a) (a_latest a) (a_previous a) (a_refresh a) (a_queued a) (a_ctxDone a) true
  | ARefresh => mkApp (a_ui a) (a_latest a) (a_previous a) true (a_queued a) (a_ctxDone a) (a_stopped a)
  | ARender => a
  end.

Definition set_ui (ui : dashboardUI) (a : App) : App :=
  mkApp ui (a_latest a) (a_previous a) (a_refresh a) (a_queued a) (a_ctxDone a) (a_stopped a).

(** One scrape: the dashboard is computed by the scraping goroutine, but the error
    is applied to what is shown when the update runs. *)
Definition scraped (target : string) (now : Z) (r : scrape) (refresh : bool) (a : App) : App :=
  match r with
  | ScrapeErr err =>
      mkApp (a_ui a) (a_latest a) (a_previous a) refresh (Some (UpdError err)) (a_ctxDone a) (a_stopped a)
  | ScrapeOk s dur =>
      mkApp (a_ui a) (a_latest a) (Some s) refresh
        (Some (UpdDashboard (deriveDashboard now now target (a_previous a) (Some s) dur))) (a_ctxDone a) (a_stopped a)
  end.

Definition run_update (now : Z) (u : update) (a : App) : App :=
  let a' := mkApp (a_ui a) (a_latest a) (a_previous a) (a_refresh a) None (a_ctxDone a) (a_stopped a) in
  match u with
  | UpdError err => updateDashboard (withScrapeError now (a_latest a) err) a'
  | UpdDashboard d => updateDashboard d a'
  end.

(** A step, with the scrape it makes and its time, if it makes one. *)
Inductive app_step (target : string) : option (Z * scrape) → App → App → Prop :=
| as_key key rune b acts ui a :
    a_stopped a = false → handleKey key rune (a_latest a) (a_ui a) = Some (b, acts, ui) →
    app_step target None a (foldl do_action (set_ui ui a) acts)
| as_tick now r a :
    a_queued a = None → app_step target (Some (now, r)) a (scraped target now r (a_refresh a) a)
| as_refresh now r a :
    a_queued a = None → a_refresh a = true → app_step target (Some (now, r)) a (scraped target now r false a)
| as_update now u a :
    a_stopped a = false → a_queued a = Some u → app_step target None a (run_update now u a)
| as_done a :
    app_step target None a (mkApp (a_ui a) (a_latest a) (a_previous a) (a_refresh a) (a_queued a) true true).

(** A run from [a0] to [a], and the scrapes made on the way. *)
Inductive app_run (target : string) (a0 : App) : list (Z * scrape) → App → Prop :=
| ar_refl : app_run target a0 [] a0
| ar_step made o a a' :
    app_run target a0 made a → app_step target o a a' → app_run target a0 (made ++ option_list o) a'.

(** What [Run] returns when the event loop has ended; [err] is the terminal's. *)
Definition run_result (err : option string) : option string :=
  match err with
  | Some e => Some (e +:+ "; retry with -plain or TERM=xterm-256color")
  | None => None
  end.

(** How [Run] shows the dashboard. *)
Inductive runMode := ModePlain (cfg : TuiConfig) | ModeScreen (cfg : TuiConfig).

Definition Run_mode (cfg : TuiConfig) : runMode :=
  let cfg := normalized cfg in if tc_Plain cfg then ModePlain cfg else ModeScreen cfg.

(** ** The command (cmd/rec53top/main.go) *)

(** The defaults of the flags; they are the configuration. *)
Definition default_top_flags : TuiConfig := mkTuiConfig DefaultTarget (2 * Second) (1500 * Millisecond) false.

(** The text on standard error and the exit code, for the error of [tui.Run]. *)
Definition rec53top_exit (err : option string) : string * Z :=
  match err with
  | Some e => ("rec53top: " +:+ e +:+ newline, 1)
  | None => ("", 0)
  end.

End app.

(** ** The screen follows the scrapes *)
Section refines.
Context `{GS : GoSort} `{GO : GoMapOrder}.

(** Everything the sequential viewer shows while it makes these scrapes. *)
Definition shown_after (start : Z) (target : string) (scrapes : list (Z * scrape)) : list Dashboard :=
  (λ n, v_latest (viewer_run start target (take n scrapes))) <$> seq 0 (S (length scrapes)).

Lemma shown_after_snoc start target scrapes ns :
  shown_after start target (scrapes ++ [ns]) =
  shown_after start target scrapes ++ [v_latest (viewer_run start target (scrapes ++ [ns]))].
Proof.
  unfold shown_after. rewrite length_app. cbn [length]. rewrite Nat.add_1_r, seq_S, fmap_app. f_equal.
  - apply list_fmap_ext. intros i n Hn. apply lookup_seq in Hn as [-> Hlt]. f_equal. f_equal.
    rewrite take_app_le by lia. done.
  - simpl. by rewrite take_ge by (rewrite length_app; simpl; lia).
Qed.

(** The sequential viewer makes the same scrape: with the same result, and at the
    same time if it worked (an error is shown with the time of its update). *)
Definition same_scrape (made seq : Z * scrape) : Prop :=
  made.2 = seq.2 ∧ (is_ok made = true → made.1 = seq.1).

(** Between the updates: the screen is that of the sequential viewer after the
    scrapes whose updates have run, and an update on its way is that of the last
    scrape made. *)
Record app_inv (start : Z) (target : string) (made : list (Z * scrape)) (a : App) (scrapes : list (Z * scrape)) : Prop := {
  ai_placed : placed (a_ui a);
  ai_max : ui_maxHistory (a_ui a) = 16;
  ai_history : ui_history (a_ui a) = last_n 16 (shown_after start target scrapes);
  ai_latest : a_latest a = v_latest (viewer_run start target scrapes);
  ai_queue : match a_queued a with
             | None => Forall2 same_scrape made scrapes ∧ a_previous a = v_previous (viewer_run start target scrapes)
             | Some (UpdError err) => ∃ made' t, made = made' ++ [(t, ScrapeErr err)] ∧
                 Forall2 same_scrape made' scrapes ∧ a_previous a = v_previous (viewer_run start target scrapes)
             | Some (UpdDashboard d) => ∃ made' t s dur, made = made' ++ [(t, ScrapeOk s dur)] ∧
                 Forall2 same_scrape made' scrapes ∧
                 mkViewer d (a_previous a) = viewer_step (viewer_run start target scrapes) (t, ScrapeOk s dur)
             end;
}.

Lemma withScrapeError_target now d err : d_Target (withScrapeError now d err) = d_Target d.
Proof. unfold withScrapeError. by case_match. Qed.

Lemma viewer_target start target scrapes : d_Target (v_latest (viewer_run start target scrapes)) = target.
Proof.
  induction scrapes as [|[now [s dur|err]] scrapes IH] using rev_ind; [done|..]; rewrite viewer_run_snoc; simpl.
  - exact IH.
  - by rewrite withScrapeError_target.
Qed.

Lemma app_inv_init start cfg : app_inv start (tc_Target cfg) [] (app_init start cfg) [].
Proof. split; [exact (new_placed (tc_RefreshInterval cfg))|reflexivity..|split; [constructor|reflexivity]]. Qed.

Lemma app_inv_key start target made key rune b acts ui a scrapes :
  app_inv start target made a scrapes → handleKey key rune (a_latest a) (a_ui a) = Some (b, acts, ui) →
  app_inv start target made (foldl do_action (set_ui ui a) acts) scrapes.
Proof.
  intros [H1 H2 H3 H4 H5] Hk.
  destruct (handleKey_ok key rune (a_latest a) (a_ui a) H1) as (b' & acts' & ui' & Hk' & Hp & E1 & E2 & E3).
  rewrite Hk in Hk'. injection Hk' as <- <- <-.
  assert (app_inv start target made (set_ui ui a) scrapes) as Hi by (split; simpl; try done; congruence).
  clear -Hi. revert Hi. generalize (set_ui ui a). induction acts as [|act acts IH]; intros x Hi; [done|].
  apply IH. destruct act; destruct Hi; by split.
Qed.

Lemma app_inv_scraped start target made now r refresh a scrapes :
  app_inv start target made a scrapes → a_queued a = None →
  app_inv start target (made ++ [(now, r)]) (scraped target now r refresh a) scrapes.
Proof.
  intros [H1 H2 H3 H4 H5] Hq. rewrite Hq in H5. destruct H5 as [Hm H5].
  destruct r as [s dur|err]; split; simpl; try done.
  - exists made, now, s, dur. split_and!; [done|done|]. by rewrite H5, viewer_target.
  - by exists made, now.
Qed.

Lemma app_inv_update start target made now u a scrapes :
  app_inv start target made a scrapes → a_queued a = Some u →
  ∃ t r, Forall2 same_scrape made (scrapes ++ [(t, r)]) ∧
    mkViewer (a_latest (run_update now u a)) (a_previous (run_update now u a)) =
    viewer_run start target (scrapes ++ [(t, r)]).
Proof.
  intros [H1 H2 H3 H4 H5] Hq. rewrite Hq in H5. destruct u as [err|d].
  - destruct H5 as (made' & t & -> & Hm & H5). exists now, (ScrapeErr err). split.
    + apply Forall2_app; [done|]. by repeat constructor.
    + rewrite viewer_run_snoc. simpl. by rewrite H4, H5.
  - destruct H5 as (made' & t & s & dur & -> & Hm & H5). exists t, (ScrapeOk s dur). split.
    + apply Forall2_app; [done|]. by repeat constructor.
    + by rewrite viewer_run_snoc, <-H5.
Qed.

Lemma app_inv_updated start target made now u a scrapes :
  app_inv start target made a scrapes → a_queued a = Some u →
  ∃ ns, app_inv start target made (run_update now u a) (scrapes ++ [ns]).
Proof.
  intros Hi Hq. destruct (app_inv_update start target made now u a scrapes Hi Hq) as (t & r & Hm & Hv).
  exists (t, r). destruct Hi as [H1 H2 H3 H4 _]. pose proof (f_equal v_latest Hv) as Hl.
  pose proof (f_equal v_previous Hv) as Hp. simpl in Hl, Hp. split; [..|by destruct u].
  - by destruct u.
  - destruct u; unfold run_update, updateDashboard, pushHistory; simpl; by rewrite H2.
  - rewrite shown_after_snoc, <- Hl, <- last_n_snoc, <- H3 by lia.
    destruct u; exact (pushHistory_last_n _ (a_ui a) H2).
  - done.
Qed.

Lemma app_inv_reachable start cfg made a :
  app_run (tc_Target cfg) (app_init start cfg) made a → ∃ scrapes, app_inv start (tc_Target cfg) made a scrapes.
Proof.
  induction 1 as [|made o a a' _ [scrapes Hi] Hs]; [exists []; apply app_inv_init|].
  destruct Hs as [key rune b acts ui a Hns Hk|now r a Hq|now r a Hq Hf|now u a Hns Hq|a]; simpl; rewrite ?app_nil_r.
  - exists scrapes. by eapply app_inv_key.
  - exists scrapes. by apply app_inv_scraped.
  - exists scrapes. by apply app_inv_scraped.
  - destruct (app_inv_updated start (tc_Target cfg) made now u a scrapes Hi Hq) as [ns Hi']. eauto.
  - exists scrapes. destruct Hi. by split.
Qed.

(** C30: the full-screen viewer refines the sequential one.  In every interleaving of
    keys, ticks, refresh requests, scrapes, queued updates and the end of the
    context, the screen shows what the sequential viewer shows after the scrapes
    made so far, less the last one while its update is still on its way: the same
    results in the same order, those that worked at the same times.  That is so for
    the latest dashboard and for the history, which is the last sixteen dashboards
    of that sequence.  When no update is on its way, the snapshot the next scrape is
    compared with is the sequential viewer's; when one is, running it shows the
    sequence with the last scrape.  And every key is handled, so the viewer never
    gets stuck. *)
Theorem app_refines_viewer (start : Z) (cfg : TuiConfig) (made : list (Z * scrape)) (a : App) :
  app_run (tc_Target cfg) (app_init start cfg) made a →
  ∃ scrapes,
    a_latest a = v_latest (viewer_run start (tc_Target cfg) scrapes) ∧
    ui_history (a_ui a) = last_n 16 (shown_after start (tc_Target cfg) scrapes) ∧ placed (a_ui a) ∧
    (a_queued a = None → Forall2 same_scrape made scrapes ∧
       mkViewer (a_latest a) (a_previous a) = viewer_run start (tc_Target cfg) scrapes) ∧
    (∀ now u, a_queued a = Some u → ∃ t r, Forall2 same_scrape made (scrapes ++ [(t, r)]) ∧
       mkViewer (a_latest (run_update now u a)) (a_previous (run_update now u a)) =
       viewer_run start (tc_Target cfg) (scrapes ++ [(t, r)])) ∧
    (∀ key rune, is_Some (handleKey key rune (a_latest a) (a_ui a))).
Proof.
  intros Hr. destruct (app_inv_reachable start cfg made a Hr) as [scrapes Hi]. exists scrapes.
  pose proof Hi as [H1 H2 H3 H4 H5]. split_and!; try done.
  - intros Hq. rewrite Hq in H5. destruct H5 as [Hm H5]. split; [done|]. rewrite H4, H5. by destruct (viewer_run _ _ _).
  - intros now u Hq. by apply app_inv_update.
  - intros key rune. destruct (handleKey_ok key rune (a_latest a) (a_ui a) H1) as (b & acts & ui & -> & _). done.
Qed.

(** Whatever the flags, the loops run with a positive interval, so that no ticker
    panics, and a target; without flags the viewer runs as configured by default. *)
Lemma Run_mode_usable cfg :
  (match Run_mode cfg with ModePlain c | ModeScreen c =>
     0 < tc_RefreshInterval c ∧ 0 < tc_Timeout c ∧ tc_Target c ≠ "" end) ∧
  Run_mode default_top_flags = ModeScreen default_top_flags.
Proof.
  split; [|reflexivity]. unfold Run_mode, normalized. simpl.
  destruct (tc_Plain cfg); simpl; split_and!; repeat case_match; unfold Second, Millisecond; try lia; try done;
    by apply String.eqb_neq.
Qed.
End refines.

Module AppWitness.
Import RefSort RefOrder.
Definition app_cfg : TuiConfig := normalized (mkTuiConfig "" 0 0 false).

(** Two scrapes that work, and one in between that fails. *)
Definition made : list (Z * scrape) :=
  [(2, ScrapeOk (mkMetrics 2 ∅ ∅ ∅) 1); (4, ScrapeErr "refused"); (6, ScrapeOk (mkMetrics 6 ∅ ∅ ∅) 1)].

(** A scrape, and its update one tick later. *)
Definition scrape_and_show (a : App) (ns : Z * scrape) : App :=
  let a' := scraped (tc_Target app_cfg) ns.1 ns.2 (a_refresh a) a in
  match a_queued a' with Some u => run_update (ns.1 + 1) u a' | None => a' end.

Lemma scrape_and_show_run a0 l a ns :
  app_run (tc_Target app_cfg) a0 l a → a_queued a = None → a_stopped a = false →
  app_run (tc_Target app_cfg) a0 (l ++ [ns]) (scrape_and_show a ns).
Proof.
  intros Hr Hq Hs. destruct ns as [now r]. unfold scrape_and_show. cbn [fst snd].
  pose proof (ar_step _ _ _ _ _ _ Hr (as_tick (tc_Target app_cfg) now r a Hq)) as H1. cbn [option_list] in H1.
  assert (a_stopped (scraped (tc_Target app_cfg) now r (a_refresh a) a) = false) as Hs' by (by destruct r).
  destruct (a_queued (scraped (tc_Target app_cfg) now r (a_refresh a) a)) as [u|] eqn:E; [|exact H1].
  pose proof (ar_step _ _ _ _ _ _ H1 (as_update (tc_Target app_cfg) (now + 1) u _ Hs' E)) as H2.
  cbn [option_list] in H2. by rewrite app_nil_r in H2.
Qed.

Lemma app_refines_viewer_witness :
  let a := foldl scrape_and_show (app_init 1 app_cfg) made in
  app_run (tc_Target app_cfg) (app_init 1 app_cfg) made a ∧ d_Mode (a_latest a) = statusOK ∧
  ∃ scrapes, Forall2 same_scrape made scrapes ∧ a_latest a = v_latest (viewer_run 1 (tc_Target app_cfg) scrapes).
Proof.
  intros a. assert (app_run (tc_Target app_cfg) (app_init 1 app_cfg) made a) as Hr.
  { unfold a. change made with ((([] ++ [(2, ScrapeOk (mkMetrics 2 ∅ ∅ ∅) 1)]) ++ [(4, ScrapeErr "refused")]) ++
      [(6, ScrapeOk (mkMetrics 6 ∅ ∅ ∅) 1)]) at 1.
    do 3 (apply scrape_and_show_run; [|reflexivity|reflexivity]). apply ar_refl. }
  split; [exact Hr|]. split; [vm_compute; reflexivity|].
  destruct (app_refines_viewer 1 app_cfg made a Hr) as (scrapes & Hl & _ & _ & Hq & _).
  exists scrapes. split; [apply Hq; reflexivity|exact Hl].
Defined.
End AppWitness.
