(* ===== verification/Exposition.v ===== *)
(** * From the server's counters to the viewer's panels

    The composition of [Metrics], the Prometheus library and [TuiMetrics],
    [Dashboard]: what the viewer reads off a scrape is what the server counted, and
    what its panels then show.  Counts stay below [2^53], where adding them as
    floats is exact whatever the order of the samples. *)

From S2P Require Import Prelude GoLib GoText Float64 FloatExact TuiMetrics GoFormat Dashboard Prom Metrics.

(** ** Sums over maps of counts *)

(** The sum of the counts whose key satisfies [P]. *)
Definition sum_if {K} (P : K → bool) (l : list (K * Z)) : Z :=
  foldr (λ kv acc, if P kv.1 then kv.2 + acc else acc) 0 l.

#[export] Instance sum_if_perm {K} (P : K → bool) : Proper (Permutation ==> eq) (sum_if P).
Proof. induction 1; simpl; repeat case_match; lia. Qed.

Lemma sum_if_app {K} (P : K → bool) l l' : sum_if P (l ++ l') = sum_if P l + sum_if P l'.
Proof. induction l; simpl; repeat case_match; lia. Qed.

Lemma sum_if_nonneg {K} (P : K → bool) l : Forall (λ kv, 0 ≤ kv.2) l → 0 ≤ sum_if P l.
Proof. induction 1; simpl in *; repeat case_match; lia. Qed.

Lemma sum_if_le {K} (P : K → bool) l : Forall (λ kv, 0 ≤ kv.2) l → sum_if P l ≤ sum_if (λ _, true) l.
Proof. induction 1; simpl in *; repeat case_match; lia. Qed.

Lemma sum_if_insert `{Countable K} (P : K → bool) (m : gmap K Z) k v :
  sum_if P (map_to_list (<[k := default 0 (m !! k) + v]> m)) =
  sum_if P (map_to_list m) + (if P k then v else 0).
Proof.
  destruct (m !! k) as [n|] eqn:E; simpl.
  - rewrite <- (insert_delete_eq m), map_to_list_insert by apply lookup_delete_eq.
    rewrite <- (insert_delete_id m k n E) at 2. rewrite map_to_list_insert by apply lookup_delete_eq.
    simpl. case_match; lia.
  - rewrite map_to_list_insert by done. simpl. case_match; lia.
Qed.

(** ** Counts of a collector *)

Definition on (d : Desc) (e : effect) : bool := String.eqb (d_name (e_desc e)) (d_name d).
Definition amount (e : effect) : Z := match e_op e with OAdd n => n | _ => 0 end.

(** What the effects add to the children of [d] whose label values satisfy [P], and
    whether they touch one. *)
Definition tally (d : Desc) (P : list string → bool) (es : list effect) : Z :=
  foldr (λ e acc, if on d e && P (e_labels e) then amount e + acc else acc) 0 es.
Definition seen (d : Desc) (P : list string → bool) (es : list effect) : bool :=
  existsb (λ e, on d e && P (e_labels e)) es.

Lemma tally_app d P es es' : tally d P (es ++ es') = tally d P es + tally d P es'.
Proof. induction es as [|e es IH]; simpl; [done|]. case_match; lia. Qed.

Lemma tally_nonneg d P es : Forall (λ e, op_nonneg (e_op e) = true) es → 0 ≤ tally d P es.
Proof.
  induction 1 as [|e es He _ IH]; simpl; [done|]. case_match; [|done]. unfold amount.
  destruct (e_op e); simpl in He; bool_prop; lia.
Qed.

(** The children of a counter as a map of counts. *)
Definition counts (d : Desc) (es : list effect) : gmap (list string) Z :=
  foldl (λ m e, if on d e then <[e_labels e := default 0 (m !! e_labels e) + amount e]> m else m) ∅ es.

Lemma counts_snoc d es e :
  counts d (es ++ [e]) =
  if on d e then <[e_labels e := default 0 (counts d es !! e_labels e) + amount e]> (counts d es) else counts d es.
Proof. unfold counts. by rewrite foldl_snoc. Qed.

Lemma sum_if_counts d P es : sum_if P (map_to_list (counts d es)) = tally d P es.
Proof.
  induction es as [|e es IH] using rev_ind; [done|]. rewrite counts_snoc, tally_app. simpl.
  destruct (on d e); simpl; [|lia]. rewrite sum_if_insert, IH. case_match; lia.
Qed.

Lemma counts_seen d lvs es : is_Some (counts d es !! lvs) ↔ seen d (λ l, bool_decide (l = lvs)) es = true.
Proof.
  induction es as [|e es IH] using rev_ind; [split; [by intros [? ?]|done]|].
  unfold seen in *. rewrite counts_snoc, existsb_app, orb_true_iff, <- IH. simpl. rewrite orb_false_r.
  destruct (on d e); simpl; [|naive_solver]. rewrite lookup_insert_is_Some, bool_decide_eq_true.
  destruct (decide (e_labels e = lvs)); naive_solver.
Qed.

Lemma counts_nonneg d es : Forall (λ e, op_nonneg (e_op e) = true) es → map_Forall (λ _ n, 0 ≤ n) (counts d es).
Proof.
  induction es as [|e es IH] using rev_ind; [intros _; apply map_Forall_empty|].
  intros [He Ho]%Forall_app. apply Forall_cons in Ho as [Ho _]. specialize (IH He). rewrite counts_snoc.
  destruct (on d e); [|done]. apply map_Forall_insert_2; [|done].
  assert (0 ≤ default 0 (counts d es !! e_labels e)) by (destruct (counts d es !! _) eqn:E; simpl; [by apply (IH _ _ E)|lia]).
  assert (0 ≤ amount e) by (unfold amount; destruct (e_op e); simpl in Ho; bool_prop; lia). lia.
Qed.

(** The children of a vector of counters are exactly these counts. *)
Lemma counter_child d lvs es :
  d_kind d = MT_COUNTER → is_Some (d_labels d) → Forall (λ e, on d e = true → ∃ n, e_op e = OAdd n) es →
  child_after d lvs es = PCounter <$> counts d es !! lvs.
Proof.
  intros Hk [ls Hl] Hes. unfold child_after, child_init. rewrite Hl.
  induction es as [|e es IH] using rev_ind; [done|]. apply Forall_app in Hes as [Hes [He _]%Forall_cons].
  rewrite foldl_snoc, counts_snoc, (IH Hes). unfold child_step, touches. fold (on d e).
  destruct (on d e); simpl; [|done]. destruct (He eq_refl) as [n Hn]. unfold amount. rewrite Hn.
  destruct (bool_decide_reflect (e_labels e = lvs)) as [<-|Hne].
  - rewrite lookup_insert_eq. destruct (counts d es !! e_labels e) as [m|]; simpl; [done|].
    unfold zero_value. by rewrite Hk.
  - by rewrite lookup_insert_ne.
Qed.

(** ** Reading a page *)

(** The value of a label, given the label names. *)
Definition value_of (names : list string) (label : string) (lvs : list string) : string :=
  default "" ((list_to_map (zip names lvs) : gmap string string) !! label).

Lemma collectLabels_reverse l : collectLabels l = list_to_map (reverse l).
Proof.
  induction l as [|[k v] l IH] using rev_ind; [done|]. unfold collectLabels in *.
  by rewrite foldl_snoc, IH, reverse_snoc.
Qed.

Lemma collectLabels_perm names lvs l :
  NoDup names → length lvs = length names → l ≡ₚ zip names lvs → collectLabels l = list_to_map (zip names lvs).
Proof.
  intros Hn Hl Hp. rewrite collectLabels_reverse.
  assert (reverse l ≡ₚ zip names lvs) as Hr by by rewrite reverse_Permutation.
  apply list_to_map_proper; [|done]. rewrite Hr, fst_zip by lia. done.
Qed.

(** A sample that shows the count [c.2] of the child [c.1]. *)
Definition shows (names : list string) (c : list string * Z) (s : metricSample) : Prop :=
  (∀ label, label_of (ms_Labels s) label = value_of names label c.1) ∧ ms_Value s = f64_of_Z c.2.

Lemma shows_sum names l samples :
  Forall2 (shows names) l samples → Forall (λ c, 0 ≤ c.2) l → sum_if (λ _, true) l < 2 ^ 53 →
  foldl (λ total sample, f64_add total (ms_Value sample)) f64_zero samples = f64_of_Z (sum_if (λ _, true) l).
Proof.
  intros Hs Hl Hlt. assert (ms_Value <$> samples = f64_of_Z <$> l.*2) as Hv
    by (clear Hl Hlt; induction Hs as [|c s l samples [_ Hc] _ IH]; [done|by rewrite !fmap_cons, IH, Hc]).
  assert (foldr Z.add 0 l.*2 = sum_if (λ _, true) l) as Hsum
    by (clear; induction l as [|x l IH]; [done|]; rewrite fmap_cons; simpl; by rewrite IH).
  transitivity (foldl f64_add (f64_of_Z 0) (ms_Value <$> samples)); [by rewrite foldl_fmap|].
  rewrite Hv, f64_sum_int, Hsum; [done| |done|by rewrite Hsum]. by apply Forall_fmap.
Qed.

Lemma add_to_lookup `{Countable K} (m : gmap K f64) k k' v :
  add_to m k v !! k' = if decide (k = k') then Some (f64_add (get m k) v) else m !! k'.
Proof. unfold add_to. destruct (decide (k = k')) as [<-|]; [apply lookup_insert_eq|by apply lookup_insert_ne]. Qed.

(** Adding up samples by a key of their labels gives the counts of each key. *)
Lemma shows_grouped `{Countable K} names (key : gmap string string → K) (key' : list string → K) l samples k :
  Forall2 (shows names) l samples → Forall (λ c, 0 ≤ c.2) l → sum_if (λ _, true) l < 2 ^ 53 →
  (∀ c s, shows names c s → key (ms_Labels s) = key' c.1) →
  foldl (λ m sample, add_to m (key (ms_Labels sample)) (ms_Value sample)) ∅ samples !! k =
  if existsb (λ c, bool_decide (key' c.1 = k)) l
  then Some (f64_of_Z (sum_if (λ lvs, bool_decide (key' lvs = k)) l)) else None.
Proof.
  intros Hs Hl Hlt Hkey. revert samples Hs Hl Hlt.
  induction l as [|c l IH] using rev_ind; intros samples Hs Hl Hlt.
  { by apply Forall2_nil_inv_l in Hs as ->. }
  apply Forall2_app_inv_l in Hs as (samples' & tl & Hs & Htl & ->).
  apply Forall2_cons_inv_l in Htl as (s & ? & Hcs & ->%Forall2_nil_inv_l & ->).
  apply Forall_app in Hl as [Hl [Hc _]%Forall_cons]. rewrite sum_if_app in Hlt. simpl in Hlt.
  specialize (IH samples' Hs Hl ltac:(lia)). rewrite foldl_snoc, existsb_app, sum_if_app. simpl.
  rewrite orb_false_r, (Hkey c s Hcs), (proj2 Hcs), add_to_lookup. unfold get.
  pose proof (sum_if_nonneg (λ lvs, bool_decide (key' lvs = k)) l Hl) as Hnn.
  pose proof (sum_if_le (λ lvs, bool_decide (key' lvs = k)) l Hl) as Hle.
  destruct (decide (key' c.1 = k)) as [<-|Hne].
  - rewrite bool_decide_eq_true_2, orb_true_r by done. f_equal. rewrite IH.
    destruct (existsb _ l) eqn:Ex; unfold default, id.
    + rewrite f64_add_int by lia. f_equal. lia.
    + assert (sum_if (λ lvs, bool_decide (key' lvs = key' c.1)) l = 0) as ->.
      { clear -Ex. induction l as [|x l IH]; simpl in *; [done|]. apply orb_false_iff in Ex as [-> Ex]. by apply IH. }
      rewrite f64_zero_of_Z, f64_add_int by lia. f_equal. lia.
  - rewrite bool_decide_eq_false_2, orb_false_r, Z.add_0_r by done. exact IH.
Qed.

(** ** What a scrape shows of a vector of counters *)
Section scraped.
Context {P : Type} `{PR : Prom P} `{PL : !PromLaws P}.
Context (cs : list MetricCall) (p : P) (d : Desc) (names : list string) (now : Z).
Hypothesis (Hcs : Forall call_ok cs) (Hp : served cs p) (Hd : d ∈ collectors).
Hypothesis (Hkind : d_kind d = MT_COUNTER) (Hnames : d_labels d = Some names).
Hypothesis (Hsmall : tally d (λ _, true) (all_effects cs) < 2 ^ 53).

Lemma effects_nonneg : Forall (λ e, op_nonneg (e_op e) = true) (all_effects cs).
Proof. eapply Forall_impl; [by apply calls_typed|]. by intros e (_ & _ & _ & ?). Qed.

Lemma effects_on : Forall (λ e, on d e = true → e_desc e = d ∧ ∃ n, e_op e = OAdd n) (all_effects cs).
Proof.
  destruct (served_spec cs p Hcs Hp) as (Hok & _). eapply Forall_impl; [by apply calls_typed|].
  intros e (Hi & _ & Hk & _) Hon. apply String.eqb_eq in Hon.
  assert (e_desc e = d) as E by by apply (same_name (prom_view p)). split; [done|].
  rewrite E in Hk. unfold kind_ok in Hk. rewrite Hkind in Hk. destruct (e_op e); try done. eauto.
Qed.

Lemma scraped_children : children (prom_view p) (d_name d) = PCounter <$> counts d (all_effects cs).
Proof.
  destruct (served_spec cs p Hcs Hp) as (_ & _ & Hch). apply map_eq. intros lvs. rewrite Hch by done.
  rewrite lookup_fmap. apply counter_child; [done|by rewrite Hnames|].
  eapply Forall_impl; [apply effects_on|]. intros e He Hon. by destruct (He Hon).
Qed.

Lemma counts_list_nonneg : Forall (λ c, 0 ≤ c.2) (map_to_list (counts d (all_effects cs))).
Proof.
  apply Forall_forall. intros [lvs n] Hin. apply elem_of_map_to_list in Hin.
  exact (counts_nonneg d (all_effects cs) effects_nonneg _ _ Hin).
Qed.

(** Every child was used with the right number of label values. *)
Lemma counts_length lvs n : counts d (all_effects cs) !! lvs = Some n → length lvs = length names.
Proof.
  intros Hn. assert (seen d (λ l, bool_decide (l = lvs)) (all_effects cs) = true) as Hs by (apply counts_seen; eauto).
  unfold seen in Hs. apply existsb_exists in Hs as (e & He & Hon). apply andb_true_iff in Hon as [Hon Hl].
  apply bool_decide_eq_true in Hl as <-. apply list_elem_of_In in He.
  pose proof effects_on as H1. pose proof (calls_typed cs Hcs) as H2. rewrite Forall_forall in H1, H2.
  destruct (H1 e He Hon) as [E _]. destruct (H2 e He) as (_ & Hlab & _). rewrite E in Hlab.
  unfold labels_ok, label_names in Hlab. rewrite Hnames in Hlab. apply andb_true_iff in Hlab as [Hlab _].
  by apply Nat.eqb_eq in Hlab.
Qed.

Lemma names_NoDup : NoDup names.
Proof.
  pose proof collectors_ok as Hok. rewrite List.forallb_forall in Hok.
  specialize (Hok d ltac:(by apply list_elem_of_In)). unfold desc_ok, label_names in Hok. rewrite Hnames in Hok.
  apply andb_true_iff in Hok as [_ Hok]. by apply bool_decide_eq_true in Hok.
Qed.

Lemma counts_small lvs n : counts d (all_effects cs) !! lvs = Some n → n < 2 ^ 53.
Proof.
  intros Hn. pose proof (sum_if_le (λ l, bool_decide (l = lvs)) _ counts_list_nonneg) as Hle.
  rewrite !sum_if_counts in Hle. rewrite <- sum_if_counts in Hle.
  assert (sum_if (λ l, bool_decide (l = lvs)) (map_to_list (counts d (all_effects cs))) = n) as E; [|lia].
  rewrite <- (insert_delete_id _ _ _ Hn), map_to_list_insert by apply lookup_delete_eq. simpl.
  rewrite bool_decide_eq_true_2 by done.
  enough (∀ l, Forall (λ c : list string * Z, c.1 ≠ lvs) l → sum_if (λ l, bool_decide (l = lvs)) l = 0) as H0.
  { rewrite H0; [lia|]. apply Forall_forall. intros [l m] Hin E. simpl in E. subst l.
    apply elem_of_map_to_list in Hin. by rewrite lookup_delete_eq in Hin. }
  induction 1; simpl; [done|]. by rewrite bool_decide_eq_false_2.
Qed.

(** The collector has a child exactly when it was used. *)
Lemma seen_children :
  seen d (λ _, true) (all_effects cs) = true ↔ children (prom_view p) (d_name d) ≠ ∅.
Proof.
  rewrite scraped_children. split.
  - intros (e & He & Hon)%existsb_exists Hempty. apply fmap_empty_inv in Hempty.
    assert (is_Some (counts d (all_effects cs) !! e_labels e)) as [n Hn].
    { apply counts_seen, existsb_exists. exists e. split; [done|]. rewrite andb_true_r in Hon. rewrite Hon.
      by rewrite bool_decide_eq_true_2. }
    by rewrite Hempty in Hn.
  - intros Hne. apply map_choose in Hne as (lvs & v & Hv). rewrite lookup_fmap in Hv.
    assert (is_Some (counts d (all_effects cs) !! lvs)) as Hc by (destruct (counts _ _ !! lvs); [eauto|done]).
    apply counts_seen, existsb_exists in Hc as (e & He & Hon). apply existsb_exists. exists e. split; [done|].
    apply andb_true_iff in Hon as [-> _]. done.
Qed.

(** The samples of a page: none when the collector was never used, else one for each
    of its children, in some order. *)
Lemma scraped_samples :
  if seen d (λ _, true) (all_effects cs) then
    ∃ l samples, l ≡ₚ map_to_list (counts d (all_effects cs)) ∧ Forall2 (shows names) l samples ∧
      aggregateSamples (parseMetrics now (prom_scrape p)) (d_name d) = Some samples
  else aggregateSamples (parseMetrics now (prom_scrape p)) (d_name d) = None ∧
       Histograms (parseMetrics now (prom_scrape p)) !! d_name d = None.
Proof.
  destruct (served_spec cs p Hcs Hp) as (Hok & Hreg & _). pose proof (ok_descs _ Hok d Hd) as Hdesc.
  pose proof seen_children as Hseen.
  destruct (seen d (λ _, true) (all_effects cs)).
  - destruct (prom_scrape_some p (d_name d) d Hdesc (Hreg d Hd) (proj1 Hseen eq_refl)) as (f & l & Hf & Ht & Hl & Hm).
    rewrite scraped_children, map_to_list_fmap in Hl.
    apply Permutation_map_inv in Hl as (l' & -> & Hl'). symmetry in Hl'.
    exists l', (collectScalarSamples f false). split_and!; [done| |].
    + apply Forall2_fmap_l in Hm. unfold collectScalarSamples. apply Forall2_fmap_r.
      assert (Forall (λ c, counts d (all_effects cs) !! c.1 = Some c.2) l') as Hin.
      { apply Forall_forall. intros [lvs n] Hc. rewrite Hl' in Hc. by apply elem_of_map_to_list in Hc. }
      clear Hl' Hf Ht. induction Hm as [|c m l' ms [Hlab Hval] _ IH]; [constructor|].
      apply Forall_cons in Hin as [Hc Hin]. constructor; [|by apply IH].
      split; simpl in *; [|by rewrite (Hval (counts_small _ _ Hc))].
      intros label. unfold label_of, value_of. unfold label_names in Hlab. rewrite Hnames in Hlab.
      by rewrite (collectLabels_perm names c.1) by eauto using names_NoDup, counts_length.
    + unfold aggregateSamples, parseMetrics. cbn [Counters].
      rewrite lookup_omap, Hf. simpl. by rewrite Ht, Hkind.
  - pose proof (prom_scrape_none p (d_name d) d Hdesc) as Hn. unfold aggregateSamples, parseMetrics. simpl.
    rewrite !lookup_omap, Hn; [done|]. right. destruct (decide (children (prom_view p) (d_name d) = ∅)); [done|].
    by apply Hseen in n.
Qed.

(** What a scrape shows for the children of [d] that satisfy [Q]. *)
Definition shown (es : list effect) (Q : list string → bool) : option f64 :=
  if seen d Q es then Some (f64_of_Z (tally d Q es)) else None.

Lemma existsb_counts Q l :
  l ≡ₚ map_to_list (counts d (all_effects cs)) → existsb (λ c, Q c.1) l = seen d Q (all_effects cs).
Proof.
  intros Hl. apply eq_true_iff_eq. unfold seen. rewrite !existsb_exists. split.
  - intros ([lvs n] & Hin & HQ). apply list_elem_of_In in Hin. rewrite Hl in Hin. apply elem_of_map_to_list in Hin.
    assert (is_Some (counts d (all_effects cs) !! lvs)) as Hc by eauto.
    apply counts_seen, existsb_exists in Hc as (e & He & [Hon Hlv]%andb_true_iff).
    apply bool_decide_eq_true in Hlv as <-. exists e. rewrite Hon. eauto.
  - intros (e & He & [Hon HQ]%andb_true_iff).
    assert (is_Some (counts d (all_effects cs) !! e_labels e)) as [n Hn].
    { apply counts_seen, existsb_exists. exists e. rewrite Hon, bool_decide_eq_true_2; done. }
    exists (e_labels e, n). split; [|done]. apply list_elem_of_In. rewrite Hl. by apply elem_of_map_to_list.
Qed.

Lemma grouped_shown `{Countable K} (key : gmap string string → K) (key' : list string → K) l samples k :
  l ≡ₚ map_to_list (counts d (all_effects cs)) → Forall2 (shows names) l samples →
  (∀ c s, shows names c s → key (ms_Labels s) = key' c.1) →
  foldl (λ m sample, add_to m (key (ms_Labels sample)) (ms_Value sample)) ∅ samples !! k =
  shown (all_effects cs) (λ lvs, bool_decide (key' lvs = k)).
Proof.
  intros Hl Hs Hkey. rewrite (shows_grouped names key key' l samples k Hs); [| | |done].
  - pose proof (existsb_counts (λ lvs, bool_decide (key' lvs = k)) l Hl) as Hex. cbv beta in Hex.
    unfold shown. rewrite Hex, Hl, sum_if_counts. done.
  - rewrite Hl. apply counts_list_nonneg.
  - by rewrite Hl, sum_if_counts.
Qed.

Lemma scraped_sum :
  sum (parseMetrics now (prom_scrape p)) (d_name d) = shown (all_effects cs) (λ _, true) ∧
  hasMetric (parseMetrics now (prom_scrape p)) (d_name d) = seen d (λ _, true) (all_effects cs).
Proof.
  pose proof scraped_samples as Hs. unfold sum, shown, hasMetric. destruct (seen d (λ _, true) (all_effects cs)).
  - destruct Hs as (l & samples & Hl & Hs & ->). split; [|done]. simpl. f_equal.
    rewrite (shows_sum names l samples Hs); [by rewrite Hl, sum_if_counts| |by rewrite Hl, sum_if_counts].
    rewrite Hl. apply counts_list_nonneg.
  - destruct Hs as [-> ->]. done.
Qed.

Lemma scraped_by_label label :
  match sumByLabel (parseMetrics now (prom_scrape p)) (d_name d) label with
  | Some m => ∀ v, m !! v =
      shown (all_effects cs) (λ lvs, bool_decide (or_unknown (value_of names label lvs) = v))
  | None => seen d (λ _, true) (all_effects cs) = false
  end.
Proof.
  pose proof scraped_samples as Hs. unfold sumByLabel. destruct (seen d (λ _, true) (all_effects cs)).
  - destruct Hs as (l & samples & Hl & Hs & ->). simpl. intros v.
    apply (grouped_shown (λ ls, or_unknown (label_of ls label)) (λ lvs, or_unknown (value_of names label lvs)) l);
      [done|done|]. intros c s [Hlab _]. by rewrite Hlab.
  - destruct Hs as [-> _]. done.
Qed.

Lemma scraped_by_pair left right :
  match sumByLabelPair (parseMetrics now (prom_scrape p)) (d_name d) left right with
  | Some m => ∀ k, m !! k = shown (all_effects cs) (λ lvs, bool_decide
      (mkTransition (or_unknown (value_of names left lvs)) (or_unknown (value_of names right lvs)) = k))
  | None => seen d (λ _, true) (all_effects cs) = false
  end.
Proof.
  pose proof scraped_samples as Hs. unfold sumByLabelPair. destruct (seen d (λ _, true) (all_effects cs)).
  - destruct Hs as (l & samples & Hl & Hs & ->). simpl. intros k.
    apply (grouped_shown (λ ls, mkTransition (or_unknown (label_of ls left)) (or_unknown (label_of ls right)))
      (λ lvs, mkTransition (or_unknown (value_of names left lvs)) (or_unknown (value_of names right lvs))) l);
      [done|done|]. intros c s [Hlab _]. by rewrite !Hlab.
  - destruct Hs as [-> _]. done.
Qed.
End scraped.

Section viewer.
Context {P : Type} `{PR : Prom P} `{PL : !PromLaws P}.

(** C16: the viewer reads what the server counted.  After any calls of the metric
    methods, for every vector of counters (up to [2^53] counts): the viewer finds it
    in a scrape exactly when a call used it; its sum over all samples is the total
    the calls added; and its sums by a label, or by a pair of labels, are for every
    value of the labels the total of the calls with that value ("unknown" standing
    for the empty one), whatever order the library lists the samples in. *)
Theorem scrape_shows_counts (cs : list MetricCall) (p : P) (d : Desc) (names : list string) (now : Z) :
  Forall call_ok cs → served cs p → d ∈ collectors → d_kind d = MT_COUNTER → d_labels d = Some names →
  tally d (λ _, true) (all_effects cs) < 2 ^ 53 →
  let page := parseMetrics now (prom_scrape p) in
  let es := all_effects cs in
  hasMetric page (d_name d) = seen d (λ _, true) es ∧
  sum page (d_name d) = shown d es (λ _, true) ∧
  (∀ label, match sumByLabel page (d_name d) label with
            | Some m => ∀ v, m !! v = shown d es (λ lvs, bool_decide (or_unknown (value_of names label lvs) = v))
            | None => seen d (λ _, true) es = false
            end) ∧
  (∀ left right, match sumByLabelPair page (d_name d) left right with
            | Some m => ∀ k, m !! k = shown d es (λ lvs, bool_decide
                (mkTransition (or_unknown (value_of names left lvs)) (or_unknown (value_of names right lvs)) = k))
            | None => seen d (λ _, true) es = false
            end).
Proof.
  intros Hcs Hp Hd Hk Hn Hsmall page es.
  destruct (scraped_sum cs p d names now Hcs Hp Hd Hk Hn Hsmall) as [H1 H2].
  split_and!; [exact H2|exact H1| |].
  - intros label. by apply (scraped_by_label cs p d names now).
  - intros left right. by apply (scraped_by_pair cs p d names now).
Qed.

(** The growth of a count between two scrapes. *)
Lemma deltaFloat_int a b : 0 ≤ b ≤ a → a < 2 ^ 53 → deltaFloat (f64_of_Z a) (f64_of_Z b) = f64_of_Z (a - b).
Proof.
  intros Hb Ha. unfold deltaFloat. rewrite f64_ltb_int by lia. destruct (Z.ltb_spec a b); [lia|].
  by apply f64_sub_int.
Qed.

(** The requests counted under a stage. *)
Definition requests (stage : string) (cs : list MetricCall) : Z :=
  Z.of_nat (length (List.filter
    (λ c, match c with CInCounterAdd s _ => String.eqb s stage | _ => false end) cs)).

Lemma requests_tally cs :
  Forall (λ c, match c with CInCounterAdd s _ => s = "request" ∨ s = "forward_request" | _ => True end) cs →
  tally InCounter (λ _, true) (all_effects cs) = requests "request" cs + requests "forward_request" cs.
Proof.
  unfold all_effects, requests. induction 1 as [|c cs Hc _ IH]; [done|].
  change (mjoin (effects <$> c :: cs)) with (effects c ++ mjoin (effects <$> cs)). rewrite tally_app, IH.
  destruct c; try done. destruct Hc as [-> | ->]; cbn [List.filter length]; simpl String.eqb; cbv iota;
    cbn [length]; rewrite Nat2Z.inj_succ; change (tally _ _ (effects _)) with 1; lia.
Qed.

Lemma all_effects_app cs cs' : all_effects (cs ++ cs') = all_effects cs ++ all_effects cs'.
Proof. unfold all_effects. rewrite fmap_app. apply join_app. Qed.

Context `{GS : GoSort} `{GO : GoMapOrder}.

(** A collector the calls used. *)
Definition used (d : Desc) (cs : list MetricCall) : bool := seen d (λ _, true) (all_effects cs).

Lemma used_app d cs cs' : used d (cs ++ cs') = used d cs || used d cs'.
Proof. unfold used, seen. by rewrite all_effects_app, existsb_app. Qed.

Lemma child_seen d lvs es :
  seen d (λ l, bool_decide (l = lvs)) es = true → is_Some (child_after d lvs es).
Proof.
  unfold seen, child_after. induction es as [|e es IH] using rev_ind; [done|].
  rewrite existsb_app, foldl_snoc, orb_true_iff. simpl. rewrite orb_false_r. unfold child_step at 1, touches.
  fold (on d e). destruct (on d e && bool_decide (e_labels e = lvs)); [by eexists|]. intros [Hs|]; [by apply IH|done].
Qed.

(** A collector that was used is in the scrape, whichever kind it is of. *)
Lemma used_has cs p d now :
  Forall call_ok cs → served cs p → d ∈ collectors → d_kind d = MT_COUNTER ∨ d_kind d = MT_HISTOGRAM →
  used d cs = true → hasMetric (parseMetrics now (prom_scrape p)) (d_name d) = true.
Proof.
  intros Hcs Hp Hd Hk (e & He & Hon)%existsb_exists. destruct (served_spec cs p Hcs Hp) as (Hok & Hreg & Hch).
  assert (children (prom_view p) (d_name d) ≠ ∅) as Hne.
  { intros Hempty. destruct (child_seen d (e_labels e) (all_effects cs)) as [v Hv].
    { apply existsb_exists. exists e. split; [done|]. rewrite andb_true_r in Hon. by rewrite Hon, bool_decide_eq_true_2. }
    by rewrite <-Hch, Hempty in Hv. }
  destruct (prom_scrape_some p (d_name d) d (ok_descs _ Hok d Hd) (Hreg d Hd) Hne) as (f & l & Hf & Ht & _).
  unfold hasMetric, aggregateSamples, parseMetrics. simpl. rewrite !lookup_omap, Hf. simpl. rewrite Ht.
  by destruct Hk as [-> | ->].
Qed.

(** C40: the queries per second of the viewer count the queries rec53 sends as well
    as those it receives.  Take two scrapes of a server, some time apart, that had
    counted a request before the first and a response and a latency before the
    second, and between them every request under one of the two stages the server
    uses ([ServeDNS]: "request", an upstream query: "forward_request").  Then the
    Traffic panel has data (it is neither UNAVAILABLE nor WARMING), and its queries
    per second are the sum of both stages over the time between the scrapes. *)
Theorem viewer_qps_counts_upstream (cs1 cs2 : list MetricCall) (p1 p2 : P) (t1 t2 : Z) :
  Forall call_ok (cs1 ++ cs2) → served cs1 p1 → served (cs1 ++ cs2) p2 →
  Forall (λ c, match c with CInCounterAdd s _ => s = "request" ∨ s = "forward_request" | _ => True end) cs2 →
  tally InCounter (λ _, true) (all_effects (cs1 ++ cs2)) < 2 ^ 53 →
  used InCounter cs1 = true → used OutCounter (cs1 ++ cs2) = true →
  used LatencyHistogramObserver (cs1 ++ cs2) = true →
  let prev := parseMetrics t1 (prom_scrape p1) in
  let curr := parseMetrics t2 (prom_scrape p2) in
  let dt := window (Some prev) curr in
  f64_eqb dt f64_zero = false →
  let panel := buildTrafficPanel (Some prev) curr dt in
  (tp_Status panel = statusOK ∨ tp_Status panel = statusDegraded) ∧
  tp_QPS panel = f64_div (f64_of_Z (requests "request" cs2 + requests "forward_request" cs2)) dt.
Proof.
  intros Hcs Hp1 Hp2 Hst Hsmall Hin Hout Hlat prev curr dt Hdt panel.
  pose proof Hcs as [Hcs1 Hcs2]%Forall_app.
  pose proof (tally_nonneg InCounter (λ _, true) _ (effects_nonneg cs1 Hcs1)) as N1.
  pose proof (tally_nonneg InCounter (λ _, true) _ (effects_nonneg cs2 Hcs2)) as N2.
  assert (used InCounter (cs1 ++ cs2) = true) as Hin2 by by rewrite used_app, Hin.
  rewrite all_effects_app, tally_app in Hsmall.
  destruct (scraped_sum cs1 p1 InCounter ["stage"; "type"] t1) as [S1 _];
    [done|done|in_collectors|done|done|lia|].
  destruct (scraped_sum (cs1 ++ cs2) p2 InCounter ["stage"; "type"] t2) as [S2 H2'];
    [done|done|in_collectors|done|done|by rewrite all_effects_app, tally_app|].
  pose proof (used_has _ p2 OutCounter t2 Hcs Hp2 ltac:(in_collectors) ltac:(by left) Hout) as H3'.
  pose proof (used_has _ p2 LatencyHistogramObserver t2 Hcs Hp2 ltac:(in_collectors) ltac:(by right) Hlat) as H4'.
  unfold used in Hin, Hin2. unfold shown in S1, S2. rewrite Hin in S1.
  rewrite Hin2 in S2, H2'. rewrite all_effects_app, tally_app, (requests_tally cs2 Hst) in S2.
  rewrite (requests_tally cs2 Hst) in Hsmall, N2. fold prev in S1. fold curr in S2, H2', H3', H4'.
  change (d_name InCounter) with "rec53_query_counter" in S1, S2, H2'.
  change (d_name OutCounter) with "rec53_response_counter" in H3'.
  change (d_name LatencyHistogramObserver) with "rec53_latency" in H4'.
  unfold panel, buildTrafficPanel. rewrite H2', H3', H4'. cbn [negb orb no_window]. rewrite Hdt.
  unfold prev_sum. cbn [mbind option_bind]. rewrite S1, S2, deltaFloat_int, Z.add_simpl_l by lia.
  destruct (match sumByLabel _ _ _ with Some _ => _ | None => _ end) as [[[codes sf] nx] ne].
  split; [cbn [tp_Status]; destruct (_ || _); auto|done].
Qed.

Ltac rewrite_has Hhas d name :=
  rewrite (Hhas d _ ltac:(in_collectors) eq_refl eq_refl : hasMetric _ name = _).

(** When a panel has data.  However the two scrapes and the window between them
    are, the Upstream panel is UNAVAILABLE exactly as long as the server has not
    counted at least one failure, one fallback and one winner of an upstream query (a
    server whose upstream queries all succeed has no Upstream panel); the Snapshot
    panel exactly as long as no snapshot operation, or no entry of one, was counted;
    the State Machine panel exactly as long as no stage, or no transition, was. *)
Theorem panels_follow_calls (cs : list MetricCall) (p : P) (now : Z) (prev : option MetricsSnapshot) (dt : f64) :
  Forall call_ok cs → served cs p → (∀ d, d ∈ collectors → tally d (λ _, true) (all_effects cs) < 2 ^ 53) →
  let curr := parseMetrics now (prom_scrape p) in
  (up_Status (buildUpstreamPanel prev curr dt) = statusUnavailable ↔
     used UpstreamFailuresTotal cs && used UpstreamFallbackTotal cs && used UpstreamWinnerTotal cs = false) ∧
  (sp_Status (buildSnapshotPanel prev curr dt) = statusUnavailable ↔
     used SnapshotOperationsTotal cs && used SnapshotEntriesTotal cs = false) ∧
  (st_Status (buildStateMachinePanel prev curr dt) = statusUnavailable ↔
     used StateMachineStageTotal cs && used StateMachineTransitionTotal cs = false).
Proof.
  intros Hcs Hp Hsmall curr.
  assert (∀ d names, d ∈ collectors → d_kind d = MT_COUNTER → d_labels d = Some names →
    hasMetric curr (d_name d) = used d cs) as Hhas.
  { intros d names Hd Hk Hn. by apply (scraped_sum cs p d names now Hcs Hp Hd Hk Hn (Hsmall d Hd)). }
  split_and!.
  - unfold buildUpstreamPanel.
    rewrite_has Hhas UpstreamFailuresTotal "rec53_upstream_failures_total".
    rewrite_has Hhas UpstreamFallbackTotal "rec53_upstream_fallback_total".
    rewrite_has Hhas UpstreamWinnerTotal "rec53_upstream_winner_total".
    destruct (used UpstreamFailuresTotal cs), (used UpstreamFallbackTotal cs), (used UpstreamWinnerTotal cs);
      simpl; try done.
    case_match; [done|]. destruct (match sumByLabel _ _ _ with Some _ => _ | None => _ end) as [[r t] b].
    simpl. by destruct (_ || _).
  - unfold buildSnapshotPanel.
    rewrite_has Hhas SnapshotOperationsTotal "rec53_snapshot_operations_total".
    rewrite_has Hhas SnapshotEntriesTotal "rec53_snapshot_entries_total".
    destruct (used SnapshotOperationsTotal cs), (used SnapshotEntriesTotal cs); simpl; try done.
    destruct (match sumByLabel _ _ _ with Some _ => _ | None => _ end) as [[[i e] c] s]. simpl.
    by repeat case_match.
  - unfold buildStateMachinePanel.
    rewrite_has Hhas StateMachineStageTotal "rec53_state_machine_stage_total".
    rewrite_has Hhas StateMachineTransitionTotal "rec53_state_machine_transition_total".
    destruct (used StateMachineStageTotal cs), (used StateMachineTransitionTotal cs); simpl; try done.
    by repeat case_match.
Qed.
End viewer.

Module ExpositionWitness.
Import RefProm RefSort RefOrder.

Definition before : list MetricCall := [CInCounterAdd "request" "A"; CUpstreamWinnerAdd "single"].
Definition after : list MetricCall :=
  [CInCounterAdd "forward_request" "A"; CInCounterAdd "request" "AAAA"; CUpstreamWinnerAdd "single"].

Lemma before_ok : Forall call_ok before.
Proof. unfold before, call_ok. repeat constructor. Qed.
Lemma both_ok : Forall call_ok (before ++ after).
Proof. unfold before, after, call_ok. repeat constructor. Qed.

Lemma scrape_shows_counts_witness :
  ∃ p : PromState, served (before ++ after) p ∧
    sum (parseMetrics 0 (prom_scrape p)) "rec53_query_counter" = Some (f64_of_Z 3).
Proof.
  destruct (served_exists (before ++ after) both_ok) as [p Hp]. exists p. split; [exact Hp|].
  destruct (scrape_shows_counts (before ++ after) p InCounter ["stage"; "type"] 0 both_ok Hp)
    as (_ & Hs & _); [in_collectors|reflexivity|reflexivity|reflexivity|].
  exact Hs.
Defined.

(** One query received and answered in five milliseconds before the first scrape;
    two seconds later one more was received and one sent upstream: one per second. *)
Definition answered : list MetricCall :=
  [CInCounterAdd "request" "A"; COutCounterAdd "response" "A" "NOERROR";
   CLatencyHistogramObserve "latency" "A" "NOERROR" (f64_of_Z 5)].
Definition one_miss : list MetricCall := [CInCounterAdd "request" "A"; CInCounterAdd "forward_request" "A"].

Lemma answered_ok : Forall call_ok answered.
Proof. unfold answered, call_ok. repeat constructor. Qed.
Lemma miss_ok : Forall call_ok (answered ++ one_miss).
Proof. unfold answered, one_miss, call_ok. repeat constructor. Qed.

Lemma viewer_qps_counts_upstream_witness :
  ∃ p1 p2 : PromState, served answered p1 ∧ served (answered ++ one_miss) p2 ∧
    let prev := parseMetrics 0 (prom_scrape p1) in
    let curr := parseMetrics (2 * Second) (prom_scrape p2) in
    let panel := buildTrafficPanel (Some prev) curr (window (Some prev) curr) in
    (tp_Status panel = statusOK ∨ tp_Status panel = statusDegraded) ∧ tp_QPS panel = f64_of_Z 1.
Proof.
  destruct (served_exists answered answered_ok) as [p1 H1].
  destruct (served_exists (answered ++ one_miss) miss_ok) as [p2 H2].
  exists p1, p2. split; [exact H1|]. split; [exact H2|].
  destruct (viewer_qps_counts_upstream answered one_miss p1 p2 0 (2 * Second) miss_ok H1 H2) as [Hs Hq];
    [repeat constructor; (by left) || (by right)|reflexivity|reflexivity|reflexivity|reflexivity|vm_compute; reflexivity|].
  split; [exact Hs|]. rewrite Hq. vm_compute. reflexivity.
Defined.

Lemma panels_follow_calls_witness :
  ∃ p : PromState, served before p ∧
    up_Status (buildUpstreamPanel None (parseMetrics 0 (prom_scrape p)) f64_zero) = statusUnavailable.
Proof.
  destruct (served_exists before before_ok) as [p Hp]. exists p. split; [exact Hp|].
  destruct (panels_follow_calls before p 0 None f64_zero before_ok Hp) as [Hu _]; [|by apply Hu].
  intros d Hd. apply Z.le_lt_trans with 2; [|reflexivity].
  assert (Forall (λ d, (tally d (λ _, true) (all_effects before) <=? 2) = true) collectors) as Hall.
  { unfold collectors. repeat (constructor; [vm_compute; reflexivity|]). constructor. }
  rewrite Forall_forall in Hall. apply Z.leb_le. exact (Hall d Hd).
Defined.
End ExpositionWitness.
