(* ===== verification/Observed.v ===== *)
(** * From a resolution to the screen

    The composition of the resolver with the viewer: the transitions a resolution
    reports ([Frame]) are counted ([Metrics]), scraped and read ([Exposition]), and
    drawn as the dominant path ([Dashboard]). *)

From S2P Require Import Prelude GoLib GoText Float64 FloatExact NetIP Dns Zone External Cache RateLog Gate.
From S2P Require Import HostsForward IPQuality IPPool HotZone Limiter World States Upstream StateMachine Frame Logic Paths.
From S2P Require Import TuiMetrics GoFormat Dashboard Prom Metrics Exposition.

Section observed.
Context `{DL : DnsLib} `{GC : GoCache Msg} `{EM : EbpfMap BPFKey BPFValue} `{GSL : GoSortLaws} `{E : !Env}.
Context `{GOL : GoMapOrderLaws}.
Context {P : Type} `{PR : Prom P} `{PL : !PromLaws P}.

(** Some resolution reports this transition. *)
Definition reported (f t : string) : Prop :=
  ∃ port w l, w_log (Change port w).2 = w_log w ++ l ∧ ATransition f t ∈ l.

Lemma reported_legal f t : reported f t → legal (ATransition f t).
Proof.
  intros (port & w & l & Hl & Hin). destruct (Change_respects reports_legally port w) as (l' & Hl' & Hleg).
  rewrite Hl in Hl'. apply app_inv_head in Hl' as ->. rewrite Forall_forall in Hleg. by apply Hleg.
Qed.

Lemma tally_unseen d Q es : seen d Q es = false → tally d Q es = 0.
Proof.
  unfold seen. induction es as [|e es IH]; simpl; [done|]. intros [-> Hs]%orb_false_iff. by apply IH.
Qed.

Lemma tally_le d Q es :
  Forall (λ e, op_nonneg (e_op e) = true) es → tally d Q es ≤ tally d (λ _, true) es.
Proof.
  induction 1 as [|e es He _ IH]; simpl; [done|]. rewrite andb_true_r.
  assert (0 ≤ amount e) by (unfold amount; destruct (e_op e); simpl in He; bool_prop; lia).
  destruct (on d e); simpl; [|done]. case_match; lia.
Qed.

Lemma transition_calls cs e :
  e ∈ all_effects cs → on StateMachineTransitionTotal e = true →
  ∃ f t, CStateMachineTransitionAdd f t ∈ cs ∧ e_labels e = [f; t].
Proof.
  unfold all_effects. intros (l & He & (c & -> & Hc)%list_elem_of_fmap)%list_elem_of_join Hon.
  destruct c; cbn [effects] in He;
    repeat (apply elem_of_cons in He as [->|He]; [try discriminate Hon|]); try (by apply elem_of_nil in He).
  eauto.
Qed.

(** The growth of a pair of labels between two scrapes, as the viewer computes it. *)
Lemma transition_growth cs1 cs2 p1 p2 t1 t2 prevm currm k v :
  Forall call_ok (cs1 ++ cs2) → served cs1 p1 → served (cs1 ++ cs2) p2 →
  tally StateMachineTransitionTotal (λ _, true) (all_effects (cs1 ++ cs2)) < 2 ^ 53 →
  prevm = default ∅ (transitions (parseMetrics t1 (prom_scrape p1))) →
  transitions (parseMetrics t2 (prom_scrape p2)) = Some currm →
  deltaMap currm prevm !! k = Some v →
  v = f64_of_Z (tally StateMachineTransitionTotal (λ lvs, bool_decide
        (mkTransition (or_unknown (value_of ["from"; "to"] "from" lvs))
           (or_unknown (value_of ["from"; "to"] "to" lvs)) = k)) (all_effects cs2)).
Proof.
  intros Hcs Hp1 Hp2 Hsmall -> Hcur Hv. pose proof Hcs as [Hcs1 Hcs2]%Forall_app.
  set (Q := λ lvs, bool_decide _). set (d := StateMachineTransitionTotal) in *.
  pose proof (tally_nonneg d Q _ (effects_nonneg cs1 Hcs1)) as N1.
  pose proof (tally_nonneg d Q _ (effects_nonneg cs2 Hcs2)) as N2.
  pose proof (tally_nonneg d (λ _, true) _ (effects_nonneg cs2 Hcs2)) as N3.
  rewrite all_effects_app, tally_app in Hsmall.
  pose proof (scraped_by_pair cs1 p1 d ["from"; "to"] t1 Hcs1 Hp1 ltac:(in_collectors) eq_refl eq_refl
    ltac:(lia) "from" "to") as S1.
  pose proof (scraped_by_pair (cs1 ++ cs2) p2 d ["from"; "to"] t2 Hcs Hp2 ltac:(in_collectors) eq_refl eq_refl
    ltac:(by rewrite all_effects_app, tally_app) "from" "to") as S2.
  change (d_name d) with "rec53_state_machine_transition_total" in S1, S2.
  pose proof (tally_le d Q _ (effects_nonneg _ Hcs)) as Hle. rewrite all_effects_app, !tally_app in Hle.
  unfold transitions in *. rewrite Hcur in S2. specialize (S2 k). fold Q in S2.
  unfold deltaMap in Hv. rewrite map_lookup_imap in Hv. rewrite S2 in Hv.
  assert (get (default ∅ (sumByLabelPair (parseMetrics t1 (prom_scrape p1)) "rec53_state_machine_transition_total"
    "from" "to")) k = f64_of_Z (tally d Q (all_effects cs1))) as Hprev.
  { unfold get. destruct (sumByLabelPair (parseMetrics t1 (prom_scrape p1)) "rec53_state_machine_transition_total"
      "from" "to") as [m|]; simpl.
    - rewrite S1. fold Q. unfold shown. destruct (seen d Q (all_effects cs1)) eqn:Es; [done|].
      by rewrite tally_unseen.
    - rewrite lookup_empty. assert (tally d Q (all_effects cs1) = 0) as ->; [|done].
      pose proof (tally_unseen d (λ _, true) _ S1) as Hz.
      pose proof (tally_le d Q _ (effects_nonneg _ Hcs1)). lia. }
  rewrite Hprev in Hv. unfold shown in Hv. destruct (seen d Q (all_effects (cs1 ++ cs2))); [|done].
  simpl in Hv. injection Hv as <-. rewrite all_effects_app, tally_app.
  rewrite deltaFloat_int by lia. f_equal. lia.
Qed.

Lemma or_unknown_known s name : name ≠ or_unknown "" → or_unknown s = name → s = name.
Proof. intros Hn <-. destruct s; [done|reflexivity]. Qed.

(** C12: the dominant path of the screen is a path of the state machine.  When
    every transition a server counted between two scrapes was reported by a
    resolution, every edge of the path the State Machine panel shows was counted in
    that time, and is a transition the machine takes: an edge between two states
    (the cases of [Change]), an exit of its state, or the error or iteration-limit
    exit; so the screen never shows a step from [QUERY_UPSTREAM] straight to
    [RETURN_RESP], the arrow drawn in docs/architecture.md. *)
Theorem viewer_path_in_machine (cs1 cs2 : list MetricCall) (p1 p2 : P) (t1 t2 : Z) (dt : f64) :
  Forall call_ok (cs1 ++ cs2) → served cs1 p1 → served (cs1 ++ cs2) p2 →
  tally StateMachineTransitionTotal (λ _, true) (all_effects (cs1 ++ cs2)) < 2 ^ 53 →
  (∀ f t, CStateMachineTransitionAdd f t ∈ cs2 → reported f t) →
  let prev := parseMetrics t1 (prom_scrape p1) in
  let curr := parseMetrics t2 (prom_scrape p2) in
  ∀ e, e ∈ MainEdges (st_DominantPath (buildStateMachinePanel (Some prev) curr dt)) →
  (∃ f t, CStateMachineTransitionAdd f t ∈ cs2 ∧ legal (ATransition f t) ∧
     te_From e = or_unknown f ∧ te_To e = or_unknown t) ∧
  ¬ (te_From e = stateMetricName QUERY_UPSTREAM ∧ te_To e = stateMetricName RETURN_RESP).
Proof.
  intros Hcs Hp1 Hp2 Hsmall Hrep prev curr e He.
  assert (∃ currm, transitions curr = Some currm ∧
    e ∈ MainEdges (buildStateMachinePath (deltaMap currm (default ∅ (transitions prev))) dt)) as (currm & Hcur & Hin).
  { unfold buildStateMachinePanel in He. destruct (negb _ || negb _); [by apply elem_of_nil in He|].
    change (Some prev ≫= transitions) with (transitions prev) in He.
    destruct (transitions curr) as [currm|]; cbv zeta beta iota in He;
      (destruct (no_window _ _); [by apply elem_of_nil in He|]); [|by apply elem_of_nil in He].
    exists currm. split; [done|exact He]. }
  pose proof (λ k v, transition_growth cs1 cs2 p1 p2 t1 t2 _ currm k v Hcs Hp1 Hp2 Hsmall eq_refl Hcur) as Hgrow.
  fold prev in Hgrow. set (delta := deltaMap currm _) in *.
  destruct (path_walk delta dt) as [end_ Hpath]; [intros k v ->%Hgrow; apply f64_of_Z_not_nan|].
  assert (strongest_edge delta dt e) as [(v & Hv & Hpos & _) _].
  { unfold buildStateMachinePath in Hin. destruct (path_loop _ _ _ _ _ _) as [main [[point options]|]];
      destruct Hpath as (_ & _ & _ & Hs & _); rewrite Forall_forall in Hs; by apply Hs. }
  pose proof (Hgrow _ _ Hv) as Ev. rewrite Ev in Hpos.
  destruct (seen StateMachineTransitionTotal (λ lvs, bool_decide
    (mkTransition (or_unknown (value_of ["from"; "to"] "from" lvs)) (or_unknown (value_of ["from"; "to"] "to" lvs)) =
     mkTransition (te_From e) (te_To e))) (all_effects cs2)) eqn:Es; [|by rewrite tally_unseen in Hpos].
  apply existsb_exists in Es as (x & Hx%list_elem_of_In & [Hon HQ]%andb_true_iff).
  destruct (transition_calls cs2 x Hx Hon) as (f & t & Hft & Hl).
  rewrite Hl in HQ. apply bool_decide_eq_true in HQ. injection HQ as Hf Ht.
  pose proof (reported_legal _ _ (Hrep _ _ Hft)) as Hleg. split; [by exists f, t|].
  intros [Ef Et]. apply no_direct_return. rewrite <-Hf in Ef. rewrite <-Ht in Et.
  by rewrite <-(or_unknown_known f (stateMetricName QUERY_UPSTREAM)), <-(or_unknown_known t (stateMetricName RETURN_RESP)).
Qed.
End observed.

Module ObservedWitness.
Import RefWorld RefProm RefOrder.

Definition early : list MetricCall :=
  [CStateMachineStageAdd "state_init"; CStateMachineTransitionAdd "state_init" "hosts_lookup"].
Definition late : list MetricCall := [CStateMachineTransitionAdd "state_init" "hosts_lookup"].

Lemma early_ok : Forall call_ok early.
Proof. unfold early, call_ok. repeat constructor. Qed.
Lemma early_late_ok : Forall call_ok (early ++ late).
Proof. unfold early, late, call_ok. repeat constructor. Qed.

Lemma first_transition : reported "state_init" "hosts_lookup".
Proof.
  exists "53", (serving fresh query), (w_log (Change "53" (serving fresh query)).2). split; [reflexivity|].
  apply list_elem_of_In. vm_compute. tauto.
Qed.

(** The library after these calls. *)
Definition after_calls (cs : list MetricCall) : PromState :=
  (calls cs (Register (P := PromState) (prom_new collectors)).2).2.

Lemma after_calls_served cs :
  (calls cs (Register (P := PromState) (prom_new collectors)).2).1 = Ok tt → served cs (after_calls cs).
Proof.
  intros Hc. exists (Register (P := PromState) (prom_new collectors)).2. split.
  - vm_compute. reflexivity.
  - unfold after_calls. by destruct (calls _ _) as [r p']; simpl in *; subst r.
Qed.

(** One transition before the first scrape and one after it: the path on the screen
    has that edge. *)
Lemma viewer_path_in_machine_witness :
  let p1 := after_calls early in
  let p2 := after_calls (early ++ late) in
  let path := MainEdges (st_DominantPath (buildStateMachinePanel (Some (parseMetrics 0 (prom_scrape p1)))
                           (parseMetrics Second (prom_scrape p2)) (f64_of_Z 1))) in
  served early p1 ∧ served (early ++ late) p2 ∧ length path = 1%nat ∧
  ∀ e, e ∈ path → ∃ f t, legal (ATransition f t) ∧ te_From e = or_unknown f ∧ te_To e = or_unknown t.
Proof.
  intros p1 p2 path.
  assert (served early p1) as H1 by (apply after_calls_served; vm_compute; reflexivity).
  assert (served (early ++ late) p2) as H2 by (apply after_calls_served; vm_compute; reflexivity).
  split; [exact H1|]. split; [exact H2|]. split; [vm_compute; reflexivity|]. intros e He.
  destruct (viewer_path_in_machine early late p1 p2 0 Second (f64_of_Z 1) early_late_ok H1 H2 ltac:(reflexivity)
    ltac:(intros f t [= -> ->]%list_elem_of_singleton; apply first_transition) e He) as [(f & t & _ & Hl & Hf & Ht) _].
  exists f, t. split; [exact Hl|]. split; [exact Hf|exact Ht].
Defined.
End ObservedWitness.
